(* ===== verification/_CoqProject ===== *)
-Q . S2P
Prelude.v
Program.v
GoText.v
GoEncoding.v
GoTime.v
GoRegexp.v
GoJson.v
Errors.v
Tenant.v
User.v
Session.v
Outbox.v
Ports.v
PortSpec.v
PortRules.v
SignUp.v
SignIn.v
SignOut.v
GetMe.v
Invariant.v
GoNet.v
Http.v
Context.v
Middleware.v
Referer.v
Handlers.v
JsonSchema.v
Router.v
Effects.v
Service.v
Responses.v
Schemas.v
Secrecy.v
Served.v
Reference.v
Argon2id.v
Valkey.v
Testkit.v
Config.v
Postgres.v
Adapters.v
Interleave.v
Omni.v
Interference.v
Truthful.v
Traffic.v
Deployed.v
Closed.v
Progress.v
Migrate.v
Main.v
Witnesses.v
Race.v
Runs.v
DeployedRuns.v
