(* ===== verification/Prelude.v ===== *)
(** * Verification of the 1klas identity service

    The program is an HTTP service in Go that registers users, opens and closes
    sessions and answers who a session belongs to.  Its layers, from the inside:
    the domain (internal/domain), the use cases (internal/usecase), the adapters
    of the domain's interfaces (internal/infrastructure: PostgreSQL, Valkey,
    argon2id, random tokens), the HTTP transport (internal/transport/http) and
    the commands that wire them (cmd).  The development follows the layers.

    ** How the code is modelled

    A pure Go function is a Rocq function; a Go pair [(T, error)] is a [res T]
    (Errors.v), a panic is the outcome [Panicked] (Prelude.v).  A function that
    calls interfaces is a program [G E L A] of Program.v: a tree of the calls
    [E] it makes, with mutable locals [L], deferred calls and recovery.  Three
    semantics of programs are related there: [wp] and [runs] (every answer the
    contract of the interface allows), [exec] (an executable implementation)
    and [interp] (an implementation in terms of another interface, with the
    simulation theorem [interp_refines]).  Strings are byte strings; integers
    are [Z] with the wrap-around of their width written out.

    ** The files

    - Prelude.v: results, outcomes, machine integers, bytes of strings.
    - Program.v: programs over interface calls, their semantics and rules.
    - GoText.v, GoEncoding.v, GoTime.v, GoRegexp.v, GoJson.v, GoNet.v: what the
      code uses of Go's standard library, executable: UTF-8, ToLower, TrimSpace,
      Split, Atoi, Sscanf; hex, base64, SHA-256; Time, Duration, RFC 3339; the
      regular expressions; encoding/json; url.Parse and SplitHostPort.
    - Errors.v: the sentinel errors of every package and errors.Is.
    - Tenant.v, User.v, Session.v, Outbox.v: the packages of internal/domain.
    - Ports.v: the interfaces of the domain as events; PortSpec.v: an abstract
      system state (tables, open transactions, cache, clock, log) and what each
      interface promises on it, failures at any call included; PortRules.v: the
      rules that carry a proof through a program over these interfaces.
    - SignUp.v, SignIn.v, SignOut.v, GetMe.v: the use cases.  Each has its code
      ([Execute]), an abstract specification as an inductive relation and the
      refinement lemma between the two.
    - Invariant.v: the well-formedness of tables and cache, and its preservation
      by the writes.
    - Http.v (fasthttp contexts, cookies, error mapping), Context.v (values of a
      context.Context), Middleware.v, Handlers.v, Router.v: internal/transport;
      Referer.v: which Referers the origin check admits.
    - Effects.v: what a handler may do to the system, composed through the
      middleware by type classes.
    - Service.v: the wiring of cmd/server/main.go and the theorems about the
      whole server and the sequences of requests it handles.
    - JsonSchema.v: the schemas of internal/transport/apispec/openapi.json, as
      predicates on JSON values; Responses.v: its operations and the responses
      of the server, by a type class over handlers; Schemas.v: requests whose
      bodies follow the document.
    - Secrecy.v: pairs of requests that differ in the password, as two programs
      that make the same calls; Served.v: valid requests when the collaborators
      work; Progress.v: how many calls a request makes, of the interfaces and of
      the backend.
    - Argon2id.v: internal/infrastructure/argon2id and tokens.
    - Valkey.v: internal/infrastructure/valkey over the client's calls.
    - Postgres.v: internal/infrastructure/postgres over the driver's calls: SQL
      tables, transactions, unique and foreign keys.
    - Adapters.v: every interface call answered by its adapter, so that the
      theorems about the server hold of SQL tables and cache keys.
    - Interleave.v: requests in flight as a step relation, one call at a time;
      Race.v: schedules of two requests, computed.
    - Omni.v: semantics of programs whose calls have obligations;
      Interference.v: the calls of a request while others run, with what it may
      rely on and what it owes; Truthful.v: the use cases under interference;
      Traffic.v: the middleware and the running service, requests arriving,
      running call by call and dying in between.
    - Deployed.v: the running service on the adapters, one call of the driver,
      the client or the host at a time, simulated by that of Traffic.v; Closed.v:
      which transactions are open in it.
    - Testkit.v: the in-memory fakes of internal/usecase/internal_testkit.
    - Config.v: internal/config over the environment.
    - Migrate.v: cmd/migrate and the migration helper of the server.
    - Main.v: cmd/server/main.go from its first call to its exit code, main and
      the goroutine of the listener interleaved, with signals.
    - Reference.v: an executable implementation of the interfaces, proved to
      meet PortSpec.v, so that the contracts can be met and programs can be run.
    - Witnesses.v: the theorems with hypotheses applied to concrete data;
      Runs.v: those about running requests, on computed runs; DeployedRuns.v:
      those about running requests on the adapters.

    ** What the theorems show

    The use cases are atomic, answer only their documented errors and leave no
    transaction open, whichever call fails, panics or loses its acknowledgement
    ([SignUp.Execute_atomic], [SignIn.Execute_authenticates],
    [SignOut.Execute_revokes], [GetMe.Execute_spec]); sign-in checks exactly one
    password on each refusal.  The middleware lets a request through exactly as
    documented, and a refusal is the documented one: a 500 only when the lookup of
    the session has failed ([Session_authenticates], [OriginCheck_guards]); panics
    and finished requests leave exactly their line in the log ([Recover_traps],
    [AccessLog_lines]).  The server as wired answers every request and keeps the
    invariant of its data ([server_safe]), foreign origins change no row
    ([server_rejects_foreign]); over any requests handled one after another a
    signed-out token stays refused ([signed_out_token_refused]) and a registered
    user can sign in ([sign_up_then_sign_in]).  Every response has a status the API
    document lists for its operation and a body of the schema it gives
    ([server_conforms]; the cookie of a sign-out is cleared with MaxAge -1, not the
    Max-Age=0 of the document), and a request body that follows the document is
    never refused as malformed ([conforming_requests_understood]).  The adapters
    implement the contracts they were verified against ([argon2id_contract],
    [valkey_implements_cache], [postgres_implements_repositories]), and so the
    server is safe on them ([deployed_server_safe]).  Under every interleaving
    of requests the tables stay consistent ([interleaved_requests_safe]); the
    cache does not: a session may be served after its sign-out
    ([cached_session_outlives_sign_out]).  Nevertheless every answer of success
    is true of the tables, and stays true, whatever the other requests do and
    whichever call fails ([answers_stay_true]); the same holds of the SQL tables
    and the keys of the cache server when the requests run on the adapters
    ([deployed_answers_stay_true]), where no transaction outlives its request
    ([transactions_closed]).  A request makes a bounded number of calls
    ([server_bounded], [deployed_bounded]).  When the collaborators work, valid
    requests are served, with the cache down too ([valid_requests_served]).  Of two
    requests that differ in the password only (of a sign-up: both acceptable, or
    neither), every call and the response are the same, but for what the hasher is
    handed ([passwords_stay_secret]).  The
    configuration is loaded as documented and is sane for numbers of moderate
    size ([Load_spec], [Load_sane], [Load_overflows]); the server and the
    migration runner make their calls in one order, stop at the first failure
    and exit with a code that tells ([main_serves], [run_order], [main_exit]);
    a signal during the start-up can end the server with code 0 before it listens
    ([signal_first]); the migrations close their database on every path.  The fakes
    of the unit tests implement the same contracts for statements that violate no
    constraint they do not check ([fakes_meet_contract]).

    ** Bounds

    Recursion with fuel ([dec_digits], [parse_value], [sha_blocks]) is given
    the length of its input or a bound proved sufficient by the round-trip
    lemmas next to it; the digit loop of the fakes has 19 rounds, enough for
    every int ([intToString_terminates]).  Programs are finite trees and so end;
    the 25 calls of [server_bounded] are those of a sign-up (17) with the
    middleware around it (8); an adapter makes at most two calls of the backend
    for each, which gives the 50 of [deployed_bounded].

    ** Parameters and what is not modelled

    google/uuid is the class [UuidLib] of Tenant.v, golang.org/x/crypto/argon2
    the class [Argon2] of Argon2id.v; the go-redis and pgx clients are the
    events of Valkey.v and Postgres.v with what they do to the server's data;
    fasthttp is the request context of Http.v.  The argument context.Context
    is left out of interface calls: cancellation and deadlines appear as errors
    of a call.  In PortSpec.v and the theorems on it a request runs as one
    sequence of calls; Interleave.v, Traffic.v and Deployed.v let requests run at
    once on shared tables and a shared cache: a call is one step (in Deployed.v
    a call of the driver or of the client), a transaction belongs to the request
    that opened it (Traffic.v, Deployed.v), and its writes reach the tables at
    its commit.  Goroutine scheduling inside a call, and waits of statements for
    each other in the database, are not modelled.  The listener and the shutdown
    of fasthttp are the calls Listen, Accept and Shutdown of Main.v; a signal is a
    step of its process.  A time has no Location: it prints in UTC, which is what
    the clocks of the code return and what pgx reads on a host whose zone is UTC,
    as in the image of src/Dockerfile; elsewhere created_at of a profile would show
    the same instant in the zone of the host.  How long a call takes is not
    modelled, so the demands of user.PasswordHasher on time are not either;
    [Verify_without_KDF] shows when the adapter skips the derivation.  Of
    internal/observability the call InitTracing is an event of Main.v; the
    no-op exporter behind it does nothing.  Not modelled: goose's reading of the
    migration files, TLS, the helper newTimes of the scans (it only allocates
    their targets), the formats and descriptions in the OpenAPI document, and
    the tests under test/, which need a running database. *)

From stdpp Require Export base tactics option list strings gmap fin_maps.
From Stdlib Require Export ZArith Lia ZifyBool Ascii.

#[local] Open Scope Z_scope.

(** ** Go values shared by every component *)

(** A Go call that returns [(T, error)]: [Ok] when the error is [nil], [Err]
    with the error otherwise (the Go code always returns the zero value of [T]
    next to a non-nil error). *)
Inductive result (E A : Type) : Type :=
| Ok (a : A)
| Err (e : E).
Arguments Ok {E A} a.
Arguments Err {E A} e.

(** An option as a Go pair whose error is [e]. *)
Definition ok_or {E A} (e : E) (o : option A) : result E A :=
  match o with Some a => Ok a | None => Err e end.

(** How a Go function body ends: it returns, or it panics. *)
Inductive outcome (A : Type) : Type :=
| Returned (a : A)
| Panicked (msg : string).
Arguments Returned {A} a.
Arguments Panicked {A} msg.

#[global] Instance result_eq_dec {E A} `{EqDecision E, EqDecision A} :
  EqDecision (result E A).
Proof. solve_decision. Defined.
#[global] Instance outcome_eq_dec {A} `{EqDecision A} : EqDecision (outcome A).
Proof. solve_decision. Defined.

(** ** Integers at their width *)

(** A value of type int64 (Go's [int] and [time.Duration] on the deployed
    platforms): the wrap-around of two's complement. *)
Definition int64_wrap (z : Z) : Z := (z + 2 ^ 63) mod 2 ^ 64 - 2 ^ 63.
Definition uint32_wrap (z : Z) : Z := z mod 2 ^ 32.
Definition uint8_wrap (z : Z) : Z := z mod 2 ^ 8.
Definition min_int64 : Z := - 2 ^ 63.
Definition max_int64 : Z := 2 ^ 63 - 1.

(** ** Strings

    A Go string or []byte is a sequence of bytes: a Rocq [string], whose
    [ascii] characters are exactly the 256 bytes. *)
Definition byte_of (a : ascii) : Z := Z.of_nat (nat_of_ascii a).
Definition of_byte (z : Z) : ascii := ascii_of_nat (Z.to_nat z).
Definition bytes_of (s : string) : list Z := map byte_of (String.list_ascii_of_string s).
Definition of_bytes (l : list Z) : string := String.string_of_list_ascii (map of_byte l).

(** [len(s)]. *)
Definition len (s : string) : Z := Z.of_nat (String.length s).

(** ** Automation *)

Create HintDb s2r discriminated.
#[export] Hint Constants Opaque : s2r.
#[export] Hint Variables Opaque : s2r.
Create Rewrite HintDb s2r_simp.

(** Splits conjunctions, existentials and disjunctions of the context and
    substitutes the equations it finds. *)
Ltac crush_hyps :=
  repeat match goal with
  | H : _ /\ _ |- _ => destruct H
  | H : exists _, _ |- _ => destruct H
  | H : False |- _ => destruct H
  | H : Ok _ = Ok _ |- _ => injection H as H
  | H : Err _ = Err _ |- _ => injection H as H
  | H : Returned _ = Returned _ |- _ => injection H as H
  | H : Some _ = Some _ |- _ => injection H as H
  | H : Ok _ = Err _ |- _ => discriminate H
  | H : Err _ = Ok _ |- _ => discriminate H
  | H : (_, _) = (_, _) |- _ => injection H; clear H; intros
  | _ => progress subst
  end.

(** Case analysis on the scrutinee of some [match] or [if] of the goal. *)
Ltac case_scrutinee :=
  match goal with
  | |- context [match ?x with _ => _ end] =>
      lazymatch x with
      | context [match _ with _ => _ end] => fail
      | _ => let E := fresh "E" in destruct x eqn:E
      end
  end.

(** ** Generic lemmas *)

Lemma int64_wrap_small z : min_int64 <= z <= max_int64 -> int64_wrap z = z.
Proof.
  unfold int64_wrap, min_int64, max_int64. intros H.
  rewrite Z.mod_small; lia.
Qed.

Lemma int64_wrap_bounds z : min_int64 <= int64_wrap z <= max_int64.
Proof.
  unfold int64_wrap, min_int64, max_int64.
  pose proof (Z.mod_pos_bound (z + 2 ^ 63) (2 ^ 64) ltac:(lia)). lia.
Qed.

Lemma uint32_wrap_small z : 0 <= z < 2 ^ 32 -> uint32_wrap z = z.
Proof. intros. unfold uint32_wrap. by rewrite Z.mod_small. Qed.

Lemma uint8_wrap_small z : 0 <= z < 2 ^ 8 -> uint8_wrap z = z.
Proof. intros. unfold uint8_wrap. by rewrite Z.mod_small. Qed.

Lemma byte_of_bounds a : 0 <= byte_of a < 256.
Proof. unfold byte_of. pose proof (nat_ascii_bounded a). lia. Qed.

Lemma of_byte_of a : of_byte (byte_of a) = a.
Proof. unfold of_byte, byte_of. rewrite Nat2Z.id. apply ascii_nat_embedding. Qed.

Lemma byte_of_of z : 0 <= z < 256 -> byte_of (of_byte z) = z.
Proof.
  intros. unfold byte_of, of_byte. rewrite nat_ascii_embedding by lia. lia.
Qed.

Lemma of_bytes_of s : of_bytes (bytes_of s) = s.
Proof.
  unfold of_bytes, bytes_of. rewrite map_map.
  erewrite map_ext; [| apply of_byte_of]. rewrite map_id.
  apply String.string_of_list_ascii_of_string.
Qed.

Lemma bytes_of_of l : Forall (fun z => 0 <= z < 256) l -> bytes_of (of_bytes l) = l.
Proof.
  intros H. unfold of_bytes, bytes_of.
  rewrite String.list_ascii_of_string_of_list_ascii, map_map.
  induction H as [|z l Hz _ IH]; [done|]. cbn. by rewrite byte_of_of, IH.
Qed.

Lemma bytes_of_bounds s : Forall (fun z => 0 <= z < 256) (bytes_of s).
Proof.
  unfold bytes_of. induction (String.list_ascii_of_string s); constructor; auto.
  apply byte_of_bounds.
Qed.

Lemma bytes_of_inj s t : bytes_of s = bytes_of t -> s = t.
Proof. intros H. by rewrite <- (of_bytes_of s), H, of_bytes_of. Qed.

Lemma len_bytes s : len s = Z.of_nat (length (bytes_of s)).
Proof.
  unfold len, bytes_of. rewrite length_map. f_equal.
  induction s; cbn; congruence.
Qed.

Lemma of_bytes_len l : len (of_bytes l) = Z.of_nat (length l).
Proof. unfold len, of_bytes. induction l as [|b l IH]; [done|]. cbn [map]. cbn. lia. Qed.

Lemma string_app_cons a s t : String a s +:+ t = String a (s +:+ t).
Proof. done. Qed.

Lemma string_app_nil t : "" +:+ t = t.
Proof. done. Qed.

Lemma string_app_assoc s t u : (s +:+ t) +:+ u = s +:+ (t +:+ u).
Proof. induction s as [|a s IH]; [done|]. by rewrite !string_app_cons, IH. Qed.

Lemma string_app_nil_r s : s +:+ "" = s.
Proof. induction s as [|a s IH]; [done|]. by rewrite string_app_cons, IH. Qed.

Lemma bytes_of_app s t : bytes_of (s +:+ t) = bytes_of s ++ bytes_of t.
Proof.
  unfold bytes_of. rewrite <- map_app. f_equal.
  induction s as [|a s IH]; [done|]. rewrite string_app_cons. cbn. congruence.
Qed.

Lemma of_bytes_app l k : of_bytes (l ++ k) = of_bytes l +:+ of_bytes k.
Proof.
  unfold of_bytes. rewrite map_app. induction (map of_byte l) as [|a q IH]; [done|].
  cbn. rewrite string_app_cons. congruence.
Qed.

Lemma len_app s t : len (s +:+ t) = len s + len t.
Proof. rewrite !len_bytes, bytes_of_app, length_app. lia. Qed.

Lemma len_nonneg s : 0 <= len s.
Proof. unfold len. lia. Qed.

#[export] Hint Resolve byte_of_bounds bytes_of_bounds len_nonneg : s2r.
#[export] Hint Rewrite of_byte_of of_bytes_of bytes_of_app len_app : s2r_simp.
