(* ===== verification/Program.v ===== *)
(** * Effectful Go code as programs over interface calls

    A Go function that receives its collaborators as interfaces is modelled
    as a [Prog]: a tree of calls to those interfaces. [G L A] adds what a Go
    function body has of its own: mutable locals (or the request context) of
    type [L], panics and deferred calls.  [wp] runs a program against a
    specification of the interfaces, [exec] against an executable
    implementation, [interp] substitutes an implementation for an interface
    and [interp_refines] is the simulation theorem between the two. *)
From S2P Require Import Prelude.
#[local] Open Scope Z_scope.

(** [E R] is the type of the interface calls whose result has type [R]; a
    call answers with an [outcome] because any Go method may panic. *)
Inductive Prog (E : Type -> Type) (A : Type) : Type :=
| Ret (a : A)
| Vis (R : Type) (e : E R) (k : outcome R -> Prog E A).
Arguments Ret {E A} a.
Arguments Vis {E A R} e k.

Fixpoint pbind {E A B} (p : Prog E A) (f : A -> Prog E B) : Prog E B :=
  match p with
  | Ret a => f a
  | Vis e k => Vis e (fun o => pbind (k o) f)
  end.

(** A Go function body with locals [L]. *)
Definition G (E : Type -> Type) (L A : Type) : Type := L -> Prog E (outcome A * L).

Section GoMonad.
Context {E : Type -> Type} {L : Type}.

Definition ret {A} (a : A) : G E L A := fun l => Ret (Returned a, l).
Definition panic {A} (msg : string) : G E L A := fun l => Ret (Panicked msg, l).
Definition get : G E L L := fun l => Ret (Returned l, l).
Definition modify (f : L -> L) : G E L unit := fun l => Ret (Returned tt, f l).
Definition put (l : L) : G E L unit := modify (fun _ => l).
Definition call {R} (e : E R) : G E L R := fun l => Vis e (fun o => Ret (o, l)).

Definition bind {A B} (m : G E L A) (f : A -> G E L B) : G E L B := fun l =>
  pbind (m l) (fun ol =>
    match ol with
    | (Returned a, l') => f a l'
    | (Panicked msg, l') => Ret (Panicked msg, l')
    end).

(** [defer func() { c }()] before the body [m]: [c] runs when [m] returns
    and when it panics; a panic of [c] replaces the outcome of [m]. *)
Definition defer {A} (c : G E L unit) (m : G E L A) : G E L A := fun l =>
  pbind (m l) (fun ol => pbind (c ol.2) (fun cl =>
    match cl with
    | (Returned _, l') => Ret (ol.1, l')
    | (Panicked msg, l') => Ret (Panicked msg, l')
    end)).

(** [defer func() { if rec := recover(); rec != nil { h rec } }()]. *)
Definition recovering (h : string -> G E L unit) (m : G E L unit) : G E L unit := fun l =>
  pbind (m l) (fun ol =>
    match ol with
    | (Returned a, l') => Ret (Returned a, l')
    | (Panicked msg, l') => h msg l'
    end).
End GoMonad.

(** A call of a function that has its own locals [l0]. *)
Definition scope {E L L' A} (l0 : L') (m : G E L' A) : G E L A := fun l =>
  pbind (m l0) (fun ol => Ret (ol.1, l)).

Arguments bind {E L A B} & m f.
Arguments defer {E L A} & c m.

Declare Scope go_scope.
Delimit Scope go_scope with go.
Notation "x <- m ;; k" := (bind m (fun x => k))
  (at level 100, m at next level, right associativity) : go_scope.
Notation "m ;; k" := (bind m (fun _ => k))
  (at level 100, right associativity) : go_scope.
(** [x, err := m; if err != nil { h }; k]. *)
Notation "'try' x <- m 'catch' e '=>' h ;; k" :=
  (bind m (fun r => match r with Ok x => k | Err e => h end))
  (at level 100, x name, e name, m at next level, h at next level, right associativity) : go_scope.

(** ** Running against a specification *)

Section WeakestPrecondition.
Context {E : Type -> Type} {S : Type}.
(** [spec e s o s']: in state [s] the call [e] may answer [o] and leave [s']. *)
Implicit Type spec : forall R, E R -> S -> outcome R -> S -> Prop.

(** Every run of [p] from [s] that the specification allows ends in [Q]. *)
Fixpoint wp spec {A} (p : Prog E A) (Q : A -> S -> Prop) (s : S) : Prop :=
  match p with
  | Ret a => Q a s
  | Vis e k => forall o s', spec _ e s o s' -> wp spec (k o) Q s'
  end.

(** A run of [p] from [s] that the specification allows ends with [a] in
    [s']. *)
Fixpoint runs spec {A} (p : Prog E A) (s : S) (a : A) (s' : S) : Prop :=
  match p with
  | Ret b => a = b /\ s' = s
  | Vis e k => exists o s1, spec _ e s o s1 /\ runs spec (k o) s1 a s'
  end.

Lemma wp_runs spec {A} (p : Prog E A) Q s :
  wp spec p Q s <-> forall a s', runs spec p s a s' -> Q a s'.
Proof.
  revert s. induction p as [b|R e k IH]; cbn; intros s.
  - split; [by intros ? ? ? [-> ->]|auto].
  - setoid_rewrite IH. split; [|by eauto 10].
    intros H a s' (o & s1 & Hs & Hr). eauto.
Qed.

Lemma wp_mono spec {A} (p : Prog E A) (Q Q' : A -> S -> Prop) s :
  (forall a s', Q a s' -> Q' a s') -> wp spec p Q s -> wp spec p Q' s.
Proof. intros HQ. revert s. induction p; cbn; eauto. Qed.

Lemma wp_bind spec {A B} (p : Prog E A) (f : A -> Prog E B) Q s :
  wp spec (pbind p f) Q s <-> wp spec p (fun a s' => wp spec (f a) Q s') s.
Proof. revert s. induction p as [|R e k IH]; cbn; [done|]. intros s. by setoid_rewrite IH. Qed.

Lemma runs_bind spec {A B} (p : Prog E A) (f : A -> Prog E B) s b s' :
  runs spec (pbind p f) s b s' <-> exists a s1, runs spec p s a s1 /\ runs spec (f a) s1 b s'.
Proof.
  revert s. induction p as [a|R e k IH]; cbn; intros s.
  - split; [by eauto|]. by intros (? & ? & [-> ->] & ?).
  - setoid_rewrite IH. split.
    + intros (o & s1 & Hs & a & s2 & Hr & Hf). eauto 10.
    + intros (a & s2 & (o & s1 & Hs & Hr) & Hf). eauto 10.
Qed.

Lemma wp_conj spec {A} (p : Prog E A) Q Q' s :
  wp spec p Q s -> wp spec p Q' s -> wp spec p (fun a s' => Q a s' /\ Q' a s') s.
Proof. revert s. induction p; cbn; eauto. Qed.

Lemma wp_spec_mono spec spec' {A} (p : Prog E A) Q s :
  (forall R (e : E R) s o s', spec' _ e s o s' -> spec _ e s o s') ->
  wp spec p Q s -> wp spec' p Q s.
Proof. intros Hs. revert s. induction p; cbn; eauto. Qed.
End WeakestPrecondition.

(** ** Running against an implementation *)

Section Execution.
Context {E : Type -> Type} {S : Type}.

Fixpoint exec (h : forall R, E R -> S -> outcome R * S) {A} (p : Prog E A) (s : S) : A * S :=
  match p with
  | Ret a => (a, s)
  | Vis e k => let '(o, s') := h _ e s in exec h (k o) s'
  end.

(** An implementation that behaves as the specification allows satisfies
    whatever [wp] proves of the specification. *)
Lemma wp_exec (spec : forall R, E R -> S -> outcome R -> S -> Prop) (inv : S -> Prop) h
    {A} (p : Prog E A) Q s :
  (forall R (e : E R) s, inv s ->
     spec _ e s (h _ e s).1 (h _ e s).2 /\ inv (h _ e s).2) ->
  inv s -> wp spec p Q s -> let r := exec h p s in Q r.1 r.2.
Proof.
  intros Hh. revert s. induction p as [|R e k IH]; cbn; intros s Hs Hwp; [done|].
  destruct (Hh _ e s Hs) as [H1 H2]. destruct (h _ e s) as [o s'] eqn:He.
  apply IH; auto.
Qed.
End Execution.

(** ** Substituting an implementation for an interface *)

Section Interpretation.
Context {E F : Type -> Type}.

(** Each call of [E] is answered by a program over [F]. *)
Fixpoint interp (h : forall R, E R -> Prog F (outcome R)) {A} (p : Prog E A) : Prog F A :=
  match p with
  | Ret a => Ret a
  | Vis e k => pbind (h _ e) (fun o => interp h (k o))
  end.

Context {S T : Type}.
Context (specE : forall R, E R -> S -> outcome R -> S -> Prop).
Context (specF : forall R, F R -> T -> outcome R -> T -> Prop).
(** [rel t s]: the concrete state [t] implements the abstract state [s]. *)
Context (rel : T -> S -> Prop).

(** The implementation [h] of a call behaves as the specification of the
    call allows, up to [rel]. *)
Definition refines_call (h : forall R, E R -> Prog F (outcome R)) {R} (e : E R) : Prop :=
  forall t s, rel t s ->
    wp specF (h _ e) (fun o t' => exists s', specE _ e s o s' /\ rel t' s') t.

(** Simulation: what holds of a program over the specification of the
    interface holds of the program over the implementation. *)
Theorem interp_refines h {A} (p : Prog E A) Q t s :
  (forall R (e : E R), refines_call h e) ->
  rel t s -> wp specE p Q s ->
  wp specF (interp h p) (fun a t' => exists s', Q a s' /\ rel t' s') t.
Proof.
  intros Hh. revert t s. induction p as [a|R e k IH]; cbn; intros t s Hrel Hwp; [by eauto|].
  apply wp_bind. eapply wp_mono; [|by apply Hh].
  cbn. intros o t' (s' & Hs' & Hrel'). eapply IH; eauto.
Qed.
End Interpretation.

(** ** Programs that make only certain calls *)

Section Only.
Context {E : Type -> Type} (pre : forall R, E R -> Prop).

(** Every call the program can make, whatever it is answered, satisfies [pre]. *)
Fixpoint only {A} (p : Prog E A) : Prop :=
  match p with
  | Ret _ => True
  | Vis e k => pre _ e /\ forall o, only (k o)
  end.

Lemma only_pbind {A B} (p : Prog E A) (f : A -> Prog E B) :
  only p -> (forall a, only (f a)) -> only (pbind p f).
Proof. induction p as [a|R e k IH]; cbn; [auto|]. intros [? ?] Hf. split; auto. Qed.

Context {L : Type}.

Lemma only_bind {A B} (m : G E L A) (f : A -> G E L B) l :
  only (m l) -> (forall a l', only (f a l')) -> only (bind m f l).
Proof. intros Hm Hf. apply only_pbind; [done|]. intros [[a|msg] l']; cbn; auto. Qed.

Lemma only_call {R} (e : E R) (l : L) : pre _ e -> only (call e l).
Proof. intros. cbn. auto. Qed.

Lemma only_defer {A} (c : G E L unit) (m : G E L A) l :
  (forall l', only (c l')) -> only (m l) -> only (defer c m l).
Proof.
  intros Hc Hm. apply only_pbind; [done|]. intros ol. apply only_pbind; [apply Hc|].
  by intros [[a|msg] l'].
Qed.

Lemma only_recovering (h : string -> G E L unit) (m : G E L unit) l :
  (forall msg l', only (h msg l')) -> only (m l) -> only (recovering h m l).
Proof. intros Hh Hm. apply only_pbind; [done|]. intros [[a|msg] l']; cbn; auto. Qed.

Lemma only_scope {L' A} (l0 : L') (m : G E L' A) (l : L) : only (m l0) -> only (scope l0 m l).
Proof. intros Hm. by apply only_pbind. Qed.
End Only.

(** The simulation for an implementation that is only right for the calls the
    program makes. *)
Theorem interp_refines_only {E F S T} (specE : forall R, E R -> S -> outcome R -> S -> Prop)
    (specF : forall R, F R -> T -> outcome R -> T -> Prop) (rel : T -> S -> Prop)
    (pre : forall R, E R -> Prop) h {A} (p : Prog E A) Q t s :
  (forall R (e : E R), pre _ e -> refines_call specE specF rel h e) ->
  only pre p -> rel t s -> wp specE p Q s ->
  wp specF (interp h p) (fun a t' => exists s', Q a s' /\ rel t' s') t.
Proof.
  intros Hh. revert t s. induction p as [a|R e k IH]; cbn; intros t s Hp Hrel Hwp; [by eauto|].
  destruct Hp as [He Hk]. apply wp_bind. eapply wp_mono; [|by apply Hh].
  cbn. intros o t' (s' & Hs' & Hrel'). eapply IH; eauto.
Qed.

(** ** Embedding a program into a larger interface *)

Section Embedding.
Context {E F : Type -> Type} {S T : Type}.
Context (specE : forall R, E R -> S -> outcome R -> S -> Prop).
Context (specF : forall R, F R -> T -> outcome R -> T -> Prop).
(** The calls of [E] are calls of [F] that act on the part [part] of its
    state. *)
Context (inj : forall R, E R -> F R) (part : T -> S) (put : S -> T -> T).
Context (put_part : forall t, put (part t) t = t) (part_put : forall s t, part (put s t) = s)
  (put_put : forall s s' t, put s (put s' t) = put s t).
Context (inj_step : forall R (e : E R) t o t', specF _ (inj _ e) t o t' ->
  exists s', specE _ e (part t) o s' /\ t' = put s' t).

Definition embed {A} (p : Prog E A) : Prog F A := interp (fun R e => Vis (inj R e) Ret) p.

Lemma wp_embed {A} (p : Prog E A) Q t :
  wp specE p Q (part t) -> wp specF (embed p) (fun a t' => exists s', Q a s' /\ t' = put s' t) t.
Proof.
  enough (forall s0, wp specE p Q (part (put s0 t)) ->
    wp specF (embed p) (fun a t' => exists s', Q a s' /\ t' = put s' t) (put s0 t)) as Hgen.
  { specialize (Hgen (part t)). by rewrite put_part in Hgen. }
  induction p as [a|R e k IH]; intros s0 Hwp; cbn in Hwp |- *.
  - exists s0. split; [|done]. by rewrite part_put in Hwp.
  - intros o t' Hstep. apply inj_step in Hstep as (s' & Hs' & ->). rewrite put_put.
    apply IH. rewrite part_put. by apply Hwp.
Qed.
End Embedding.

(** ** Recording the calls *)

(** Collaborators that answer anything: the state is the list of the calls
    made, so that [wp recorded] speaks of every run of a program. *)
Definition recorded {E : Type -> Type} : forall R, E R -> list {R & E R} -> outcome R ->
    list {R & E R} -> Prop :=
  fun R e tr _ tr' => tr' = tr ++ [existT R e].

(** A call and its answer. *)
Definition Reply (E : Type -> Type) : Type := {R & (E R * outcome R)%type}.
Definition reply {E : Type -> Type} {R} (e : E R) (o : outcome R) : Reply E := existT R (e, o).
Definition call_of {E : Type -> Type} (a : Reply E) : {R & E R} := existT (projT1 a) (projT2 a).1.

(** The same with the answers. *)
Definition replied {E : Type -> Type} : forall R, E R -> list (Reply E) -> outcome R ->
    list (Reply E) -> Prop :=
  fun R e tr o tr' => tr' = tr ++ [reply e o].

(** A specification together with the calls made and their answers: what a run
    does can be tied to the answers that it had. *)
Definition traced {E : Type -> Type} {S} (spec : forall R, E R -> S -> outcome R -> S -> Prop) :
    forall R, E R -> S * list (Reply E) -> outcome R -> S * list (Reply E) -> Prop :=
  fun R e st o st' => spec R e st.1 o st'.1 /\ st'.2 = st.2 ++ [reply e o].

Section Traced.
Context {E : Type -> Type} {S : Type} (spec : forall R, E R -> S -> outcome R -> S -> Prop).

(** The rule of a call under [spec] is its rule under [traced spec]. *)
Lemma wp_traced_call {R L} (e : E R) (l : L) (Q : outcome R * L -> S * list (Reply E) -> Prop) s tr :
  wp spec (call e l) (fun ol s' => Q ol (s', tr ++ [reply e ol.1])) s ->
  wp (traced spec) (call e l) Q (s, tr).
Proof. intros Hc o [s' tr'] [Hs E']. cbn in Hs, E'. subst tr'. exact (Hc o s' Hs). Qed.

(** The trace only watches. *)
Lemma wp_traced {A} (p : Prog E A) (Q : A -> S -> Prop) s tr :
  wp (traced spec) p (fun a st => Q a st.1) (s, tr) <-> wp spec p Q s.
Proof.
  revert s tr. induction p as [a|R e k IH]; intros s tr; [done|]. cbn. split.
  - intros Hp o s' Hs. apply (IH o s' (tr ++ [reply e o])), Hp. by split.
  - intros Hp o [s' tr'] [Hs E']. apply IH, Hp, Hs.
Qed.

(** The run panicked because a call did. *)
Definition call_panicked (tr : list (Reply E)) (msg : string) : Prop :=
  exists R (e : E R), last tr = Some (reply e (Panicked msg)).

Lemma call_panicked_last {R} (e : E R) tr msg : call_panicked (tr ++ [reply e (Panicked msg)]) msg.
Proof. exists R, e. apply last_snoc. Qed.
End Traced.

(** A program goes on recording after the calls made before it. *)
Lemma wp_replied_app {E : Type -> Type} {A} (p : Prog E A) Q tr cs :
  wp replied p (fun a cs' => Q a (tr ++ cs')) cs -> wp replied p Q (tr ++ cs).
Proof.
  revert cs. induction p as [a|R e k IH]; intros cs Hp; [done|].
  intros o cs' Hs. unfold replied in Hs. subst cs'. rewrite <- app_assoc. by apply IH, Hp.
Qed.

Lemma wp_replied_from {E : Type -> Type} {A} (p : Prog E A) Q tr :
  wp replied p (fun a cs' => Q a (tr ++ cs')) [] -> wp replied p Q tr.
Proof. intros Hp. apply wp_replied_app in Hp. by rewrite app_nil_r in Hp. Qed.

(** The calls of an embedded program. *)
Definition embed_reply {E F : Type -> Type} (inj : forall R, E R -> F R) (a : Reply E) : Reply F :=
  reply (inj _ (projT2 a).1) (projT2 a).2.

Lemma wp_replied_embed {E F : Type -> Type} (inj : forall R, E R -> F R) {A} (p : Prog E A) Q cs :
  wp replied p (fun a cs' => Q a (map (embed_reply inj) cs')) cs ->
  wp replied (embed inj p) Q (map (embed_reply inj) cs).
Proof.
  revert cs. induction p as [a|R e k IH]; intros cs Hp; [done|].
  intros o cs' Hs. unfold replied in Hs. subst cs'. cbn. specialize (Hp o _ eq_refl).
  apply IH in Hp. by rewrite map_app in Hp.
Qed.

(** The traces of two programs that run at once, and what they make together. *)
Inductive merges {A} : list A -> list A -> list A -> Prop :=
| merges_nil : merges [] [] []
| merges_left a xs ys zs : merges xs ys zs -> merges (xs ++ [a]) ys (zs ++ [a])
| merges_right a xs ys zs : merges xs ys zs -> merges xs (ys ++ [a]) (zs ++ [a]).

(** *** Programs that stop at the first failure *)

Section Follows.
Context {E : Type -> Type} (ok : forall R, E R -> outcome R -> bool).

Definition good (a : Reply E) : Prop := ok _ (projT2 a).1 (projT2 a).2 = true.

(** The calls of [cs] in order, up to the first whose answer is not [ok]. *)
Inductive follows : list {R & E R} -> list (Reply E) -> Prop :=
| follows_end : follows [] []
| follows_on R (e : E R) o cs tr : ok R e o = true -> follows cs tr ->
    follows (existT R e :: cs) (reply e o :: tr)
| follows_stop R (e : E R) o cs : ok R e o = false -> follows (existT R e :: cs) [reply e o].

Lemma follows_all cs tr : follows cs tr -> Forall good tr -> map call_of tr = cs.
Proof.
  induction 1 as [|R e o cs tr Ho _ IH|R e o cs Ho]; intros Hg; [done|..]; apply Forall_cons in Hg as [Hg Hgs].
  - cbn. by rewrite IH.
  - unfold good in Hg. cbn in Hg. congruence.
Qed.
End Follows.

(** ** Postconditions of Go functions *)

(** A postcondition of a Go function whose locals do not outlive the call. *)
Definition on_outcome {A L S} (Q : outcome A -> S -> Prop) : outcome A * L -> S -> Prop :=
  fun ol s => Q ol.1 s.

(** Steps the weakest precondition goal through the next interface call. *)
Ltac wp_step := cbn; intros ?o ?s' ?Hstep.
