(* ===== verification/GoText.v ===== *)
(** * The parts of Go's [strings], [unicode/utf8], [strconv] and [fmt] that the
    service uses: runes, lower-casing and trimming, splitting, decimal
    integers and [Sscanf]. *)
From S2P Require Import Prelude.
#[local] Open Scope Z_scope.

(** ** Runes *)

Definition RuneError : Z := 0xFFFD.

Definition is_cont (b : Z) : bool := (0x80 <=? b) && (b <=? 0xBF).
(** The second byte accepted after each lead byte (utf8.acceptRanges). *)
Definition lead2 (b0 b1 : Z) : bool := (0xC2 <=? b0) && (b0 <=? 0xDF) && is_cont b1.
Definition lead3 (b0 b1 : Z) : bool :=
  ((b0 =? 0xE0) && (0xA0 <=? b1) && (b1 <=? 0xBF))
  || (((0xE1 <=? b0) && (b0 <=? 0xEC) || (0xEE <=? b0) && (b0 <=? 0xEF)) && is_cont b1)
  || ((b0 =? 0xED) && (0x80 <=? b1) && (b1 <=? 0x9F)).
Definition lead4 (b0 b1 : Z) : bool :=
  ((b0 =? 0xF0) && (0x90 <=? b1) && (b1 <=? 0xBF))
  || ((0xF1 <=? b0) && (b0 <=? 0xF3) && is_cont b1)
  || ((b0 =? 0xF4) && (0x80 <=? b1) && (b1 <=? 0x8F)).

Definition low6 (b : Z) : Z := b mod 64.

(** [for i, c := range s]: the runes of [s] with the bytes each one spans; an
    invalid byte is [RuneError] of width 1. *)
Fixpoint runes (l : list Z) : list (Z * list Z) :=
  match l with
  | [] => []
  | b0 :: t0 =>
    if b0 <? 0x80 then (b0, [b0]) :: runes t0 else
    match t0 with
    | [] => [(RuneError, [b0])]
    | b1 :: t1 =>
      if lead2 b0 b1 then ((b0 mod 32) * 64 + low6 b1, [b0; b1]) :: runes t1 else
      match t1 with
      | [] => (RuneError, [b0]) :: runes t0
      | b2 :: t2 =>
        if lead3 b0 b1 && is_cont b2
        then ((b0 mod 16) * 4096 + low6 b1 * 64 + low6 b2, [b0; b1; b2]) :: runes t2 else
        match t2 with
        | [] => (RuneError, [b0]) :: runes t0
        | b3 :: t3 =>
          if lead4 b0 b1 && is_cont b2 && is_cont b3
          then ((b0 mod 8) * 262144 + low6 b1 * 4096 + low6 b2 * 64 + low6 b3,
                [b0; b1; b2; b3]) :: runes t3
          else (RuneError, [b0]) :: runes t0
        end
      end
    end
  end.

(** [utf8.AppendRune] on a valid rune. *)
Definition encode_rune (r : Z) : list Z :=
  if r <? 0x80 then [r]
  else if r <? 0x800 then [0xC0 + r / 64; 0x80 + low6 r]
  else if r <? 0x10000 then [0xE0 + r / 4096; 0x80 + low6 (r / 64); 0x80 + low6 r]
  else [0xF0 + r / 262144; 0x80 + low6 (r / 4096); 0x80 + low6 (r / 64); 0x80 + low6 r].

(** ** strings.ToLower, strings.TrimSpace *)

(** [unicode.ToLower] with [other] for the runes outside ASCII other than the
    two whose lower case is ASCII: U+0130 (to i) and U+212A (to k).  [NewEmail]
    is the only caller on user input and rejects whatever is not ASCII, so
    the choice of [other] among the maps that stay outside ASCII does not
    matter ([User.NewEmail_unicode_independent]); [ToLower] keeps such runes. *)
Definition lower_rune_with (other : Z -> Z) (r : Z) : Z :=
  if (65 <=? r) && (r <=? 90) then r + 32
  else if r <? 0x80 then r
  else if r =? 0x130 then 105
  else if r =? 0x212A then 107
  else other r.

Definition ToLower_with (other : Z -> Z) (s : string) : string :=
  of_bytes (concat (map (fun seg => encode_rune (lower_rune_with other seg.1)) (runes (bytes_of s)))).

Definition ToLower (s : string) : string := ToLower_with (fun r => r) s.

(** [unicode.IsSpace]. *)
Definition is_space (r : Z) : bool :=
  ((9 <=? r) && (r <=? 13)) || (r =? 32) || (r =? 0x85) || (r =? 0xA0)
  || (r =? 0x1680) || ((0x2000 <=? r) && (r <=? 0x200A))
  || (r =? 0x2028) || (r =? 0x2029) || (r =? 0x202F) || (r =? 0x205F) || (r =? 0x3000).

Fixpoint drop_while {A} (f : A -> bool) (l : list A) : list A :=
  match l with
  | [] => []
  | x :: t => if f x then drop_while f t else l
  end.

Definition trim_both {A} (f : A -> bool) (l : list A) : list A :=
  reverse (drop_while f (reverse (drop_while f l))).

Definition TrimSpace (s : string) : string :=
  of_bytes (concat (map snd (trim_both (fun seg => is_space seg.1) (runes (bytes_of s))))).

(** ** strings.Split with a one-byte separator, strings.IndexByte *)

Fixpoint split_bytes (sep : Z) (l cur : list Z) : list (list Z) :=
  match l with
  | [] => [reverse cur]
  | b :: t => if b =? sep then reverse cur :: split_bytes sep t [] else split_bytes sep t (b :: cur)
  end.

Definition Split (s : string) (sep : ascii) : list string :=
  map of_bytes (split_bytes (byte_of sep) (bytes_of s) []).

Fixpoint index_from (i : Z) (b : Z) (l : list Z) : Z :=
  match l with
  | [] => -1
  | c :: t => if c =? b then i else index_from (i + 1) b t
  end.
Definition IndexByte (s : string) (b : ascii) : Z := index_from 0 (byte_of b) (bytes_of s).

(** ** Decimal integers *)

Definition is_digit (b : Z) : bool := (48 <=? b) && (b <=? 57).

(** The decimal digits of [n >= 0]; [Z.log2 n + 1] bits leave enough fuel. *)
Fixpoint dec_digits (fuel : nat) (n : Z) (acc : list Z) : list Z :=
  match fuel with
  | O => acc
  | S f => if n <? 10 then (48 + n) :: acc else dec_digits f (n / 10) ((48 + n mod 10) :: acc)
  end.
Definition decimal (n : Z) : list Z := dec_digits (S (Z.to_nat (Z.log2 n))) n [].

(** [strconv.Itoa] and [%d]. *)
Definition Itoa (n : Z) : string :=
  of_bytes (if n <? 0 then 45 :: decimal (- n) else decimal n).

Definition digits_value (acc : Z) (l : list Z) : Z := fold_left (fun a b => 10 * a + (b - 48)) l acc.

(** The sign and the digits of an integer literal in base 10. *)
Definition parse_decimal (l : list Z) : option Z :=
  let body := match l with
              | 43 :: t => (1, t)
              | 45 :: t => (-1, t)
              | _ => (1, l)
              end in
  match body.2 with
  | [] => None
  | ds => if forallb is_digit ds then Some (body.1 * digits_value 0 ds) else None
  end.

(** [strconv.Atoi] on a 64-bit platform: [None] is ErrSyntax or ErrRange. *)
Definition Atoi (s : string) : option Z :=
  match parse_decimal (bytes_of s) with
  | Some n => if (min_int64 <=? n) && (n <=? max_int64) then Some n else None
  | None => None
  end.

(** ** fmt.Sscanf with literal text and %d verbs *)

Inductive verb :=
| VLit (b : Z)
| VInt (bits : Z)
| VUint (bits : Z).

(** [ss.SkipSpace] in Sscanf: blanks are skipped, a line end is an error. *)
Fixpoint skip_space (l : list Z) : option (list Z) :=
  match l with
  | b :: t => if b =? 10 then None
              else if (b =? 13) && match t with 10 :: _ => true | _ => false end then None
              else if (b =? 32) || ((9 <=? b) && (b <=? 13)) then skip_space t
              else Some l
  | [] => Some []
  end.

Fixpoint take_digits (l : list Z) : list Z * list Z :=
  match l with
  | b :: t => if is_digit b then let '(d, r) := take_digits t in (b :: d, r) else ([], l)
  | [] => ([], [])
  end.

(** One %d: optional blanks, for a signed target an optional sign, at least
    one digit, and a value that fits ParseInt/ParseUint and the target. *)
Definition scan_number (signed : bool) (bits : Z) (l : list Z) : option (Z * list Z) :=
  match skip_space l with
  | None => None
  | Some l1 =>
    let '(sgn, l2) := match l1 with
                      | 43 :: t => if signed then (1, t) else (1, l1)
                      | 45 :: t => if signed then (-1, t) else (1, l1)
                      | _ => (1, l1)
                      end in
    match take_digits l2 with
    | ([], _) => None
    | (ds, rest) =>
      let n := sgn * digits_value 0 ds in
      let '(lo, hi) := if signed then (- 2 ^ (bits - 1), 2 ^ (bits - 1) - 1) else (0, 2 ^ bits - 1) in
      if (lo <=? n) && (n <=? hi) then Some (n, rest) else None
    end
  end.

(** [Some vals] when every verb of the format was matched; what is left of the
    input is not looked at. *)
Fixpoint sscanf (fmt : list verb) (l : list Z) : option (list Z) :=
  match fmt with
  | [] => Some []
  | VLit b :: f => match l with
                   | c :: t => if c =? b then sscanf f t else None
                   | [] => None
                   end
  | VInt w :: f => match scan_number true w l with
                   | Some (n, rest) => option_map (cons n) (sscanf f rest)
                   | None => None
                   end
  | VUint w :: f => match scan_number false w l with
                    | Some (n, rest) => option_map (cons n) (sscanf f rest)
                    | None => None
                    end
  end.

Definition lits (s : string) : list verb := map VLit (bytes_of s).

(** ** Lemmas: decimal integers *)

Lemma digits_value_app acc l k : digits_value acc (l ++ k) = digits_value (digits_value acc l) k.
Proof. apply fold_left_app. Qed.

Lemma dec_digits_spec fuel n acc :
  0 <= n -> n < 2 ^ Z.of_nat fuel ->
  exists ds, dec_digits fuel n acc = ds ++ acc /\ digits_value 0 ds = n
             /\ (fuel <> 0%nat -> ds <> []) /\ forallb is_digit ds = true.
Proof.
  revert n acc. induction fuel as [|f IH]; intros n acc Hn Hf.
  - exists []. cbn in *. assert (n = 0) as -> by lia. done.
  - cbn [dec_digits]. destruct (Z.ltb_spec n 10) as [Hlt|Hge].
    + exists [48 + n]. unfold digits_value, is_digit. cbn. repeat split; [lia|done|].
      rewrite andb_true_r, andb_true_iff, !Z.leb_le. lia.
    + assert (0 <= n / 10 < 2 ^ Z.of_nat f) as Hq.
      { rewrite Nat2Z.inj_succ, Z.pow_succ_r in Hf by lia.
        split; [apply Z.div_pos; lia|]. apply Z.div_lt_upper_bound; lia. }
      destruct (IH (n / 10) ((48 + n mod 10) :: acc)) as (ds & Hd & Hv & _ & Hall); [lia..|].
      exists (ds ++ [48 + n mod 10]). split; [by rewrite Hd, <- app_assoc|].
      split; [|split].
      * rewrite digits_value_app, Hv. unfold digits_value. cbn.
        pose proof (Z.div_mod n 10). lia.
      * intros _. by destruct ds.
      * rewrite forallb_app, Hall. cbn. unfold is_digit.
        pose proof (Z.mod_pos_bound n 10).
        rewrite andb_true_r, andb_true_iff, !Z.leb_le. lia.
Qed.

Lemma decimal_spec n :
  0 <= n ->
  digits_value 0 (decimal n) = n /\ decimal n <> [] /\ forallb is_digit (decimal n) = true.
Proof.
  intros Hn. unfold decimal.
  destruct (dec_digits_spec (S (Z.to_nat (Z.log2 n))) n []) as (ds & Hd & Hv & Hne & Hall).
  - done.
  - rewrite Nat2Z.inj_succ, Z2Nat.id by apply Z.log2_nonneg.
    destruct (Z.eq_dec n 0) as [->|]; [cbn; lia|].
    apply Z.log2_spec. lia.
  - rewrite Hd, app_nil_r. auto.
Qed.

Lemma digits_are_digits l : forallb is_digit l = true -> Forall (fun b => 48 <= b <= 57) l.
Proof.
  rewrite forallb_forall, List.Forall_forall. unfold is_digit.
  intros H b Hb. specialize (H b Hb). rewrite andb_true_iff, !Z.leb_le in H. lia.
Qed.

(** Neither sign is a digit. *)
Lemma match_sign {A} (b : Z) (x y z : A) :
  48 <= b <= 57 -> match b with 43 => x | 45 => y | _ => z end = z.
Proof.
  intros Hb. destruct b as [|p|p]; [done| |done].
  do 6 (try (destruct p as [p|p|]; try reflexivity; try lia)).
Qed.

Lemma parse_decimal_digits l :
  l <> [] -> forallb is_digit l = true -> parse_decimal l = Some (digits_value 0 l).
Proof.
  intros Hne Hall. unfold parse_decimal.
  destruct l as [|b t]; [done|].
  assert (is_digit b = true) as Hb by (cbn in Hall; destruct (is_digit b); done).
  assert (48 <= b <= 57) as Hr.
  { unfold is_digit in Hb. rewrite andb_true_iff, !Z.leb_le in Hb. done. }
  replace (match b :: t with 43 :: t0 => (1, t0) | 45 :: t0 => (-1, t0) | _ => (1, b :: t) end)
    with (1, b :: t); [|symmetry; by apply (match_sign (A := Z * list Z))].
  cbv beta iota zeta delta [fst snd]. rewrite Hall. f_equal. lia.
Qed.

(** [strconv.Atoi] reads back what [strconv.Itoa] prints. *)
Lemma Atoi_Itoa n : 0 <= n <= max_int64 -> Atoi (Itoa n) = Some n.
Proof.
  intros Hn. destruct (decimal_spec n) as (Hv & Hne & Hall); [lia|].
  unfold Atoi, Itoa. rewrite (proj2 (Z.ltb_ge n 0)) by lia.
  rewrite bytes_of_of.
  2:{ eapply List.Forall_impl; [|by apply digits_are_digits]. cbn. lia. }
  rewrite parse_decimal_digits by done. rewrite Hv.
  rewrite (proj2 (Z.leb_le min_int64 n)) by (unfold min_int64; lia).
  rewrite (proj2 (Z.leb_le n max_int64)) by lia. done.
Qed.

Definition starts_with_digit (l : list Z) : bool :=
  match l with b :: _ => is_digit b | [] => false end.

Lemma take_digits_app ds rest :
  forallb is_digit ds = true -> starts_with_digit rest = false ->
  take_digits (ds ++ rest) = (ds, rest).
Proof.
  intros Hd Hr. induction ds as [|b ds IH]; cbn in *.
  - destruct rest as [|c t]; [done|]. cbn in *. by rewrite Hr.
  - apply andb_true_iff in Hd as [Hb Hd]. by rewrite Hb, IH.
Qed.

(** A %d verb reads back what %d printed, when the target is wide enough. *)
Lemma scan_number_decimal (signed : bool) bits n rest :
  0 <= n < 2 ^ (if signed then bits - 1 else bits) -> starts_with_digit rest = false ->
  scan_number signed bits (decimal n ++ rest) = Some (n, rest).
Proof.
  intros Hn Hr. destruct (decimal_spec n) as (Hv & Hne & Hall); [lia|].
  unfold scan_number.
  destruct (decimal n) as [|b t] eqn:Hd; [done|].
  assert (48 <= b <= 57) as Hb.
  { pose proof (digits_are_digits _ Hall) as Hf. by inversion Hf. }
  assert (skip_space ((b :: t) ++ rest) = Some ((b :: t) ++ rest)) as ->.
  { cbn. rewrite (proj2 (Z.eqb_neq b 10)), (proj2 (Z.eqb_neq b 13)) by lia.
    rewrite (proj2 (Z.eqb_neq b 32)) by lia. cbn.
    rewrite (proj2 (Z.leb_gt b 13)) by lia. by rewrite andb_false_r. }
  cbn [app].
  rewrite (match_sign (A := Z * list Z)) by done.
  change (b :: t ++ rest) with ((b :: t) ++ rest).
  rewrite take_digits_app by done. rewrite Hv, Z.mul_1_l.
  destruct signed; cbv beta iota.
  - pose proof (Z.pow_nonneg 2 (bits - 1)).
    by rewrite (proj2 (Z.leb_le (- 2 ^ (bits - 1)) n)), (proj2 (Z.leb_le n (2 ^ (bits - 1) - 1))) by lia.
  - by rewrite (proj2 (Z.leb_le 0 n)), (proj2 (Z.leb_le n (2 ^ bits - 1))) by lia.
Qed.

Lemma sscanf_lits s f l : sscanf (lits s ++ f) (bytes_of s ++ l) = sscanf f l.
Proof.
  unfold lits. induction (bytes_of s) as [|b t IH]; [done|]. cbn. by rewrite Z.eqb_refl.
Qed.

(** ** Lemmas: runes, trimming, splitting *)

Definition ascii_bytes (l : list Z) : Prop := Forall (fun b => 0 <= b < 0x80) l.

Lemma runes_ascii l : ascii_bytes l -> runes l = map (fun b => (b, [b])) l.
Proof.
  induction 1 as [|b l Hb _ IH]; [done|]. cbn.
  rewrite (proj2 (Z.ltb_lt b 128)) by lia. by rewrite IH.
Qed.

(** Runes that are not ASCII come from bytes that are not ASCII. *)
Lemma runes_ascii_app a l : ascii_bytes a -> runes (a ++ l) = map (fun b => (b, [b])) a ++ runes l.
Proof.
  induction 1 as [|b a Hb _ IH]; [done|]. cbn.
  rewrite (proj2 (Z.ltb_lt b 128)) by lia. by rewrite IH.
Qed.

(** The runes of a string span its bytes. *)
Lemma runes_bytes l : concat (map snd (runes l)) = l.
Proof.
  remember (length l) as n eqn:Hn. revert l Hn.
  induction (lt_wf n) as [n _ IH]. intros l ->.
  assert (forall t, (length t < length l)%nat -> concat (map snd (runes t)) = t) as IH'.
  { intros t Ht. by apply (IH (length t)). }
  clear IH. destruct l as [|b0 [|b1 [|b2 [|b3 t]]]]; cbn [runes];
    repeat case_match; simplify_eq; cbn [map concat snd app];
    rewrite ?IH' by (clear; cbn; lia); try done.
Qed.

(** A rune spans at least one byte. *)
Lemma runes_spans l : Forall (fun seg => seg.2 <> []) (runes l).
Proof.
  remember (length l) as n eqn:Hn. revert l Hn.
  induction (lt_wf n) as [n _ IH]. intros l ->.
  assert (forall t, (length t < length l)%nat -> Forall (fun seg => seg.2 <> []) (runes t)) as IH'.
  { intros t Ht. by apply (IH (length t)). }
  clear IH. destruct l as [|b0 [|b1 [|b2 [|b3 t]]]]; cbn [runes]; repeat case_match; simplify_eq.
  all: repeat first [apply Forall_nil_2|apply Forall_cons_2; [done|]]; try (apply IH'; clear; cbn; lia).
Qed.

Lemma runes_length l : (length (runes l) <= length l)%nat.
Proof.
  rewrite <- (runes_bytes l) at 2. induction (runes_spans l) as [|[r b] segs Hb _ IH]; [done|].
  cbn [map concat length snd] in *. rewrite length_app. destruct b; [done|]. cbn [length]. lia.
Qed.

Lemma drop_while_none {A} (f : A -> bool) l :
  match l with [] => True | x :: _ => f x = false end -> drop_while f l = l.
Proof. destruct l as [|x t]; [done|]. cbn. by intros ->. Qed.

Lemma drop_while_head {A} (f : A -> bool) l :
  match drop_while f l with [] => True | x :: _ => f x = false end.
Proof. induction l as [|x t IH]; [done|]. cbn. destruct (f x) eqn:E; [done|]. by rewrite E. Qed.

Lemma drop_while_suffix {A} (f : A -> bool) l :
  exists p, l = p ++ drop_while f l /\ Forall (fun x => f x = true) p.
Proof.
  induction l as [|x t (p & IH & Hp)]; [by exists []|]. cbn.
  destruct (f x) eqn:E; [|by exists []].
  exists (x :: p). split; [cbn; congruence|by constructor].
Qed.

Lemma drop_while_all {A} (f : A -> bool) l :
  forallb (fun x => negb (f x)) l = true -> drop_while f l = l.
Proof. destruct l as [|x t]; [done|]. cbn. by destruct (f x). Qed.

(** A string none of whose runes is a space is its own trimming. *)
Lemma trim_both_all {A} (f : A -> bool) l :
  forallb (fun x => negb (f x)) l = true -> trim_both f l = l.
Proof.
  intros H. unfold trim_both. rewrite (drop_while_all _ l H).
  rewrite drop_while_all; [apply reverse_involutive|].
  apply forallb_forall. intros x Hx. rewrite forallb_forall in H. apply H.
  apply list_elem_of_In, elem_of_reverse, list_elem_of_In, Hx.
Qed.

Lemma TrimSpace_ascii s :
  Forall (fun b => 33 <= b < 128) (bytes_of s) -> TrimSpace s = s.
Proof.
  intros H. unfold TrimSpace.
  rewrite trim_both_all, runes_bytes; [apply of_bytes_of|].
  rewrite runes_ascii by (eapply List.Forall_impl; [|exact H]; cbn; lia).
  apply forallb_forall. intros [r bs] [b [Hr Hb]]%in_map_iff. simplify_eq. cbn.
  rewrite List.Forall_forall in H. specialize (H r Hb).
  unfold is_space. lia.
Qed.

Lemma split_bytes_app sep a l cur :
  Forall (fun b => b <> sep) a ->
  split_bytes sep (a ++ sep :: l) cur = (reverse cur ++ a) :: split_bytes sep l [].
Proof.
  intros H. revert cur. induction H as [|b a Hb _ IH]; intros cur; cbn.
  - by rewrite Z.eqb_refl, app_nil_r.
  - rewrite (proj2 (Z.eqb_neq b sep)) by done.
    by rewrite IH, reverse_cons, <- app_assoc.
Qed.

Lemma split_bytes_last sep a cur :
  Forall (fun b => b <> sep) a -> split_bytes sep a cur = [reverse cur ++ a].
Proof.
  intros H. revert cur. induction H as [|b a Hb _ IH]; intros cur; cbn.
  - by rewrite app_nil_r.
  - rewrite (proj2 (Z.eqb_neq b sep)) by done.
    by rewrite IH, reverse_cons, <- app_assoc.
Qed.

(** ** Lemmas: UTF-8 *)

(** Unicode scalar values. *)
Definition valid_rune (r : Z) : Prop := 0 <= r < 0xD800 \/ 0xE000 <= r <= 0x10FFFF.

Lemma encode_rune_bytes r : valid_rune r -> Forall (fun b => 0 <= b < 256) (encode_rune r).
Proof.
  unfold valid_rune, encode_rune, low6. intros H.
  repeat case_match; repeat constructor; Z.to_euclidean_division_equations; lia.
Qed.

(** Decoding an encoded rune. *)
Lemma runes_encode r l : valid_rune r -> runes (encode_rune r ++ l) = (r, encode_rune r) :: runes l.
Proof.
  unfold valid_rune, encode_rune. intros H.
  destruct (Z.ltb_spec r 0x80); [cbn; by rewrite (proj2 (Z.ltb_lt r 128)) by lia|].
  destruct (Z.ltb_spec r 0x800); [|destruct (Z.ltb_spec r 0x10000)]; cbn [app runes].
  - set (a := 0xC0 + r / 64). set (b := 0x80 + low6 r).
    assert (0xC2 <= a <= 0xDF /\ 0x80 <= b <= 0xBF /\ (a mod 32) * 64 + low6 b = r) as (Ha & Hb & Hr).
    { subst a b. unfold low6. Z.to_euclidean_division_equations. lia. }
    clearbody a b.
    rewrite (proj2 (Z.ltb_ge a 0x80)) by lia.
    assert (lead2 a b = true) as -> by (unfold lead2, is_cont; lia). by rewrite Hr.
  - set (a := 0xE0 + r / 4096). set (b := 0x80 + low6 (r / 64)). set (c := 0x80 + low6 r).
    assert (0xE0 <= a <= 0xEF /\ 0x80 <= b <= 0xBF /\ 0x80 <= c <= 0xBF
            /\ (a = 0xE0 -> 0xA0 <= b) /\ (a = 0xED -> b <= 0x9F)
            /\ (a mod 16) * 4096 + low6 b * 64 + low6 c = r) as (Ha & Hb & Hc & Hlo & Hhi & Hr).
    { subst a b c. unfold low6. Z.to_euclidean_division_equations. lia. }
    clearbody a b c.
    rewrite (proj2 (Z.ltb_ge a 0x80)) by lia.
    assert (lead2 a b = false) as -> by (unfold lead2, is_cont; lia).
    assert (lead3 a b && is_cont c = true) as -> by (unfold lead3, is_cont; lia). by rewrite Hr.
  - set (a := 0xF0 + r / 262144). set (b := 0x80 + low6 (r / 4096)).
    set (c := 0x80 + low6 (r / 64)). set (d := 0x80 + low6 r).
    assert (0xF0 <= a <= 0xF4 /\ 0x80 <= b <= 0xBF /\ 0x80 <= c <= 0xBF /\ 0x80 <= d <= 0xBF
            /\ (a = 0xF0 -> 0x90 <= b) /\ (a = 0xF4 -> b <= 0x8F)
            /\ (a mod 8) * 262144 + low6 b * 4096 + low6 c * 64 + low6 d = r)
      as (Ha & Hb & Hc & Hd & Hlo & Hhi & Hr).
    { subst a b c d. unfold low6. Z.to_euclidean_division_equations. lia. }
    clearbody a b c d.
    rewrite (proj2 (Z.ltb_ge a 0x80)) by lia.
    assert (lead2 a b = false) as -> by (unfold lead2, is_cont; lia).
    assert (lead3 a b && is_cont c = false) as -> by (unfold lead3, is_cont; lia).
    assert (lead4 a b && is_cont c && is_cont d = true) as -> by (unfold lead4, is_cont; lia).
    by rewrite Hr.
Qed.

Lemma runes_encode_all rs :
  Forall valid_rune rs ->
  runes (concat (map encode_rune rs)) = map (fun r => (r, encode_rune r)) rs.
Proof.
  induction 1 as [|r rs Hr _ IH]; [done|]. cbn [map concat]. by rewrite runes_encode, IH.
Qed.

(** Every decoded rune is a scalar value. *)
Lemma runes_valid l : Forall (fun b => 0 <= b < 256) l -> Forall valid_rune (map fst (runes l)).
Proof.
  remember (length l) as n eqn:Hn. revert l Hn.
  induction (lt_wf n) as [n _ IH]. intros l ->.
  assert (forall t, (length t < length l)%nat -> Forall (fun b => 0 <= b < 256) t ->
            Forall valid_rune (map fst (runes t))) as IH'.
  { intros t Ht. by apply (IH (length t)). }
  clear IH. intros Hl. assert (valid_rune RuneError) as Herr by (unfold valid_rune, RuneError; lia).
  destruct l as [|b0 t0]; [constructor|]. apply Forall_cons in Hl as [H0 Hl]. cbv beta in H0.
  assert (Forall valid_rune (map fst (runes t0))) as IH0 by (apply IH'; [clear; cbn; lia|done]).
  cbn [runes]. destruct (b0 <? 0x80) eqn:E0.
  { constructor; [unfold valid_rune; cbn; lia|done]. }
  destruct t0 as [|b1 t1]; [by repeat constructor|]. pose proof Hl as Hl0.
  apply Forall_cons in Hl as [H1 Hl]. cbv beta in H1.
  destruct (lead2 b0 b1) eqn:E2.
  { constructor; [|apply IH'; [clear; cbn; lia|done]].
    unfold lead2, is_cont in E2. unfold valid_rune, low6. cbn.
    Z.to_euclidean_division_equations. lia. }
  destruct t1 as [|b2 t2]; [by constructor|]. apply Forall_cons in Hl as [H2 Hl]. cbv beta in H2.
  destruct (lead3 b0 b1 && is_cont b2) eqn:E3.
  { constructor; [|apply IH'; [clear; cbn; lia|done]].
    clear IH' IH0. unfold lead3, is_cont in E3. unfold valid_rune, low6. cbn.
    Z.to_euclidean_division_equations. lia. }
  destruct t2 as [|b3 t3]; [by constructor|]. apply Forall_cons in Hl as [H3 Hl]. cbv beta in H3.
  destruct (lead4 b0 b1 && is_cont b2 && is_cont b3) eqn:E4; [|by constructor].
  constructor; [|apply IH'; [clear; cbn; lia|done]].
  clear IH' IH0. unfold lead4, is_cont in E4. unfold valid_rune, low6. cbn.
  Z.to_euclidean_division_equations. lia.
Qed.

(** ** Lemmas: lower-casing and trimming runes *)

(** What is relied on about the lower case of the runes outside ASCII. *)
Record unicode_lower (other : Z -> Z) : Prop := {
  lower_valid r : 0x80 <= r -> valid_rune r -> valid_rune (other r) /\ 0x80 <= other r;
  lower_space r : 0x80 <= r -> is_space (other r) = is_space r;
}.

Lemma unicode_lower_id : unicode_lower (fun r => r).
Proof. by split. Qed.

Lemma lower_rune_valid other r : unicode_lower other -> valid_rune r -> valid_rune (lower_rune_with other r).
Proof.
  intros Ho Hr. unfold lower_rune_with. repeat case_match; try (unfold valid_rune in *; lia).
  apply Ho; [lia|done].
Qed.

Lemma lower_rune_space other r :
  unicode_lower other ->
  is_space (lower_rune_with other r) = is_space (lower_rune_with (fun r => r) r).
Proof.
  intros Ho. unfold lower_rune_with. repeat case_match; try done. apply Ho. lia.
Qed.

Lemma drop_while_map {A B} (f : B -> bool) (g : A -> B) l :
  drop_while f (map g l) = map g (drop_while (fun x => f (g x)) l).
Proof. induction l as [|x l IH]; [done|]. cbn. by destruct (f (g x)). Qed.

Lemma reverse_map {A B} (g : A -> B) l : reverse (map g l) = map g (reverse l).
Proof. symmetry. apply (fmap_reverse g l). Qed.

Lemma trim_both_map {A B} (f : B -> bool) (g : A -> B) l :
  trim_both f (map g l) = map g (trim_both (fun x => f (g x)) l).
Proof. unfold trim_both. by rewrite drop_while_map, !reverse_map, drop_while_map, reverse_map. Qed.

Lemma drop_while_ext {A} (f g : A -> bool) l : (forall x, f x = g x) -> drop_while f l = drop_while g l.
Proof. intros H. induction l as [|x l IH]; [done|]. cbn. by rewrite H, IH. Qed.

Lemma trim_both_ext {A} (f g : A -> bool) l : (forall x, f x = g x) -> trim_both f l = trim_both g l.
Proof. intros H. unfold trim_both. by rewrite !(drop_while_ext f g) by done. Qed.

Lemma trim_both_sub {A} (f : A -> bool) l x : x ∈ trim_both f l -> x ∈ l.
Proof.
  unfold trim_both. rewrite elem_of_reverse.
  destruct (drop_while_suffix f l) as (p & Hp & _).
  destruct (drop_while_suffix f (reverse (drop_while f l))) as (q & Hq & _).
  intros Hx. rewrite Hp. apply elem_of_app. right.
  rewrite <- elem_of_reverse, Hq. apply elem_of_app. by right.
Qed.

(** The runes that are left after lower-casing and trimming. *)
Definition lowered_runes (s : string) : list Z :=
  trim_both (fun r => is_space (lower_rune_with (fun r => r) r)) (map fst (runes (bytes_of s))).

Lemma lowered_runes_valid s : Forall valid_rune (lowered_runes s).
Proof.
  apply Forall_forall. intros r Hr%trim_both_sub.
  pose proof (runes_valid _ (bytes_of_bounds s)) as Hv.
  rewrite Forall_forall in Hv. auto.
Qed.

Lemma TrimSpace_ToLower other s :
  unicode_lower other ->
  TrimSpace (ToLower_with other s)
  = of_bytes (concat (map (fun r => encode_rune (lower_rune_with other r)) (lowered_runes s))).
Proof.
  intros Ho. unfold TrimSpace, ToLower_with.
  pose proof (runes_valid _ (bytes_of_bounds s)) as Hv.
  rewrite <- (map_map fst (fun r => encode_rune (lower_rune_with other r))).
  set (rs := map fst (runes (bytes_of s))) in *.
  rewrite <- (map_map (lower_rune_with other) encode_rune).
  assert (Forall valid_rune (map (lower_rune_with other) rs)) as Hv'.
  { rewrite Forall_map. eapply Forall_impl; [exact Hv|]. intros r. by apply lower_rune_valid. }
  rewrite bytes_of_of.
  2:{ apply List.Forall_concat. rewrite Forall_map. eapply Forall_impl; [exact Hv'|].
      apply encode_rune_bytes. }
  rewrite runes_encode_all by done.
  rewrite trim_both_map, map_map, trim_both_map, map_map.
  do 3 f_equal. unfold lowered_runes. apply trim_both_ext. intros r. by apply lower_rune_space.
Qed.

Lemma ToLower_ascii s :
  Forall (fun b => 0 <= b < 128 /\ ~ (65 <= b <= 90)) (bytes_of s) -> ToLower s = s.
Proof.
  intros H. unfold ToLower, ToLower_with.
  rewrite runes_ascii by (eapply List.Forall_impl; [|exact H]; cbn; lia).
  rewrite map_map. cbn.
  rewrite (map_ext_in _ (fun b => [b])).
  - assert (forall l : list Z, concat (map (fun b => [b]) l) = l) as ->
      by (induction l; cbn; congruence). apply of_bytes_of.
  - intros b Hb. rewrite List.Forall_forall in H. specialize (H b Hb).
    assert (lower_rune_with (fun r => r) b = b) as ->
      by (unfold lower_rune_with; repeat case_match; lia).
    unfold encode_rune. by rewrite (proj2 (Z.ltb_lt b 128)) by lia.
Qed.
