(* ===== verification/GoEncoding.v ===== *)
(** * The parts of Go's [encoding/hex], [encoding/base64] and [crypto/sha256]
    that the service uses, on byte lists. *)
From S2P Require Import Prelude.
#[local] Open Scope Z_scope.

(** ** encoding/hex *)

Definition hex_digit (d : Z) : Z := if d <? 10 then 48 + d else 87 + d.
Definition hex_encode (l : list Z) : list Z :=
  concat (map (fun b => [hex_digit (b / 16); hex_digit (b mod 16)]) l).
(** [hex.EncodeToString]. *)
Definition EncodeToString (s : string) : string := of_bytes (hex_encode (bytes_of s)).

(** ** encoding/base64 without padding *)

Definition upper : list Z := map Z.of_nat (seq 65 26).
Definition lower : list Z := map Z.of_nat (seq 97 26).
Definition digits : list Z := map Z.of_nat (seq 48 10).
Definition std_alphabet : list Z := upper ++ lower ++ digits ++ [43; 47].
Definition url_alphabet : list Z := upper ++ lower ++ digits ++ [45; 95].

Definition symbol (alpha : list Z) (i : Z) : Z := nth (Z.to_nat i) alpha 0.

Fixpoint symbol_index_from (i : Z) (alpha : list Z) (b : Z) : option Z :=
  match alpha with
  | [] => None
  | c :: t => if c =? b then Some i else symbol_index_from (i + 1) t b
  end.
Definition symbol_index (alpha : list Z) (b : Z) : option Z := symbol_index_from 0 alpha b.

(** The sextets of a byte list, 3 bytes to 4 sextets; the last group of 1 or 2
    bytes gives 2 or 3 sextets. *)
Fixpoint sextets (l : list Z) : list Z :=
  match l with
  | a :: b :: c :: t =>
    a / 4 :: (a mod 4) * 16 + b / 16 :: (b mod 16) * 4 + c / 64 :: c mod 64 :: sextets t
  | [a; b] => [a / 4; (a mod 4) * 16 + b / 16; (b mod 16) * 4]
  | [a] => [a / 4; (a mod 4) * 16]
  | [] => []
  end.

(** The bytes of a sextet list; the bits left over in the last group are
    dropped (the encodings are not Strict), one sextet alone is corrupt. *)
Fixpoint unsextets (l : list Z) : option (list Z) :=
  match l with
  | a :: b :: c :: d :: t =>
    option_map (fun r => a * 4 + b / 16 :: (b mod 16) * 16 + c / 4 :: (c mod 4) * 64 + d :: r)
               (unsextets t)
  | [a; b; c] => Some [a * 4 + b / 16; (b mod 16) * 16 + c / 4]
  | [a; b] => Some [a * 4 + b / 16]
  | [_] => None
  | [] => Some []
  end.

Definition b64_encode (alpha : list Z) (l : list Z) : list Z := map (symbol alpha) (sextets l).

Fixpoint symbol_indices (alpha : list Z) (l : list Z) : option (list Z) :=
  match l with
  | [] => Some []
  | b :: t => match symbol_index alpha b, symbol_indices alpha t with
              | Some i, Some ix => Some (i :: ix)
              | _, _ => None
              end
  end.

(** DecodeString: line ends are skipped wherever they stand. *)
Definition b64_decode (alpha : list Z) (l : list Z) : option (list Z) :=
  match symbol_indices alpha (List.filter (fun b => negb ((b =? 10) || (b =? 13))) l) with
  | Some ix => unsextets ix
  | None => None
  end.

(** ** crypto/sha256 *)

Definition add32 (x y : Z) : Z := (x + y) mod 2 ^ 32.
Definition rotr (x n : Z) : Z := Z.lor (Z.shiftr x n) (Z.shiftl x (32 - n) mod 2 ^ 32).
Definition sigma0 (x : Z) : Z := Z.lxor (Z.lxor (rotr x 7) (rotr x 18)) (Z.shiftr x 3).
Definition sigma1 (x : Z) : Z := Z.lxor (Z.lxor (rotr x 17) (rotr x 19)) (Z.shiftr x 10).
Definition Sigma0 (x : Z) : Z := Z.lxor (Z.lxor (rotr x 2) (rotr x 13)) (rotr x 22).
Definition Sigma1 (x : Z) : Z := Z.lxor (Z.lxor (rotr x 6) (rotr x 11)) (rotr x 25).
Definition Ch (x y z : Z) : Z := Z.lxor (Z.land x y) (Z.land (2 ^ 32 - 1 - x) z).
Definition Maj (x y z : Z) : Z := Z.lxor (Z.lxor (Z.land x y) (Z.land x z)) (Z.land y z).

(** The constants of FIPS 180-4: the first 32 fraction bits of the cube roots of
    the first 64 primes and of the square roots of the first 8. *)
Fixpoint root_below (k bits : nat) (acc n : Z) : Z :=
  match bits with
  | O => acc
  | S b => let up := acc + 2 ^ Z.of_nat b in
           root_below k b (if up ^ Z.of_nat k <=? n then up else acc) n
  end.
(** [root_bits k p] is the k-th root of [p] times [2 ^ 32], rounded down, without
    its integer part. *)
Definition root_bits (k : nat) (p : Z) : Z :=
  root_below k 40 0 (p * 2 ^ (32 * Z.of_nat k)) mod 2 ^ 32.
Definition primes_below (n : nat) : list Z :=
  List.filter (fun p => forallb (fun d => negb (p mod d =? 0)) (map Z.of_nat (seq 2 (Z.to_nat p - 2))))
    (map Z.of_nat (seq 2 (n - 2))).

Definition round_constants : list Z := Eval vm_compute in map (root_bits 3) (primes_below 312).

Record hash_state := HS { h0 : Z; h1 : Z; h2 : Z; h3 : Z; h4 : Z; h5 : Z; h6 : Z; h7 : Z }.

Definition initial_hash : hash_state := Eval vm_compute in
  match map (root_bits 2) (primes_below 20) with
  | [a; b; c; d; e; f; g; h] => HS a b c d e f g h
  | _ => HS 0 0 0 0 0 0 0 0
  end.

(** The message schedule, latest word first. *)
Fixpoint schedule (n : nat) (ws : list Z) : list Z :=
  match n with
  | O => ws
  | S n' =>
    let w i := nth i ws 0 in
    schedule n' (add32 (add32 (sigma1 (w 1%nat)) (w 6%nat)) (add32 (sigma0 (w 14%nat)) (w 15%nat)) :: ws)
  end.

Definition sha_round (s : hash_state) (kw : Z * Z) : hash_state :=
  let t1 := add32 (add32 (h7 s) (Sigma1 (h4 s)))
                  (add32 (Ch (h4 s) (h5 s) (h6 s)) (add32 kw.1 kw.2)) in
  let t2 := add32 (Sigma0 (h0 s)) (Maj (h0 s) (h1 s) (h2 s)) in
  HS (add32 t1 t2) (h0 s) (h1 s) (h2 s) (add32 (h3 s) t1) (h4 s) (h5 s) (h6 s).

Definition compress (s : hash_state) (words : list Z) : hash_state :=
  let r := fold_left sha_round
             (combine round_constants (rev (schedule 48 (rev words)))) s in
  HS (add32 (h0 s) (h0 r)) (add32 (h1 s) (h1 r)) (add32 (h2 s) (h2 r)) (add32 (h3 s) (h3 r))
     (add32 (h4 s) (h4 r)) (add32 (h5 s) (h5 r)) (add32 (h6 s) (h6 r)) (add32 (h7 s) (h7 r)).

Fixpoint be_words (l : list Z) : list Z :=
  match l with
  | a :: b :: c :: d :: t => a * 2 ^ 24 + b * 2 ^ 16 + c * 2 ^ 8 + d :: be_words t
  | _ => []
  end.

Definition be_bytes (n : nat) (w : Z) : list Z :=
  map (fun i => (w / 2 ^ (8 * Z.of_nat i)) mod 256) (rev (seq 0 n)).

Definition pad (l : list Z) : list Z :=
  let n := Z.of_nat (length l) in
  l ++ 0x80 :: repeat 0 (Z.to_nat ((55 - n) mod 64)) ++ be_bytes 8 (8 * n).

Fixpoint sha_blocks (n : nat) (s : hash_state) (words : list Z) : hash_state :=
  match n with
  | O => s
  | S n' => sha_blocks n' (compress s (take 16 words)) (drop 16 words)
  end.

(** [sha256.Sum256]. *)
Definition Sum256 (s : string) : string :=
  let words := be_words (pad (bytes_of s)) in
  let r := sha_blocks (length words / 16) initial_hash words in
  of_bytes (concat (map (be_bytes 4) [h0 r; h1 r; h2 r; h3 r; h4 r; h5 r; h6 r; h7 r])).

(** The test vectors of FIPS 180-4. *)
Example Sum256_empty :
  EncodeToString (Sum256 "") = "e3b0c44298fc1c149afbf4c8996fb92427ae41e4649b934ca495991b7852b855".
Proof. vm_compute. reflexivity. Qed.
Example Sum256_abc :
  EncodeToString (Sum256 "abc") = "ba7816bf8f01cfea414140de5dae2223b00361a396177a9cb410ff61f20015ad".
Proof. vm_compute. reflexivity. Qed.
Example Sum256_two_blocks :
  EncodeToString (Sum256 "abcdbcdecdefdefgefghfghighijhijkijkljklmklmnlmnomnopnopq")
  = "248d6a61d20638b8e5c026930c3e6039a33ce45964ff2167f6ecedd419db06c1".
Proof. vm_compute. reflexivity. Qed.

(** ** Lemmas *)

Definition is_bytes (l : list Z) : Prop := Forall (fun b => 0 <= b < 256) l.

Lemma be_bytes_are_bytes n w : is_bytes (be_bytes n w).
Proof.
  apply List.Forall_forall. intros b [i [<- _]]%in_map_iff. apply Z.mod_pos_bound. lia.
Qed.

(** A digest has 32 bytes. *)
Lemma len_Sum256 s : len (Sum256 s) = 32.
Proof.
  unfold Sum256. rewrite len_bytes, bytes_of_of.
  - done.
  - apply List.Forall_concat, List.Forall_forall. intros l [w [<- _]]%in_map_iff.
    apply be_bytes_are_bytes.
Qed.

Lemma hex_digit_range d : 0 <= d < 16 -> 48 <= hex_digit d <= 57 \/ 97 <= hex_digit d <= 102.
Proof. unfold hex_digit. intros. destruct (Z.ltb_spec d 10); lia. Qed.

Lemma hex_digit_inj d d' : 0 <= d < 16 -> 0 <= d' < 16 -> hex_digit d = hex_digit d' -> d = d'.
Proof. unfold hex_digit. intros. destruct (Z.ltb_spec d 10), (Z.ltb_spec d' 10); lia. Qed.

Lemma hex_encode_range l :
  is_bytes l -> Forall (fun b => 48 <= b <= 57 \/ 97 <= b <= 102) (hex_encode l).
Proof.
  induction 1 as [|b l Hb _ IH]; [constructor|].
  unfold hex_encode in *. cbn.
  constructor; [|constructor; [|exact IH]]; apply hex_digit_range.
  - split; [apply Z.div_pos; lia|apply Z.div_lt_upper_bound; lia].
  - apply Z.mod_pos_bound. lia.
Qed.

Lemma hex_encode_inj l k : is_bytes l -> is_bytes k -> hex_encode l = hex_encode k -> l = k.
Proof.
  intros Hl. revert k. induction Hl as [|b l Hb _ IH]; intros k Hk He.
  - by destruct Hk.
  - destruct Hk as [|c k Hc Hk]; [done|].
    unfold hex_encode in He. cbn in He. injection He as H1 H2 H3.
    assert (forall x, 0 <= x < 256 -> 0 <= x / 16 < 16 /\ 0 <= x mod 16 < 16) as Hx.
    { intros. split; [|apply Z.mod_pos_bound; lia].
      split; [apply Z.div_pos; lia|apply Z.div_lt_upper_bound; lia]. }
    apply hex_digit_inj in H1, H2; [|by apply Hx..].
    f_equal; [|by apply IH].
    rewrite (Z.div_mod b 16), (Z.div_mod c 16) by lia. by rewrite H1, H2.
Qed.

(** The hex key of the session cache determines the digest. *)
Lemma EncodeToString_inj s t : EncodeToString s = EncodeToString t -> s = t.
Proof.
  intros H. apply (f_equal bytes_of) in H. unfold EncodeToString in H.
  assert (forall u, Forall (fun b => 0 <= b < 256) (hex_encode (bytes_of u))) as Hr.
  { intros u. eapply List.Forall_impl; [|apply hex_encode_range, bytes_of_bounds]. cbn. lia. }
  rewrite !bytes_of_of in H by apply Hr.
  apply bytes_of_inj, hex_encode_inj; auto with s2r; apply bytes_of_bounds.
Qed.

Lemma hex_encode_length l : length (hex_encode l) = (2 * length l)%nat.
Proof. induction l as [|b l IH]; [done|]. unfold hex_encode in *. cbn in *. lia. Qed.

(** Induction by groups of three bytes, as the encoder walks its input. *)
Lemma list_ind3 {A} (P : list A -> Prop) :
  P [] -> (forall a, P [a]) -> (forall a b, P [a; b]) ->
  (forall a b c t, P t -> P (a :: b :: c :: t)) -> forall l, P l.
Proof.
  intros H0 H1 H2 H3. fix IH 1. intros [|a [|b [|c t]]].
  - exact H0.
  - apply H1.
  - apply H2.
  - apply H3, IH.
Qed.

Lemma sextets_range l : is_bytes l -> Forall (fun i => 0 <= i < 64) (sextets l).
Proof.
  induction l using list_ind3; cbn; intros Hl; inversion_clear Hl;
    repeat match goal with H : Forall _ (_ :: _) |- _ => inversion_clear H end;
    repeat constructor; auto; Z.to_euclidean_division_equations; lia.
Qed.

Lemma unsextets_sextets l : is_bytes l -> unsextets (sextets l) = Some l.
Proof.
  unfold is_bytes. induction l using list_ind3; intros Hl;
    repeat match goal with H : Forall _ (_ :: _) |- _ => apply Forall_cons in H as [? ?] end;
    cbv beta in *; cbn [sextets unsextets]; try rewrite IHl by done; cbn [option_map];
    repeat f_equal; Z.to_euclidean_division_equations; lia.
Qed.

Definition alphabet (alpha : list Z) : Prop :=
  forallb (fun i => bool_decide (symbol_index alpha (symbol alpha i) = Some i)
                    && negb ((symbol alpha i =? 10) || (symbol alpha i =? 13)))
          (map Z.of_nat (seq 0 64)) = true.

Lemma std_alphabet_ok : alphabet std_alphabet.
Proof. vm_compute. reflexivity. Qed.
Lemma url_alphabet_ok : alphabet url_alphabet.
Proof. vm_compute. reflexivity. Qed.

Lemma alphabet_symbol alpha i :
  alphabet alpha -> 0 <= i < 64 ->
  symbol_index alpha (symbol alpha i) = Some i
  /\ negb ((symbol alpha i =? 10) || (symbol alpha i =? 13)) = true.
Proof.
  intros Ha Hi. unfold alphabet in Ha. rewrite forallb_forall in Ha.
  specialize (Ha i). rewrite andb_true_iff, bool_decide_eq_true in Ha. apply Ha.
  apply in_map_iff. exists (Z.to_nat i). rewrite in_seq. lia.
Qed.

Lemma symbols_roundtrip alpha l :
  alphabet alpha -> Forall (fun i => 0 <= i < 64) l ->
  List.filter (fun b => negb ((b =? 10) || (b =? 13))) (map (symbol alpha) l) = map (symbol alpha) l
  /\ symbol_indices alpha (map (symbol alpha) l) = Some l.
Proof.
  intros Ha. induction 1 as [|i l Hi _ [IH1 IH2]]; [done|].
  destruct (alphabet_symbol alpha i Ha Hi) as [H1 H2]. cbn.
  by rewrite H2, IH1, H1, IH2.
Qed.

(** DecodeString undoes EncodeToString. *)
Lemma b64_roundtrip alpha l :
  alphabet alpha -> is_bytes l -> b64_decode alpha (b64_encode alpha l) = Some l.
Proof.
  intros Ha Hl. unfold b64_decode, b64_encode.
  destruct (symbols_roundtrip alpha (sextets l) Ha (sextets_range l Hl)) as [-> ->].
  by apply unsextets_sextets.
Qed.

Lemma sextets_length l : Z.of_nat (length (sextets l)) = (4 * Z.of_nat (length l) + 2) / 3.
Proof.
  induction l as [| | |a b c t IH] using list_ind3; [done..|].
  cbn [sextets length]. rewrite !Nat2Z.inj_succ, IH.
  Z.to_euclidean_division_equations. lia.
Qed.

Definition symbols_within (alpha : list Z) (P : Z -> bool) : Prop :=
  forallb (fun i => P (symbol alpha i)) (map Z.of_nat (seq 0 64)) = true.

(** Every symbol of an encoding satisfies what all symbols of the alphabet do. *)
Lemma b64_encode_within alpha P l :
  symbols_within alpha P -> is_bytes l -> Forall (fun b => P b = true) (b64_encode alpha l).
Proof.
  intros Ha Hl. unfold b64_encode. rewrite Forall_map.
  eapply List.Forall_impl; [|by apply sextets_range]. cbv beta. intros i Hi.
  unfold symbols_within in Ha. rewrite forallb_forall in Ha. apply Ha.
  apply in_map_iff. exists (Z.to_nat i). rewrite in_seq. lia.
Qed.
