(* ===== verification/GoTime.v ===== *)
(** * Go's [time]: instants, durations and the RFC 3339 format

    An instant ([time.Time] in UTC) is the number of nanoseconds since the
    Unix epoch, unbounded: a Go Time spans more years than the code reaches.
    The monotonic reading a Go Time may carry next to the wall clock is not
    modelled, nor is its Location: a time prints in UTC.  The code calls UTC() on
    the times of its clocks; those that pgx reads from a timestamptz column carry
    the local zone of the host, which is UTC in the image of src/Dockerfile (no
    zone is configured there).  A [time.Duration] is an int64 number of nanoseconds. *)
From Stdlib Require Import SpecFloat.
From S2P Require Import Prelude GoText.
#[local] Open Scope Z_scope.

Definition Time : Type := Z.
Definition Duration : Type := Z.

Definition Millisecond : Duration := 10 ^ 6.
Definition Second : Duration := 10 ^ 9.
Definition Hour : Duration := 3600 * Second.

(** [time.Duration(n) * unit]: the product wraps around. *)
Definition duration_mul (n unit : Z) : Duration := int64_wrap (n * unit).

Definition Add (t : Time) (d : Duration) : Time := t + d.
Definition Before (t u : Time) : bool := t <? u.
Definition After (t u : Time) : bool := u <? t.
(** [t.UTC()] changes the location, not the instant. *)
Definition UTC (t : Time) : Time := t.
(** [t.Sub(u)] saturates; [time.Until(t)] is [t.Sub(time.Now())]. *)
Definition Sub (t u : Time) : Duration := Z.max min_int64 (Z.min max_int64 (t - u)).

(** [time.Duration.Milliseconds]: integer division truncates. *)
Definition Milliseconds (d : Duration) : Z := Z.quot d Millisecond.

(** [time.Duration.Seconds], in IEEE 754 binary64: the whole seconds plus the
    quotient of the remaining nanoseconds by 1e9. *)
Definition float64_of (z : Z) : spec_float := binary_normalize 53 1024 z 0 false.
Definition Seconds (d : Duration) : spec_float :=
  SFadd 53 1024 (float64_of (Z.quot d Second))
    (SFdiv 53 1024 (float64_of (Z.rem d Second)) (float64_of Second)).

(** [int(f)] for a finite float64: truncation. *)
Definition float64_to_int (f : spec_float) : Z :=
  match f with
  | S754_finite s m e =>
    let n := if 0 <=? e then Z.pos m * 2 ^ e else Z.pos m / 2 ^ (- e) in
    if s then - n else n
  | _ => 0
  end.

Example Seconds_ex :
  float64_to_int (Seconds (1500 * Millisecond)) = 1
  /\ float64_to_int (Seconds (- 1500 * Millisecond)) = - 1
  (** the sum is rounded: one nanosecond short of 2^25 s is 2^25 s *)
  /\ float64_to_int (Seconds (2 ^ 25 * Second - 1)) = 2 ^ 25.
Proof. vm_compute. repeat split. Qed.

(** ** The proleptic Gregorian calendar *)

Definition is_leap (y : Z) : bool := (y mod 4 =? 0) && (negb (y mod 100 =? 0) || (y mod 400 =? 0)).
Definition days_in (m y : Z) : Z :=
  if m =? 2 then (if is_leap y then 29 else 28)
  else if (m =? 4) || (m =? 6) || (m =? 9) || (m =? 11) then 30 else 31.

(** The month (March first) and day of a day of the year. *)
Definition month_day (doy : Z) : Z * Z :=
  let mp := (5 * doy + 2) / 153 in
  (if mp <? 10 then mp + 3 else mp - 9, doy - (153 * mp + 2) / 5 + 1).

(** Year, month and day of a day of a 400-year era that starts on March 1st:
    centuries, then 4-year cycles, then years are cut off. *)
Definition civil_of_era_day (doe : Z) : Z * Z * Z :=
  let n100 := doe / 36524 - doe / 36524 / 4 in
  let r100 := doe - 36524 * n100 in
  let n4 := r100 / 1461 in
  let r4 := r100 - 1461 * n4 in
  let n1 := r4 / 365 - r4 / 365 / 4 in
  let '(m, d) := month_day (r4 - 365 * n1) in
  (100 * n100 + 4 * n4 + n1 + (if m <=? 2 then 1 else 0), m, d).

Definition civil_from_days (z : Z) : Z * Z * Z :=
  let '(y, m, d) := civil_of_era_day ((z + 719468) mod 146097) in
  (y + 400 * ((z + 719468) / 146097), m, d).

Definition day_of_year (m d : Z) : Z := (153 * (if m >? 2 then m - 3 else m + 9) + 2) / 5 + d - 1.

Definition days_from_civil (y m d : Z) : Z :=
  let y' := if m <=? 2 then y - 1 else y in
  let yoe := y' mod 400 in
  let doy := day_of_year m d in
  146097 * (y' / 400) + (365 * yoe + yoe / 4 - yoe / 100 + doy) - 719468.

(** ** Format and Parse with time.RFC3339Nano *)

(** [w] decimal digits of [n], leading zeros included. *)
Fixpoint fixed (w : nat) (n : Z) : list Z :=
  match w with
  | O => []
  | S w' => fixed w' (n / 10) ++ [48 + n mod 10]
  end.

Definition day_nanos : Z := 86400 * Second.

Definition year_of (t : Time) : Z := (civil_from_days (t / day_nanos)).1.1.

(** The digits after the decimal point: trailing zeros are dropped, and the
    point with them when nothing is left. *)
Definition fraction (ns : Z) : list Z :=
  match reverse (drop_while (fun b => b =? 48) (reverse (fixed 9 ns))) with
  | [] => []
  | ds => 46 :: ds
  end.

(** A year is printed with at least four digits. *)
Definition format_year (y : Z) : list Z :=
  (if y <? 0 then [45] else [])
  ++ (if Z.abs y <? 10000 then fixed 4 (Z.abs y) else decimal (Z.abs y)).

(** [t.UTC().Format(time.RFC3339Nano)]. *)
Definition format_rfc3339 (t : Time) : list Z :=
  let '(y, m, d) := civil_from_days (t / day_nanos) in
  let ns := t mod day_nanos in
  format_year y ++ [45] ++ fixed 2 m ++ [45] ++ fixed 2 d ++ [84]
  ++ fixed 2 (ns / Hour) ++ [58] ++ fixed 2 (ns / (60 * Second) mod 60) ++ [58]
  ++ fixed 2 (ns / Second mod 60) ++ fraction (ns mod Second) ++ [90].

Definition Format (t : Time) : string := of_bytes (format_rfc3339 t).

(** [getnum]: two digits, or one when [fixed_width] is false. *)
Definition getnum (fixed_width : bool) (l : list Z) : option (Z * list Z) :=
  match l with
  | a :: b :: t =>
    if is_digit a then
      if is_digit b then Some (10 * (a - 48) + (b - 48), t)
      else if fixed_width then None else Some (a - 48, b :: t)
    else None
  | [a] => if is_digit a && negb fixed_width then Some (a - 48, []) else None
  | [] => None
  end.

Definition expect (c : Z) (l : list Z) : option (list Z) :=
  match l with b :: t => if b =? c then Some t else None | [] => None end.

Definition get_year (l : list Z) : option (Z * list Z) :=
  match l with
  | a :: b :: c :: d :: t =>
    if forallb is_digit [a; b; c; d] then Some (digits_value 0 [a; b; c; d], t) else None
  | _ => None
  end.

Definition in_range (lo hi : Z) (nl : Z * list Z) : option (Z * list Z) :=
  if (lo <=? nl.1) && (nl.1 <=? hi) then Some nl else None.

(** The optional fraction: a point or comma and any number of digits, of which
    nine count. *)
Definition get_fraction (l : list Z) : Z * list Z :=
  match l with
  | p :: rest =>
    if ((p =? 46) || (p =? 44)) && starts_with_digit rest then
      let '(ds, tl) := take_digits rest in
      (digits_value 0 (take 9 ds) * 10 ^ (9 - Z.of_nat (length (take 9 ds))), tl)
    else (0, l)
  | [] => (0, l)
  end.

(** The zone: Z, or a sign and hh:mm (24 and 60 are accepted there); nothing
    may follow. *)
Definition get_zone (l : list Z) : option Z :=
  match l with
  | [90] => Some 0
  | [sg; a; b; c; d; e] =>
    if ((sg =? 43) || (sg =? 45)) && (c =? 58) then
      match getnum true [a; b], getnum true [d; e] with
      | Some (hr, _), Some (mm, _) =>
        if (hr <=? 24) && (mm <=? 60)
        then Some ((if sg =? 43 then 1 else -1) * (hr * 3600 + mm * 60)) else None
      | _, _ => None
      end
    else None
  | _ => None
  end.

Definition parse_rfc3339 (l : list Z) : option Time :=
  '(y, l) ← get_year l;
  l ← expect 45 l;
  '(m, l) ← getnum true l ≫= in_range 1 12;
  l ← expect 45 l;
  '(d, l) ← getnum true l;
  l ← expect 84 l;
  '(hh, l) ← getnum false l ≫= in_range 0 23;
  l ← expect 58 l;
  '(mi, l) ← getnum true l ≫= in_range 0 59;
  l ← expect 58 l;
  '(ss, l) ← getnum true l ≫= in_range 0 59;
  let '(ns, l) := get_fraction l in
  off ← get_zone l;
  if (1 <=? d) && (d <=? days_in m y)
  then Some (days_from_civil y m d * day_nanos + (hh * 3600 + mi * 60 + ss - off) * Second + ns)
  else None.

(** [time.Parse(time.RFC3339Nano, s)]; the result is converted to UTC, as every
    caller does. *)
Definition Parse (s : string) : option Time := parse_rfc3339 (bytes_of s).

Example Format_ex : Format 1893553445000000000 = "2030-01-02T03:04:05Z".
Proof. vm_compute. reflexivity. Qed.
Example Parse_ex : Parse "2030-01-02T03:04:05.120+01:00" = Some (1893549845120000000).
Proof. vm_compute. reflexivity. Qed.

(** ** The calendar is a bijection *)

Fixpoint check_from (f : Z -> bool) (n : nat) (z : Z) : bool :=
  match n with O => true | S n' => f z && check_from f n' (z + 1) end.

Lemma check_from_spec f n z i :
  check_from f n z = true -> z <= i < z + Z.of_nat n -> f i = true.
Proof.
  revert z. induction n as [|n IH]; intros z; cbn; [lia|].
  rewrite andb_true_iff. intros [Hz Hn] Hi.
  destruct (Z.eq_dec i z) as [->|]; [done|]. eapply IH; [exact Hn|lia].
Qed.

Definition month_day_ok (doy : Z) : bool :=
  let '(m, d) := month_day doy in
  (1 <=? m) && (m <=? 12) && (1 <=? d)
  && (d <=? (if (m =? 2) && (doy =? 365) then 29 else days_in m 1)) && (day_of_year m d =? doy).

Lemma month_days_ok doy : 0 <= doy <= 365 -> month_day_ok doy = true.
Proof.
  intros H. apply (check_from_spec month_day_ok 366 0); [|lia]. vm_compute. reflexivity.
Qed.

(** What the cuts leave of a day of an era. *)
Lemma era_cuts doe :
  0 <= doe < 146097 ->
  let n100 := doe / 36524 - doe / 36524 / 4 in
  let r100 := doe - 36524 * n100 in
  let n4 := r100 / 1461 in
  let r4 := r100 - 1461 * n4 in
  let n1 := r4 / 365 - r4 / 365 / 4 in
  0 <= n100 <= 3 /\ 0 <= n4 <= 24 /\ 0 <= n1 <= 3 /\ 0 <= r4 - 365 * n1 <= 365
  /\ (r4 - 365 * n1 = 365 -> n1 = 3 /\ (n4 < 24 \/ n100 = 3)).
Proof.
  cbv zeta. intros H.
  set (n100 := doe / 36524 - doe / 36524 / 4).
  assert (0 <= n100 <= 3 /\ 0 <= doe - 36524 * n100 <= 36524
          /\ (doe - 36524 * n100 = 36524 -> n100 = 3)) as H1
    by (subst n100; Z.to_euclidean_division_equations; lia).
  set (r100 := doe - 36524 * n100) in *. clearbody r100 n100.
  set (n4 := r100 / 1461).
  assert (0 <= n4 <= 24 /\ 0 <= r100 - 1461 * n4 <= 1460
          /\ (r100 - 1461 * n4 = 1460 -> n4 < 24 \/ n100 = 3)) as H2
    by (subst n4; Z.to_euclidean_division_equations; lia).
  set (r4 := r100 - 1461 * n4) in *. clearbody r4 n4.
  assert (0 <= r4 / 365 <= 4 /\ 0 <= r4 - 365 * (r4 / 365) < 365) as H3
    by (Z.to_euclidean_division_equations; lia).
  set (q := r4 / 365) in *. clearbody q.
  assert (q / 4 = if q =? 4 then 1 else 0) as ->
    by (destruct (Z.eqb_spec q 4); Z.to_euclidean_division_equations; lia).
  destruct (Z.eqb_spec q 4); lia.
Qed.

Definition era_day_ok (doe : Z) : Prop :=
  let '(y, m, d) := civil_of_era_day doe in
  0 <= (if m <=? 2 then y - 1 else y) < 400 /\ 1 <= m <= 12 /\ 1 <= d <= days_in m y
  /\ days_from_civil y m d = doe - 719468.

Lemma era_days_ok doe : 0 <= doe < 146097 -> era_day_ok doe.
Proof.
  intros H. unfold era_day_ok, civil_of_era_day.
  destruct (era_cuts doe H) as (H1 & H2 & H3 & H4 & H5).
  set (n100 := doe / 36524 - doe / 36524 / 4) in *.
  set (n4 := (doe - 36524 * n100) / 1461) in *.
  set (n1 := (doe - 36524 * n100 - 1461 * n4) / 365
             - (doe - 36524 * n100 - 1461 * n4) / 365 / 4) in *.
  set (doy := doe - 36524 * n100 - 1461 * n4 - 365 * n1) in *.
  assert (doe = 36524 * n100 + 1461 * n4 + 365 * n1 + doy) as Hdoe by lia.
  clearbody n100 n4 n1 doy. clear H.
  pose proof (month_days_ok doy H4) as Hmd. unfold month_day_ok in Hmd.
  destruct (month_day doy) as [m d]. rewrite !andb_true_iff in Hmd.
  destruct Hmd as [[[[Hm1 Hm2] Hd1] Hd2] Hdoy].
  set (yoe := 100 * n100 + 4 * n4 + n1).
  replace (if m <=? 2 then yoe + (if m <=? 2 then 1 else 0) - 1 else yoe + (if m <=? 2 then 1 else 0))
    with yoe by (destruct (m <=? 2); lia).
  split; [lia|]. split; [lia|]. split; [split; [lia|]|].
  - revert Hd2. unfold days_in. destruct (m =? 2) eqn:Em; cbn; [|lia].
    rewrite (proj2 (Z.leb_le m 2)) by lia.
    destruct (Z.eqb_spec doy 365) as [E|]; intros Hd2; [|change (is_leap 1) with false in Hd2; destruct is_leap; lia].
    assert (is_leap (yoe + 1) = true) as ->; [|lia].
    destruct (H5 E) as [-> Hc]. unfold is_leap, yoe.
    Z.to_euclidean_division_equations. lia.
  - unfold days_from_civil.
    replace (if m <=? 2 then yoe + (if m <=? 2 then 1 else 0) - 1 else yoe + (if m <=? 2 then 1 else 0))
      with yoe by (destruct (m <=? 2); lia).
    apply Z.eqb_eq in Hdoy. rewrite Hdoy.
    assert (0 <= yoe < 400) as Hy by lia.
    rewrite Z.mod_small, Z.div_small by lia.
    assert (yoe / 4 = 25 * n100 + n4 /\ yoe / 100 = n100) as [-> ->]
      by (unfold yoe; Z.to_euclidean_division_equations; lia).
    lia.
Qed.

Lemma is_leap_era y e : is_leap (y + 400 * e) = is_leap y.
Proof.
  unfold is_leap.
  replace ((y + 400 * e) mod 4) with (y mod 4)
    by (replace (y + 400 * e) with (y + (100 * e) * 4) by lia; by rewrite Z.mod_add).
  replace ((y + 400 * e) mod 100) with (y mod 100)
    by (replace (y + 400 * e) with (y + (4 * e) * 100) by lia; by rewrite Z.mod_add).
  replace ((y + 400 * e) mod 400) with (y mod 400)
    by (replace (y + 400 * e) with (y + e * 400) by lia; by rewrite Z.mod_add).
  done.
Qed.

(** Every day has a valid date and the date determines the day. *)
Lemma civil_from_days_spec z :
  let '(y, m, d) := civil_from_days z in
  1 <= m <= 12 /\ 1 <= d <= days_in m y /\ days_from_civil y m d = z.
Proof.
  unfold civil_from_days.
  pose proof (Z.mod_pos_bound (z + 719468) 146097 ltac:(lia)) as Hb.
  pose proof (era_days_ok _ Hb) as Hok. unfold era_day_ok in Hok.
  set (doe := (z + 719468) mod 146097) in *. set (e := (z + 719468) / 146097).
  assert (z + 719468 = 146097 * e + doe) as Hz by (apply Z.div_mod; lia).
  destruct (civil_of_era_day doe) as [[y m] d].
  destruct Hok as (H1 & H2 & H3 & H7).
  assert (days_in m (y + 400 * e) = days_in m y) as Hdi
    by (unfold days_in; by rewrite is_leap_era).
  split; [lia|]. split; [lia|].
  unfold days_from_civil in *.
  assert (forall x, 0 <= x < 400 -> (x + 400 * e) mod 400 = x /\ (x + 400 * e) / 400 = e
                    /\ x mod 400 = x /\ x / 400 = 0) as Hx.
  { intros x Hx. rewrite (Z.mul_comm 400), Z.mod_add, Z.div_add, Z.mod_small, Z.div_small by lia.
    lia. }
  set (y' := if m <=? 2 then y - 1 else y) in *.
  replace (if m <=? 2 then y + 400 * e - 1 else y + 400 * e) with (y' + 400 * e)
    by (subst y'; destruct (m <=? 2); lia).
  destruct (Hx y') as (-> & -> & E1 & E2); [lia|].
  rewrite E1, E2 in H7. lia.
Qed.

(** ** Parse undoes Format *)

Lemma fixed_digits w n : forallb is_digit (fixed w n) = true.
Proof.
  revert n. induction w as [|w IH]; intros n; [done|]. cbn [fixed].
  rewrite forallb_app, IH. cbn. pose proof (Z.mod_pos_bound n 10). unfold is_digit. lia.
Qed.

Lemma fixed_length w n : length (fixed w n) = w.
Proof.
  revert n. induction w as [|w IH]; intros n; [done|]. cbn [fixed].
  rewrite length_app, IH. cbn. lia.
Qed.

Lemma fixed_value w n : 0 <= n < 10 ^ Z.of_nat w -> digits_value 0 (fixed w n) = n.
Proof.
  revert n. induction w as [|w IH]; intros n Hn.
  - cbn in *. lia.
  - cbn [fixed]. rewrite Nat2Z.inj_succ, Z.pow_succ_r in Hn by lia.
    rewrite digits_value_app, IH.
    + unfold digits_value. cbn. pose proof (Z.div_mod n 10). lia.
    + split; [apply Z.div_pos; lia|apply Z.div_lt_upper_bound; lia].
Qed.

Lemma getnum_fixed b n rest : 0 <= n < 100 -> getnum b (fixed 2 n ++ rest) = Some (n, rest).
Proof.
  intros Hn. pose proof (fixed_digits 2 n) as Hd. pose proof (fixed_value 2 n) as Hv.
  pose proof (fixed_length 2 n) as Hl.
  destruct (fixed 2 n) as [|x [|y [|]]]; try discriminate Hl.
  cbn [forallb] in Hd. cbn. unfold digits_value in Hv. cbn in Hv.
  destruct (is_digit x), (is_digit y); try discriminate Hd.
  do 2 f_equal. lia.
Qed.

Lemma get_year_fixed y rest : 0 <= y < 10000 -> get_year (fixed 4 y ++ rest) = Some (y, rest).
Proof.
  intros Hy. pose proof (fixed_digits 4 y) as Hd. pose proof (fixed_value 4 y) as Hv.
  pose proof (fixed_length 4 y) as Hl.
  destruct (fixed 4 y) as [|a [|b [|c [|d [|]]]]]; try discriminate Hl.
  unfold get_year. cbn [app]. rewrite Hd, Hv; [done|]. cbn. lia.
Qed.

Lemma digits_value_zeros l k :
  Forall (fun b => (b =? 48) = true) k ->
  digits_value 0 (l ++ k) = digits_value 0 l * 10 ^ Z.of_nat (length k).
Proof.
  intros Hk. rewrite digits_value_app. generalize (digits_value 0 l) as v.
  induction Hk as [|b k Hb _ IH]; intros v; [unfold digits_value; cbn; lia|].
  unfold digits_value in *. cbn [fold_left length].
  rewrite IH, Nat2Z.inj_succ, Z.pow_succ_r by lia. apply Z.eqb_eq in Hb. lia.
Qed.

Lemma get_fraction_format ns :
  0 <= ns < Second -> get_fraction (fraction ns ++ [90]) = (ns, [90]).
Proof.
  intros Hns. unfold fraction.
  destruct (drop_while_suffix (fun b => b =? 48) (reverse (fixed 9 ns))) as (p & Hp & Hz).
  set (ds := reverse (drop_while (fun b => b =? 48) (reverse (fixed 9 ns)))) in *.
  assert (fixed 9 ns = ds ++ reverse p) as Hf.
  { rewrite <- (reverse_involutive (fixed 9 ns)), Hp, reverse_app. done. }
  assert (Forall (fun b => (b =? 48) = true) (reverse p)) as Hz' by (by rewrite Forall_reverse).
  pose proof (digits_value_zeros ds (reverse p) Hz') as Hv.
  rewrite <- Hf, fixed_value in Hv by done.
  pose proof (fixed_length 9 ns) as Hlen. rewrite Hf, length_app in Hlen.
  pose proof (fixed_digits 9 ns) as Hdig. rewrite Hf, forallb_app, andb_true_iff in Hdig.
  destruct Hdig as [Hdig _]. clearbody ds.
  destruct ds as [|b ds].
  - cbn in Hv. by subst ns.
  - unfold get_fraction. cbn [app]. change ((46 =? 46) || (46 =? 44)) with true. cbn [andb].
    assert (starts_with_digit (b :: ds ++ [90]) = true) as ->.
    { cbn in Hdig |- *. destruct (is_digit b); done. }
    change (b :: ds ++ [90]) with ((b :: ds) ++ [90]).
    rewrite take_digits_app by done.
    rewrite take_ge by lia. f_equal.
    rewrite Hv. f_equal. f_equal. lia.
Qed.

(** Instants whose year RFC 3339 can write. *)
Definition printable (t : Time) : Prop := 0 <= year_of t <= 9999.

#[global] Instance printable_dec t : Decision (printable t).
Proof. unfold printable. apply _. Defined.

Lemma time_of_day_split ns :
  0 <= ns < day_nanos ->
  0 <= ns / Hour <= 23 /\ 0 <= ns / (60 * Second) mod 60 <= 59 /\ 0 <= ns / Second mod 60 <= 59
  /\ 0 <= ns mod Second < Second
  /\ (ns / Hour * 3600 + ns / (60 * Second) mod 60 * 60 + ns / Second mod 60) * Second
     + ns mod Second = ns.
Proof. unfold day_nanos, Hour, Second. intros H. Z.to_euclidean_division_equations. lia. Qed.

Lemma in_range_ok lo hi n l : lo <= n <= hi -> in_range lo hi (n, l) = Some (n, l).
Proof.
  intros H. unfold in_range. cbn.
  by rewrite (proj2 (Z.leb_le lo n)), (proj2 (Z.leb_le n hi)) by lia.
Qed.

Lemma parse_format t : printable t -> parse_rfc3339 (format_rfc3339 t) = Some t.
Proof.
  intros Ht. unfold printable, year_of in Ht. unfold format_rfc3339.
  pose proof (civil_from_days_spec (t / day_nanos)) as Hc.
  destruct (civil_from_days (t / day_nanos)) as [[y m] d]. cbn in Ht.
  destruct Hc as (Hm & Hd & Hday).
  pose proof (Z.mod_pos_bound t day_nanos ltac:(done)) as Hb.
  pose proof (Z.div_mod t day_nanos ltac:(done)) as Hdm.
  set (ns := t mod day_nanos) in *. clearbody ns.
  destruct (time_of_day_split ns Hb) as (Hh & Hmi & Hs & Hns & Hsum).
  assert (d < 100) as Hd100.
  { revert Hd. unfold days_in. repeat case_match; lia. }
  unfold format_year. rewrite (proj2 (Z.ltb_ge y 0)), Z.abs_eq by lia.
  rewrite (proj2 (Z.ltb_lt y 10000)) by lia. cbn [app].
  unfold parse_rfc3339.
  rewrite get_year_fixed by lia. cbn [mbind option_bind expect].
  repeat (first [rewrite getnum_fixed by lia | rewrite in_range_ok by lia | rewrite Z.eqb_refl];
          cbn [mbind option_bind expect app]).
  rewrite get_fraction_format by done. cbn [get_zone mbind option_bind].
  rewrite (proj2 (Z.leb_le 1 d)), (proj2 (Z.leb_le d (days_in m y))) by lia. cbn [andb].
  f_equal. rewrite Hday, Z.sub_0_r. lia.
Qed.

Lemma format_bytes t : Forall (fun b => 32 <= b < 128 /\ b <> 34 /\ b <> 92 /\ b <> 60 /\ b <> 62 /\ b <> 38) (format_rfc3339 t).
Proof.
  assert (forall l, forallb is_digit l = true ->
            Forall (fun b => 32 <= b < 128 /\ b <> 34 /\ b <> 92 /\ b <> 60 /\ b <> 62 /\ b <> 38) l) as Hdig.
  { intros l Hl. eapply List.Forall_impl; [|by apply digits_are_digits]. cbn. lia. }
  unfold format_rfc3339. destruct (civil_from_days (t / day_nanos)) as [[y m] d].
  rewrite !Forall_app.
  repeat split; try (repeat constructor; lia); try apply Hdig, fixed_digits.
  - unfold format_year. rewrite Forall_app. split; [destruct (y <? 0); repeat constructor; lia|].
    apply Hdig. destruct (Z.abs y <? 10000); [apply fixed_digits|].
    apply decimal_spec. lia.
  - unfold fraction.
    set (ds := drop_while (fun b => b =? 48) _).
    assert (Forall (fun b => is_digit b = true) (reverse ds)) as Hf.
    { rewrite Forall_reverse.
      destruct (drop_while_suffix (fun b => b =? 48) (reverse (fixed 9 (t mod day_nanos mod Second))))
        as (p & Hp & _).
      fold ds in Hp. pose proof (fixed_digits 9 (t mod day_nanos mod Second)) as Hd.
      rewrite forallb_forall in Hd.
      apply List.Forall_forall. intros b Hb. apply Hd.
      apply list_elem_of_In, elem_of_reverse. rewrite Hp.
      apply elem_of_app. right. by apply list_elem_of_In. }
    destruct (reverse ds) as [|b l]; [constructor|]. constructor; [lia|].
    apply Hdig, forallb_forall. by apply List.Forall_forall.
Qed.

(** [time.Parse] reads back what [Format] wrote, to the nanosecond. *)
Lemma Parse_Format t : printable t -> Parse (Format t) = Some t.
Proof.
  intros Ht. unfold Parse, Format. rewrite bytes_of_of; [by apply parse_format|].
  eapply List.Forall_impl; [|apply format_bytes]. cbn. lia.
Qed.

(** A year outside the four digits is not read back. *)
Lemma digits_value_bound ds : forallb is_digit ds = true -> 0 <= digits_value 0 ds < 10 ^ Z.of_nat (length ds).
Proof.
  induction ds as [|b ds IH] using rev_ind; [done|]. rewrite forallb_app, andb_true_iff. intros [Hds Hb].
  specialize (IH Hds). rewrite digits_value_app, length_app. cbn [length].
  revert IH. generalize (digits_value 0 ds). intros v IH. cbn in Hb |- *. unfold is_digit in Hb.
  replace (Z.of_nat (length ds + 1)) with (Z.succ (Z.of_nat (length ds))) by lia.
  rewrite Z.pow_succ_r by lia. lia.
Qed.

Lemma parse_unprintable t : ~ printable t -> parse_rfc3339 (format_rfc3339 t) = None.
Proof.
  unfold printable, year_of, format_rfc3339, parse_rfc3339, format_year. intros Hp.
  destruct (civil_from_days (t / day_nanos)) as [[y m] d]. cbn in Hp.
  destruct (Z.ltb_spec y 0) as [Hneg|Hpos].
  { cbn [app]. match goal with |- context [get_year (45 :: ?l)] => assert (get_year (45 :: l) = None) as -> end; [|done].
    generalize (if Z.abs y <? 10000 then fixed 4 (Z.abs y) else decimal (Z.abs y)). intros ys.
    cbn. by repeat case_match. }
  rewrite (proj2 (Z.ltb_ge (Z.abs y) 10000)) by lia. cbn [app].
  destruct (decimal_spec (Z.abs y) ltac:(lia)) as (Hv & _ & Hd).
  pose proof (digits_value_bound _ Hd) as Hlen. rewrite Hv in Hlen.
  destruct (decimal (Z.abs y)) as [|a [|b [|c [|e [|f l]]]]]; cbn in Hlen; try lia.
  cbn in Hd. cbn [get_year app]. case_match; [|done]. cbn [mbind option_bind expect app].
  assert (f =? 45 = false) as -> by (unfold is_digit in Hd; lia). done.
Qed.

Lemma Parse_unprintable t : ~ printable t -> Parse (Format t) = None.
Proof.
  intros Ht. unfold Parse, Format. rewrite bytes_of_of; [by apply parse_unprintable|].
  eapply List.Forall_impl; [|apply format_bytes]. cbn. lia.
Qed.
