(* ===== verification/GoRegexp.v ===== *)
(** * The part of Go's [regexp] that the service uses: anchored patterns of
    byte classes, matched by derivatives, with the language they denote. *)
From S2P Require Import Prelude.
#[local] Open Scope Z_scope.

(** A byte class: a union of closed ranges. *)
Definition byte_class : Type := list (Z * Z).
Definition in_class (c : byte_class) (b : Z) : bool :=
  existsb (fun r => (r.1 <=? b) && (b <=? r.2)) c.

Inductive re :=
| RNone
| REps
| RClass (c : byte_class)
| RCat (r s : re)
| RAlt (r s : re)
| RStar (r : re).

Definition RByte (b : Z) : re := RClass [(b, b)].
(** [r+] and [r{2,}]. *)
Definition RPlus (r : re) : re := RCat r (RStar r).
Definition RAtLeast2 (r : re) : re := RCat r (RCat r (RStar r)).

(** The language of a pattern. *)
Inductive denotes : re -> list Z -> Prop :=
| denotes_eps : denotes REps []
| denotes_class c b : in_class c b = true -> denotes (RClass c) [b]
| denotes_cat r s l k : denotes r l -> denotes s k -> denotes (RCat r s) (l ++ k)
| denotes_alt_l r s l : denotes r l -> denotes (RAlt r s) l
| denotes_alt_r r s l : denotes s l -> denotes (RAlt r s) l
| denotes_star_nil r : denotes (RStar r) []
| denotes_star_app r b l k :
    denotes r (b :: l) -> denotes (RStar r) k -> denotes (RStar r) (b :: l ++ k).

Fixpoint nullable (r : re) : bool :=
  match r with
  | RNone | RClass _ => false
  | REps | RStar _ => true
  | RCat r s => nullable r && nullable s
  | RAlt r s => nullable r || nullable s
  end.

Fixpoint deriv (b : Z) (r : re) : re :=
  match r with
  | RNone | REps => RNone
  | RClass c => if in_class c b then REps else RNone
  | RCat r s => if nullable r then RAlt (RCat (deriv b r) s) (deriv b s) else RCat (deriv b r) s
  | RAlt r s => RAlt (deriv b r) (deriv b s)
  | RStar r => RCat (deriv b r) (RStar r)
  end.

(** [MatchString] of the pattern [^r$]. *)
Fixpoint full_match (r : re) (l : list Z) : bool :=
  match l with
  | [] => nullable r
  | b :: t => full_match (deriv b r) t
  end.

Lemma nullable_spec r : nullable r = true <-> denotes r [].
Proof.
  split.
  - induction r; cbn; intros H; try done; try (by constructor).
    + apply andb_true_iff in H as [H1 H2].
      apply (denotes_cat r1 r2 [] []); auto.
    + apply orb_true_iff in H as [H|H]; [apply denotes_alt_l|apply denotes_alt_r]; auto.
  - remember [] as l eqn:Hl. induction 1; cbn; try done.
    + apply app_eq_nil in Hl as [-> ->]. by rewrite IHdenotes1, IHdenotes2.
    + by rewrite IHdenotes.
    + rewrite IHdenotes by done. apply orb_true_r.
Qed.

Lemma deriv_sound b r l : denotes (deriv b r) l -> denotes r (b :: l).
Proof.
  revert l. induction r as [| |c|r IHr s IHs|r IHr s IHs|r IHr]; cbn; intros l H.
  1,2: inversion H.
  - destruct (in_class c b) eqn:E; inversion H; subst. by constructor.
  - destruct (nullable r) eqn:E.
    + inversion H as [| | |? ? ? H'|? ? ? H'| |]; subst.
      * inversion H'; subst. apply (denotes_cat r s (b :: l0) k); auto.
      * apply (denotes_cat r s [] (b :: l)); [by apply nullable_spec|auto].
    + inversion H; subst. apply (denotes_cat r s (b :: l0) k); auto.
  - inversion H; subst; [apply denotes_alt_l|apply denotes_alt_r]; auto.
  - inversion H; subst. constructor; auto.
Qed.

Lemma deriv_complete b r l : denotes r (b :: l) -> denotes (deriv b r) l.
Proof.
  revert l. induction r as [| |c|r IHr s IHs|r IHr s IHs|r IHr]; cbn; intros l H;
    inversion H; subst.
  - match goal with E : in_class _ _ = true |- _ => rewrite E end. constructor.
  - match goal with E : _ ++ _ = b :: l |- _ => rename E into Eq end.
    match goal with Hr : denotes r _, Hs : denotes s _ |- _ =>
      rename Hr into Dr; rename Hs into Ds end.
    destruct l0 as [|c l0]; cbn in Eq.
    + subst. rewrite (proj2 (nullable_spec r) Dr). apply denotes_alt_r. auto.
    + injection Eq as -> <-.
      destruct (nullable r); [apply denotes_alt_l|]; constructor; auto.
  - apply denotes_alt_l. auto.
  - apply denotes_alt_r. auto.
  - constructor; auto.
Qed.

(** The matcher decides the language of the pattern. *)
Lemma full_match_spec r l : full_match r l = true <-> denotes r l.
Proof.
  revert r. induction l as [|b l IH]; intros r; cbn; [apply nullable_spec|].
  rewrite IH. split; [apply deriv_sound|apply deriv_complete].
Qed.

(** ** The languages of the shapes the service uses *)

Lemma denotes_byte b l : denotes (RByte b) l <-> l = [b].
Proof.
  split.
  - inversion 1 as [|c x Hx| | | | |]; subst. f_equal. unfold in_class in Hx. cbn in Hx. lia.
  - intros ->. constructor. unfold in_class. cbn. lia.
Qed.

Lemma denotes_cat_inv r s l :
  denotes (RCat r s) l <-> exists l1 l2, l = l1 ++ l2 /\ denotes r l1 /\ denotes s l2.
Proof.
  split; [inversion 1; subst; eauto|]. intros (l1 & l2 & -> & ? & ?). by constructor.
Qed.

Lemma denotes_class_star c l :
  denotes (RStar (RClass c)) l <-> Forall (fun b => in_class c b = true) l.
Proof.
  split.
  - remember (RStar (RClass c)) as r eqn:Hr. induction 1; simplify_eq; [constructor|].
    match goal with D : denotes (RClass _) _ |- _ => inversion D; subst end.
    constructor; auto.
  - induction 1 as [|b l Hb _ IH]; [constructor|].
    apply (denotes_star_app _ b [] l); [by constructor|done].
Qed.

Lemma denotes_class_plus c l :
  denotes (RPlus (RClass c)) l <-> l <> [] /\ Forall (fun b => in_class c b = true) l.
Proof.
  unfold RPlus. rewrite denotes_cat_inv. split.
  - intros (l1 & l2 & -> & H1 & H2). inversion H1; subst.
    rewrite denotes_class_star in H2. split; [done|]. by constructor.
  - intros [Hne H]. destruct H as [|b l Hb Hl]; [done|].
    exists [b], l. rewrite denotes_class_star. split; [done|]. split; [by constructor|done].
Qed.

Lemma denotes_class_atleast2 c l :
  denotes (RAtLeast2 (RClass c)) l
  <-> (2 <= length l)%nat /\ Forall (fun b => in_class c b = true) l.
Proof.
  unfold RAtLeast2. rewrite denotes_cat_inv. split.
  - intros (l1 & l2 & -> & H1 & H2). inversion H1; subst.
    apply denotes_class_plus in H2 as [Hne H2]. destruct l2; [done|].
    split; [cbn; lia|]. by constructor.
  - intros [Hlen H]. destruct H as [|b l Hb Hl]; [cbn in Hlen; lia|].
    exists [b], l. split; [done|]. split; [by constructor|].
    apply denotes_class_plus. split; [|done]. destruct l; [cbn in Hlen; lia|done].
Qed.
