(* ===== verification/GoJson.v ===== *)
(** * The part of Go's [encoding/json] that the service uses: Marshal of
    structs of strings, times and structs, Unmarshal into structs of strings. *)
From S2P Require Import Prelude GoText GoTime.
#[local] Open Scope Z_scope.

(** ** Marshal *)

(** The ASCII bytes written as they are (encoding/json's htmlSafeSet). *)
Definition safe_byte (b : Z) : bool :=
  (32 <=? b) && (b <? 128)
  && negb ((b =? 34) || (b =? 92) || (b =? 60) || (b =? 62) || (b =? 38)).

Definition hex_lower (d : Z) : Z := if d <? 10 then 48 + d else 87 + d.

Definition escape_ascii (b : Z) : list Z :=
  if safe_byte b then [b]
  else if (b =? 34) || (b =? 92) then [92; b]
  else if b =? 8 then [92; 98]
  else if b =? 12 then [92; 102]
  else if b =? 10 then [92; 110]
  else if b =? 13 then [92; 114]
  else if b =? 9 then [92; 116]
  else [92; 117; 48; 48; hex_lower (b / 16); hex_lower (b mod 16)].

Definition escape_rune (seg : Z * list Z) : list Z :=
  if seg.1 <? 128 then escape_ascii seg.1
  else if (seg.1 =? RuneError) && (Z.of_nat (length seg.2) =? 1)
       then [92; 117; 102; 102; 102; 100]
  else if (seg.1 =? 0x2028) || (seg.1 =? 0x2029)
       then [92; 117; 50; 48; 50; hex_lower (seg.1 mod 16)]
  else seg.2.

Definition quote (l : list Z) : list Z := 34 :: concat (map escape_rune (runes l)) ++ [34].

(** The values that are marshalled: a type with a [String]-like text form is a
    [MString]. *)
#[warnings="-register-all"]
Inductive mvalue :=
| MString (s : string)
| MTime (t : Time)
| MStruct (fields : list (string * mvalue)).

(** [Time.MarshalJSON] fails outside the years 0 to 9999; the zone of the time is
    UTC (see GoTime.v). *)
Definition marshal_time (t : Time) : option (list Z) :=
  if decide (printable t) then Some (34 :: format_rfc3339 t ++ [34]) else None.

Fixpoint join (sep : list Z) (parts : list (list Z)) : list Z :=
  match parts with
  | [] => []
  | [p] => p
  | p :: ps => p ++ sep ++ join sep ps
  end.

Fixpoint marshal (v : mvalue) : option (list Z) :=
  match v with
  | MString s => Some (quote (bytes_of s))
  | MTime t => marshal_time t
  | MStruct fields =>
    let fix go (fs : list (string * mvalue)) : option (list (list Z)) :=
      match fs with
      | [] => Some []
      | (name, v) :: rest =>
        match marshal v, go rest with
        | Some b, Some bs => Some ((quote (bytes_of name) ++ [58] ++ b) :: bs)
        | _, _ => None
        end
      end in
    option_map (fun parts => [123] ++ join [44] parts ++ [125]) (go fields)
  end.

(** [json.Marshal(v)]; [None] is an error. *)
Definition Marshal (v : mvalue) : option string := option_map of_bytes (marshal v).

(** JSON text written with single quotes, for readability. *)
Definition json_text (s : string) : string :=
  of_bytes (map (fun b => if b =? 39 then 34 else b) (bytes_of s)).

Example Marshal_ex :
  Marshal (MStruct [("a", MString "x<y"); ("b", MTime 1893553445000000000)])
  = Some (json_text "{'a':'x\u003cy','b':'2030-01-02T03:04:05Z'}").
Proof. vm_compute. reflexivity. Qed.

(** ** Unmarshal *)

#[warnings="-register-all"]
Inductive json :=
| JNull
| JBool (b : bool)
| JNumber
| JText (s : list Z)
| JArray (l : list json)
| JObject (members : list (list Z * json)).

Definition max_depth : Z := 10000.

Fixpoint skip_ws (l : list Z) : list Z :=
  match l with
  | b :: t => if (b =? 32) || (b =? 9) || (b =? 10) || (b =? 13) then skip_ws t else l
  | [] => []
  end.

Definition hex_value (b : Z) : option Z :=
  if is_digit b then Some (b - 48)
  else if (97 <=? b) && (b <=? 102) then Some (b - 87)
  else if (65 <=? b) && (b <=? 70) then Some (b - 55)
  else None.

Definition hex4 (a b c d : Z) : option Z :=
  a ← hex_value a; b ← hex_value b; c ← hex_value c; d ← hex_value d;
  Some (a * 4096 + b * 256 + c * 16 + d).

(** The second half of a surrogate pair, when it directly follows. *)
Definition low_surrogate (l : list Z) : option Z :=
  match l with
  | 92 :: 117 :: a :: b :: c :: d :: _ =>
    r ← hex4 a b c d;
    if (0xDC00 <=? r) && (r <? 0xE000) then Some r else None
  | _ => None
  end.

(** The body of a string literal up to its closing quote: the decoded bytes
    and what follows.  Control characters are refused. *)
Fixpoint scan_string (l : list Z) : option (list Z * list Z) :=
  match l with
  | [] => None
  | 34 :: t => Some ([], t)
  | 92 :: c :: t =>
    match c with
    | 34 | 92 | 47 => '(s, r) ← scan_string t; Some (c :: s, r)
    | 98 => '(s, r) ← scan_string t; Some (8 :: s, r)
    | 102 => '(s, r) ← scan_string t; Some (12 :: s, r)
    | 110 => '(s, r) ← scan_string t; Some (10 :: s, r)
    | 114 => '(s, r) ← scan_string t; Some (13 :: s, r)
    | 116 => '(s, r) ← scan_string t; Some (9 :: s, r)
    | 117 =>
      match t with
      | a :: b :: c :: d :: t' =>
        u ← hex4 a b c d;
        match (if (0xD800 <=? u) && (u <? 0xDC00) then low_surrogate t' else None) with
        | Some lo =>
          match t' with
          | _ :: _ :: _ :: _ :: _ :: _ :: t'' =>
            '(s, r) ← scan_string t'';
            Some (encode_rune (0x10000 + (u - 0xD800) * 1024 + (lo - 0xDC00)) ++ s, r)
          | _ => None
          end
        | None =>
          '(s, r) ← scan_string t';
          Some (encode_rune (if (0xD800 <=? u) && (u <? 0xE000) then RuneError else u) ++ s, r)
        end
      | _ => None
      end
    | _ => None
    end
  | b :: t => if b <? 32 then None else '(s, r) ← scan_string t; Some (b :: s, r)
  end.

(** Invalid UTF-8 becomes U+FFFD. *)
Definition sanitize (l : list Z) : list Z := concat (map (fun seg => encode_rune seg.1) (runes l)).

Definition take_digits1 (l : list Z) : option (list Z) :=
  match take_digits l with
  | ([], _) => None
  | (_, r) => Some r
  end.

(** What follows a number literal; its value is never used. *)
Definition scan_number_literal (l : list Z) : option (list Z) :=
  let l := match l with 45 :: t => t | _ => l end in
  l ← match l with
      | 48 :: t => Some t
      | _ => take_digits1 l
      end;
  l ← match l with
      | 46 :: t => take_digits1 t
      | _ => Some l
      end;
  match l with
  | 101 :: t | 69 :: t =>
    take_digits1 (match t with 43 :: t' | 45 :: t' => t' | _ => t end)
  | _ => Some l
  end.

Fixpoint strip_prefix (p l : list Z) : option (list Z) :=
  match p, l with
  | [], _ => Some l
  | a :: p', b :: l' => if a =? b then strip_prefix p' l' else None
  | _, [] => None
  end.

(** Values, members and elements; fuel above twice the length of the input is
    enough ([parse_fuel]). *)
Fixpoint parse_value (fuel : nat) (depth : Z) (l : list Z) : option (json * list Z) :=
  match fuel with
  | O => None
  | S f =>
    match skip_ws l with
    | 34 :: t => '(s, r) ← scan_string t; Some (JText (sanitize s), r)
    | 123 :: t =>
      if max_depth <=? depth then None else
      match skip_ws t with
      | 125 :: r => Some (JObject [], r)
      | _ => '(ms, r) ← parse_members f (depth + 1) t; Some (JObject ms, r)
      end
    | 91 :: t =>
      if max_depth <=? depth then None else
      match skip_ws t with
      | 93 :: r => Some (JArray [], r)
      | _ => '(vs, r) ← parse_elements f (depth + 1) t; Some (JArray vs, r)
      end
    | 116 :: t => r ← strip_prefix [114; 117; 101] t; Some (JBool true, r)
    | 102 :: t => r ← strip_prefix [97; 108; 115; 101] t; Some (JBool false, r)
    | 110 :: t => r ← strip_prefix [117; 108; 108] t; Some (JNull, r)
    | b :: t => if (b =? 45) || is_digit b
                then r ← scan_number_literal (b :: t); Some (JNumber, r) else None
    | [] => None
    end
  end
with parse_members (fuel : nat) (depth : Z) (l : list Z) : option (list (list Z * json) * list Z) :=
  match fuel with
  | O => None
  | S f =>
    match skip_ws l with
    | 34 :: t =>
      '(k, r) ← scan_string t;
      match skip_ws r with
      | 58 :: r =>
        '(v, r) ← parse_value f depth r;
        match skip_ws r with
        | 44 :: r => '(ms, r) ← parse_members f depth r; Some ((sanitize k, v) :: ms, r)
        | 125 :: r => Some ([(sanitize k, v)], r)
        | _ => None
        end
      | _ => None
      end
    | _ => None
    end
  end
with parse_elements (fuel : nat) (depth : Z) (l : list Z) : option (list json * list Z) :=
  match fuel with
  | O => None
  | S f =>
    '(v, r) ← parse_value f depth l;
    match skip_ws r with
    | 44 :: r => '(vs, r) ← parse_elements f depth r; Some (v :: vs, r)
    | 93 :: r => Some ([v], r)
    | _ => None
    end
  end.

(** A whole document. *)
Definition parse_json (l : list Z) : option json :=
  match parse_value (S (2 * length l)) 0 l with
  | Some (v, r) => match skip_ws r with [] => Some v | _ => None end
  | None => None
  end.

(** Field names match up to simple case folding: besides the ASCII letters,
    U+212A folds with k and U+017F with s. *)
Definition fold_rune (r : Z) : Z :=
  if (65 <=? r) && (r <=? 90) then r + 32
  else if r =? 0x212A then 107
  else if r =? 0x17F then 115
  else r.
Definition fold_name (l : list Z) : list Z := map (fun seg => fold_rune seg.1) (runes l).

(** The field a key selects: an exact match first, then one up to folding. *)
Definition field_index (names : list string) (key : list Z) : option nat :=
  match list_find (fun n => bytes_of n = key) names with
  | Some (i, _) => Some i
  | None => fst <$> list_find (fun n => fold_name (bytes_of n) = fold_name key) names
  end.

(** One member into a struct of strings: unknown keys and null are skipped, a
    value that is not a string is an UnmarshalTypeError ([None]). *)
Definition store_member (names : list string) (acc : list string) (kv : list Z * json)
    : option (list string) :=
  match field_index names kv.1 with
  | None => Some acc
  | Some i => match kv.2 with
              | JText s => Some (<[i := of_bytes s]> acc)
              | JNull => Some acc
              | _ => None
              end
  end.

Fixpoint store_members (names : list string) (acc : list string) (kvs : list (list Z * json))
    : option (list string) :=
  match kvs with
  | [] => Some acc
  | kv :: rest => acc ← store_member names acc kv; store_members names acc rest
  end.

(** [json.Unmarshal(b, &v)] for a [v] whose fields, all strings and initially
    empty, have the JSON names [names]: the fields' values, or [None] when
    Unmarshal returns an error. *)
Definition Unmarshal (names : list string) (b : string) : option (list string) :=
  v ← parse_json (bytes_of b);
  match v with
  | JObject ms => store_members names (map (fun _ => ""%string) names) ms
  | JNull => Some (map (fun _ => ""%string) names)
  | _ => None
  end.

Example Unmarshal_ex :
  Unmarshal ["email"; "password"]
    (json_text " {'Email' : 'a\u0040b.io', 'x':[1,2.5e3,{}], 'password':null} ")
  = Some ["a@b.io"; ""].
Proof. vm_compute. reflexivity. Qed.
Example Unmarshal_bad : Unmarshal ["email"] (json_text "{'email':1}") = None.
Proof. vm_compute. reflexivity. Qed.
Example Unmarshal_trailing : Unmarshal ["email"] (json_text "{} {}") = None.
Proof. vm_compute. reflexivity. Qed.

(** ** Lemmas: the fuel is enough *)

Lemma skip_ws_length l : (length (skip_ws l) <= length l)%nat.
Proof. induction l as [|b t IH]; [done|]. cbn. case_match; cbn in *; lia. Qed.

Lemma take_digits_length l : (length (take_digits l).2 <= length l)%nat.
Proof.
  induction l as [|b t IH]; [done|]. cbn. destruct (is_digit b); [|done].
  destruct (take_digits t). cbn in *. lia.
Qed.

Lemma take_digits1_length l r : take_digits1 l = Some r -> (length r < length l)%nat.
Proof.
  unfold take_digits1. destruct l as [|b t]; [done|]. cbn.
  pose proof (take_digits_length t). destruct (is_digit b); [|done].
  destruct (take_digits t). intros [= <-]. cbn in *. lia.
Qed.

Lemma strip_prefix_length p l r : strip_prefix p l = Some r -> (length r <= length l)%nat.
Proof.
  revert l. induction p as [|a p IH]; intros l; cbn; [by intros [= <-]|].
  destruct l as [|b l]; [done|]. case_match; [|done]. intros Hs%IH. cbn. lia.
Qed.

Ltac opt_inv :=
  repeat match goal with
  | H : (_ ≫= _) = Some _ |- _ => apply bind_Some in H as (? & ? & H)
  | x : _ * _ |- _ => destruct x
  | _ => progress simplify_eq
  end.

Lemma scan_number_literal_length l r :
  scan_number_literal l = Some r -> (length r < length l)%nat.
Proof.
  unfold scan_number_literal. intros H.
  set (l0 := match l with 45 :: t => t | _ => l end) in H.
  assert (length l0 <= length l)%nat as H0 by (subst l0; clear H; repeat case_match; cbn; lia).
  clearbody l0. apply bind_Some in H as (l1 & H1 & H).
  assert (length l1 < length l0)%nat as H1'.
  { revert H1. clear. repeat case_match; try (intros ?%take_digits1_length; done).
    all: intros [= <-]; cbn; lia. }
  apply bind_Some in H as (l2 & H2 & H).
  assert (length l2 <= length l1)%nat as H2'.
  { revert H2. clear. repeat case_match; try (intros [= <-]; done).
    all: intros Hd%take_digits1_length; cbn; lia. }
  enough (length r <= length l2)%nat by lia.
  revert H. clear. repeat case_match; try (intros [= <-]; done).
  all: intros Hd%take_digits1_length; cbn in *; lia.
Qed.

Lemma scan_string_length l s r : scan_string l = Some (s, r) -> (length r < length l)%nat.
Proof.
  remember (length l) as n eqn:Hn. revert l s r Hn.
  induction (lt_wf n) as [n _ IH]. intros l s r ->.
  assert (forall t s r, (length t < length l)%nat -> scan_string t = Some (s, r) ->
            (length r < length l)%nat) as IH'.
  { intros t s' r' Ht Hs. pose proof (IH _ Ht t s' r' eq_refl Hs). lia. }
  clear IH. destruct l as [|b t]; [done|]. cbn [scan_string].
  repeat case_scrutinee; intros H; opt_inv; subst; try done;
    try (by (eapply IH'; [|eassumption]; clear; cbn; lia)); try (clear; cbn; lia);
    repeat (match goal with E : match ?x with Some _ => _ | None => _ end = Some _ |- _ =>
              lazymatch x with
              | if ?c then _ else _ => destruct c
              | _ => destruct x
              end end; opt_inv; try done);
    (eapply IH'; [|eassumption]; clear; cbn; lia).
Qed.

Lemma skip_ws_is l k : skip_ws l = k -> (length k <= length l)%nat.
Proof. intros <-. apply skip_ws_length. Qed.

(** Turns what the scanners returned into facts on lengths. *)
Ltac lengths :=
  repeat match goal with
  | E : skip_ws _ = _ |- _ => apply skip_ws_is in E
  | E : scan_string _ = Some _ |- _ => apply scan_string_length in E
  | E : strip_prefix _ _ = Some _ |- _ => apply strip_prefix_length in E
  | E : scan_number_literal _ = Some _ |- _ => apply scan_number_literal_length in E
  end.

(** What is left of the input is shorter, for each of the three parsers. *)
Lemma parse_length fuel :
  (forall d l v r, parse_value fuel d l = Some (v, r) -> (length r < length l)%nat)
  /\ (forall d l v r, parse_members fuel d l = Some (v, r) -> (length r < length l)%nat)
  /\ (forall d l v r, parse_elements fuel d l = Some (v, r) -> (length r < length l)%nat).
Proof.
  induction fuel as [|f (IHv & IHm & IHe)]; [done|].
  repeat split; intros d l v r; cbn [parse_value parse_members parse_elements];
    repeat case_scrutinee; intros H; opt_inv; subst;
    repeat (match goal with
            | E : match ?x with _ => _ end = Some _ |- _ => destruct x eqn:?
            end; opt_inv; subst; try done);
    repeat match goal with
    | E : parse_value _ _ _ = Some _ |- _ => apply IHv in E
    | E : parse_members _ _ _ = Some _ |- _ => apply IHm in E
    | E : parse_elements _ _ _ = Some _ |- _ => apply IHe in E
    end; lengths; cbn [length] in *; lia.
Qed.

(** More fuel than twice the length of the input changes nothing: the parsers
    never fail for want of fuel. *)
Lemma parse_fuel f1 f2 :
  (forall d l, (2 * length l < f1)%nat -> (2 * length l < f2)%nat ->
     parse_value f1 d l = parse_value f2 d l)
  /\ (forall d l, (2 * length l < f1)%nat -> (2 * length l < f2)%nat ->
     parse_members f1 d l = parse_members f2 d l)
  /\ (forall d l, (2 * length l + 1 < f1)%nat -> (2 * length l + 1 < f2)%nat ->
     parse_elements f1 d l = parse_elements f2 d l).
Proof.
  revert f2. induction f1 as [|f1 IH]; intros f2; [repeat split; intros; lia|].
  destruct f2 as [|f2]; [repeat split; intros; lia|].
  destruct (IH f2) as (IHv & IHm & IHe).
  repeat split; intros d l H1 H2; cbn [parse_value parse_members parse_elements].
  - repeat case_scrutinee; lengths; cbn [length] in *; try done;
      (rewrite IHm by lia) || (rewrite IHe by lia); done.
  - destruct (skip_ws l) as [|b t] eqn:E; [done|].
    apply skip_ws_is in E. cbn [length] in E.
    repeat case_scrutinee; try done.
    destruct (scan_string t) as [[k r]|] eqn:Es; [|done]. cbn [mbind option_bind].
    apply scan_string_length in Es.
    repeat case_scrutinee; try done. lengths. cbn [length] in *.
    rewrite IHv by lia. destruct (parse_value f2 d l0) as [[v r']|] eqn:Ev; [|done].
    cbn [mbind option_bind]. apply (proj1 (parse_length f2)) in Ev.
    repeat case_scrutinee; try done. lengths. cbn [length] in *. rewrite IHm by lia. done.
  - rewrite IHv by lia. destruct (parse_value f2 d l) as [[v r]|] eqn:Ev; [|done].
    cbn [mbind option_bind]. apply (proj1 (parse_length f2)) in Ev.
    repeat case_scrutinee; try done. lengths. cbn [length] in *. rewrite IHe by lia. done.
Qed.

(** ** Lemmas: objects of safe strings are read back *)

Definition safe (s : string) : Prop := Forall (fun b => safe_byte b = true) (bytes_of s).

Lemma safe_ascii s : safe s -> ascii_bytes (bytes_of s).
Proof. apply List.Forall_impl. unfold safe_byte. intros b. lia. Qed.

Lemma quote_safe s : safe s -> quote (bytes_of s) = 34 :: bytes_of s ++ [34].
Proof.
  intros Hs. unfold quote. do 2 f_equal. rewrite runes_ascii by (by apply safe_ascii).
  rewrite map_map. unfold safe in Hs. induction Hs as [|b l Hb _ IH]; [done|].
  cbn [map concat]. rewrite IH. unfold escape_rune. cbn [fst].
  rewrite (proj2 (Z.ltb_lt b 128)) by (unfold safe_byte in Hb; lia).
  unfold escape_ascii. by rewrite Hb.
Qed.

Lemma scan_string_plain b t :
  32 <= b -> b <> 34 -> b <> 92 ->
  scan_string (b :: t) = option_map (fun sr => (b :: sr.1, sr.2)) (scan_string t).
Proof.
  intros H1 H2 H3. assert ((b <? 32) = false) as E by lia.
  destruct b as [|p|p]; [lia| |lia].
  do 7 (destruct p as [p|p|]; try (cbn [scan_string]; rewrite E; by destruct (scan_string t) as [[]|]); try lia);
    cbn [scan_string]; rewrite E; by destruct (scan_string t) as [[]|].
Qed.

Lemma scan_string_safe l t :
  Forall (fun b => safe_byte b = true) l -> scan_string (l ++ 34 :: t) = Some (l, t).
Proof.
  induction 1 as [|b l Hb _ IH]; [done|]. cbn [app].
  rewrite scan_string_plain by (unfold safe_byte in Hb; lia). by rewrite IH.
Qed.

Lemma sanitize_ascii l : ascii_bytes l -> sanitize l = l.
Proof.
  intros H. unfold sanitize. rewrite runes_ascii by done. rewrite map_map.
  induction H as [|b l Hb _ IH]; [done|]. cbn [map concat]. rewrite IH.
  unfold encode_rune. cbn [fst]. by rewrite (proj2 (Z.ltb_lt b 128)) by lia.
Qed.

(** An object all of whose members are strings. *)
Definition text_member (kv : string * string) : list Z :=
  quote (bytes_of kv.1) ++ [58] ++ quote (bytes_of kv.2).

Lemma marshal_texts kvs :
  marshal (MStruct (map (fun kv => (kv.1, MString kv.2)) kvs))
  = Some ([123] ++ join [44] (map text_member kvs) ++ [125]).
Proof.
  cbn [marshal].
  match goal with |- option_map _ (?go _) = _ => set (g := go) end.
  assert (g (map (fun kv => (kv.1, MString kv.2)) kvs) = Some (map text_member kvs)) as ->; [|done].
  induction kvs as [|[k v] kvs IH]; [done|]. cbn [map]. subst g. cbn [marshal fst snd]. by rewrite IH.
Qed.

Lemma parse_members_step f d kv rest :
  safe kv.1 -> safe kv.2 ->
  parse_members (S (S f)) d (text_member kv ++ rest)
  = match skip_ws rest with
    | 44 :: r => '(ms, r) ← parse_members (S f) d r;
                 Some ((bytes_of kv.1, JText (bytes_of kv.2)) :: ms, r)
    | 125 :: r => Some ([(bytes_of kv.1, JText (bytes_of kv.2))], r)
    | _ => None
    end.
Proof.
  intros Hk Hv. unfold text_member. rewrite !quote_safe by done.
  assert ((34 :: bytes_of kv.1 ++ [34]) ++ [58] ++ 34 :: bytes_of kv.2 ++ [34]
          = 34 :: bytes_of kv.1 ++ 34 :: 58 :: 34 :: bytes_of kv.2 ++ [34]) as ->
    by (cbn [app]; by rewrite <- !app_assoc).
  cbn [app]. rewrite <- app_assoc. cbn [app]. rewrite <- app_assoc. cbn [app].
  set (m := parse_members (S f)). cbn [parse_members skip_ws Z.eqb Pos.eqb orb].
  rewrite scan_string_safe by done. cbn [mbind option_bind skip_ws Z.eqb Pos.eqb orb].
  cbn [parse_value skip_ws Z.eqb Pos.eqb orb].
  rewrite scan_string_safe by done. cbn [mbind option_bind].
  by rewrite !sanitize_ascii by (by apply safe_ascii).
Qed.

Lemma parse_members_texts fuel d kv kvs r :
  (length kvs + 1 < fuel)%nat -> Forall (fun kv => safe kv.1 /\ safe kv.2) (kv :: kvs) ->
  parse_members fuel d (join [44] (map text_member (kv :: kvs)) ++ 125 :: r)
  = Some (map (fun kv => (bytes_of kv.1, JText (bytes_of kv.2))) (kv :: kvs), r).
Proof.
  revert fuel kv. induction kvs as [|kv' kvs IH]; intros fuel kv Hf Hs;
    apply Forall_cons in Hs as [[Hk Hv] Hs];
    (destruct fuel as [|[|fuel]]; [cbn in Hf; lia|cbn in Hf; lia|]).
  - cbn [map join]. rewrite parse_members_step by done. done.
  - assert (join [44] (map text_member (kv :: kv' :: kvs))
            = text_member kv ++ 44 :: join [44] (map text_member (kv' :: kvs))) as -> by done.
    rewrite <- app_assoc, parse_members_step by done. cbn [app skip_ws Z.eqb Pos.eqb orb].
    rewrite IH; [done|cbn in Hf; lia|done].
Qed.

Lemma join_length (ps : list (list Z)) : (length ps <= length (join [44%Z] ps) + 1)%nat.
Proof.
  induction ps as [|p [|q ps] IH]; [cbn; lia|cbn; lia|].
  change (join [44] (p :: q :: ps)) with (p ++ [44] ++ join [44] (q :: ps)).
  rewrite !length_app. cbn [length] in *. lia.
Qed.

(** A marshalled object is read back with the same members. *)
Lemma parse_Marshal_texts kv kvs text :
  Forall (fun kv => safe kv.1 /\ safe kv.2) (kv :: kvs) ->
  Marshal (MStruct (map (fun kv => (kv.1, MString kv.2)) (kv :: kvs))) = Some text ->
  parse_json (bytes_of text) = Some (JObject (map (fun kv => (bytes_of kv.1, JText (bytes_of kv.2))) (kv :: kvs))).
Proof.
  intros Hs. unfold Marshal. rewrite marshal_texts. cbn [option_map]. intros <-%(inj Some).
  assert (Forall (fun b => 0 <= b < 256) ([123] ++ join [44] (map text_member (kv :: kvs)) ++ [125])) as Hb.
  { rewrite !Forall_app. split; [repeat constructor; lia|]. split; [|repeat constructor; lia].
    clear -Hs. induction Hs as [|x l [Hk Hv] Hl IH]; [constructor|].
    assert (Forall (fun b => 0 <= b < 256) (text_member x)) as Hx.
    { assert (forall u, safe u -> Forall (fun b => 0 <= b < 256) (quote (bytes_of u))) as Hq.
      { intros u Hu. rewrite quote_safe by done. constructor; [lia|].
        apply Forall_app. split; [apply bytes_of_bounds|repeat constructor; lia]. }
      unfold text_member. rewrite !Forall_app. split; [by apply Hq|].
      split; [repeat constructor; lia|by apply Hq]. }
    destruct l as [|y l]; [done|].
    change (join [44] (map text_member (x :: y :: l)))
      with (text_member x ++ [44] ++ join [44] (map text_member (y :: l))).
    rewrite !Forall_app. split; [done|]. split; [repeat constructor; lia|done]. }
  unfold parse_json. rewrite bytes_of_of by done. clear Hb.
  set (body := [123] ++ join [44] (map text_member (kv :: kvs)) ++ [125]).
  assert (parse_value (S (2 * length body)) 0 body
          = Some (JObject (map (fun kv => (bytes_of kv.1, JText (bytes_of kv.2))) (kv :: kvs)), [])) as ->.
  { assert (length kvs + 1 < 2 * length body)%nat as Hf.
    { subst body. rewrite !length_app. pose proof (join_length (map text_member (kv :: kvs))) as Hj.
      rewrite length_map in Hj. cbn [length] in *. lia. }
    pose proof (parse_members_texts (2 * length body) 1 kv kvs [] Hf Hs) as Hp.
    revert Hp. generalize (2 * length body)%nat as n. intros n Hp. subst body.
    apply Forall_cons in Hs as [[Hk Hv] _].
    cbn [app parse_value skip_ws Z.eqb Pos.eqb orb]. change (max_depth <=? 0) with false. cbn iota.
    assert (exists t, join [44] (map text_member (kv :: kvs)) ++ [125] = 34 :: t) as [t Et].
    { assert (exists t, text_member kv = 34 :: t) as [t Ht] by (eexists; reflexivity).
      cbn [map join]. rewrite Ht. destruct (map text_member kvs); eexists; reflexivity. }
    rewrite Et in *. cbn [skip_ws Z.eqb Pos.eqb orb]. change (0 + 1) with 1.
    rewrite Hp. done. }
  done.
Qed.

(** Unmarshal of the marshalled object stores the same members. *)
Lemma Unmarshal_Marshal_texts names kv kvs text :
  Forall (fun kv => safe kv.1 /\ safe kv.2) (kv :: kvs) ->
  Marshal (MStruct (map (fun kv => (kv.1, MString kv.2)) (kv :: kvs))) = Some text ->
  Unmarshal names text
  = store_members names (map (fun _ => ""%string) names)
      (map (fun kv => (bytes_of kv.1, JText (bytes_of kv.2))) (kv :: kvs)).
Proof. intros Hs Hm. unfold Unmarshal. by rewrite (parse_Marshal_texts kv kvs text Hs Hm). Qed.

Lemma safe_time t : safe (Format t).
Proof.
  unfold safe, Format. rewrite bytes_of_of.
  - eapply List.Forall_impl; [|apply format_bytes]. intros b Hb. cbn in Hb. unfold safe_byte. lia.
  - eapply List.Forall_impl; [|apply format_bytes]. cbn. lia.
Qed.

(** A time is marshalled as its text. *)
Lemma marshal_time_text t : printable t -> marshal (MTime t) = marshal (MString (Format t)).
Proof.
  intros Ht. cbn [marshal]. unfold marshal_time. rewrite decide_True by done.
  rewrite quote_safe by apply safe_time. unfold Format. rewrite bytes_of_of; [done|].
  eapply List.Forall_impl; [|apply format_bytes]. cbn. lia.
Qed.
