(* ===== verification/Errors.v ===== *)
(** * The error values of the service

    Each package declares sentinel errors with [errors.New]: distinct pointers,
    compared by identity.  They are the constructors of one inductive type per
    package; [error] is what the interface type [error] can hold. *)
From S2P Require Import Prelude.

Module tenant.
Inductive error := ErrInvalidTenantID.
#[global] Instance error_eq_dec : EqDecision error.
Proof. solve_decision. Defined.
End tenant.

Module user.
Inductive error := ErrUserNotFound | ErrEmailTaken | ErrInvalidEmail | ErrWeakPassword.
#[global] Instance error_eq_dec : EqDecision error.
Proof. solve_decision. Defined.
End user.

Module session.
Inductive error := ErrSessionNotFound | ErrSessionExpired | ErrSessionRevoked.
(** Declared next to the cache port and the token. *)
Inductive cache_error := ErrCacheMiss.
Inductive token_error := ErrInvalidToken.
#[global] Instance error_eq_dec : EqDecision error.
Proof. solve_decision. Defined.
#[global] Instance cache_error_eq_dec : EqDecision cache_error.
Proof. solve_decision. Defined.
#[global] Instance token_error_eq_dec : EqDecision token_error.
Proof. solve_decision. Defined.
End session.

Module sign_up.
Inductive error := ErrInvalidEmail | ErrWeakPassword | ErrEmailTaken | ErrInternal.
#[global] Instance error_eq_dec : EqDecision error.
Proof. solve_decision. Defined.
End sign_up.

Module sign_in.
Inductive error := ErrInvalidCredentials | ErrInvalidEmail | ErrInternal.
#[global] Instance error_eq_dec : EqDecision error.
Proof. solve_decision. Defined.
End sign_in.

Module sign_out.
Inductive error := ErrInternal.
#[global] Instance error_eq_dec : EqDecision error.
Proof. solve_decision. Defined.
End sign_out.

Module get_me.
Inductive error := ErrNotFound | ErrInternal.
#[global] Instance error_eq_dec : EqDecision error.
Proof. solve_decision. Defined.
End get_me.

Module config.
Inductive error := ErrMissingPostgresURL | ErrInvalidInt | ErrMissingAllowedOrigins | ErrMissingValkeyURL.
#[global] Instance error_eq_dec : EqDecision error.
Proof. solve_decision. Defined.
End config.

(** The errors of the drivers that the code tells apart. *)
Module driver.
Inductive error :=
| ErrNoRows                  (** pgx.ErrNoRows *)
| ErrTxClosed                (** pgx.ErrTxClosed *)
| PgError (code : string)    (** a *pgconn.PgError with its SQLSTATE *)
| RedisNil.                  (** redis.Nil *)
#[global] Instance error_eq_dec : EqDecision error.
Proof. solve_decision. Defined.
End driver.

Inductive error :=
| ETenant (e : tenant.error)
| EUser (e : user.error)
| ESession (e : session.error)
| ECache (e : session.cache_error)
| EToken (e : session.token_error)
| ESignUp (e : sign_up.error)
| ESignIn (e : sign_in.error)
| ESignOut (e : sign_out.error)
| EGetMe (e : get_me.error)
| EConfig (e : config.error)
| EDriver (e : driver.error)
| EOther (msg : string)    (** any error the code does not compare *)
| EWrap (msg : string) (err : error).   (** [fmt.Errorf("msg: %w", err)] *)

Coercion ETenant : tenant.error >-> error.
Coercion EUser : user.error >-> error.
Coercion ESession : session.error >-> error.
Coercion ECache : session.cache_error >-> error.
Coercion EToken : session.token_error >-> error.
Coercion ESignUp : sign_up.error >-> error.
Coercion ESignIn : sign_in.error >-> error.
Coercion ESignOut : sign_out.error >-> error.
Coercion EGetMe : get_me.error >-> error.
Coercion EConfig : config.error >-> error.
Coercion EDriver : driver.error >-> error.

#[global] Instance error_eq_dec : EqDecision error.
Proof.
  refine (fix go e f := match e, f with
    | EWrap m a, EWrap n b => cast_if_and (decide (m = n)) (go a b)
    | ETenant a, ETenant b => cast_if (decide (a = b))
    | EUser a, EUser b => cast_if (decide (a = b))
    | ESession a, ESession b => cast_if (decide (a = b))
    | ECache a, ECache b => cast_if (decide (a = b))
    | EToken a, EToken b => cast_if (decide (a = b))
    | ESignUp a, ESignUp b => cast_if (decide (a = b))
    | ESignIn a, ESignIn b => cast_if (decide (a = b))
    | ESignOut a, ESignOut b => cast_if (decide (a = b))
    | EGetMe a, EGetMe b => cast_if (decide (a = b))
    | EConfig a, EConfig b => cast_if (decide (a = b))
    | EDriver a, EDriver b => cast_if (decide (a = b))
    | EOther a, EOther b => cast_if (decide (a = b))
    | _, _ => right _
    end); clear go; abstract congruence.
Defined.

(** The error of [json.Marshal] on a time outside the years 0 to 9999. *)
Definition marshal_error : error :=
  EOther "json: error calling MarshalJSON for type time.Time: Time.MarshalJSON: year outside of range [0,9999]".

(** A Go pair [(A, error)]. *)
Abbreviation res := (result error).

(** [errors.Is(err, target)]: follows the chain of wrapped errors. *)
Fixpoint errors_Is (err target : error) : bool :=
  bool_decide (err = target)
  || match err with EWrap _ inner => errors_Is inner target | _ => false end.

Lemma errors_Is_refl err : errors_Is err err = true.
Proof. destruct err; cbn; by rewrite bool_decide_eq_true_2. Qed.

(** Of an error that wraps nothing it is the comparison. *)
Definition wraps_nothing (err : error) : Prop := match err with EWrap _ _ => False | _ => True end.

Lemma errors_Is_eq err target : wraps_nothing err -> errors_Is err target = bool_decide (err = target).
Proof. destruct err; cbn; intros H; by rewrite ?orb_false_r. Qed.
#[global] Arguments errors_Is : simpl never.

(** [var pgErr *pgconn.PgError; errors.As(err, &pgErr)]: its SQLSTATE. *)
Fixpoint errors_As_PgError (err : error) : option string :=
  match err with
  | EDriver (driver.PgError code) => Some code
  | EWrap _ inner => errors_As_PgError inner
  | _ => None
  end.

#[export] Hint Rewrite errors_Is_refl : s2r_simp.
