(* ===== verification/Tenant.v ===== *)
(** * Package [internal/domain/tenant], and the interface of google/uuid

    The uuid package is not part of the repository: [UuidLib] is what the code
    relies on, the printer and the parser of the canonical text form. *)
From S2P Require Import Prelude GoJson Errors.
#[local] Open Scope Z_scope.

(** [uuid.UUID], an array of 16 bytes, as the number it spells in base 256. *)
Record UUID := MkUUID { uuid_value : N; uuid_bound : Is_true (uuid_value <? 2 ^ 128)%N }.

Lemma UUID_ext u v : uuid_value u = uuid_value v -> u = v.
Proof.
  destruct u as [n p], v as [m q]. cbn. intros ->. f_equal. apply Is_true_pi.
Qed.

#[global] Instance UUID_eq_dec : EqDecision UUID.
Proof.
  intros u v. destruct (decide (uuid_value u = uuid_value v)) as [E|E].
  - left. by apply UUID_ext.
  - right. congruence.
Defined.

(** The UUID a number below 2^128 spells, [uuid.Nil] for any other number. *)
Definition uuid_of (n : N) : UUID :=
  match decide (Is_true (n <? 2 ^ 128)%N) with
  | left p => MkUUID n p
  | right _ => MkUUID 0%N I
  end.

Lemma uuid_of_value u : uuid_of (uuid_value u) = u.
Proof.
  destruct u as [n p]. unfold uuid_of. cbn. destruct (decide _) as [q|q]; [|done].
  by apply UUID_ext.
Qed.

#[global] Instance UUID_countable : Countable UUID.
Proof. apply (inj_countable' uuid_value uuid_of uuid_of_value). Defined.

Definition Nil : UUID := uuid_of 0.

(** The canonical text of a UUID is made of hexadecimal digits and dashes. *)
Definition uuid_char (b : Z) : Prop := 48 <= b <= 57 \/ 97 <= b <= 102 \/ b = 45.

Class UuidLib := {
  (** [u.String()]. *)
  uuid_String : UUID -> string;
  (** [uuid.Parse(s)]; [None] is an error. *)
  uuid_Parse : string -> option UUID;
  uuid_String_chars : forall u, Forall uuid_char (bytes_of (uuid_String u));
  uuid_Parse_String : forall u, uuid_Parse (uuid_String u) = Some u;
  uuid_String_one : uuid_String (uuid_of 1) = "00000000-0000-0000-0000-000000000001";
}.

Lemma safe_uuid `{UuidLib} u : safe (uuid_String u).
Proof.
  eapply List.Forall_impl; [|apply uuid_String_chars]. intros b Hb.
  unfold uuid_char in Hb. unfold safe_byte. lia.
Qed.

(** A typed tenant identifier. The zero value is invalid. *)
Record ID := MkID { value : UUID }.

#[global] Instance ID_eq_dec : EqDecision ID.
Proof. solve_decision. Defined.
#[global] Instance ID_countable : Countable ID.
Proof. refine (inj_countable' value MkID _). by intros []. Defined.

Definition NewID (u : UUID) : ID := MkID u.
Definition zero_ID : ID := MkID Nil.

Section Tenant.
Context `{UuidLib}.

Definition Parse (s : string) : res ID :=
  match uuid_Parse s with
  | None => Err (tenant.ErrInvalidTenantID : error)
  | Some u => Ok (MkID u)
  end.

Definition MustParse (s : string) : outcome ID :=
  match Parse s with
  | Err _ => Panicked "tenant: invalid id"
  | Ok id => Returned id
  end.

(** The package variable: its initialisation would stop the program if
    [MustParse] panicked ([DefaultID_initialised] shows that it does not). *)
Definition DefaultID : ID :=
  match MustParse "00000000-0000-0000-0000-000000000001" with
  | Returned id => id
  | Panicked _ => zero_ID
  end.

Definition String (t : ID) : string := uuid_String (value t).
Definition IsZero (t : ID) : bool := bool_decide (value t = Nil).

(** [Parse] undoes [String]. *)
Lemma Parse_String t : Parse (String t) = Ok t.
Proof. unfold Parse, String. rewrite uuid_Parse_String. by destruct t. Qed.

Lemma String_inj t t' : String t = String t' -> t = t'.
Proof. intros E. pose proof (Parse_String t) as P. rewrite E, Parse_String in P. by injection P. Qed.

(** The package initialises, and the default tenant is a valid one. *)
Lemma DefaultID_initialised :
  MustParse "00000000-0000-0000-0000-000000000001" = Returned (MkID (uuid_of 1))
  /\ DefaultID = MkID (uuid_of 1) /\ IsZero DefaultID = false.
Proof.
  assert (MustParse "00000000-0000-0000-0000-000000000001" = Returned (MkID (uuid_of 1))) as E.
  { unfold MustParse, Parse. by rewrite <- uuid_String_one, uuid_Parse_String. }
  split; [done|]. unfold DefaultID. rewrite E. split; [done|].
  apply bool_decide_eq_false. by intros [=].
Qed.
End Tenant.
