(* ===== verification/User.v ===== *)
(** * Package [internal/domain/user]: e-mail addresses, password policy, the
    User aggregate and the transaction token. *)
From S2P Require Import Prelude GoText GoTime GoRegexp Errors Tenant.
#[local] Open Scope Z_scope.

(** ** email.go *)

Definition local_class : byte_class :=
  [(97, 122); (48, 57); (46, 46); (95, 95); (37, 37); (43, 43); (45, 45)].
Definition domain_class : byte_class := [(97, 122); (48, 57); (46, 46); (45, 45)].
Definition alpha_class : byte_class := [(97, 122)].

(** [^[a-z0-9._%+\-]+@[a-z0-9.\-]+\.[a-z]{2,}$]. *)
Definition emailRegex : re :=
  RCat (RPlus (RClass local_class))
    (RCat (RByte 64)
      (RCat (RPlus (RClass domain_class))
        (RCat (RByte 46) (RAtLeast2 (RClass alpha_class))))).

Definition emailMaxLen : Z := 254.

Record Email := MkEmail { email_value : string }.

#[global] Instance Email_eq_dec : EqDecision Email.
Proof. solve_decision. Defined.
#[global] Instance Email_countable : Countable Email.
Proof. refine (inj_countable' email_value MkEmail _). by intros []. Defined.

(** [NewEmail] over any lower-casing of the runes outside ASCII. *)
Definition NewEmail_with (other : Z -> Z) (s : string) : res Email :=
  let v := TrimSpace (ToLower_with other s) in
  if bool_decide (v = "") || (emailMaxLen <? len v) then Err (user.ErrInvalidEmail : error)
  else if negb (full_match emailRegex (bytes_of v)) then Err (user.ErrInvalidEmail : error)
  else Ok (MkEmail v).

Definition NewEmail (s : string) : res Email := NewEmail_with (fun r => r) s.

Definition Email_String (e : Email) : string := email_value e.

(** ** password_hash.go *)

Definition PasswordMinLen : Z := 12.
Definition PasswordMaxLen : Z := 256.

Record PasswordHash := MkPasswordHash { encoded : string }.

#[global] Instance PasswordHash_eq_dec : EqDecision PasswordHash.
Proof. solve_decision. Defined.

Definition NewPasswordHash (s : string) : PasswordHash := MkPasswordHash s.
Definition PasswordHash_String (p : PasswordHash) : string := encoded p.
Definition PasswordHash_IsZero (p : PasswordHash) : bool := bool_decide (encoded p = "").

Definition ValidatePasswordPolicy (raw : string) : res unit :=
  if (len raw <? PasswordMinLen) || (PasswordMaxLen <? len raw)
  then Err (user.ErrWeakPassword : error) else Ok tt.

(** ** user.go *)

(** [type Status string] with its four declared values. *)
Definition Status : Type := string.
Definition StatusActive : Status := "active".
Definition StatusPendingActivation : Status := "pending_activation".
Definition StatusSuspended : Status := "suspended".
Definition StatusRejected : Status := "rejected".

Record User := MkUser {
  id : UUID;
  tenantID : ID;
  email : Email;
  passwordHash : PasswordHash;
  status : Status;
  createdAt : Time;
  updatedAt : Time;
}.

#[global] Instance User_eq_dec : EqDecision User.
Proof. solve_decision. Defined.

Definition New (uid : UUID) (t : ID) (em : Email) (hash : PasswordHash) (now : Time) : User :=
  MkUser uid t em hash StatusActive now now.

Definition Hydrate (uid : UUID) (t : ID) (em : Email) (hash : PasswordHash) (st : Status)
    (created updated : Time) : User :=
  MkUser uid t em hash st created updated.

(** ** repository.go: the opaque transaction token

    [Tx] wraps a value of the empty interface type: nothing, a pgx.Tx (named by
    the driver's handle) or a value of another type. *)
Inductive any :=
| any_nil
| any_pgx_tx (handle : positive)
| any_foreign.

#[global] Instance any_eq_dec : EqDecision any.
Proof. solve_decision. Defined.

Record Tx := MkTx { inner : any }.

#[global] Instance Tx_eq_dec : EqDecision Tx.
Proof. solve_decision. Defined.

Definition NewTx (i : any) : Tx := MkTx i.
Definition InnerTx (t : Tx) : any := inner t.

(** ** What NewEmail accepts *)

(** A byte string of the form local@domain.tld in lower case. *)
Definition address (v : list Z) : Prop :=
  exists loc dom tld,
    v = loc ++ [64] ++ dom ++ [46] ++ tld
    /\ loc <> [] /\ Forall (fun b => in_class local_class b = true) loc
    /\ dom <> [] /\ Forall (fun b => in_class domain_class b = true) dom
    /\ (2 <= length tld)%nat /\ Forall (fun b => in_class alpha_class b = true) tld.

(** The compiled pattern matches the addresses. *)
Lemma emailRegex_spec v : full_match emailRegex v = true <-> address v.
Proof.
  rewrite full_match_spec. split.
  - intros H. apply denotes_cat_inv in H as (loc & r1 & -> & [Hl Hlc]%denotes_class_plus & H).
    apply denotes_cat_inv in H as (a & r2 & -> & ->%denotes_byte & H).
    apply denotes_cat_inv in H as (dom & r3 & -> & [Hd Hdc]%denotes_class_plus & H).
    apply denotes_cat_inv in H as (d & tld & -> & ->%denotes_byte & [Ht Htc]%denotes_class_atleast2).
    by exists loc, dom, tld.
  - intros (loc & dom & tld & -> & Hl & Hlc & Hd & Hdc & Ht & Htc).
    apply denotes_cat; [by apply denotes_class_plus|].
    apply denotes_cat; [by apply denotes_byte|].
    apply denotes_cat; [by apply denotes_class_plus|].
    apply denotes_cat; [by apply denotes_byte|by apply denotes_class_atleast2].
Qed.

Definition address_byte (b : Z) : Prop :=
  33 <= b < 128 /\ ~ (65 <= b <= 90) /\ b <> 34 /\ b <> 38 /\ b <> 60 /\ b <> 62 /\ b <> 92.

Lemma address_bytes v : address v -> Forall address_byte v.
Proof.
  intros (loc & dom & tld & -> & _ & Hl & _ & Hd & _ & Ht).
  assert (forall c l, (forall b, in_class c b = true -> address_byte b) ->
            Forall (fun b => in_class c b = true) l -> Forall address_byte l) as Hc
    by (intros c l Hcb; apply List.Forall_impl; exact Hcb).
  rewrite !Forall_app. split; [|split; [|split; [|split]]].
  2,4: constructor; [unfold address_byte; lia|constructor].
  all: eapply Hc; [|eassumption]; intros b; unfold in_class, address_byte; cbn; lia.
Qed.

Lemma NewEmail_ok_inv s e :
  NewEmail s = Ok e ->
  email_value e = TrimSpace (ToLower s) /\ address (bytes_of (email_value e))
  /\ len (email_value e) <= emailMaxLen.
Proof.
  unfold NewEmail, NewEmail_with, ToLower. case_match eqn:E1; [done|].
  case_match eqn:E2; [done|]. intros [= <-]. cbn.
  apply orb_false_iff in E1 as [_ E1]. apply negb_false_iff, emailRegex_spec in E2.
  split; [done|]. split; [done|]. lia.
Qed.

Lemma address_nonempty v : address (bytes_of v) -> v <> "".
Proof. intros (loc & dom & tld & E & Hne & _) ->. by destruct loc. Qed.

(** An address is its own canonical form. *)
Lemma NewEmail_address v :
  address (bytes_of v) -> len v <= emailMaxLen -> NewEmail v = Ok (MkEmail v).
Proof.
  intros Ha Hlen. unfold NewEmail, NewEmail_with.
  pose proof (address_bytes _ Ha) as Hb. change (ToLower_with (fun r => r) v) with (ToLower v).
  rewrite ToLower_ascii by (eapply List.Forall_impl; [|exact Hb]; unfold address_byte; cbn; lia).
  rewrite TrimSpace_ascii by (eapply List.Forall_impl; [|exact Hb]; unfold address_byte; cbn; lia).
  rewrite bool_decide_eq_false_2 by (by apply address_nonempty).
  rewrite (proj2 (Z.ltb_ge emailMaxLen (len v))) by lia. cbn.
  by rewrite (proj2 (emailRegex_spec _) Ha).
Qed.

(** C35: [NewEmail] accepts exactly the texts whose lower-cased, trimmed form
    is an address of the pattern of at most 254 bytes, and keeps that form. *)
Theorem NewEmail_spec s e :
  NewEmail s = Ok e <->
  email_value e = TrimSpace (ToLower s) /\ address (bytes_of (email_value e))
  /\ len (email_value e) <= emailMaxLen.
Proof.
  split; [apply NewEmail_ok_inv|]. intros (E & Ha & Hlen).
  unfold NewEmail, NewEmail_with. fold (ToLower s). rewrite <- E.
  rewrite bool_decide_eq_false_2 by (by apply address_nonempty).
  rewrite (proj2 (Z.ltb_ge emailMaxLen (len (email_value e)))) by lia. cbn.
  rewrite (proj2 (emailRegex_spec _) Ha). by destruct e.
Qed.

Lemma NewEmail_again s e : NewEmail s = Ok e -> NewEmail (Email_String e) = Ok e.
Proof. intros E. apply NewEmail_ok_inv in E as (_ & Ha & Hlen). destruct e. by apply NewEmail_address. Qed.

(** Normalisation is idempotent: an accepted address is accepted again
    unchanged, and the only error is [ErrInvalidEmail]. *)
Theorem NewEmail_canonical s :
  match NewEmail s with
  | Ok e => NewEmail (Email_String e) = Ok e
  | Err err => err = user.ErrInvalidEmail
  end.
Proof.
  destruct (NewEmail s) as [e|err] eqn:E.
  - by eapply NewEmail_again.
  - revert E. unfold NewEmail, NewEmail_with. repeat case_match; by intros [= <-].
Qed.

(** ** Independence from the Unicode tables *)

Lemma encode_lower_high other r :
  unicode_lower other -> valid_rune r -> 0x80 <= lower_rune_with (fun r => r) r ->
  exists b, b ∈ encode_rune (lower_rune_with other r) /\ 0x80 <= b.
Proof.
  intros Ho Hr Hhigh.
  assert (0x80 <= lower_rune_with other r) as Hl.
  { revert Hhigh. unfold lower_rune_with. repeat case_match; try lia. intros _.
    apply Ho; [lia|done]. }
  pose proof (lower_rune_valid other r Ho Hr) as Hv. unfold encode_rune.
  set (x := lower_rune_with other r) in *. clearbody x.
  rewrite (proj2 (Z.ltb_ge x 0x80)) by lia.
  repeat case_match; eexists; (split; [apply list_elem_of_here|]);
    unfold valid_rune in Hv; Z.to_euclidean_division_equations; lia.
Qed.

(** A string with a rune left outside ASCII has a byte no class accepts. *)
Lemma high_rune_rejected other s r :
  unicode_lower other -> r ∈ lowered_runes s -> 0x80 <= lower_rune_with (fun r => r) r ->
  full_match emailRegex (bytes_of (TrimSpace (ToLower_with other s))) = false.
Proof.
  intros Ho Hr Hhigh. apply not_true_iff_false. intros Ha%emailRegex_spec%address_bytes.
  pose proof (lowered_runes_valid s) as Hv.
  rewrite TrimSpace_ToLower in Ha by done.
  rewrite bytes_of_of in Ha.
  2:{ apply List.Forall_concat. rewrite Forall_map. eapply Forall_impl; [exact Hv|].
      intros x Hx. by apply encode_rune_bytes, lower_rune_valid. }
  rewrite Forall_forall in Hv.
  destruct (encode_lower_high other r Ho (Hv r Hr) Hhigh) as (b & Hb & Hb80).
  rewrite Forall_forall in Ha. specialize (Ha b). unfold address_byte in Ha.
  destruct Ha; [|lia]. apply list_elem_of_In, in_concat.
  eexists. split; [|by apply list_elem_of_In].
  apply in_map_iff. exists r. split; [done|]. by apply list_elem_of_In.
Qed.

(** C36: [NewEmail] does not depend on the Unicode case tables outside ASCII: any
    lower-casing that the documentation of package unicode allows gives the same
    answer. *)
Theorem NewEmail_unicode_independent other s :
  unicode_lower other -> NewEmail_with other s = NewEmail s.
Proof.
  intros Ho. pose proof unicode_lower_id as Hid.
  destruct (decide (Exists (fun r => 0x80 <= lower_rune_with (fun r => r) r) (lowered_runes s)))
    as [He|He].
  - apply Exists_exists in He as (r & Hr & Hhigh).
    unfold NewEmail, NewEmail_with.
    rewrite (high_rune_rejected other s r Ho Hr Hhigh), (high_rune_rejected _ s r Hid Hr Hhigh).
    by repeat case_match.
  - unfold NewEmail, NewEmail_with. rewrite !TrimSpace_ToLower by done.
    enough (map (fun r => encode_rune (lower_rune_with other r)) (lowered_runes s)
            = map (fun r => encode_rune (lower_rune_with (fun r => r) r)) (lowered_runes s)) as -> by done.
    apply map_ext_in. intros r Hr. f_equal.
    assert (~ 0x80 <= lower_rune_with (fun r => r) r) as Hlow.
    { intros Hx. apply He, Exists_exists. exists r. split; [by apply list_elem_of_In|done]. }
    revert Hlow. unfold lower_rune_with. repeat case_match; lia.
Qed.

Lemma ValidatePasswordPolicy_spec raw :
  ValidatePasswordPolicy raw = Ok tt <-> PasswordMinLen <= len raw <= PasswordMaxLen.
Proof. unfold ValidatePasswordPolicy. case_match eqn:E; split; try done; intros; lia. Qed.
