(* ===== verification/Session.v ===== *)
(** * Package [internal/domain/session]: opaque tokens, the Session aggregate
    and the payload of the session cache. *)
From S2P Require Import Prelude GoEncoding GoTime Errors Tenant.
#[local] Open Scope Z_scope.

(** ** token.go *)

(** The plaintext token of a session cookie. *)
Record Token := MkToken { token_value : string }.

#[global] Instance Token_eq_dec : EqDecision Token.
Proof. solve_decision. Defined.

Definition NewToken (s : string) : res Token :=
  if (len s <? 32) || (128 <? len s) then Err (session.ErrInvalidToken : error)
  else Ok (MkToken s).

Definition Token_String (t : Token) : string := token_value t.

Definition Token_Hash (t : Token) : string := Sum256 (token_value t).

Definition HashOf (raw : string) : string := Sum256 raw.

(** ** session.go *)

Record Session := MkSession {
  id : UUID;
  tenantID : ID;
  userID : UUID;
  tokenHash : string;
  createdAt : Time;
  expiresAt : Time;
  revokedAt : option Time;
}.

#[global] Instance Session_eq_dec : EqDecision Session.
Proof. solve_decision. Defined.

Definition New (sid : UUID) (t : ID) (uid : UUID) (hash : string) (now expires : Time) : Session :=
  MkSession sid t uid hash now expires None.

Definition Hydrate (sid : UUID) (t : ID) (uid : UUID) (hash : string) (created expires : Time)
    (revoked : option Time) : Session :=
  MkSession sid t uid hash created expires revoked.

Definition IsActive (s : Session) (now : Time) : bool :=
  match revokedAt s with
  | Some _ => false
  | None => Before now (expiresAt s)
  end.

(** ** cache.go *)

(** What the write-through cache stores under the hex digest of a token. *)
Record CachedSession := MkCachedSession {
  SessionID : UUID;
  UserID : UUID;
  TenantID : ID;
  ExpiresAt : Time;
}.

#[global] Instance CachedSession_eq_dec : EqDecision CachedSession.
Proof. solve_decision. Defined.

(** ** Lemmas *)

Lemma NewToken_spec s :
  NewToken s = if decide (32 <= len s <= 128) then Ok (MkToken s)
               else Err (session.ErrInvalidToken : error).
Proof. unfold NewToken. repeat case_match; try done; lia. Qed.

(** The digest the middleware computes from a cookie is the one stored when
    the token was issued. *)
Lemma HashOf_String t : HashOf (Token_String t) = Token_Hash t.
Proof. done. Qed.

Lemma IsActive_spec s now :
  IsActive s now = true <-> revokedAt s = None /\ now < expiresAt s.
Proof.
  unfold IsActive, Before. destruct (revokedAt s).
  - by split; [|intros [? _]].
  - rewrite Z.ltb_lt. tauto.
Qed.

(** A session that has ended stays ended. *)
Lemma IsActive_antimono s now later : now <= later -> IsActive s later = true -> IsActive s now = true.
Proof. rewrite !IsActive_spec. intros ? [? ?]. split; [done|lia]. Qed.
