(* ===== verification/Outbox.v ===== *)
(** * Package [internal/domain/outbox]: the events of the transactional outbox. *)
From S2P Require Import Prelude GoTime Errors Tenant.

Definition TopicUserCreated : string := "identity.user.created.v1".
Definition TopicSessionCreated : string := "identity.session.created.v1".
Definition TopicSessionRevoked : string := "identity.session.revoked.v1".

(** One outbox row; [payload] is JSON text. *)
Record Event := MkEvent {
  id : UUID;
  tenantID : ID;
  aggregateType : string;
  aggregateID : UUID;
  eventType : string;
  payload : string;
  createdAt : Time;
}.

#[global] Instance Event_eq_dec : EqDecision Event.
Proof. solve_decision. Defined.

Definition New (eid : UUID) (t : ID) (aggType : string) (aggID : UUID) (evType : string)
    (body : string) (now : Time) : Event :=
  MkEvent eid t aggType aggID evType body now.
