(* ===== verification/Ports.v ===== *)
(** * The interfaces of the domain layer

    The use cases and the middleware reach the outside through Go interfaces:
    domain.UnitOfWork, user.Repository, session.Repository, outbox.Repository,
    session.Cache, user.PasswordHasher, session.TokenGenerator, clock.Clock,
    and through uuid.New, time.Now, the logger and the tracer.  A call of one of their
    methods is a [Port] event. The context argument is left out: cancellation
    and deadlines surface as errors of the call. *)
From S2P Require Import Prelude GoTime Errors Tenant User Session Outbox.

(** The clock of a use case, [time.Now] and the middleware's [nowFn]. *)
Inductive ClockSource := UseCaseClock | TimeNow | NowFn.

Inductive Level := Debug | Info | Warn | Error.
Inductive attr :=
| AString (s : string)
| AUuid (u : UUID)
| AErr (e : error)
| AInt (n : Z)
| AStrings (l : list string)
| AStack.   (** the text of [debug.Stack()] *)
Record LogRecord := MkLog { level : Level; message : string; attrs : list (string * attr) }.

#[global] Instance Level_eq_dec : EqDecision Level.
Proof. solve_decision. Defined.
#[global] Instance attr_eq_dec : EqDecision attr.
Proof. solve_decision. Defined.
#[global] Instance LogRecord_eq_dec : EqDecision LogRecord.
Proof. solve_decision. Defined.

(** internal/domain/uow.go *)
Inductive UnitOfWork : Type -> Type :=
| Begin : UnitOfWork (res Tx)
| Commit (tx : Tx) : UnitOfWork (res unit)
| Rollback (tx : Tx) : UnitOfWork (res unit).

(** internal/domain/user/repository.go *)
Inductive UserRepository : Type -> Type :=
| UserSaveTx (tx : Tx) (u : User.User) : UserRepository (res unit)
| FindByEmail (t : ID) (e : Email) : UserRepository (res User.User)
| FindByID (t : ID) (uid : UUID) : UserRepository (res User.User).

(** internal/domain/session/repository.go *)
Inductive SessionRepository : Type -> Type :=
| SessionSaveTx (tx : Tx) (s : Session.Session) : SessionRepository (res unit)
| FindByTokenHash (hash : string) : SessionRepository (res Session.Session)
| RevokeTx (tx : Tx) (t : ID) (sid : UUID) : SessionRepository (res unit).

(** internal/domain/outbox/repository.go *)
Inductive OutboxRepository : Type -> Type :=
| WriteTx (tx : Tx) (ev : Event) : OutboxRepository (res unit).

(** internal/domain/session/cache.go *)
Inductive Cache : Type -> Type :=
| CacheSet (key : string) (body : CachedSession) (ttl : Duration) : Cache (res unit)
| CacheGet (key : string) : Cache (res CachedSession)
| CacheDelete (key : string) : Cache (res unit).

(** internal/domain/user/password_hash.go *)
Inductive PasswordHasher : Type -> Type :=
| Hash (raw : string) : PasswordHasher (res PasswordHash)
| Verify (hash : PasswordHash) (raw : string) : PasswordHasher (res bool).

(** internal/domain/session/token.go *)
Inductive TokenGenerator : Type -> Type :=
| GenerateToken : TokenGenerator (res Token).

(** A span of the OpenTelemetry tracer. *)
Inductive Tracer : Type -> Type :=
| SpanStart (name : string) (attributes : list (string * attr)) : Tracer positive
| SetAttributes (span : positive) (attributes : list (string * attr)) : Tracer unit
| SpanEnd (span : positive) : Tracer unit.

Inductive Port : Type -> Type :=
| Uow {R} (c : UnitOfWork R) : Port R
| Users {R} (c : UserRepository R) : Port R
| Sessions {R} (c : SessionRepository R) : Port R
| OutboxRepo {R} (c : OutboxRepository R) : Port R
| SessionCache {R} (c : Cache R) : Port R
| Hasher {R} (c : PasswordHasher R) : Port R
| Tokens {R} (c : TokenGenerator R) : Port R
| Now (src : ClockSource) : Port Time
| UuidNew : Port UUID
| Log (r : LogRecord) : Port unit
| Trace {R} (c : Tracer R) : Port R.
