(* ===== verification/PortSpec.v ===== *)
(** * What the domain layer promises through its interfaces

    An abstract system state and, for every interface call, the answers and
    state changes the documented contract of the interface allows: success,
    the documented sentinel errors under their conditions, and failures of the
    infrastructure (an error the code does not recognise, or a panic) at any
    call.  The use cases and the middleware are verified against it; Postgres
    and Valkey implementations refine it. *)
From S2P Require Import Prelude Program GoTime Errors Tenant User Session Outbox Ports.
#[local] Open Scope Z_scope.

(** ** The state *)

(** The committed contents of the three tables, by primary key. *)
Record Store := MkStore {
  users : gmap UUID User.User;
  sessions : gmap UUID Session.Session;
  events : gmap UUID Event;
}.

(** What a transaction will do to the store when it commits. *)
Inductive Write :=
| WUser (u : User.User)
| WSession (s : Session.Session)
| WRevoke (sid : UUID) (t : Time)
| WEvent (e : Event).

(** An open transaction with its writes, or one that a failed statement has
    aborted. *)
Inductive TxState :=
| TxActive (ws : list Write)
| TxAborted.

Record Sys := MkSys {
  committed : Store;
  txs : gmap positive TxState;
  (** the cached payload and the TTL it was written with *)
  cache : gmap string (CachedSession * Duration);
  now : Time;
  logs : list LogRecord;
}.

Definition set_committed (st : Store) (s : Sys) : Sys :=
  MkSys st (txs s) (cache s) (now s) (logs s).
Definition set_txs (m : gmap positive TxState) (s : Sys) : Sys :=
  MkSys (committed s) m (cache s) (now s) (logs s).
Definition set_cache (c : gmap string (CachedSession * Duration)) (s : Sys) : Sys :=
  MkSys (committed s) (txs s) c (now s) (logs s).
Definition set_now (t : Time) (s : Sys) : Sys :=
  MkSys (committed s) (txs s) (cache s) t (logs s).
Definition add_log (r : LogRecord) (s : Sys) : Sys :=
  MkSys (committed s) (txs s) (cache s) (now s) (logs s ++ [r]).

(** ** Rows and writes *)

(** Timestamps are stored with microsecond resolution. *)
Definition stored_time (t : Time) : Time := t / 1000 * 1000.

Definition stored_user (u : User.User) : User.User :=
  User.Hydrate (User.id u) (User.tenantID u) (User.email u) (User.passwordHash u) (User.status u)
    (stored_time (User.createdAt u)) (stored_time (User.updatedAt u)).

Definition stored_session (s : Session.Session) : Session.Session :=
  Session.Hydrate (Session.id s) (Session.tenantID s) (Session.userID s) (Session.tokenHash s)
    (stored_time (Session.createdAt s)) (stored_time (Session.expiresAt s))
    (option_map stored_time (Session.revokedAt s)).

Definition stored_event (e : Event) : Event :=
  Outbox.New (Outbox.id e) (Outbox.tenantID e) (aggregateType e) (aggregateID e) (eventType e)
    (payload e) (stored_time (Outbox.createdAt e)).

(** [revoked_at = COALESCE(revoked_at, now())]. *)
Definition revoke (t : Time) (s : Session.Session) : Session.Session :=
  Session.Hydrate (Session.id s) (Session.tenantID s) (Session.userID s) (Session.tokenHash s)
    (Session.createdAt s) (Session.expiresAt s) (Some (default t (Session.revokedAt s))).

Definition apply_write (st : Store) (w : Write) : Store :=
  match w with
  | WUser u => MkStore (<[User.id u := u]> (users st)) (sessions st) (events st)
  | WSession s => MkStore (users st) (<[Session.id s := s]> (sessions st)) (events st)
  | WRevoke sid t => MkStore (users st) (alter (revoke t) sid (sessions st)) (events st)
  | WEvent e => MkStore (users st) (sessions st) (<[Outbox.id e := e]> (events st))
  end.
Definition apply_writes (ws : list Write) (st : Store) : Store := fold_left apply_write ws st.

(** The unique indexes: users (id), users (tenant_id, email), sessions (id),
    sessions (token_hash), outbox_events (id). *)
Definition user_conflict (st : Store) (u : User.User) : Prop :=
  is_Some (users st !! User.id u)
  \/ exists i v, users st !! i = Some v /\ User.tenantID v = User.tenantID u /\ User.email v = User.email u.
Definition session_conflict (st : Store) (x : Session.Session) : Prop :=
  is_Some (sessions st !! Session.id x)
  \/ exists i v, sessions st !! i = Some v /\ Session.tokenHash v = Session.tokenHash x.

(** A pending insert of another transaction that an insert would have to wait
    for. *)
Definition write_clash (w w' : Write) : Prop :=
  match w, w' with
  | WUser u, WUser v =>
    User.id u = User.id v \/ (User.tenantID u = User.tenantID v /\ User.email u = User.email v)
  | WSession x, WSession y =>
    Session.id x = Session.id y \/ Session.tokenHash x = Session.tokenHash y
  | WEvent e, WEvent f => Outbox.id e = Outbox.id f
  | _, _ => False
  end.
Definition unblocked (s : Sys) (h : positive) (w : Write) : Prop :=
  forall h' ws w', txs s !! h' = Some (TxActive ws) -> h' <> h -> w' ∈ ws -> ~ write_clash w w'.

(** ** Failures *)

(** An error the code compares with no sentinel. *)
Definition infra (e : error) : Prop :=
  match e with EDriver _ | EOther _ => True | _ => False end.

(** The call fails for a reason outside the contract of the interface. *)
Definition fails {A} (o : outcome (res A)) : Prop :=
  (exists e, o = Returned (Err e) /\ infra e) \/ exists msg, o = Panicked msg.

(** ** The contract of each interface *)

Definition open_tx (s : Sys) (tx : Tx) : option (positive * list Write) :=
  match InnerTx tx with
  | any_pgx_tx h => match txs s !! h with Some (TxActive ws) => Some (h, ws) | _ => None end
  | _ => None
  end.

Definition tx_view (s : Sys) (ws : list Write) : Store := apply_writes ws (committed s).
Definition write_in (h : positive) (ws : list Write) (w : Write) (s : Sys) : Sys :=
  set_txs (<[h := TxActive (ws ++ [w])]> (txs s)) s.
Definition abort_in (h : positive) (s : Sys) : Sys := set_txs (<[h := TxAborted]> (txs s)) s.
Definition close_tx (tx : Tx) (s : Sys) : Sys :=
  match InnerTx tx with
  | any_pgx_tx h => set_txs (delete h (txs s)) s
  | _ => s
  end.

(** A statement inside a transaction: it fails without effect on a token that
    names no open transaction; in an open one it may fail and abort it, or do
    what [ok] says. *)
Definition in_tx {A} (tx : Tx) (s : Sys) (o : outcome (res A)) (s' : Sys)
    (ok : positive -> list Write -> Prop) : Prop :=
  match open_tx s tx with
  | None => fails o /\ s' = s
  | Some (h, ws) => ok h ws \/ (fails o /\ s' = abort_in h s)
  end.

Definition uow_step {R} (c : UnitOfWork R) : Sys -> outcome R -> Sys -> Prop :=
  match c in UnitOfWork R return Sys -> outcome R -> Sys -> Prop with
  | Begin => fun s o s' =>
      (exists h, txs s !! h = None /\ o = Returned (Ok (NewTx (any_pgx_tx h)))
                 /\ s' = set_txs (<[h := TxActive []]> (txs s)) s)
      \/ (fails o /\ s' = s)
  | Commit tx => fun s o s' =>
      match open_tx s tx with
      | None => fails o /\ s' = close_tx tx s
      | Some (h, ws) =>
          (o = Returned (Ok tt) /\ s' = set_committed (tx_view s ws) (close_tx tx s))
          (** a lost acknowledgement leaves open whether the commit took effect *)
          \/ (fails o /\ (s' = close_tx tx s \/ s' = set_committed (tx_view s ws) (close_tx tx s)))
      end
  | Rollback tx => fun s o s' => (o = Returned (Ok tt) \/ fails o) /\ s' = close_tx tx s
  end.

Definition users_step {R} (c : UserRepository R) : Sys -> outcome R -> Sys -> Prop :=
  match c in UserRepository R return Sys -> outcome R -> Sys -> Prop with
  | UserSaveTx tx u => fun s o s' =>
      in_tx tx s o s' (fun h ws =>
        (o = Returned (Ok tt) /\ ~ user_conflict (tx_view s ws) u
         /\ unblocked s h (WUser (stored_user u)) /\ s' = write_in h ws (WUser (stored_user u)) s)
        \/ (o = Returned (Err (user.ErrEmailTaken : error)) /\ user_conflict (tx_view s ws) u
            /\ s' = abort_in h s))
  | FindByEmail t e => fun s o s' =>
      s' = s /\
      ((exists i u, o = Returned (Ok u) /\ users (committed s) !! i = Some u
                    /\ User.tenantID u = t /\ User.email u = e)
       \/ (o = Returned (Err (user.ErrUserNotFound : error))
           /\ forall i u, users (committed s) !! i = Some u -> ~ (User.tenantID u = t /\ User.email u = e))
       \/ fails o)
  | FindByID t uid => fun s o s' =>
      s' = s /\
      ((exists u, o = Returned (Ok u) /\ users (committed s) !! uid = Some u /\ User.tenantID u = t)
       \/ (o = Returned (Err (user.ErrUserNotFound : error))
           /\ forall u, users (committed s) !! uid = Some u -> User.tenantID u <> t)
       \/ fails o)
  end.

Definition sessions_step {R} (c : SessionRepository R) : Sys -> outcome R -> Sys -> Prop :=
  match c in SessionRepository R return Sys -> outcome R -> Sys -> Prop with
  | SessionSaveTx tx x => fun s o s' =>
      in_tx tx s o s' (fun h ws =>
        o = Returned (Ok tt) /\ ~ session_conflict (tx_view s ws) x
        /\ unblocked s h (WSession (stored_session x))
        /\ is_Some (users (tx_view s ws) !! Session.userID x)
        /\ s' = write_in h ws (WSession (stored_session x)) s)
  | FindByTokenHash hash => fun s o s' =>
      s' = s /\
      ((exists i x, o = Returned (Ok x) /\ sessions (committed s) !! i = Some x /\ Session.tokenHash x = hash)
       \/ (o = Returned (Err (session.ErrSessionNotFound : error))
           /\ forall i x, sessions (committed s) !! i = Some x -> Session.tokenHash x <> hash)
       \/ fails o)
  | RevokeTx tx t sid => fun s o s' =>
      in_tx tx s o s' (fun h ws =>
        (exists x at_, o = Returned (Ok tt) /\ sessions (tx_view s ws) !! sid = Some x
                       /\ Session.tenantID x = t /\ s' = write_in h ws (WRevoke sid at_) s)
        \/ (o = Returned (Err (session.ErrSessionNotFound : error))
            /\ (forall x, sessions (tx_view s ws) !! sid = Some x -> Session.tenantID x <> t)
            /\ s' = s))
  end.

Definition outbox_step {R} (c : OutboxRepository R) : Sys -> outcome R -> Sys -> Prop :=
  match c in OutboxRepository R return Sys -> outcome R -> Sys -> Prop with
  | WriteTx tx ev => fun s o s' =>
      in_tx tx s o s' (fun h ws =>
        o = Returned (Ok tt) /\ events (tx_view s ws) !! Outbox.id ev = None
        /\ unblocked s h (WEvent (stored_event ev))
        /\ s' = write_in h ws (WEvent (stored_event ev)) s)
  end.

(** An entry may vanish at any time (expiry, eviction), so a miss is always
    possible; a failed write or delete may or may not have taken effect. *)
Definition cache_step {R} (c : Cache R) : Sys -> outcome R -> Sys -> Prop :=
  match c in Cache R return Sys -> outcome R -> Sys -> Prop with
  | CacheSet key body ttl => fun s o s' =>
      (o = Returned (Ok tt) /\ s' = set_cache (<[key := (body, ttl)]> (cache s)) s)
      \/ (fails o /\ (s' = s \/ s' = set_cache (<[key := (body, ttl)]> (cache s)) s))
  | CacheGet key => fun s o s' =>
      (exists body ttl, o = Returned (Ok body) /\ cache s !! key = Some (body, ttl) /\ s' = s)
      \/ (o = Returned (Err (session.ErrCacheMiss : error))
          /\ (s' = s \/ s' = set_cache (delete key (cache s)) s))
      \/ (fails o /\ s' = s)
  | CacheDelete key => fun s o s' =>
      (o = Returned (Ok tt) /\ s' = set_cache (delete key (cache s)) s)
      \/ (fails o /\ (s' = s \/ s' = set_cache (delete key (cache s)) s))
  end.

Section Contract.
(** Whether a stored hash accepts a raw password: fixed by the hashing
    scheme, see Argon2id.v. *)
Context (verifies : PasswordHash -> string -> bool).

(** What the answers are.  The comment on [user.PasswordHasher] also demands that
    Verify takes constant time per length and always runs the key derivation: no
    caller can observe that in an answer, so it is no part of this relation, and
    the adapter does not do the latter ([Argon2id.Verify_without_KDF]). *)
Definition hasher_step {R} (c : PasswordHasher R) : Sys -> outcome R -> Sys -> Prop :=
  match c in PasswordHasher R return Sys -> outcome R -> Sys -> Prop with
  | Hash raw => fun s o s' =>
      s' = s /\ ((exists h, o = Returned (Ok h) /\ verifies h raw = true) \/ fails o)
  | Verify h raw => fun s o s' =>
      s' = s /\ (o = Returned (Ok (verifies h raw)) \/ fails o)
  end.

Definition tokens_step {R} (c : TokenGenerator R) : Sys -> outcome R -> Sys -> Prop :=
  match c in TokenGenerator R return Sys -> outcome R -> Sys -> Prop with
  | GenerateToken => fun s o s' =>
      s' = s /\ ((exists t, o = Returned (Ok t) /\ 32 <= len (token_value t) <= 128) \/ fails o)
  end.

Definition pstep : forall R, Port R -> Sys -> outcome R -> Sys -> Prop :=
  fun R op =>
  match op in Port R return Sys -> outcome R -> Sys -> Prop with
  | Uow c => uow_step c
  | Users c => users_step c
  | Sessions c => sessions_step c
  | OutboxRepo c => outbox_step c
  | SessionCache c => cache_step c
  | Hasher c => hasher_step c
  | Tokens c => tokens_step c
  | Now _ => fun s o s' => exists t, now s <= t /\ o = Returned t /\ s' = set_now t s
  | UuidNew => fun s o s' => s' = s /\ ((exists u, o = Returned u) \/ exists msg, o = Panicked msg)
  | Log r => fun s o s' => o = Returned tt /\ s' = add_log r s
  | Trace _ => fun s o s' => (exists r, o = Returned r) /\ s' = s
  end.
End Contract.
