(* ===== verification/PortRules.v ===== *)
(** * Symbolic execution against the contract of the interfaces

    Rules for [wp] of Go function bodies, and the states a transaction goes
    through.  [tx_at h ws s] is [s] with the transaction [h] open after the
    writes [ws]; every statement of the contract maps it to another [tx_at] or
    to [tx_dead h s], and closing the transaction gives [s] back. *)
From S2P Require Import Prelude Program GoTime Errors Tenant User Session Outbox Ports PortSpec.
#[local] Open Scope Z_scope.

(** [return ..., err]. *)
Definition fail {E L A} (e : error) : G E L (res A) := ret (Err e).

(** ** Go function bodies *)

Section GoRules.
Context {E : Type -> Type} {L S : Type}.
Context (spec : forall R, E R -> S -> outcome R -> S -> Prop).

Lemma wp_bind_go {A B} (m : G E L A) (f : A -> G E L B) Q l s :
  wp spec (m l) (fun ol s' =>
    match ol with
    | (Returned a, l') => wp spec (f a l') Q s'
    | (Panicked msg, l') => Q (Panicked msg, l') s'
    end) s ->
  wp spec (bind m f l) Q s.
Proof.
  intros H. apply wp_bind. eapply wp_mono; [|exact H].
  intros [[a|msg] l'] s'; cbn; done.
Qed.

Lemma wp_call_go {R} (e : E R) Q (l : L) s :
  (forall o s', spec _ e s o s' -> Q (o, l) s') -> wp spec (call e l) Q s.
Proof. done. Qed.

Lemma wp_defer {A} (c : G E L unit) (m : G E L A) Q l s :
  wp spec (m l) (fun ol s' => wp spec (c ol.2) (fun cl s'' =>
    Q (match cl.1 with Returned _ => ol.1 | Panicked msg => Panicked msg end, cl.2) s'') s') s ->
  wp spec (defer c m l) Q s.
Proof.
  intros H. apply wp_bind. eapply wp_mono; [|exact H]. cbn. intros ol s' H'.
  apply wp_bind. eapply wp_mono; [|exact H']. by intros [[[]|msg] l'] s''.
Qed.

Lemma wp_scope {L' A} (l0 : L') (m : G E L' A) Q (l : L) s :
  wp spec (m l0) (fun ol s' => Q (ol.1, l) s') s -> wp spec (scope l0 m l) Q s.
Proof. intros H. apply wp_bind. eapply wp_mono; [|exact H]. done. Qed.

Lemma wp_recovering (h : string -> G E L unit) (m : G E L unit) Q l s :
  wp spec (m l) (fun ol s' =>
    match ol with
    | (Returned a, l') => Q (Returned a, l') s'
    | (Panicked msg, l') => wp spec (h msg l') Q s'
    end) s ->
  wp spec (recovering h m l) Q s.
Proof.
  intros H. apply wp_bind. eapply wp_mono; [|exact H].
  intros [[a|msg] l'] s'; cbn; done.
Qed.
End GoRules.

(** One rule for the head of the program. *)
Ltac wp_rule :=
  lazymatch goal with
  | |- wp _ (bind _ _ _) _ _ => apply wp_bind_go
  | |- wp _ (call _ _) _ _ => apply wp_call_go
  | |- wp _ (defer _ _ _) _ _ => apply wp_defer
  | |- wp _ (scope _ _ _) _ _ => apply wp_scope
  | |- wp _ (recovering _ _ _) _ _ => apply wp_recovering
  | |- wp _ (ret _ _) _ _ => cbn [wp ret]
  | |- wp _ (fail _ _) _ _ => cbn [wp ret fail]
  | |- wp _ (get _) _ _ => cbn [wp get]
  | |- wp _ (put _ _) _ _ => cbn [wp put modify]
  | |- wp _ (modify _ _) _ _ => cbn [wp modify]
  end; cbv beta iota.

(** ** Transactions *)

Definition tx_at (h : positive) (ws : list Write) (s : Sys) : Sys :=
  set_txs (<[h := TxActive ws]> (txs s)) s.
Definition tx_dead (h : positive) (s : Sys) : Sys := set_txs (<[h := TxAborted]> (txs s)) s.
Definition tx_of (h : positive) : Tx := NewTx (any_pgx_tx h).

Lemma set_txs_id s : set_txs (txs s) s = s.
Proof. by destruct s. Qed.

Create Rewrite HintDb s2r_tx.

Section Transactions.
Context (h : positive) (s : Sys).

Lemma open_tx_at ws : open_tx (tx_at h ws s) (tx_of h) = Some (h, ws).
Proof. unfold open_tx. cbn. by rewrite lookup_insert_eq. Qed.

Lemma write_in_at ws w : write_in h ws w (tx_at h ws s) = tx_at h (ws ++ [w]) s.
Proof. unfold write_in, tx_at, set_txs. cbn. by rewrite insert_insert_eq. Qed.

Lemma abort_in_at ws : abort_in h (tx_at h ws s) = tx_dead h s.
Proof. unfold abort_in, tx_at, tx_dead, set_txs. cbn. by rewrite insert_insert_eq. Qed.

Lemma tx_view_at ws ws' : tx_view (tx_at h ws s) ws' = tx_view s ws'.
Proof. done. Qed.

Lemma close_tx_at ws : txs s !! h = None -> close_tx (tx_of h) (tx_at h ws s) = s.
Proof.
  intros Hh. unfold close_tx, tx_at, set_txs. cbn. rewrite delete_insert_id by done.
  by destruct s.
Qed.

Lemma close_tx_dead : txs s !! h = None -> close_tx (tx_of h) (tx_dead h s) = s.
Proof.
  intros Hh. unfold close_tx, tx_dead, set_txs. cbn. rewrite delete_insert_id by done.
  by destruct s.
Qed.
End Transactions.

#[export] Hint Rewrite open_tx_at write_in_at abort_in_at tx_view_at : s2r_tx.

(** A transaction of [s] that has not been closed: none of its writes is
    visible outside. *)
Definition in_flight (h : positive) (s s' : Sys) : Prop :=
  s' = tx_dead h s \/ exists ws, s' = tx_at h ws s.

Lemma in_flight_at h ws s : in_flight h s (tx_at h ws s).
Proof. right. by eexists. Qed.
Lemma in_flight_dead h s : in_flight h s (tx_dead h s).
Proof. by left. Qed.
#[export] Hint Resolve in_flight_at in_flight_dead : s2r.

Lemma close_in_flight h s s' : txs s !! h = None -> in_flight h s s' -> close_tx (tx_of h) s' = s.
Proof. intros Hh [->|[ws ->]]; [by apply close_tx_dead|by apply close_tx_at]. Qed.

(** [defer func() { if !committed { _ = uow.Rollback(ctx, tx) } }()]. *)
Definition rollback_unless_committed (tx : Tx) : G Port bool unit :=
  (is_committed <- get ;;
   if is_committed then ret tt else (_ <- call (Uow (Rollback tx)) ;; ret tt))%go.

Section Rules.
Context (verifies : PasswordHash -> string -> bool).
Let spec := pstep verifies.

(** [tx, err := uow.Begin(ctx)]. *)
Lemma wp_Begin {L} (l : L) (Q : outcome (res Tx) * L -> Sys -> Prop) s :
  (forall o, fails o -> Q (o, l) s) ->
  (forall h, txs s !! h = None -> Q (Returned (Ok (tx_of h)), l) (tx_at h [] s)) ->
  wp spec (call (Uow Begin) l) Q s.
Proof.
  intros Hf Hok o s' [(h & Hh & -> & ->)|[Ho ->]]; [|by apply Hf]. by apply (Hok h).
Qed.

Lemma wp_UserSaveTx {L} (l : L) (Q : outcome (res unit) * L -> Sys -> Prop) h ws s u :
  (forall o, fails o -> Q (o, l) (tx_dead h s)) ->
  (user_conflict (tx_view s ws) u ->
   Q (Returned (Err (user.ErrEmailTaken : error)), l) (tx_dead h s)) ->
  (~ user_conflict (tx_view s ws) u ->
   Q (Returned (Ok tt), l) (tx_at h (ws ++ [WUser (stored_user u)]) s)) ->
  wp spec (call (Users (UserSaveTx (tx_of h) u)) l) Q (tx_at h ws s).
Proof.
  intros Hf Ht Hok o s'. cbn. unfold in_tx. autorewrite with s2r_tx.
  intros [[(-> & ? & _ & ->)|(-> & ? & ->)]|[? ->]]; auto.
Qed.

Lemma wp_SessionSaveTx {L} (l : L) (Q : outcome (res unit) * L -> Sys -> Prop) h ws s x :
  (forall o, fails o -> Q (o, l) (tx_dead h s)) ->
  (~ session_conflict (tx_view s ws) x -> is_Some (PortSpec.users (tx_view s ws) !! Session.userID x) ->
   Q (Returned (Ok tt), l) (tx_at h (ws ++ [WSession (stored_session x)]) s)) ->
  wp spec (call (Sessions (SessionSaveTx (tx_of h) x)) l) Q (tx_at h ws s).
Proof.
  intros Hf Hok o s'. cbn. unfold in_tx. autorewrite with s2r_tx.
  intros [(-> & ? & _ & ? & ->)|[? ->]]; auto.
Qed.

Lemma wp_RevokeTx {L} (l : L) (Q : outcome (res unit) * L -> Sys -> Prop) h ws s t sid :
  (forall o, fails o -> Q (o, l) (tx_dead h s)) ->
  ((forall x, PortSpec.sessions (tx_view s ws) !! sid = Some x -> Session.tenantID x <> t) ->
   Q (Returned (Err (session.ErrSessionNotFound : error)), l) (tx_at h ws s)) ->
  (forall x at_, PortSpec.sessions (tx_view s ws) !! sid = Some x -> Session.tenantID x = t ->
   Q (Returned (Ok tt), l) (tx_at h (ws ++ [WRevoke sid at_]) s)) ->
  wp spec (call (Sessions (RevokeTx (tx_of h) t sid)) l) Q (tx_at h ws s).
Proof.
  intros Hf Hn Hok o s'. cbn. unfold in_tx. autorewrite with s2r_tx.
  intros [[(x & at_ & -> & Hx & Ht & ->)|(-> & Hn' & ->)]|[Ho ->]];
    [rewrite write_in_at; exact (Hok x at_ Hx Ht)|exact (Hn Hn')|exact (Hf o Ho)].
Qed.

Lemma wp_WriteTx {L} (l : L) (Q : outcome (res unit) * L -> Sys -> Prop) h ws s ev :
  (forall o, fails o -> Q (o, l) (tx_dead h s)) ->
  (events (tx_view s ws) !! Outbox.id ev = None ->
   Q (Returned (Ok tt), l) (tx_at h (ws ++ [WEvent (stored_event ev)]) s)) ->
  wp spec (call (OutboxRepo (WriteTx (tx_of h) ev)) l) Q (tx_at h ws s).
Proof.
  intros Hf Hok o s'. cbn. unfold in_tx. autorewrite with s2r_tx.
  intros [(-> & ? & _ & ->)|[? ->]]; auto.
Qed.

Lemma wp_Commit {L} (l : L) (Q : outcome (res unit) * L -> Sys -> Prop) h ws s :
  txs s !! h = None ->
  (forall o, fails o -> Q (o, l) s /\ Q (o, l) (set_committed (tx_view s ws) s)) ->
  Q (Returned (Ok tt), l) (set_committed (tx_view s ws) s) ->
  wp spec (call (Uow (Commit (tx_of h))) l) Q (tx_at h ws s).
Proof.
  intros Hh Hf Hok o s'. cbn -[open_tx close_tx]. rewrite open_tx_at, close_tx_at by done.
  intros [[-> ->]|[Ho [->| ->]]]; [done|by apply Hf..].
Qed.

(** The deferred rollback closes a transaction in flight. *)
Lemma wp_rollback_in_flight (Q : outcome unit * bool -> Sys -> Prop) h s s' :
  txs s !! h = None -> in_flight h s s' ->
  (forall o, (o = Returned tt \/ exists msg, o = Panicked msg) -> Q (o, false) s) ->
  wp spec (rollback_unless_committed (tx_of h) false) Q s'.
Proof.
  intros Hh Hs HQ. unfold rollback_unless_committed. repeat wp_rule.
  cbn -[close_tx]. intros o s'' [[->|Ho] ->]; rewrite (close_in_flight h s) by done; [apply HQ; eauto|].
  destruct Ho as [(e & -> & _)|[msg ->]]; apply HQ; eauto.
Qed.

(** After a commit whose outcome is unknown there is nothing left to roll
    back. *)
Lemma wp_rollback_closed (Q : outcome unit * bool -> Sys -> Prop) h s :
  txs s !! h = None ->
  (forall o, (o = Returned tt \/ exists msg, o = Panicked msg) -> Q (o, false) s) ->
  wp spec (rollback_unless_committed (tx_of h) false) Q s.
Proof.
  intros Hh HQ. unfold rollback_unless_committed. repeat wp_rule.
  cbn. rewrite (delete_id (txs s) h) by done. rewrite set_txs_id.
  intros o s'' [[->|Ho] ->]; [apply HQ; eauto|].
  destruct Ho as [(e & -> & _)|[msg ->]]; apply HQ; eauto.
Qed.

Lemma wp_rollback_committed (Q : outcome unit * bool -> Sys -> Prop) tx s :
  Q (Returned tt, true) s -> wp spec (rollback_unless_committed tx true) Q s.
Proof. done. Qed.
End Rules.

(** ** What an aborted call leaves behind *)

(** The tables, the open transactions and the cache are as before; the clock
    and the log may have moved on. *)
Record quiet (s s' : Sys) : Prop := {
  quiet_committed : committed s' = committed s;
  quiet_txs : txs s' = txs s;
  quiet_cache : cache s' = cache s;
  quiet_now : now s <= now s';
}.

#[global] Instance quiet_preorder : PreOrder quiet.
Proof.
  split.
  - intros s. by split.
  - intros s1 s2 s3 [] []. split; [congruence..|lia].
Qed.

Lemma quiet_now_to s t : now s <= t -> quiet s (set_now t s).
Proof. by split. Qed.
Lemma quiet_log r s : quiet s (add_log r s).
Proof. by split. Qed.
#[export] Hint Resolve quiet_now_to quiet_log : s2r.

(** The call ended in the error [e] or in a panic. *)
Definition gave_up {A} (e : error) (o : outcome (res A)) : Prop :=
  o = Returned (Err e) \/ exists msg, o = Panicked msg.

Lemma gave_up_err {A} e : gave_up e (Returned (Err e) : outcome (res A)).
Proof. by left. Qed.
Lemma gave_up_panic {A} e msg : gave_up e (Panicked msg : outcome (res A)).
Proof. right. by eexists. Qed.
#[export] Hint Resolve gave_up_err gave_up_panic : s2r.


(** An infrastructure error is none of the sentinels of the service. *)
Lemma errors_Is_infra e target : infra e -> ~ infra target -> errors_Is e target = false.
Proof. intros He Ht. rewrite errors_Is_eq by (by destruct e). apply bool_decide_eq_false. by intros ->. Qed.

Lemma errors_Is_infra_eq e target : infra e -> errors_Is e target = true -> e = target.
Proof. intros He. rewrite errors_Is_eq by (by destruct e). apply bool_decide_eq_true. Qed.

(** ** The other calls *)

Section CallRules.
Context (verifies : PasswordHash -> string -> bool).
Let spec := pstep verifies.
Context {L : Type} (l : L).

Lemma wp_Hash (Q : outcome (res PasswordHash) * L -> Sys -> Prop) raw s :
  (forall o, fails o -> Q (o, l) s) ->
  (forall h, verifies h raw = true -> Q (Returned (Ok h), l) s) ->
  wp spec (call (Hasher (Hash raw)) l) Q s.
Proof. intros Hf Hok o s' [-> [(h & -> & ?)|?]]; cbn; auto. Qed.

Lemma wp_Verify (Q : outcome (res bool) * L -> Sys -> Prop) h raw s :
  (forall o, fails o -> Q (o, l) s) ->
  Q (Returned (Ok (verifies h raw)), l) s ->
  wp spec (call (Hasher (Verify h raw)) l) Q s.
Proof. intros Hf Hok o s' [-> [->|?]]; cbn; auto. Qed.

Lemma wp_GenerateToken (Q : outcome (res Token) * L -> Sys -> Prop) s :
  (forall o, fails o -> Q (o, l) s) ->
  (forall t, 32 <= len (token_value t) <= 128 -> Q (Returned (Ok t), l) s) ->
  wp spec (call (Tokens GenerateToken) l) Q s.
Proof. intros Hf Hok o s' [-> [(t & -> & ?)|?]]; cbn; auto. Qed.

Lemma wp_Now (Q : outcome Time * L -> Sys -> Prop) src s :
  (forall t, now s <= t -> Q (Returned t, l) (set_now t s)) ->
  wp spec (call (Now src) l) Q s.
Proof. intros Hok o s' (t & ? & -> & ->); cbn; auto. Qed.

Lemma wp_UuidNew (Q : outcome UUID * L -> Sys -> Prop) s :
  (forall msg, Q (Panicked msg, l) s) -> (forall u, Q (Returned u, l) s) ->
  wp spec (call UuidNew l) Q s.
Proof. intros Hp Hok o s' [-> [[u ->]|[msg ->]]]; cbn; auto. Qed.

Lemma wp_Log (Q : outcome unit * L -> Sys -> Prop) r s :
  Q (Returned tt, l) (add_log r s) -> wp spec (call (Log r) l) Q s.
Proof. by intros Hok o s' [-> ->]. Qed.

Lemma wp_Trace {R} (c : Tracer R) (Q : outcome R * L -> Sys -> Prop) s :
  (forall r, Q (Returned r, l) s) -> wp spec (call (Trace c) l) Q s.
Proof. intros Hok o s' [[r ->] ->]. apply Hok. Qed.

Lemma wp_FindByEmail (Q : outcome (res User.User) * L -> Sys -> Prop) t e s :
  (forall o, fails o -> Q (o, l) s) ->
  (forall i u, users (committed s) !! i = Some u -> User.tenantID u = t -> User.email u = e ->
     Q (Returned (Ok u), l) s) ->
  ((forall i u, users (committed s) !! i = Some u -> ~ (User.tenantID u = t /\ User.email u = e)) ->
     Q (Returned (Err (user.ErrUserNotFound : error)), l) s) ->
  wp spec (call (Users (FindByEmail t e)) l) Q s.
Proof.
  intros Hf Hok Hn o s' [-> [(i & u & -> & H1 & H2 & H3)|[[-> H1]|?]]];
    [exact (Hok i u H1 H2 H3)|exact (Hn H1)|by apply Hf].
Qed.

Lemma wp_FindByID (Q : outcome (res User.User) * L -> Sys -> Prop) t uid s :
  (forall o, fails o -> Q (o, l) s) ->
  (forall u, users (committed s) !! uid = Some u -> User.tenantID u = t -> Q (Returned (Ok u), l) s) ->
  ((forall u, users (committed s) !! uid = Some u -> User.tenantID u <> t) ->
     Q (Returned (Err (user.ErrUserNotFound : error)), l) s) ->
  wp spec (call (Users (FindByID t uid)) l) Q s.
Proof.
  intros Hf Hok Hn o s' [-> [(u & -> & H1 & H2)|[[-> H1]|?]]];
    [exact (Hok u H1 H2)|exact (Hn H1)|by apply Hf].
Qed.

Lemma wp_FindByTokenHash (Q : outcome (res Session.Session) * L -> Sys -> Prop) hash s :
  (forall o, fails o -> Q (o, l) s) ->
  (forall i x, sessions (committed s) !! i = Some x -> Session.tokenHash x = hash ->
     Q (Returned (Ok x), l) s) ->
  ((forall i x, sessions (committed s) !! i = Some x -> Session.tokenHash x <> hash) ->
     Q (Returned (Err (session.ErrSessionNotFound : error)), l) s) ->
  wp spec (call (Sessions (FindByTokenHash hash)) l) Q s.
Proof.
  intros Hf Hok Hn o s' [-> [(i & x & -> & H1 & H2)|[[-> H1]|?]]];
    [exact (Hok i x H1 H2)|exact (Hn H1)|by apply Hf].
Qed.

(** A cache write: the new state holds the entry or is the old one. *)
Lemma wp_CacheSet (Q : outcome (res unit) * L -> Sys -> Prop) key body ttl s :
  (forall o, fails o -> Q (o, l) s /\ Q (o, l) (set_cache (<[key := (body, ttl)]> (cache s)) s)) ->
  Q (Returned (Ok tt), l) (set_cache (<[key := (body, ttl)]> (cache s)) s) ->
  wp spec (call (SessionCache (CacheSet key body ttl)) l) Q s.
Proof. intros Hf Hok o s' [[-> ->]|[Ho [->| ->]]]; [done|by apply Hf..]. Qed.

Lemma wp_CacheGet (Q : outcome (res CachedSession) * L -> Sys -> Prop) key s :
  (forall o, fails o -> Q (o, l) s) ->
  (forall body ttl, cache s !! key = Some (body, ttl) -> Q (Returned (Ok body), l) s) ->
  Q (Returned (Err (session.ErrCacheMiss : error)), l) s ->
  Q (Returned (Err (session.ErrCacheMiss : error)), l) (set_cache (delete key (cache s)) s) ->
  wp spec (call (SessionCache (CacheGet key)) l) Q s.
Proof.
  intros Hf Hok Hn Hd o s' [(body & ttl & -> & H1 & ->)|[[-> [->| ->]]|[? ->]]];
    [exact (Hok body ttl H1)|done|done|by apply Hf].
Qed.

Lemma wp_CacheDelete (Q : outcome (res unit) * L -> Sys -> Prop) key s :
  (forall o, fails o -> Q (o, l) s /\ Q (o, l) (set_cache (delete key (cache s)) s)) ->
  Q (Returned (Ok tt), l) (set_cache (delete key (cache s)) s) ->
  wp spec (call (SessionCache (CacheDelete key)) l) Q s.
Proof. intros Hf Hok o s' [[-> ->]|[Ho [->| ->]]]; [done|by apply Hf..]. Qed.
End CallRules.

(** ** Automation *)

(** The rule of the call at the head of the program. *)
Ltac port_rule :=
  lazymatch goal with
  | |- wp _ (call (Uow Begin) _) _ _ => apply wp_Begin
  | |- wp _ (call (Uow (Commit _)) _) _ _ => apply wp_Commit
  | |- wp _ (call (Users (UserSaveTx _ _)) _) _ _ => apply wp_UserSaveTx
  | |- wp _ (call (Users (FindByEmail _ _)) _) _ _ => apply wp_FindByEmail
  | |- wp _ (call (Users (FindByID _ _)) _) _ _ => apply wp_FindByID
  | |- wp _ (call (Sessions (SessionSaveTx _ _)) _) _ _ => apply wp_SessionSaveTx
  | |- wp _ (call (Sessions (RevokeTx _ _ _)) _) _ _ => apply wp_RevokeTx
  | |- wp _ (call (Sessions (FindByTokenHash _)) _) _ _ => apply wp_FindByTokenHash
  | |- wp _ (call (OutboxRepo (WriteTx _ _)) _) _ _ => apply wp_WriteTx
  | |- wp _ (call (SessionCache (CacheSet _ _ _)) _) _ _ => apply wp_CacheSet
  | |- wp _ (call (SessionCache (CacheGet _)) _) _ _ => apply wp_CacheGet
  | |- wp _ (call (SessionCache (CacheDelete _)) _) _ _ => apply wp_CacheDelete
  | |- wp _ (call (Hasher (Hash _)) _) _ _ => apply wp_Hash
  | |- wp _ (call (Hasher (Verify _ _)) _) _ _ => apply wp_Verify
  | |- wp _ (call (Tokens GenerateToken) _) _ _ => apply wp_GenerateToken
  | |- wp _ (call (Now _) _) _ _ => apply wp_Now
  | |- wp _ (call UuidNew _) _ _ => apply wp_UuidNew
  | |- wp _ (call (Log _) _) _ _ => apply wp_Log
  | |- wp _ (call (Trace _) _) _ _ => apply wp_Trace
  end.

(** The rollback at the exit of a function that opened a transaction. *)
Ltac roll_back :=
  lazymatch goal with
  | |- wp _ (rollback_unless_committed _ true) _ _ => apply wp_rollback_committed; cbn [fst snd]
  | Hh : txs ?s !! ?h = None |- wp _ (rollback_unless_committed _ _) _ _ =>
      first [ apply (wp_rollback_in_flight _ _ h s); [exact Hh|solve [auto with s2r]|]
            | apply (wp_rollback_closed _ _ h); [exact Hh|] ];
      intros ? [->|[? ->]]; cbn [fst snd]
  end.

(** Runs the program against collaborators that answer anything, up to its
    next branch or its end. *)
Ltac wp_any :=
  repeat (cbv beta iota; cbn [fst snd negb andb orb];
    match goal with
    | |- wp _ (call _ _) _ _ => apply wp_call_go; intros ? ? ->
    | |- wp _ (rollback_unless_committed _ _) _ _ => unfold rollback_unless_committed
    | |- wp _ _ _ _ => wp_rule
    | |- wp _ (match ?o with Returned _ => _ | Panicked _ => _ end) _ _ => destruct o
    | |- wp _ (match ?r with Ok _ => _ | Err _ => _ end _) _ _ => destruct r eqn:?
    | |- match ?o with Returned _ => _ | Panicked _ => _ end => destruct o
    | |- wp _ ((if negb ?b then _ else _) _) _ _ => destruct b
    | |- wp _ ((if ?b then _ else _) _) _ _ => destruct b
    | |- context [errors_Is ?e ?t] => destruct (errors_Is e t)
    end); cbv beta iota; cbn [fst snd app].

(** Runs the program to its next branch or to its end. *)
Ltac wp_go :=
  repeat (cbv beta iota; cbn [fst snd negb andb orb];
    match goal with
    | |- wp (traced _) (call _ _) _ _ => apply wp_traced_call
    | |- wp _ (call _ _) _ _ => port_rule
    | |- wp _ (rollback_unless_committed _ _) _ _ => roll_back
    | |- wp _ _ _ _ => wp_rule
    | |- forall _, fails _ -> _ => intros ? [(? & -> & ?)|[? ->]]
    | |- _ /\ _ => split
    | H : infra ?e |- context [errors_Is ?e ?t] =>
        rewrite (errors_Is_infra e t H) by (cbn; tauto)
    | |- context [errors_Is ?e ?e] => rewrite (errors_Is_refl e)
    | |- wp _ (match ok_or _ ?o with Ok _ => _ | Err _ => _ end _) _ _ =>
        destruct o eqn:?; cbn [ok_or]
    | |- forall _, _ => intro
    end); cbv beta iota; cbn [fst snd app].
