(* ===== verification/SignUp.v ===== *)
(** * Package [internal/usecase/sign_up]: create a user and a first session in
    one database transaction. *)
From S2P Require Import Prelude Program GoEncoding GoTime GoJson Errors Tenant User Session Outbox Ports PortSpec PortRules.
#[local] Open Scope Z_scope.

Record Input := MkInput { TenantID : ID; Email : string; Password : string }.

Record Output := MkOutput { UserID : UUID; SessionToken : string; SessionExpiresAt : Time }.

(** The collaborators are the [Port] calls; what is left of the struct is
    whether a cache was given, and the session TTL. *)
Record UseCase := MkUseCase { cache : bool; sessionTTL : Duration }.

Definition New (cache : bool) (sessionTTL : Duration) : UseCase := MkUseCase cache sessionTTL.

Section Usecase.
Context `{UuidLib}.

Definition userPayload (userID : UUID) (t : ID) (email : User.Email) (now : Time) : mvalue :=
  MStruct [("user_id", MString (uuid_String userID)); ("tenant_id", MString (Tenant.String t));
           ("email", MString (Email_String email)); ("created_at", MTime now)].

Definition sessionPayload (sessionID userID : UUID) (t : ID) (now : Time) : mvalue :=
  MStruct [("session_id", MString (uuid_String sessionID)); ("user_id", MString (uuid_String userID));
           ("tenant_id", MString (Tenant.String t)); ("created_at", MTime now)].

(** The local of the body is [committed]. *)
Definition Execute (uc : UseCase) (inp : Input) : G Port bool (res Output) := (
  if IsZero (TenantID inp) then fail sign_up.ErrInternal else
  match NewEmail (Email inp) with Err _ => fail sign_up.ErrInvalidEmail | Ok email =>
  match ValidatePasswordPolicy (Password inp) with Err _ => fail sign_up.ErrWeakPassword | Ok _ =>
  try hash <- call (Hasher (Hash (Password inp))) catch _ => fail sign_up.ErrInternal ;;
  try tok <- call (Tokens GenerateToken) catch _ => fail sign_up.ErrInternal ;;
  now <- call (Now UseCaseClock) ;;
  userID <- call UuidNew ;;
  let u := User.New userID (TenantID inp) email hash now in
  sessionID <- call UuidNew ;;
  let expiresAt := Add now (sessionTTL uc) in
  let sess := Session.New sessionID (TenantID inp) userID (Token_Hash tok) now expiresAt in
  try tx <- call (Uow Begin) catch _ => fail sign_up.ErrInternal ;;
  put false ;;
  defer (rollback_unless_committed tx) (
    r <- call (Users (UserSaveTx tx u)) ;;
    match r with
    | Err err =>
      if errors_Is err user.ErrEmailTaken then fail sign_up.ErrEmailTaken else fail sign_up.ErrInternal
    | Ok _ =>
    try _ <- call (Sessions (SessionSaveTx tx sess)) catch _ => fail sign_up.ErrInternal ;;
    match ok_or marshal_error (Marshal (userPayload userID (TenantID inp) email now)) with
    | Err _ => fail sign_up.ErrInternal
    | Ok userBody =>
    eventID <- call UuidNew ;;
    try _ <- call (OutboxRepo (WriteTx tx
        (Outbox.New eventID (TenantID inp) "user" userID TopicUserCreated userBody now)))
      catch _ => fail sign_up.ErrInternal ;;
    match ok_or marshal_error (Marshal (sessionPayload sessionID userID (TenantID inp) now)) with
    | Err _ => fail sign_up.ErrInternal
    | Ok sessionBody =>
    eventID2 <- call UuidNew ;;
    try _ <- call (OutboxRepo (WriteTx tx
        (Outbox.New eventID2 (TenantID inp) "session" sessionID TopicSessionCreated sessionBody now)))
      catch _ => fail sign_up.ErrInternal ;;
    try _ <- call (Uow (Commit tx)) catch _ => fail sign_up.ErrInternal ;;
    put true ;;
    (if cache uc then
       let tokenHashHex := EncodeToString (Token_Hash tok) in
       let body := MkCachedSession sessionID userID (TenantID inp) expiresAt in
       until <- call (Now TimeNow) ;;
       try _ <- call (SessionCache (CacheSet tokenHashHex body (Sub expiresAt until)))
         catch err => call (Log (MkLog Warn "session cache write failed after sign-up"
                        [("session_id", AString (uuid_String sessionID)); ("err", AErr err)])) ;;
       ret tt
     else ret tt) ;;
    ret (Ok (MkOutput userID (Token_String tok) expiresAt))
    end end end)
  end end)%go.

(** ** What a sign-up promises *)

(** Everything a sign-up generates. *)
Record Account := MkAccount {
  a_email : User.Email;
  a_hash : PasswordHash;
  a_token : Token;
  a_now : Time;
  a_user : UUID;
  a_session : UUID;
  a_events : UUID * UUID;
  a_bodies : string * string;
}.

Definition a_expires (uc : UseCase) (a : Account) : Time := Add (a_now a) (sessionTTL uc).

(** The rows of an account, in the order they are written. *)
Definition account_rows (uc : UseCase) (inp : Input) (a : Account) : list Write :=
  let t := TenantID inp in
  [WUser (stored_user (User.New (a_user a) t (a_email a) (a_hash a) (a_now a)));
   WSession (stored_session (Session.New (a_session a) t (a_user a) (Token_Hash (a_token a))
                               (a_now a) (a_expires uc a)));
   WEvent (stored_event (Outbox.New (a_events a).1 t "user" (a_user a) TopicUserCreated
                           (a_bodies a).1 (a_now a)));
   WEvent (stored_event (Outbox.New (a_events a).2 t "session" (a_session a) TopicSessionCreated
                           (a_bodies a).2 (a_now a)))].

Context (verifies : PasswordHash -> string -> bool).

(** [a] is an account that answers the request [inp] in the state [s]. *)
Record answers (uc : UseCase) (inp : Input) (s : Sys) (a : Account) : Prop := {
  ans_tenant : IsZero (TenantID inp) = false;
  ans_email : NewEmail (Email inp) = Ok (a_email a);
  ans_policy : ValidatePasswordPolicy (Password inp) = Ok tt;
  ans_hash : verifies (a_hash a) (Password inp) = true;
  ans_token : 32 <= len (token_value (a_token a)) <= 128;
  ans_now : PortSpec.now s <= a_now a;
  ans_free : ~ user_conflict (committed s)
                 (User.New (a_user a) (TenantID inp) (a_email a) (a_hash a) (a_now a));
  ans_session : ~ session_conflict (committed s)
                    (Session.New (a_session a) (TenantID inp) (a_user a) (Token_Hash (a_token a))
                       (a_now a) (a_expires uc a));
  ans_events : events (committed s) !! (a_events a).1 = None
    /\ events (committed s) !! (a_events a).2 = None /\ (a_events a).1 <> (a_events a).2;
  ans_user_body : Marshal (userPayload (a_user a) (TenantID inp) (a_email a) (a_now a)) = Some (a_bodies a).1;
  ans_session_body : Marshal (sessionPayload (a_session a) (a_user a) (TenantID inp) (a_now a)) = Some (a_bodies a).2;
}.

(** The state after the account has been committed: the cache holds the new
    session or is as before. *)
Record account_created (uc : UseCase) (inp : Input) (s : Sys) (a : Account) (s' : Sys) : Prop := {
  created_committed : committed s' = apply_writes (account_rows uc inp a) (committed s);
  created_txs : txs s' = txs s;
  created_cache : PortSpec.cache s' = PortSpec.cache s \/ cache uc = true /\ exists ttl,
    PortSpec.cache s' =
      <[EncodeToString (Token_Hash (a_token a)) :=
          (MkCachedSession (a_session a) (a_user a) (TenantID inp) (a_expires uc a), ttl)]>
        (PortSpec.cache s);
}.

(** The abstract specification of a sign-up: how it may end, and the state
    it leaves. *)
Inductive sign_up (uc : UseCase) (inp : Input) (s : Sys) : outcome (res Output) -> Sys -> Prop :=
| invalid_tenant :
    IsZero (TenantID inp) = true ->
    sign_up uc inp s (Returned (Err (sign_up.ErrInternal : error))) s
| invalid_email e :
    IsZero (TenantID inp) = false -> NewEmail (Email inp) = Err e ->
    sign_up uc inp s (Returned (Err (sign_up.ErrInvalidEmail : error))) s
| weak_password email e :
    IsZero (TenantID inp) = false -> NewEmail (Email inp) = Ok email ->
    ValidatePasswordPolicy (Password inp) = Err e ->
    sign_up uc inp s (Returned (Err (sign_up.ErrWeakPassword : error))) s
| email_taken email u o s' :
    IsZero (TenantID inp) = false -> NewEmail (Email inp) = Ok email ->
    ValidatePasswordPolicy (Password inp) = Ok tt ->
    User.tenantID u = TenantID inp -> User.email u = email -> user_conflict (committed s) u ->
    gave_up (sign_up.ErrEmailTaken : error) o -> quiet s s' -> sign_up uc inp s o s'
| gave_up_before_commit o s' :
    IsZero (TenantID inp) = false ->
    gave_up (sign_up.ErrInternal : error) o -> quiet s s' -> sign_up uc inp s o s'
(** the commit took effect but the call did not see it, or a call after it
    panicked *)
| gave_up_after_commit a o s' :
    account_created uc inp s a s' -> answers uc inp s a ->
    gave_up (sign_up.ErrInternal : error) o -> sign_up uc inp s o s'
| signed_up a s' :
    account_created uc inp s a s' -> answers uc inp s a ->
    sign_up uc inp s
      (Returned (Ok (MkOutput (a_user a) (Token_String (a_token a)) (a_expires uc a)))) s'.

(** ** The use case implements the specification *)

Lemma answers_intro uc inp s email hash tok t u sid e1 e2 row b1 b2 :
  IsZero (TenantID inp) = false -> NewEmail (Email inp) = Ok email ->
  ValidatePasswordPolicy (Password inp) = Ok tt -> verifies hash (Password inp) = true ->
  32 <= len (token_value tok) <= 128 -> PortSpec.now s <= t ->
  ~ user_conflict (committed s) (User.New u (TenantID inp) email hash t) ->
  ~ session_conflict (committed s)
      (Session.New sid (TenantID inp) u (Token_Hash tok) t (Add t (sessionTTL uc))) ->
  events (committed s) !! e1 = None -> <[e1 := row]> (events (committed s)) !! e2 = None ->
  Marshal (userPayload u (TenantID inp) email t) = Some b1 ->
  Marshal (sessionPayload sid u (TenantID inp) t) = Some b2 ->
  answers uc inp s (MkAccount email hash tok t u sid (e1, e2) (b1, b2)).
Proof. intros. rewrite lookup_insert_None in *. by split. Qed.

#[local] Ltac created :=
  split; [reflexivity|reflexivity|first [by left|right; split; [assumption|eexists; reflexivity]]].
#[local] Ltac account c :=
  eapply (c _ _ _ (MkAccount _ _ _ _ _ _ (_, _) (_, _)));
    [created|eapply answers_intro; cbn in *; eassumption|..].

Lemma sign_up_refines uc inp s l :
  wp (pstep verifies) (Execute uc inp l) (on_outcome (sign_up uc inp s)) s.
Proof.
  unfold Execute, on_outcome.
  destruct (IsZero (TenantID inp)) eqn:Ez; [by apply invalid_tenant|].
  destruct (NewEmail (Email inp)) as [email|err] eqn:Eemail; [|by eapply invalid_email].
  destruct (ValidatePasswordPolicy (Password inp)) as [[]|err] eqn:Epol; [|by eapply weak_password].
  destruct (cache uc) eqn:Ecache; wp_go; try assumption;
    first [ apply gave_up_before_commit; [assumption|solve [auto with s2r]|done]
          | account signed_up
          | account gave_up_after_commit; auto with s2r
          | eapply email_taken; eauto with s2r; done ].
Qed.

(** A success is the creation of an account. *)
Lemma sign_up_ok uc inp s out s' :
  sign_up uc inp s (Returned (Ok out)) s' ->
  exists a, answers uc inp s a /\ account_created uc inp s a s'
    /\ out = MkOutput (a_user a) (Token_String (a_token a)) (a_expires uc a).
Proof.
  intros Hs. inversion Hs as [| | |email u o s1 _ _ _ _ _ _ Hg|o s1 _ Hg|a o s1 _ _ Hg|a s1 Hc Ha];
    subst; [by destruct Hg as [?|[? ?]]..|by exists a].
Qed.

(** An invalid tenant, e-mail address or password is rejected with its
    own error before any collaborator is called. *)
Theorem Execute_rejects uc inp l :
  (IsZero (TenantID inp) = true ->
     Execute uc inp l = Ret (Returned (Err (sign_up.ErrInternal : error)), l))
  /\ (forall e, IsZero (TenantID inp) = false -> NewEmail (Email inp) = Err e ->
     Execute uc inp l = Ret (Returned (Err (sign_up.ErrInvalidEmail : error)), l))
  /\ (forall email, IsZero (TenantID inp) = false -> NewEmail (Email inp) = Ok email ->
     ~ (PasswordMinLen <= len (Password inp) <= PasswordMaxLen) ->
     Execute uc inp l = Ret (Returned (Err (sign_up.ErrWeakPassword : error)), l)).
Proof.
  unfold Execute. split; [by intros ->|]. split; [by intros e -> ->|].
  intros email -> -> Hp. destruct (ValidatePasswordPolicy (Password inp)) as [[]|e] eqn:E; [|done].
  by apply ValidatePasswordPolicy_spec in E.
Qed.

(** C4: a sign-up is atomic.  A success commits the user, the session and both
    events together, with fresh identifiers, the hash of the password and the
    hash of the token, and caches at most that session; a reported error
    leaves tables and cache as they were, except for ErrInternal after a commit
    whose acknowledgement was lost; no transaction stays open on any path. *)
Theorem Execute_atomic uc inp s l :
  wp (pstep verifies) (Execute uc inp l) (on_outcome (fun (o : outcome (res Output)) s' =>
    txs s' = txs s /\
    match o with
    | Returned (Ok out) => exists a,
        answers uc inp s a /\ account_created uc inp s a s'
        /\ out = MkOutput (a_user a) (Token_String (a_token a)) (a_expires uc a)
    | Returned (Err e) =>
        (quiet s s' /\ exists x : sign_up.error, e = x)
        \/ (e = sign_up.ErrInternal /\ exists a, answers uc inp s a /\ account_created uc inp s a s')
    | Panicked _ => quiet s s' \/ exists a, answers uc inp s a /\ account_created uc inp s a s'
    end)) s.
Proof.
  eapply wp_mono; [|apply sign_up_refines]. intros [o l'] s'. unfold on_outcome. cbn [fst].
  intros H'. destruct H'; try (split; [done|]); try match goal with
    | H : account_created _ _ _ _ _ |- txs _ = txs _ /\ _ => split; [apply H|]
    | H : quiet _ _ |- txs _ = txs _ /\ _ => split; [apply H|]
    end; try match goal with H : gave_up _ _ |- _ => destruct H as [->|[msg ->]] end; eauto 6;
    (left; split; [done|by eexists]).
Qed.
End Usecase.
