(* ===== verification/SignIn.v ===== *)
(** * Package [internal/usecase/sign_in]: issue a session after checking the
    credentials. *)
From S2P Require Import Prelude Program GoEncoding GoTime GoJson Errors Tenant User Session Outbox Ports PortSpec PortRules.
#[local] Open Scope Z_scope.

Record Input := MkInput { TenantID : ID; Email : string; Password : string }.

Record Output := MkOutput { UserID : UUID; SessionToken : string; SessionExpiresAt : Time }.

(** [dummy] is the hash verified when there is no stored hash to verify. *)
Record UseCase := MkUseCase { cache : bool; sessionTTL : Duration; dummy : PasswordHash }.

Definition New (cache : bool) (sessionTTL : Duration) : G Port unit (res UseCase) := (
  try dh <- call (Hasher (Hash "dummy-password-for-timing-safety-only"))
    catch _ => fail sign_in.ErrInternal ;;
  ret (Ok (MkUseCase cache sessionTTL dh)))%go.

Section Usecase.
Context `{UuidLib}.

Definition sessionPayload (sessionID userID : UUID) (t : ID) (now : Time) : mvalue :=
  MStruct [("session_id", MString (uuid_String sessionID)); ("user_id", MString (uuid_String userID));
           ("tenant_id", MString (Tenant.String t)); ("created_at", MTime now)].

(** [if _, verr := uc.hasher.Verify(ctx, uc.dummy.hash, in.Password); verr != nil { ... }]. *)
Definition burn {L} (uc : UseCase) (inp : Input) : G Port L unit := (
  try _ <- call (Hasher (Verify (dummy uc) (Password inp)))
    catch verr => call (Log (MkLog Debug "dummy hasher verify failed" [("err", AErr verr)])) ;;
  ret tt)%go.

(** The local of the body is [committed]. *)
Definition Execute (uc : UseCase) (inp : Input) : G Port bool (res Output) := (
  if IsZero (TenantID inp) then fail sign_in.ErrInternal else
  match NewEmail (Email inp) with
  | Err _ => burn uc inp ;; fail sign_in.ErrInvalidCredentials
  | Ok email =>
  found <- call (Users (FindByEmail (TenantID inp) email)) ;;
  match found with
  | Err err =>
    if errors_Is err user.ErrUserNotFound then
      burn uc inp ;; fail sign_in.ErrInvalidCredentials
    else fail sign_in.ErrInternal
  | Ok u =>
  try ok <- call (Hasher (Verify (User.passwordHash u) (Password inp)))
    catch _ => fail sign_in.ErrInternal ;;
  if negb ok then fail sign_in.ErrInvalidCredentials else
  try tok <- call (Tokens GenerateToken) catch _ => fail sign_in.ErrInternal ;;
  now <- call (Now UseCaseClock) ;;
  sessionID <- call UuidNew ;;
  let expiresAt := Add now (sessionTTL uc) in
  let sess := Session.New sessionID (TenantID inp) (User.id u) (Token_Hash tok) now expiresAt in
  try tx <- call (Uow Begin) catch _ => fail sign_in.ErrInternal ;;
  put false ;;
  defer (rollback_unless_committed tx) (
    try _ <- call (Sessions (SessionSaveTx tx sess)) catch _ => fail sign_in.ErrInternal ;;
    match ok_or marshal_error (Marshal (sessionPayload sessionID (User.id u) (TenantID inp) now)) with
    | Err _ => fail sign_in.ErrInternal
    | Ok body =>
    eventID <- call UuidNew ;;
    try _ <- call (OutboxRepo (WriteTx tx
        (Outbox.New eventID (TenantID inp) "session" sessionID TopicSessionCreated body now)))
      catch _ => fail sign_in.ErrInternal ;;
    try _ <- call (Uow (Commit tx)) catch _ => fail sign_in.ErrInternal ;;
    put true ;;
    (if cache uc then
       let tokenHashHex := EncodeToString (Token_Hash tok) in
       let cached := MkCachedSession sessionID (User.id u) (TenantID inp) expiresAt in
       until <- call (Now TimeNow) ;;
       try _ <- call (SessionCache (CacheSet tokenHashHex cached (Sub expiresAt until)))
         catch err => call (Log (MkLog Warn "session cache write failed after sign-in"
                        [("session_id", AString (uuid_String sessionID)); ("err", AErr err)])) ;;
       ret tt
     else ret tt) ;;
    ret (Ok (MkOutput (User.id u) (Token_String tok) expiresAt))
    end)
  end end)%go.

(** ** What a sign-in promises *)

(** Everything a sign-in generates, and the user it is for. *)
Record Grant := MkGrant {
  g_user : User.User;
  g_token : Token;
  g_now : Time;
  g_session : UUID;
  g_event : UUID;
  g_body : string;
}.

Definition g_expires (uc : UseCase) (g : Grant) : Time := Add (g_now g) (sessionTTL uc).

Definition grant_session (uc : UseCase) (inp : Input) (g : Grant) : Session.Session :=
  Session.New (g_session g) (TenantID inp) (User.id (g_user g)) (Token_Hash (g_token g))
    (g_now g) (g_expires uc g).

Definition grant_rows (uc : UseCase) (inp : Input) (g : Grant) : list Write :=
  [WSession (stored_session (grant_session uc inp g));
   WEvent (stored_event (Outbox.New (g_event g) (TenantID inp) "session" (g_session g)
                           TopicSessionCreated (g_body g) (g_now g)))].

Context (verifies : PasswordHash -> string -> bool).

(** [u] is the user the request names. *)
Definition names_user (inp : Input) (s : Sys) (u : User.User) : Prop :=
  exists i email, NewEmail (Email inp) = Ok email /\ users (committed s) !! i = Some u
    /\ User.tenantID u = TenantID inp /\ User.email u = email.

Record answers (uc : UseCase) (inp : Input) (s : Sys) (g : Grant) : Prop := {
  ans_tenant : IsZero (TenantID inp) = false;
  ans_user : names_user inp s (g_user g);
  ans_password : verifies (User.passwordHash (g_user g)) (Password inp) = true;
  ans_token : 32 <= len (token_value (g_token g)) <= 128;
  ans_now : PortSpec.now s <= g_now g;
  ans_session : ~ session_conflict (committed s) (grant_session uc inp g);
  ans_owner : is_Some (users (committed s) !! User.id (g_user g));
  ans_event : events (committed s) !! g_event g = None;
  ans_body : Marshal (sessionPayload (g_session g) (User.id (g_user g)) (TenantID inp) (g_now g)) = Some (g_body g);
}.

Record session_created (uc : UseCase) (inp : Input) (s : Sys) (g : Grant) (s' : Sys) : Prop := {
  created_committed : committed s' = apply_writes (grant_rows uc inp g) (committed s);
  created_txs : txs s' = txs s;
  created_cache : PortSpec.cache s' = PortSpec.cache s \/ cache uc = true /\ exists ttl,
    PortSpec.cache s' =
      <[EncodeToString (Token_Hash (g_token g)) :=
          (MkCachedSession (g_session g) (User.id (g_user g)) (TenantID inp) (g_expires uc g), ttl)]>
        (PortSpec.cache s);
}.

(** The credentials are not those of a user of the tenant. *)
Definition bad_credentials (inp : Input) (s : Sys) : Prop :=
  (forall u, ~ names_user inp s u)
  \/ exists u, names_user inp s u /\ verifies (User.passwordHash u) (Password inp) = false.

(** The abstract specification of a sign-in. *)
Inductive sign_in (uc : UseCase) (inp : Input) (s : Sys) : outcome (res Output) -> Sys -> Prop :=
| invalid_tenant :
    IsZero (TenantID inp) = true ->
    sign_in uc inp s (Returned (Err (sign_in.ErrInternal : error))) s
| invalid_credentials s' :
    bad_credentials inp s -> quiet s s' ->
    sign_in uc inp s (Returned (Err (sign_in.ErrInvalidCredentials : error))) s'
| gave_up_before_commit o s' :
    gave_up (sign_in.ErrInternal : error) o -> quiet s s' -> sign_in uc inp s o s'
| gave_up_after_commit g o s' :
    session_created uc inp s g s' -> answers uc inp s g ->
    gave_up (sign_in.ErrInternal : error) o -> sign_in uc inp s o s'
| signed_in g s' :
    session_created uc inp s g s' -> answers uc inp s g ->
    sign_in uc inp s
      (Returned (Ok (MkOutput (User.id (g_user g)) (Token_String (g_token g)) (g_expires uc g)))) s'.

#[local] Ltac created :=
  split; [reflexivity|reflexivity|first [by left|right; split; [assumption|eexists; reflexivity]]].
#[local] Ltac grant c :=
  eapply (c _ _ _ (MkGrant _ _ _ _ _ _)); [created|split; cbn in *; eassumption|..].

Lemma names_none inp s email :
  NewEmail (Email inp) = Ok email ->
  (forall i u, users (committed s) !! i = Some u ->
     ~ (User.tenantID u = TenantID inp /\ User.email u = email)) ->
  bad_credentials inp s.
Proof.
  intros He Hn. left. intros u (i & email' & He' & Hu & Ht & Hm).
  rewrite He in He'. injection He' as <-. by apply (Hn i u).
Qed.

Lemma sign_in_refines uc inp s l :
  wp (pstep verifies) (Execute uc inp l) (on_outcome (sign_in uc inp s)) s.
Proof.
  unfold Execute, burn, on_outcome.
  destruct (IsZero (TenantID inp)) eqn:Ez; [by apply invalid_tenant|].
  destruct (NewEmail (Email inp)) as [email|err] eqn:Eemail.
  2:{ assert (bad_credentials inp s) by (left; intros u (? & ? & ? & _); congruence).
      wp_go; first [by apply invalid_credentials
                   |apply gave_up_before_commit; [solve [auto with s2r]|done]]. }
  apply wp_bind_go, wp_FindByEmail.
  - wp_go; (apply gave_up_before_commit; [solve [auto with s2r]|done]).
  - intros i u Hu Ht He. assert (names_user inp s u) as Hnames by (by exists i, email).
    apply wp_bind_go, wp_Verify; [wp_go; (apply gave_up_before_commit; [solve [auto with s2r]|done])|].
    destruct (verifies (User.passwordHash u) (Password inp)) eqn:Hok.
    2:{ apply invalid_credentials; [|done]. right. by exists u. }
    destruct (cache uc) eqn:Ecache; wp_go; try assumption;
      first [ apply gave_up_before_commit; [solve [auto with s2r]|done]
            | grant signed_in
            | grant gave_up_after_commit; auto with s2r ].
  - intros Hn. pose proof (names_none inp s email Eemail Hn) as Hbad.
    wp_go; first [ by apply invalid_credentials
                 | apply gave_up_before_commit; [solve [auto with s2r]|done] ].
Qed.

(** ** The number of password checks *)

(** The password check made by a call, if it is one. *)
Definition check_of (c : {R & Port R}) : option (PasswordHash * string) :=
  match projT2 c with Hasher (Verify h raw) => Some (h, raw) | _ => None end.

(** A call that changes nothing in the tables, the cache or a transaction. *)
Definition harmless (c : {R & Port R}) : Prop :=
  match projT2 c with
  | Users (FindByEmail _ _) | Hasher (Verify _ _) | Log _ => True
  | _ => False
  end.

(** C6: on every way to ErrInvalidCredentials (a bad address, an unknown user, a
    wrong password), whatever the collaborators answer, exactly one password
    check is made, on the password of the request, and nothing is written. *)
Theorem Execute_one_check uc inp l :
  wp recorded (Execute uc inp l) (fun ol calls =>
    ol.1 = Returned (Err (sign_in.ErrInvalidCredentials : error)) ->
    Forall harmless calls /\ exists h, omap check_of calls = [(h, Password inp)]) [].
Proof.
  unfold Execute, burn.
  destruct (IsZero (TenantID inp)); [done|].
  destruct (NewEmail (Email inp)); wp_any; try done; intros _;
    (split; [by repeat constructor|by eexists]).
Qed.

(** C5: a sign-in succeeds only for a user of the tenant whose hash accepts
    the password, and then commits the session and its event together;
    ErrInvalidCredentials is answered only for bad credentials and changes
    nothing; no transaction stays open on any path. *)
Theorem Execute_authenticates uc inp s l :
  wp (pstep verifies) (Execute uc inp l) (on_outcome (fun (o : outcome (res Output)) s' =>
    txs s' = txs s /\
    match o with
    | Returned (Ok out) => exists g,
        answers uc inp s g /\ session_created uc inp s g s'
        /\ out = MkOutput (User.id (g_user g)) (Token_String (g_token g)) (g_expires uc g)
    | Returned (Err e) =>
        (e = sign_in.ErrInvalidCredentials /\ quiet s s' /\ bad_credentials inp s)
        \/ (e = sign_in.ErrInternal
            /\ (quiet s s' \/ exists g, answers uc inp s g /\ session_created uc inp s g s'))
    | Panicked _ => quiet s s' \/ exists g, answers uc inp s g /\ session_created uc inp s g s'
    end)) s.
Proof.
  eapply wp_mono; [|apply sign_in_refines]. intros [o l'] s'. unfold on_outcome. cbn [fst].
  intros H'. destruct H'; try (split; [done|]); try match goal with
    | H : session_created _ _ _ _ _ |- txs _ = txs _ /\ _ => split; [apply H|]
    | H : quiet _ _ |- txs _ = txs _ /\ _ => split; [apply H|]
    end; try match goal with H : gave_up _ _ |- _ => destruct H as [->|[msg ->]] end; eauto 7.
  right. split; [done|by left].
Qed.
End Usecase.
