(* ===== verification/SignOut.v ===== *)
(** * Package [internal/usecase/sign_out]: revoke the current session. *)
From S2P Require Import Prelude Program GoTime GoJson Errors Tenant User Session Outbox Ports PortSpec PortRules.
#[local] Open Scope Z_scope.

Record Input := MkInput { TenantID : ID; SessionID : UUID; UserID : UUID; TokenHashHex : string }.

Record Output : Set := MkOutput {}.

Record UseCase := MkUseCase { cache : bool }.

Definition New (cache : bool) : UseCase := MkUseCase cache.

Section Usecase.
Context `{UuidLib}.

Definition revokedPayload (inp : Input) (now : Time) : mvalue :=
  MStruct [("session_id", MString (uuid_String (SessionID inp)));
           ("user_id", MString (uuid_String (UserID inp)));
           ("tenant_id", MString (Tenant.String (TenantID inp))); ("revoked_at", MTime now)].

(** The local of the body is [committed]. *)
Definition Execute (uc : UseCase) (inp : Input) : G Port bool (res Output) := (
  if IsZero (TenantID inp) || bool_decide (SessionID inp = Nil) then fail sign_out.ErrInternal else
  now <- call (Now UseCaseClock) ;;
  try tx <- call (Uow Begin) catch _ => fail sign_out.ErrInternal ;;
  put false ;;
  defer (rollback_unless_committed tx) (
    try _ <- call (Sessions (RevokeTx tx (TenantID inp) (SessionID inp)))
      catch _ => fail sign_out.ErrInternal ;;
    match ok_or marshal_error (Marshal (revokedPayload inp now)) with
    | Err _ => fail sign_out.ErrInternal
    | Ok body =>
    eventID <- call UuidNew ;;
    try _ <- call (OutboxRepo (WriteTx tx
        (Outbox.New eventID (TenantID inp) "session" (SessionID inp) TopicSessionRevoked body now)))
      catch _ => fail sign_out.ErrInternal ;;
    try _ <- call (Uow (Commit tx)) catch _ => fail sign_out.ErrInternal ;;
    put true ;;
    (if cache uc && negb (bool_decide (TokenHashHex inp = "")) then
       try _ <- call (SessionCache (CacheDelete (TokenHashHex inp)))
         catch err => call (Log (MkLog Warn "session cache delete failed after sign-out"
                        [("session_id", AString (uuid_String (SessionID inp))); ("err", AErr err)])) ;;
       ret tt
     else ret tt) ;;
    ret (Ok MkOutput)
    end))%go.

(** ** What a sign-out promises *)

(** The session named by the request, the time the database stamps on it,
    and the event. *)
Record Revocation := MkRevocation {
  r_session : Session.Session;
  r_at : Time;
  r_now : Time;
  r_event : UUID;
  r_body : string;
}.

Definition revoked_event (inp : Input) (r : Revocation) : Event :=
  stored_event (Outbox.New (r_event r) (TenantID inp) "session" (SessionID inp)
                  TopicSessionRevoked (r_body r) (r_now r)).

Record answers (inp : Input) (s : Sys) (r : Revocation) : Prop := {
  ans_session : PortSpec.sessions (committed s) !! SessionID inp = Some (r_session r);
  ans_tenant : Session.tenantID (r_session r) = TenantID inp;
  ans_now : PortSpec.now s <= r_now r;
  ans_event : events (committed s) !! r_event r = None;
  ans_body : Marshal (revokedPayload inp (r_now r)) = Some (r_body r);
}.

(** The row of the session carries a revocation time and nothing else of the
    three tables changed but the new event. *)
Record session_ended (inp : Input) (s : Sys) (r : Revocation) (s' : Sys) : Prop := {
  ended_committed : committed s' =
    apply_writes [WRevoke (SessionID inp) (r_at r); WEvent (revoked_event inp r)] (committed s);
  ended_txs : txs s' = txs s;
  ended_cache : PortSpec.cache s' = PortSpec.cache s
    \/ PortSpec.cache s' = delete (TokenHashHex inp) (PortSpec.cache s);
}.

(** The abstract specification of a sign-out. *)
Inductive sign_out (uc : UseCase) (inp : Input) (s : Sys) : outcome (res Output) -> Sys -> Prop :=
| invalid_input :
    IsZero (TenantID inp) = true \/ SessionID inp = Nil ->
    sign_out uc inp s (Returned (Err (sign_out.ErrInternal : error))) s
| gave_up_before_commit o s' :
    gave_up (sign_out.ErrInternal : error) o -> quiet s s' -> sign_out uc inp s o s'
| gave_up_after_commit r o s' :
    session_ended inp s r s' -> answers inp s r ->
    gave_up (sign_out.ErrInternal : error) o -> sign_out uc inp s o s'
(** the cache entry is gone, unless there was no key or the cache failed,
    which is logged *)
| signed_out r s' :
    session_ended inp s r s' -> answers inp s r ->
    PortSpec.cache s' !! TokenHashHex inp = None \/ cache uc = false \/ TokenHashHex inp = ""
      \/ (exists err, last (logs s') =
           Some (MkLog Warn "session cache delete failed after sign-out"
                   [("session_id", AString (uuid_String (SessionID inp))); ("err", AErr err)])) ->
    sign_out uc inp s (Returned (Ok MkOutput)) s'.

Context (verifies : PasswordHash -> string -> bool).

#[local] Ltac ended := split; [reflexivity|reflexivity|first [by left|by right]].
#[local] Ltac revocation c :=
  eapply (c _ _ _ (MkRevocation _ _ _ _ _)); [ended|split; cbn in *; eassumption|..].

Lemma sign_out_refines uc inp s l :
  wp (pstep verifies) (Execute uc inp l) (on_outcome (sign_out uc inp s)) s.
Proof.
  unfold Execute, on_outcome.
  destruct (IsZero (TenantID inp)) eqn:Ez; [by apply invalid_input; left|].
  case_bool_decide as Hnil; cbn [orb]; [by apply invalid_input; right|].
  destruct (cache uc) eqn:Ecache; [case_bool_decide as Hkey|]; wp_go; try assumption;
    first [ apply gave_up_before_commit; [solve [auto with s2r]|done]
          | revocation signed_out; first [ by auto | left; apply lookup_delete_eq
                                         | do 3 right; eexists; apply last_snoc ]
          | revocation gave_up_after_commit; auto with s2r ].
Qed.

(** A success is the end of the session. *)
Lemma sign_out_ok uc inp s out s' :
  sign_out uc inp s (Returned (Ok out)) s' -> exists r, answers inp s r /\ session_ended inp s r s'.
Proof.
  intros Hs. inversion Hs as [|o s1 Hg|r o s1 _ _ Hg|r s1 He Ha Hc]; subst;
    [by destruct Hg as [?|[? ?]]..|by exists r].
Qed.

(** The rows a sign-out leaves, spelled out. *)
Lemma ended_rows inp s r s' :
  answers inp s r -> session_ended inp s r s' ->
  users (committed s') = users (committed s)
  /\ PortSpec.sessions (committed s') =
       <[SessionID inp := revoke (r_at r) (r_session r)]> (PortSpec.sessions (committed s))
  /\ events (committed s') = <[r_event r := revoked_event inp r]> (events (committed s)).
Proof.
  intros [Hs _ _ _ _] [Hc _ _]. rewrite Hc. cbn. split; [done|]. split; [|done].
  by apply alter_alt_Some.
Qed.

End Usecase.
