(* ===== verification/GetMe.v ===== *)
(** * Package [internal/usecase/get_me]: the projection of the current user. *)
From S2P Require Import Prelude Program GoTime Errors Tenant User Session Outbox Ports PortSpec PortRules.
#[local] Open Scope Z_scope.

Record Input := MkInput { TenantID : ID; UserID : UUID }.

Record Output := MkOutput {
  out_UserID : UUID;
  out_Email : string;
  out_Status : string;
  out_CreatedAt : Time;
}.

(** The only collaborator is the repository. *)
Record UseCase : Set := MkUseCase {}.

Definition New : UseCase := MkUseCase.

Definition Execute {L} (uc : UseCase) (inp : Input) : G Port L (res Output) := (
  if IsZero (TenantID inp) then fail get_me.ErrInternal else
  found <- call (Users (FindByID (TenantID inp) (UserID inp))) ;;
  match found with
  | Err err => if errors_Is err user.ErrUserNotFound then fail get_me.ErrNotFound else fail get_me.ErrInternal
  | Ok u =>
    ret (Ok (MkOutput (User.id u) (Email_String (User.email u)) (User.status u) (User.createdAt u)))
  end)%go.

(** The projection of a row. *)
Definition projection (u : User.User) : Output :=
  MkOutput (User.id u) (Email_String (User.email u)) (User.status u) (User.createdAt u).

(** C31: the answer is the projection of the user's row in the caller's tenant;
    ErrNotFound means that the tenant has no such user; nothing is changed. *)
Theorem Execute_spec verifies {L} uc inp s (l : L) :
  wp (pstep verifies) (Execute uc inp l) (on_outcome (fun (o : outcome (res Output)) s' => s' = s /\
    match o with
    | Returned (Ok out) =>
        exists u, users (committed s) !! UserID inp = Some u /\ User.tenantID u = TenantID inp
          /\ out = projection u
    | Returned (Err e) =>
        (e = get_me.ErrNotFound
           /\ forall u, users (committed s) !! UserID inp = Some u -> User.tenantID u <> TenantID inp)
        \/ e = get_me.ErrInternal
    | Panicked _ => True
    end)) s.
Proof.
  unfold Execute, on_outcome. destruct (IsZero (TenantID inp)); [by split; [|right]|].
  wp_go; eauto 6.
Qed.
