(* ===== verification/Invariant.v ===== *)
(** * The invariant of the stored data

    What every reachable state of the database and the cache satisfies: keys
    and ids agree, an e-mail address names at most one user of a tenant, a
    token digest at most one session, sessions belong to users of their tenant,
    and a cache entry describes a stored session. *)
From S2P Require Import Prelude Program GoEncoding GoTime GoJson Errors Tenant User Session Outbox Ports PortSpec PortRules.
#[local] Open Scope Z_scope.

Record wf_store (st : Store) : Prop := {
  wf_user_key : forall i u, users st !! i = Some u -> User.id u = i;
  wf_user_unique : forall i j u v, users st !! i = Some u -> users st !! j = Some v ->
    User.tenantID u = User.tenantID v -> User.email u = User.email v -> i = j;
  wf_user_email : forall i u, users st !! i = Some u ->
    NewEmail (Email_String (User.email u)) = Ok (User.email u);
  wf_session_key : forall i x, sessions st !! i = Some x -> Session.id x = i;
  wf_session_unique : forall i j x y, sessions st !! i = Some x -> sessions st !! j = Some y ->
    Session.tokenHash x = Session.tokenHash y -> i = j;
  wf_session_owner : forall i x, sessions st !! i = Some x ->
    exists u, users st !! Session.userID x = Some u /\ User.tenantID u = Session.tenantID x;
  wf_session_hash : forall i x, sessions st !! i = Some x -> len (Session.tokenHash x) = 32;
  wf_session_expiry : forall i x, sessions st !! i = Some x ->
    stored_time (Session.expiresAt x) = Session.expiresAt x;
  wf_event_key : forall i e, events st !! i = Some e -> Outbox.id e = i;
}.

Lemma stored_time_idemp t : stored_time (stored_time t) = stored_time t.
Proof. unfold stored_time. by rewrite Z.div_mul by lia. Qed.

(** A cache entry describes a stored session. *)
Definition cached_session_of (key : string) (body : CachedSession) (x : Session.Session) : Prop :=
  key = EncodeToString (Session.tokenHash x)
  /\ Session.SessionID body = Session.id x /\ Session.UserID body = Session.userID x
  /\ Session.TenantID body = Session.tenantID x
  /\ stored_time (ExpiresAt body) = Session.expiresAt x.

Definition wf_cache (s : Sys) : Prop :=
  forall key body ttl, cache s !! key = Some (body, ttl) ->
  exists i x, sessions (committed s) !! i = Some x /\ cached_session_of key body x.

Record wf (s : Sys) : Prop := {
  wf_committed : wf_store (committed s);
  wf_cached : wf_cache s;
}.

(** ** Single writes *)

Section Writes.
Context (st : Store) (Hst : wf_store st).

Lemma wf_WUser u :
  ~ user_conflict st u -> NewEmail (Email_String (User.email u)) = Ok (User.email u) ->
  wf_store (apply_write st (WUser (stored_user u))).
Proof.
  intros Hfree He.
  assert (users st !! User.id u = None) as Hid.
  { apply eq_None_not_Some. intros ?. apply Hfree. by left. }
  assert (forall i v, users st !! i = Some v ->
            ~ (User.tenantID v = User.tenantID u /\ User.email v = User.email u)) as Hno.
  { intros i v Hv ?. apply Hfree. right. by exists i, v. }
  destruct Hst as [H1 H2 H3 H4 H5 H6 H7 H9 H8]. split; cbn; try done.
  - intros i v. rewrite lookup_insert_Some. intros [[<- <-]|[_ Hv]]; [done|by apply H1].
  - intros i j v w. rewrite !lookup_insert_Some.
    intros [[<- <-]|[_ Hv]] [[<- <-]|[_ Hw]] Ht Hm; cbn in *; [done|..|by eapply H2].
    + by destruct (Hno j w Hw).
    + by destruct (Hno i v Hv).
  - intros i v. rewrite lookup_insert_Some. intros [[<- <-]|[_ Hv]]; [done|by eapply H3].
  - intros i x Hx. destruct (H6 i x Hx) as (v & Hv & Ht). exists v. split; [|done].
    rewrite lookup_insert_ne; [done|]. intros E. congruence.
Qed.

Lemma wf_WSession x :
  ~ session_conflict st x -> len (Session.tokenHash x) = 32 ->
  (exists u, users st !! Session.userID x = Some u /\ User.tenantID u = Session.tenantID x) ->
  wf_store (apply_write st (WSession (stored_session x))).
Proof.
  intros Hfree Hlen Howner.
  assert (forall i y, sessions st !! i = Some y -> Session.tokenHash y <> Session.tokenHash x) as Hno.
  { intros i y Hy ?. apply Hfree. right. by exists i, y. }
  destruct Hst as [H1 H2 H3 H4 H5 H6 H7 H9 H8]. split; cbn; try done.
  - intros i y. rewrite lookup_insert_Some. intros [[<- <-]|[_ Hy]]; [done|by apply H4].
  - intros i j y z. rewrite !lookup_insert_Some.
    intros [[<- <-]|[_ Hy]] [[<- <-]|[_ Hz]] Hh; cbn in *; [done|..|by eapply H5].
    + by destruct (Hno j z Hz).
    + by destruct (Hno i y Hy).
  - intros i y. rewrite lookup_insert_Some. intros [[<- <-]|[_ Hy]]; [done|by eapply H6].
  - intros i y. rewrite lookup_insert_Some. intros [[<- <-]|[_ Hy]]; [done|by eapply H7].
  - intros i y. rewrite lookup_insert_Some.
    intros [[<- <-]|[_ Hy]]; [apply stored_time_idemp|by eapply H9].
Qed.

Lemma wf_WRevoke sid t : wf_store (apply_write st (WRevoke sid t)).
Proof.
  assert (forall i y, alter (revoke t) sid (sessions st) !! i = Some y ->
    exists x, sessions st !! i = Some x /\ (y = x \/ y = revoke t x)) as Hinv.
  { intros i y. destruct (decide (sid = i)) as [->|Hne].
    - rewrite lookup_alter_eq. destruct (sessions st !! i) as [x|] eqn:E; [|done].
      intros [= <-]. eauto.
    - rewrite lookup_alter_ne by done. eauto. }
  destruct Hst as [H1 H2 H3 H4 H5 H6 H7 H9 H8]. split; cbn; try done.
  - intros i y (x & Hx & [->| ->])%Hinv; by apply (H4 i x).
  - intros i j y z (x & Hx & Hy)%Hinv (x' & Hx' & Hz)%Hinv Hh.
    apply (H5 i j x x' Hx Hx'). by destruct Hy as [->| ->], Hz as [->| ->].
  - intros i y (x & Hx & [->| ->])%Hinv; by apply (H6 i x).
  - intros i y (x & Hx & [->| ->])%Hinv; by apply (H7 i x).
  - intros i y (x & Hx & [->| ->])%Hinv; by apply (H9 i x).
Qed.

Lemma wf_WEvent e : wf_store (apply_write st (WEvent e)).
Proof.
  destruct Hst as [H1 H2 H3 H4 H5 H6 H7 H9 H8]. split; cbn; try done.
  intros i f. rewrite lookup_insert_Some. intros [[<- <-]|[_ Hy]]; [done|by apply H8].
Qed.
End Writes.

#[export] Hint Resolve wf_WRevoke wf_WEvent : s2r.

Lemma wf_quiet s s' : wf s -> quiet s s' -> wf s'.
Proof.
  intros [Hst Hc] [Hs _ Hca _]. split; [by rewrite Hs|].
  intros key body ttl. rewrite Hca, Hs. apply Hc.
Qed.

(** Changes of the sessions table that keep what cache entries describe. *)
Definition same_identity (x y : Session.Session) : Prop :=
  Session.id y = Session.id x /\ Session.userID y = Session.userID x
  /\ Session.tenantID y = Session.tenantID x /\ Session.tokenHash y = Session.tokenHash x
  /\ Session.expiresAt y = Session.expiresAt x.

Lemma cached_same key body x y :
  same_identity x y -> cached_session_of key body x -> cached_session_of key body y.
Proof. intros (E1 & E2 & E3 & E4 & E5) (? & ? & ? & ? & ?). repeat split; congruence. Qed.

(** The cache after some entries vanished and at most one was written. *)
Definition cache_updated (s s' : Sys) (written : string -> CachedSession -> Prop) : Prop :=
  forall key body ttl, cache s' !! key = Some (body, ttl) ->
    cache s !! key = Some (body, ttl) \/ written key body.

Lemma cache_kept s s' P : cache s' = cache s -> cache_updated s s' P.
Proof. intros E key body ttl. rewrite E. by left. Qed.

Lemma cache_deleted s s' key P : cache s' = delete key (cache s) -> cache_updated s s' P.
Proof. intros E key' body ttl. rewrite E, lookup_delete_Some. intros [_ ?]. by left. Qed.

Lemma cache_inserted s s' (P : string -> CachedSession -> Prop) key body ttl m :
  P key body -> (m = cache s \/ m = delete key (cache s)) ->
  cache s' = <[key := (body, ttl)]> m -> cache_updated s s' P.
Proof.
  intros HP Hm E key' body' ttl'. rewrite E, lookup_insert_Some.
  intros [[<- [= <- <-]]|[_ Hk]]; [by right|left].
  destruct Hm as [->| ->]; [done|]. by apply lookup_delete_Some in Hk as [_ ?].
Qed.

(** The invariant after a change that keeps the described sessions. *)
Lemma wf_update s s' written :
  wf s -> wf_store (committed s') ->
  (forall i x, sessions (committed s) !! i = Some x ->
     exists y, sessions (committed s') !! i = Some y /\ same_identity x y) ->
  cache_updated s s' written ->
  (forall key body, written key body ->
     exists i x, sessions (committed s') !! i = Some x /\ cached_session_of key body x) ->
  wf s'.
Proof.
  intros [_ Hc] Hst' Hold Hup Hnew. split; [done|]. intros key body ttl Hk.
  destruct (Hup _ _ _ Hk) as [Hk'|Hw]; [|by apply Hnew].
  destruct (Hc _ _ _ Hk') as (i & x & Hx & Hb). destruct (Hold i x Hx) as (y & Hy & Hxy).
  exists i, y. split; [done|]. by eapply cached_same.
Qed.

Lemma same_identity_refl x : same_identity x x.
Proof. by repeat split. Qed.

(** A new session row keeps the old ones. *)
Lemma sessions_inserted st x i y :
  ~ session_conflict st x -> sessions st !! i = Some y ->
  exists z, <[Session.id x := stored_session x]> (sessions st) !! i = Some z /\ same_identity y z.
Proof.
  intros Hfree Hy. exists y. split; [|apply same_identity_refl].
  rewrite lookup_insert_ne; [done|]. intros <-. apply Hfree. left. by rewrite Hy.
Qed.
