(* ===== verification/GoNet.v ===== *)
(** * The parts of Go's [net/url] and [net] that the middleware uses: the
    scheme and the host of [url.Parse] (as of Go 1.22), and [net.SplitHostPort]. *)
From S2P Require Import Prelude GoText.
#[local] Open Scope Z_scope.

(** ** Cutting byte strings *)

(** [strings.Cut(s, sep)] for a one-byte separator: before, after, found. *)
Fixpoint cut (b : Z) (l : list Z) : list Z * list Z * bool :=
  match l with
  | [] => ([], [], false)
  | c :: r =>
    if c =? b then ([], r, true)
    else let '(before, after, found) := cut b r in (c :: before, after, found)
  end.

(** The parts before and after the last [b], if there is one. *)
Definition cut_last (b : Z) (l : list Z) : option (list Z * list Z) :=
  match cut b (rev l) with
  | (before, after, true) => Some (rev after, rev before)
  | _ => None
  end.

Definition has (b : Z) (l : list Z) : bool := existsb (Z.eqb b) l.

(** ** net/url *)

Definition is_letter (b : Z) : bool := ((97 <=? b) && (b <=? 122)) || ((65 <=? b) && (b <=? 90)).
Definition is_hex (b : Z) : bool :=
  is_digit b || ((97 <=? b) && (b <=? 102)) || ((65 <=? b) && (b <=? 70)).
Definition unhex (b : Z) : Z :=
  if is_digit b then b - 48 else if (97 <=? b) && (b <=? 102) then b - 97 + 10 else b - 65 + 10.

Inductive encoding := encodePath | encodeUserPassword | encodeHost | encodeZone | encodeFragment.

(** Bytes that [shouldEscape] keeps in a host: letters, digits and these. *)
Definition host_punctuation : list Z :=
  map byte_of ["!"; "$"; "&"; "'"; "("; ")"; "*"; "+"; ","; ";"; "="; ":"; "["; "]"; "<"; ">";
               "-"; "_"; "."; "~"]%char ++ [34].
Definition host_byte (b : Z) : bool := is_letter b || is_digit b || has b host_punctuation.

(** [unescape(s, mode)]; [None] is an error. *)
Fixpoint unescape (mode : encoding) (l : list Z) : option (list Z) :=
  match l with
  | [] => Some []
  | 37 :: r =>
    match r with
    | a :: b :: r' =>
      if negb (is_hex a && is_hex b) then None else
      let v := 16 * unhex a + unhex b in
      let is25 := (a =? 50) && (b =? 53) in
      let bad := match mode with
                 | encodeHost => (unhex a <? 8) && negb is25
                 | encodeZone => negb is25 && negb (v =? 32) && negb (host_byte v)
                 | _ => false
                 end in
      if bad then None else option_map (cons v) (unescape mode r')
    | _ => None
    end
  | c :: r =>
    let bad := match mode with
               | encodeHost | encodeZone => (c <? 0x80) && negb (host_byte c)
               | _ => false
               end in
    if bad then None else option_map (cons c) (unescape mode r)
  end.

(** [getScheme(rawURL)]: the scheme and the rest. *)
Fixpoint get_scheme_from (raw acc l : list Z) : option (list Z * list Z) :=
  match l with
  | [] => Some ([], raw)
  | c :: r =>
    if is_letter c then get_scheme_from raw (acc ++ [c]) r
    else if is_digit c || (c =? 43) || (c =? 45) || (c =? 46) then
      if bool_decide (acc = []) then Some ([], raw) else get_scheme_from raw (acc ++ [c]) r
    else if c =? 58 then if bool_decide (acc = []) then None else Some (acc, r)
    else Some ([], raw)
  end.
Definition get_scheme (raw : list Z) : option (list Z * list Z) := get_scheme_from raw [] raw.

Definition valid_optional_port (l : list Z) : bool :=
  match l with [] => true | c :: r => (c =? 58) && forallb is_digit r end.

Definition userinfo_punctuation : list Z :=
  map byte_of ["-"; "."; "_"; ":"; "~"; "!"; "$"; "&"; "'"; "("; ")"; "*"; "+"; ","; ";"; "="; "%"; "@"]%char.
Definition valid_userinfo (l : list Z) : bool :=
  forallb (fun b => is_letter b || is_digit b || has b userinfo_punctuation) l.

(** [strings.Index(s, "%25")]: the parts before and from the match. *)
Fixpoint split_zone (l : list Z) : option (list Z * list Z) :=
  match l with
  | [] => None
  | c :: r =>
    match l with
    | 37 :: 50 :: 53 :: _ => Some ([], l)
    | _ => option_map (fun p => (c :: p.1, p.2)) (split_zone r)
    end
  end.

(** [parseHost(host)]. *)
Definition parse_host (host : list Z) : option (list Z) :=
  match host with
  | 91 :: _ =>
    match cut_last 93 host with
    | None => None
    | Some (inside, port) =>
      if negb (valid_optional_port port) then None else
      match split_zone inside with
      | Some (addr, zone) =>
        match unescape encodeHost addr, unescape encodeZone zone, unescape encodeHost (93 :: port) with
        | Some h1, Some h2, Some h3 => Some (h1 ++ h2 ++ h3)
        | _, _, _ => None
        end
      | None => unescape encodeHost host
      end
    end
  | _ =>
    match cut_last 58 host with
    | Some (_, port) => if negb (valid_optional_port (58 :: port)) then None else unescape encodeHost host
    | None => unescape encodeHost host
    end
  end.

(** The host of [parseAuthority(authority)]. *)
Definition parse_authority (authority : list Z) : option (list Z) :=
  match cut_last 64 authority with
  | None => parse_host authority
  | Some (userinfo, hostport) =>
    match parse_host hostport with
    | None => None
    | Some host =>
      if negb (valid_userinfo userinfo) then None else
      let '(name, password, found) := cut 58 userinfo in
      match unescape encodeUserPassword name, unescape encodeUserPassword password with
      | Some _, Some _ => Some host
      | _, _ => None
      end
    end
  end.

(** The rest of the URL without its query (a lone trailing question mark is
    dropped as well). *)
Definition cut_query (l : list Z) : list Z := (cut 63 l).1.1.

Record URL := MkURL { Scheme : string; Host : string }.

Definition lower_byte (b : Z) : Z := if (65 <=? b) && (b <=? 90) then b + 32 else b.

(** [url.Parse]: the scheme and the host of the URL, or an error. *)
Definition parse_url (u : list Z) : option (list Z * list Z) :=
  if existsb (fun b => (b <? 32) || (b =? 127)) u then None
  else if bool_decide (u = [42]) then Some ([], [])
  else
    match get_scheme u with
    | None => None
    | Some (scheme, rest) =>
      let scheme := map lower_byte scheme in
      let rest := cut_query rest in
      let set_path path host := option_map (fun _ => (scheme, host)) (unescape encodePath path) in
      match rest with
      | 47 :: 47 :: authority =>
        if bool_decide (scheme = []) && match authority with 47 :: _ => true | _ => false end
        then set_path rest []
        else
          let '(auth, path, slash) := cut 47 authority in
          match parse_authority auth with
          | None => None
          | Some host => set_path (if slash then 47 :: path else []) host
          end
      | 47 :: _ => set_path rest []
      | _ =>
        if negb (bool_decide (scheme = [])) then Some (scheme, [])
        else if has 58 (cut 47 rest).1.1 then None
        else set_path rest []
      end
    end.

Definition Parse (s : string) : option URL :=
  let '(u, frag, _) := cut 35 (bytes_of s) in
  match parse_url u with
  | None => None
  | Some (scheme, host) =>
    match unescape encodeFragment frag with
    | None => None
    | Some _ => Some (MkURL (of_bytes scheme) (of_bytes host))
    end
  end.

(** ** net.SplitHostPort: host and port *)

Definition split_host_port (l : list Z) : option (list Z * list Z) :=
  match cut_last 58 l with
  | None => None
  | Some (before, port) =>
    match l with
    | 91 :: r =>
      match cut 93 r with
      | (_, _, false) => None
      | (host, after, true) =>
        if bool_decide (91 :: host ++ [93] = before) && negb (has 91 r) && negb (has 93 after)
        then Some (host, port) else None
      end
    | _ => if has 58 before || has 91 l || has 93 l then None else Some (before, port)
    end
  end.

Definition SplitHostPort (s : string) : option (string * string) :=
  option_map (fun p => (of_bytes p.1, of_bytes p.2)) (split_host_port (bytes_of s)).

Example Parse_examples :
  Parse "https://app.example.com:8443/a?b=c#d" = Some (MkURL "https" "app.example.com:8443")
  /\ Parse "HTTPS://good.example@evil.example/" = Some (MkURL "https" "evil.example")
  /\ Parse "https://a:b:c/" = None /\ Parse "mailto:x@y" = Some (MkURL "mailto" "")
  /\ Parse "http://[fe80::1%25en0]:80/" = Some (MkURL "http" "[fe80::1%en0]:80")
  /\ Parse "http://a b/" = None /\ Parse "http://%41/" = None /\ Parse "//host/p" = Some (MkURL "" "host")
  /\ Parse ":x" = None /\ Parse "a/b" = Some (MkURL "" "") /\ Parse "http://h/%zz" = None.
Proof. vm_compute. repeat split. Qed.

Example SplitHostPort_examples :
  SplitHostPort "10.0.0.1:8080" = Some ("10.0.0.1", "8080")
  /\ SplitHostPort "[::1]:80" = Some ("::1", "80") /\ SplitHostPort "::1:80" = None
  /\ SplitHostPort "host" = None /\ SplitHostPort "[::1]" = None.
Proof. vm_compute. repeat split. Qed.
