(* ===== verification/Http.v ===== *)
(** * The HTTP surface: request context, cookies, error bodies

    A [RequestCtx] is what the code reads from and writes to a
    fasthttp.RequestCtx: what the accessors of the request return, what the
    setters of the response were last given, and the user values.  The
    serialisation of the response belongs to fasthttp and is not modelled.
    The files are internal/transport/http/cookies, internal/transport/http/errors
    and internal/transport/http/json.go. *)
From S2P Require Import Prelude Program GoTime GoJson Errors Tenant Ports PortRules.
#[local] Open Scope Z_scope.

(** ** fasthttp.RequestCtx *)

Record Request := MkRequest {
  Method : string;
  Path : string;
  (** [ctx.Request.Header.Peek(name)], [""] for a missing header *)
  Peek : string -> string;
  (** [ctx.Request.Header.Cookie(name)] *)
  RequestCookie : string -> string;
  UserAgent : string;
  PostBody : string;
  (** [ctx.RemoteAddr().String()] *)
  RemoteAddr : string;
}.

Inductive Expire := ExpireAt (t : Time) | CookieExpireDelete.
Inductive SameSite := CookieSameSiteLaxMode.

Record Cookie := MkCookie {
  Key : string;
  Value : string;
  CookiePath : string;
  CookieExpire : Expire;
  MaxAge : Z;
  HTTPOnly : bool;
  Secure : bool;
  CookieSameSite : SameSite;
}.

Record Response := MkResponse {
  StatusCode : Z;
  ContentType : string;
  Headers : gmap string string;
  SetCookies : gmap string Cookie;
  Body : string;
}.

(** What the code stores under a user-value key. *)
Inductive uval := UVString (s : string) | UVUuid (u : UUID) | UVTenant (t : ID).

Record RequestCtx := MkRequestCtx {
  request : Request;
  response : Response;
  uservalues : gmap string uval;
}.

Definition on_response (f : Response -> Response) (c : RequestCtx) : RequestCtx :=
  MkRequestCtx (request c) (f (response c)) (uservalues c).
Definition SetStatusCode (n : Z) : RequestCtx -> RequestCtx := on_response (fun r =>
  MkResponse n (ContentType r) (Headers r) (SetCookies r) (Body r)).
Definition SetContentType (t : string) : RequestCtx -> RequestCtx := on_response (fun r =>
  MkResponse (StatusCode r) t (Headers r) (SetCookies r) (Body r)).
Definition SetHeader (k v : string) : RequestCtx -> RequestCtx := on_response (fun r =>
  MkResponse (StatusCode r) (ContentType r) (<[k := v]> (Headers r)) (SetCookies r) (Body r)).
Definition SetCookie (c : Cookie) : RequestCtx -> RequestCtx := on_response (fun r =>
  MkResponse (StatusCode r) (ContentType r) (Headers r) (<[Key c := c]> (SetCookies r)) (Body r)).
Definition SetBody (b : string) : RequestCtx -> RequestCtx := on_response (fun r =>
  MkResponse (StatusCode r) (ContentType r) (Headers r) (SetCookies r) b).
Definition SetUserValue (k : string) (v : uval) (c : RequestCtx) : RequestCtx :=
  MkRequestCtx (request c) (response c) (<[k := v]> (uservalues c)).
Definition UserValue (k : string) (c : RequestCtx) : option uval := uservalues c !! k.

(** The context of a new request. *)
Definition new_ctx (r : Request) : RequestCtx := MkRequestCtx r (MkResponse 200 "" ∅ ∅ "") ∅.

(** A fasthttp.RequestHandler: its locals are the request context. *)
Definition Handler : Type := G Port RequestCtx unit.

(** ** cookies/session_cookie.go *)

Definition NameSecure : string := "__Host-session".
Definition NameInsecure : string := "session".

Record CookieConfig := MkCookieConfig { cfg_Secure : bool }.

Definition Name (c : CookieConfig) : string := if cfg_Secure c then NameSecure else NameInsecure.

Definition SetFast (cfg : CookieConfig) (token : string) (expiresAt : Time) : Handler := (
  until <- call (Now TimeNow) ;;
  modify (SetCookie (MkCookie (Name cfg) token "/" (ExpireAt expiresAt)
    (float64_to_int (Seconds (Sub expiresAt until))) true (cfg_Secure cfg) CookieSameSiteLaxMode)))%go.

Definition ClearFast (cfg : CookieConfig) : Handler :=
  modify (SetCookie (MkCookie (Name cfg) "" "/" CookieExpireDelete (-1) true (cfg_Secure cfg)
    CookieSameSiteLaxMode)).

Definition ReadSessionCookieFast (c : RequestCtx) : string * bool :=
  let secure := RequestCookie (request c) NameSecure in
  if 0 <? len secure then (secure, true)
  else
    let insecure := RequestCookie (request c) NameInsecure in
    if 0 <? len insecure then (insecure, true) else ("", false).

(** ** errors/mapper.go *)

Record ErrResponse := MkErrResponse { Status : Z; Code : string; Message : string }.
#[global] Instance ErrResponse_eq_dec : EqDecision ErrResponse.
Proof. solve_decision. Defined.

Definition InvalidBody : ErrResponse := MkErrResponse 400 "invalid_body" "Invalid request body".
Definition SessionRequired : ErrResponse := MkErrResponse 401 "session_required" "Authentication required".
Definition SessionInvalid : ErrResponse := MkErrResponse 401 "session_invalid" "Session is invalid".
Definition Internal : ErrResponse := MkErrResponse 500 "internal" "Internal server error".
Definition Forbidden : ErrResponse := MkErrResponse 403 "forbidden" "Request forbidden".

Definition FromSignUp (err : error) : ErrResponse :=
  if errors_Is err sign_up.ErrInvalidEmail then MkErrResponse 400 "invalid_email" "Email is invalid"
  else if errors_Is err sign_up.ErrWeakPassword then
    MkErrResponse 400 "weak_password" "Password does not meet policy"
  else if errors_Is err sign_up.ErrEmailTaken then
    MkErrResponse 409 "email_taken" "Email already in use"
  else Internal.

Definition FromSignIn (err : error) : ErrResponse :=
  if errors_Is err sign_in.ErrInvalidCredentials || errors_Is err sign_in.ErrInvalidEmail then
    MkErrResponse 401 "invalid_credentials" "Invalid credentials"
  else Internal.

Definition FromSignOut (_ : error) : ErrResponse := Internal.

Definition FromGetMe (err : error) : ErrResponse :=
  if errors_Is err get_me.ErrNotFound then MkErrResponse 401 "session_invalid" "Session is invalid"
  else Internal.

(** [buf, _ := json.Marshal(v)]: no bytes when Marshal fails. *)
Definition marshal_or_empty (v : mvalue) : string := default "" (Marshal v).

Definition ErrBody (code message : string) : mvalue :=
  MStruct [("error", MStruct [("code", MString code); ("message", MString message)])].

Definition WriteFast (r : ErrResponse) : Handler := (
  modify (SetContentType "application/json") ;;
  modify (SetStatusCode (Status r)) ;;
  modify (SetBody (marshal_or_empty (ErrBody (Code r) (Message r)))))%go.

(** ** json.go *)

Definition WriteJSON (status : Z) (v : mvalue) : Handler := (
  match Marshal v with
  | None =>
    modify (SetContentType "application/json") ;;
    modify (SetStatusCode 500) ;;
    modify (SetBody (json_text "{'error':{'code':'internal','message':'Internal server error'}}"))
  | Some buf =>
    modify (SetContentType "application/json") ;;
    modify (SetStatusCode status) ;;
    modify (SetBody buf)
  end)%go.

(** ** Lemmas *)

(** The response an error is answered with. *)
Definition answered (r : ErrResponse) (c : RequestCtx) : RequestCtx :=
  on_response (fun p => MkResponse (Status r) "application/json" (Headers p) (SetCookies p)
    (marshal_or_empty (ErrBody (Code r) (Message r)))) c.

Lemma WriteFast_eq r c : WriteFast r c = Ret (Returned tt, answered r c).
Proof. done. Qed.

Lemma wp_WriteFast {S} (spec : forall R, Port R -> S -> outcome R -> S -> Prop) r c Q s :
  Q (Returned tt, answered r c) s -> wp spec (WriteFast r c) Q s.
Proof. done. Qed.

(** The predefined error bodies are what the API documents. *)
Example error_bodies :
  map (fun r => marshal_or_empty (ErrBody (Code r) (Message r)))
    [InvalidBody; SessionRequired; SessionInvalid; Internal; Forbidden]
  = map json_text
    ["{'error':{'code':'invalid_body','message':'Invalid request body'}}";
     "{'error':{'code':'session_required','message':'Authentication required'}}";
     "{'error':{'code':'session_invalid','message':'Session is invalid'}}";
     "{'error':{'code':'internal','message':'Internal server error'}}";
     "{'error':{'code':'forbidden','message':'Request forbidden'}}"].
Proof. vm_compute. reflexivity. Qed.

(** A cookie is found exactly when its value is not empty. *)
Lemma ReadSessionCookieFast_ok c :
  (ReadSessionCookieFast c).2 = negb (bool_decide ((ReadSessionCookieFast c).1 = "")).
Proof.
  assert (forall u, (0 <? len u) = negb (bool_decide (u = ""))) as Hlen.
  { intros [|a u]; [done|]. rewrite bool_decide_eq_false_2 by done. unfold len. cbn. lia. }
  unfold ReadSessionCookieFast. rewrite !Hlen.
  repeat case_bool_decide; cbn; try done; by rewrite bool_decide_eq_false_2.
Qed.
