(* ===== verification/Context.v ===== *)
(** * middleware/context.go: request-scoped values of a [context.Context] *)
From S2P Require Import Prelude Tenant.

Inductive contextKey := requestIDKey | tenantIDKey | userIDKey | sessionIDKey | tokenHashHexKey.
#[global] Instance contextKey_eq_dec : EqDecision contextKey.
Proof. solve_decision. Defined.

(** The dynamic type and value of an entry. *)
Inductive cval := CString (s : string) | CTenant (t : ID) | CUuid (u : UUID).

(** A context: the value found for a key, [None] for nil. *)
Definition context : Type := contextKey -> option cval.
Definition Background : context := fun _ => None.

(** [context.WithValue(ctx, k, v)]. *)
Definition WithValue (ctx : context) (k : contextKey) (v : cval) : context :=
  fun k' => if decide (k' = k) then Some v else ctx k'.

Definition WithRequestID (ctx : context) (id : string) : context := WithValue ctx requestIDKey (CString id).
Definition RequestIDFrom (ctx : context) : string :=
  match ctx requestIDKey with Some (CString id) => id | _ => "" end.

Definition WithTenantID (ctx : context) (t : ID) : context := WithValue ctx tenantIDKey (CTenant t).

Definition WithUserID (ctx : context) (id : UUID) : context := WithValue ctx userIDKey (CUuid id).
Definition UserIDFrom (ctx : context) : UUID :=
  match ctx userIDKey with Some (CUuid id) => id | _ => Nil end.

Definition WithSessionID (ctx : context) (id : UUID) : context := WithValue ctx sessionIDKey (CUuid id).
Definition SessionIDFrom (ctx : context) : UUID :=
  match ctx sessionIDKey with Some (CUuid id) => id | _ => Nil end.

Definition WithTokenHashHex (ctx : context) (h : string) : context := WithValue ctx tokenHashHexKey (CString h).
Definition TokenHashHexFrom (ctx : context) : string :=
  match ctx tokenHashHexKey with Some (CString s) => s | _ => "" end.

Section Tenant.
Context `{UuidLib}.

Definition TenantIDFrom (ctx : context) : ID :=
  match ctx tenantIDKey with Some (CTenant t) => t | _ => DefaultID end.

(** The five values a context carries. *)
Definition values (ctx : context) : string * ID * UUID * UUID * string :=
  (RequestIDFrom ctx, TenantIDFrom ctx, UserIDFrom ctx, SessionIDFrom ctx, TokenHashHexFrom ctx).

(** each setter changes the value its getter returns and no other. *)
Theorem context_values ctx r t u s h :
  values Background = ("", DefaultID, Nil, Nil, "")
  /\ values (WithRequestID ctx r)
     = (r, TenantIDFrom ctx, UserIDFrom ctx, SessionIDFrom ctx, TokenHashHexFrom ctx)
  /\ values (WithTenantID ctx t)
     = (RequestIDFrom ctx, t, UserIDFrom ctx, SessionIDFrom ctx, TokenHashHexFrom ctx)
  /\ values (WithUserID ctx u)
     = (RequestIDFrom ctx, TenantIDFrom ctx, u, SessionIDFrom ctx, TokenHashHexFrom ctx)
  /\ values (WithSessionID ctx s)
     = (RequestIDFrom ctx, TenantIDFrom ctx, UserIDFrom ctx, s, TokenHashHexFrom ctx)
  /\ values (WithTokenHashHex ctx h)
     = (RequestIDFrom ctx, TenantIDFrom ctx, UserIDFrom ctx, SessionIDFrom ctx, h).
Proof. done. Qed.
End Tenant.
