(* ===== verification/Middleware.v ===== *)
(** * internal/transport/http/middleware

    A [Middleware] wraps a handler.  Every middleware of the package is a
    definition of the same name; the locals of their code are the request
    context, so what a wrapped handler sees is what the wrapper left in it. *)
From S2P Require Import Prelude Program GoText GoEncoding GoTime GoNet GoJson Errors Tenant User Session Outbox Ports PortSpec PortRules Http.
#[local] Open Scope Z_scope.

(** ** chain.go *)

Definition Middleware : Type := Handler -> Handler.

(** [for i := len(ms) - 1; i >= 0; i-- { h = ms[i](h) }]. *)
Definition Chain (ms : list Middleware) : Middleware := fun h =>
  fold_left (fun h m => m h) (rev ms) h.

(** ** recover.go *)

Definition Recover : Middleware := fun next =>
  recovering (fun rec =>
    (ctx <- get ;;
     call (Log (MkLog Error "panic recovered"
       [("panic", AString rec); ("path", AString (Path (request ctx)));
        ("method", AString (Method (request ctx))); ("stack", AStack)])) ;;
     WriteFast Internal)%go) next.

(** ** context.go: the keys of the user values *)

Definition UVRequestID : string := "1klas.request_id".
Definition UVTenantID : string := "1klas.tenant_id".
Definition UVUserID : string := "1klas.user_id".
Definition UVSessionID : string := "1klas.session_id".
Definition UVTokenHashHex : string := "1klas.token_hash_hex".

(** ** otel.go *)

Definition OTelTrace : Middleware := fun next => (
  ctx <- get ;;
  let method := Method (request ctx) in
  let path := Path (request ctx) in
  span <- call (Trace (SpanStart (method +:+ " " +:+ path)
    [("http.method", AString method); ("http.target", AString path)])) ;;
  defer (call (Trace (SpanEnd span))) (
    next ;;
    ctx <- get ;;
    call (Trace (SetAttributes span [("http.status_code", AInt (StatusCode (response ctx)))]))))%go.

(** ** origin.go *)

(** [originFromReferer(referer)]. *)
Definition originFromReferer (referer : string) : string * bool :=
  match GoNet.Parse referer with
  | None => ("", false)
  | Some u =>
    if bool_decide (Scheme u = "") || bool_decide (Host u = "") then ("", false)
    else (Scheme u +:+ "://" +:+ Host u, true)
  end.

Definition OriginCheck (allowed : list string) : Middleware :=
  let set : gset string := list_to_set (List.filter (fun o => negb (bool_decide (o = ""))) allowed) in
  fun next => (
    ctx <- get ;;
    let path := Path (request ctx) in
    if bool_decide (set = ∅) then
      call (Log (MkLog Warn "origin check rejected: empty allow-list" [("path", AString path)])) ;;
      WriteFast Forbidden
    else
    let origin := Peek (request ctx) "Origin" in
    if negb (bool_decide (origin = "")) then
      if bool_decide (origin ∈ set) then next
      else
        call (Log (MkLog Warn "origin check rejected" [("origin", AString origin); ("path", AString path)])) ;;
        WriteFast Forbidden
    else
    let referer := Peek (request ctx) "Referer" in
    if bool_decide (referer = "") then
      call (Log (MkLog Warn "origin check rejected: missing Origin and Referer" [("path", AString path)])) ;;
      WriteFast Forbidden
    else
    match originFromReferer referer with
    | (_, false) =>
      call (Log (MkLog Warn "origin check rejected: malformed Referer"
        [("referer", AString referer); ("path", AString path)])) ;;
      WriteFast Forbidden
    | (refOrigin, true) =>
      if bool_decide (refOrigin ∈ set) then next
      else
        call (Log (MkLog Warn "origin check rejected via Referer"
          [("referer_origin", AString refOrigin); ("path", AString path)])) ;;
        WriteFast Forbidden
    end)%go.

(** ** session.go *)

Definition authenticated (uid sid : UUID) (t : ID) (tokenHashHex : string) : Handler := (
  modify (SetUserValue UVUserID (UVUuid uid)) ;;
  modify (SetUserValue UVSessionID (UVUuid sid)) ;;
  modify (SetUserValue UVTenantID (UVTenant t)) ;;
  modify (SetUserValue UVTokenHashHex (UVString tokenHashHex)))%go.

(** The part of [Session] after the cache probe: the sessions table decides. *)
Definition session_from_store (cache : bool) (hash tokenHashHex : string) : Middleware := fun next => (
  found <- call (Sessions (FindByTokenHash hash)) ;;
  match found with
  | Err err =>
    if errors_Is err session.ErrSessionNotFound then WriteFast SessionInvalid else WriteFast Internal
  | Ok s =>
    now <- call (Now NowFn) ;;
    if negb (IsActive s now) then WriteFast SessionInvalid else
    (if cache then
       until <- call (Now TimeNow) ;;
       let remaining := Sub (Session.expiresAt s) until in
       if 0 <? remaining then
         try _ <- call (SessionCache (CacheSet tokenHashHex
             (MkCachedSession (Session.id s) (Session.userID s) (Session.tenantID s) (Session.expiresAt s))
             remaining))
           catch err => call (Log (MkLog Warn "session cache repopulate failed" [("err", AErr err)])) ;;
         ret tt
       else ret tt
     else ret tt) ;;
    authenticated (Session.userID s) (Session.id s) (Session.tenantID s) tokenHashHex ;;
    next
  end)%go.

(** [cache] tells whether the cache is not nil. *)
Definition Session (cache : bool) : Middleware := fun next => (
  ctx <- get ;;
  let '(raw, ok) := ReadSessionCookieFast ctx in
  if negb ok || bool_decide (raw = "") then WriteFast SessionRequired else
  let hash := HashOf raw in
  let tokenHashHex := EncodeToString hash in
  served <- (
    if cache then
      cached <- call (SessionCache (CacheGet tokenHashHex)) ;;
      match cached with
      | Ok body =>
        now <- call (Now NowFn) ;;
        if After (ExpiresAt body) now then
          authenticated (UserID body) (SessionID body) (TenantID body) tokenHashHex ;;
          next ;;
          ret true
        else ret false
      | Err err =>
        if errors_Is err session.ErrCacheMiss then ret false
        else
          call (Log (MkLog Warn "session cache get failed; falling through to postgres" [("err", AErr err)])) ;;
          ret false
      end
    else ret false) ;;
  if (served : bool) then ret tt else session_from_store cache hash tokenHashHex next)%go.

Definition user_value_uuid (key : string) (ctx : RequestCtx) : UUID :=
  match UserValue key ctx with Some (UVUuid u) => u | _ => Nil end.
Definition user_value_string (key : string) (ctx : RequestCtx) : string :=
  match UserValue key ctx with Some (UVString s) => s | _ => "" end.

Definition SessionUserID (ctx : RequestCtx) : UUID := user_value_uuid UVUserID ctx.
Definition SessionID (ctx : RequestCtx) : UUID := user_value_uuid UVSessionID ctx.
Definition SessionTokenHashHex (ctx : RequestCtx) : string := user_value_string UVTokenHashHex ctx.

Section Uuid.
Context `{UuidLib}.

(** ** request_id.go *)

Definition headerRequestID : string := "X-Request-Id".

Definition RequestID : Middleware := fun next => (
  ctx <- get ;;
  let peeked := Peek (request ctx) headerRequestID in
  id <- (if bool_decide (peeked = "") then u <- call UuidNew ;; ret (uuid_String u) else ret peeked) ;;
  modify (SetUserValue UVRequestID (UVString id)) ;;
  modify (SetHeader headerRequestID id) ;;
  next)%go.

(** ** tenancy.go *)

Definition Tenancy : Middleware := fun next => (
  modify (SetUserValue UVTenantID (UVTenant DefaultID)) ;;
  next)%go.

(** ** access_log.go *)

Definition clientIP (ctx : RequestCtx) : string :=
  let xff := Peek (request ctx) "X-Forwarded-For" in
  if negb (bool_decide (xff = "")) then
    let i := IndexByte xff ","%char in
    if 0 <? i then TrimSpace (String.substring 0 (Z.to_nat i) xff) else TrimSpace xff
  else
    let addr := RemoteAddr (request ctx) in
    match SplitHostPort addr with
    | None => addr
    | Some (host, _) => host
    end.

(** The values with a [String] method: a string has none. *)
Definition stringer (v : option uval) : string :=
  match v with
  | Some (UVUuid u) => uuid_String u
  | Some (UVTenant t) => Tenant.String t
  | _ => ""
  end.
Definition ctxTenantString (ctx : RequestCtx) : string := stringer (UserValue UVTenantID ctx).
Definition ctxUserIDString (ctx : RequestCtx) : string := stringer (UserValue UVUserID ctx).

Definition AccessLog : Middleware := fun next => (
  start <- call (Now TimeNow) ;;
  ctx <- get ;;
  let method := Method (request ctx) in
  let path := Path (request ctx) in
  let userAgent := UserAgent (request ctx) in
  let clientIPStr := clientIP ctx in
  next ;;
  ctx <- get ;;
  let status := StatusCode (response ctx) in
  let level := if 500 <=? status then Error else if 400 <=? status then Warn else Info in
  let reqID := user_value_string UVRequestID ctx in
  let tenantField := ctxTenantString ctx in
  let uid := ctxUserIDString ctx in
  let userIDField :=
    if negb (bool_decide (uid = ""))
       && negb (bool_decide (uid = "00000000-0000-0000-0000-000000000000")) then uid else "" in
  stop <- call (Now TimeNow) ;;
  call (Log (MkLog level "request"
    [("request_id", AString reqID); ("tenant_id", AString tenantField); ("user_id", AString userIDField);
     ("method", AString method); ("path", AString path); ("status", AInt status);
     ("duration_ms", AInt (Milliseconds (Sub stop start))); ("client_ip", AString clientIPStr);
     ("user_agent", AString userAgent)])))%go.
End Uuid.

(** ** Lemmas *)

(** The first middleware of a chain is the outermost. *)
Lemma Chain_fold ms h : Chain ms h = fold_right (fun m h => m h) h ms.
Proof. unfold Chain. by rewrite <- fold_left_rev_right, rev_involutive. Qed.

(** The requests the origin check lets through. *)
Definition same_origin (allowed : list string) (r : Request) : Prop :=
  let origin := Peek r "Origin" in
  (origin <> "" /\ origin ∈ allowed)
  \/ (origin = "" /\ exists o, originFromReferer (Peek r "Referer") = (o, true) /\ o ∈ allowed).

Lemma OriginCheck_guard allowed (next : Handler) ctx :
  (same_origin allowed (request ctx) /\ OriginCheck allowed next ctx = next ctx)
  \/ (~ same_origin allowed (request ctx) /\ exists msg attrs,
        OriginCheck allowed next ctx
        = (bind (call (Log (MkLog Warn msg attrs))) (fun _ => WriteFast Forbidden)) ctx).
Proof.
  unfold OriginCheck, same_origin. cbn [bind get pbind].
  set (set := list_to_set _ : gset string).
  assert (forall o, o <> "" -> o ∈ set <-> o ∈ allowed) as Hset.
  { intros o Ho. subst set. rewrite elem_of_list_to_set, !list_elem_of_In, filter_In.
    rewrite negb_true_iff, bool_decide_eq_false. tauto. }
  assert (forall r o, originFromReferer r = (o, true) -> o <> "") as Hne.
  { intros r o. unfold originFromReferer. repeat case_match; intros [= <-].
    destruct (Scheme u); done. }
  assert (set = ∅ -> forall o, o <> "" -> o ∉ allowed) as Hempty.
  { intros He o Ho. rewrite <- Hset by done. rewrite He. set_solver. }
  case_bool_decide as He.
  { right. split; [|by eexists _, _].
    intros [[Ho Hi]|(_ & o & Ho & Hi)]; eapply Hempty; eauto. }
  case_bool_decide as Ho; cbn [negb].
  2:{ case_bool_decide as Hi; [left|right; split; [|by eexists _, _]].
      - split; [|done]. left. by rewrite <- Hset.
      - intros [[_ Hin]|[? _]]; [|done]. by apply Hi, Hset. }
  case_bool_decide as Hr.
  { right. split; [|by eexists _, _]. rewrite Hr. intros [[? _]|(_ & o & Hp & _)]; [done|].
    by vm_compute in Hp. }
  destruct (originFromReferer _) as [o []] eqn:Hp.
  - case_bool_decide as Hi; [left|right; split; [|by eexists _, _]].
    + split; [|done]. right. split; [done|]. exists o. split; [done|]. rewrite <- Hset; eauto.
    + intros [[? _]|(_ & o' & [= <-] & Hin)]; [done|]. apply Hi, Hset; eauto.
  - right. split; [|by eexists _, _]. by intros [[? _]|(_ & o' & ? & _)].
Qed.

(** C32: the wrapped handler runs exactly for the requests whose Origin, or in its
    absence the origin of the Referer, is in the allow-list; any other request
    is answered 403 after a warning, and the handler is not called. *)
Theorem OriginCheck_guards allowed (next : Handler) ctx :
  (same_origin allowed (request ctx) /\ OriginCheck allowed next ctx = next ctx)
  \/ (~ same_origin allowed (request ctx) /\ exists msg attrs,
        OriginCheck allowed next ctx
        = (bind (call (Log (MkLog Warn msg attrs))) (fun _ => WriteFast Forbidden)) ctx).
Proof. apply OriginCheck_guard. Qed.

Section Contract.
Context (verifies : PasswordHash -> string -> bool).
Let spec := pstep verifies.

(** Every program has the runs it has. *)
Lemma wp_self {A} (p : Prog Port A) s : wp spec p (fun a s' => runs spec p s a s') s.
Proof. by apply wp_runs. Qed.

(** What [Recover] logs of a panic. *)
Definition panic_record (msg : string) (c : RequestCtx) : LogRecord :=
  MkLog Error "panic recovered"
    [("panic", AString msg); ("path", AString (Path (request c))); ("method", AString (Method (request c)));
     ("stack", AStack)].

Lemma Recover_trap (next : Handler) ctx s :
  wp spec (Recover next ctx) (fun a s' =>
    a.1 = Returned tt /\
    (runs spec (next ctx) s a s'
     \/ exists msg c1 s1, runs spec (next ctx) s (Panicked msg, c1) s1
          /\ a.2 = answered Internal c1 /\ s' = add_log (panic_record msg c1) s1)) s.
Proof.
  unfold Recover. apply wp_recovering. eapply wp_mono; [|apply wp_self].
  intros [[[]|msg] c1] s1 Hr; [by auto|]. wp_go. apply wp_WriteFast. split; [done|].
  right. by exists msg, c1, s1.
Qed.

(** C33: behind Recover no panic leaves the server: a panic of the wrapped
    handler is logged, in one record of level Error with its message, the path
    and the method, and answered 500 without its message; every other run of
    the handler is passed through unchanged, and nothing is logged. *)
Theorem Recover_traps (next : Handler) ctx s :
  wp spec (Recover next ctx) (fun a s' =>
    a.1 = Returned tt /\
    (runs spec (next ctx) s a s'
     \/ exists msg c1 s1, runs spec (next ctx) s (Panicked msg, c1) s1
          /\ a.2 = answered Internal c1 /\ s' = add_log (panic_record msg c1) s1)) s.
Proof. apply Recover_trap. Qed.

(** *** The session middleware *)

Definition authenticated_ctx (uid sid : UUID) (t : ID) (key : string) (c : RequestCtx) : RequestCtx :=
  SetUserValue UVTokenHashHex (UVString key) (SetUserValue UVTenantID (UVTenant t)
    (SetUserValue UVSessionID (UVUuid sid) (SetUserValue UVUserID (UVUuid uid) c))).

Definition cookie_token (c : RequestCtx) : string := (ReadSessionCookieFast c).1.
Definition cookie_key (c : RequestCtx) : string := EncodeToString (HashOf (cookie_token c)).

(** The session that the cookie of a request proves, from the cache or from
    the sessions table, at a time [t] of the request. *)
Inductive proves (cache : bool) (s : Sys) (c : RequestCtx) : UUID -> UUID -> ID -> Prop :=
| proves_cached body ttl t :
    cache = true -> PortSpec.cache s !! cookie_key c = Some (body, ttl) ->
    now s <= t -> t < ExpiresAt body ->
    proves cache s c (UserID body) (Session.SessionID body) (TenantID body)
| proves_stored i x t :
    sessions (committed s) !! i = Some x -> Session.tokenHash x = HashOf (cookie_token c) ->
    now s <= t -> IsActive x t = true ->
    proves cache s c (Session.userID x) (Session.id x) (Session.tenantID x).

(** Why the cookie of a request is refused, and with which error; [tr] are the
    calls made until then.  Only a failed lookup in the sessions table is
    answered 500. *)
Inductive refused (s : Sys) (c : RequestCtx) (tr : list (Reply Port)) : ErrResponse -> Prop :=
| refused_missing : cookie_token c = "" -> tr = [] -> refused s c tr SessionRequired
| refused_unknown :
    cookie_token c <> "" ->
    (forall i x, sessions (committed s) !! i = Some x -> Session.tokenHash x <> HashOf (cookie_token c)) ->
    refused s c tr SessionInvalid
| refused_ended i x t :
    cookie_token c <> "" ->
    sessions (committed s) !! i = Some x -> Session.tokenHash x = HashOf (cookie_token c) ->
    now s <= t -> IsActive x t = false ->
    refused s c tr SessionInvalid
| refused_internal e :
    cookie_token c <> "" ->
    infra e -> last tr = Some (reply (Sessions (FindByTokenHash (HashOf (cookie_token c)))) (Returned (Err e))) ->
    refused s c tr Internal.

(** What looking a session up may change: the cache entry of the token, which
    may vanish or be written anew from the stored session. *)
Record looked_up (s : Sys) (c : RequestCtx) (s' : Sys) : Prop := {
  lu_committed : committed s' = committed s;
  lu_txs : txs s' = txs s;
  lu_now : now s <= now s';
  lu_cache : PortSpec.cache s' = PortSpec.cache s
    \/ PortSpec.cache s' = delete (cookie_key c) (PortSpec.cache s)
    \/ exists i x ttl m, sessions (committed s) !! i = Some x
         /\ Session.tokenHash x = HashOf (cookie_token c) /\ Session.revokedAt x = None /\ 0 < ttl
         /\ (m = PortSpec.cache s \/ m = delete (cookie_key c) (PortSpec.cache s))
         /\ PortSpec.cache s' = <[cookie_key c :=
              (MkCachedSession (Session.id x) (Session.userID x) (Session.tenantID x)
                 (Session.expiresAt x), ttl)]> m;
}.

#[local] Hint Constructors refused proves : core.

Lemma wp_authenticated {S} (any : forall R, Port R -> S -> outcome R -> S -> Prop) uid sid t key ctx
    (Q : outcome unit * RequestCtx -> S -> Prop) s :
  Q (Returned tt, authenticated_ctx uid sid t key ctx) s ->
  wp any (authenticated uid sid t key ctx) Q s.
Proof. done. Qed.

(** What the cache may hold after the probe. *)
Definition probed (ctx : RequestCtx) (s s1 : Sys) : Prop :=
  committed s1 = committed s /\ txs s1 = txs s /\ now s <= now s1
  /\ (PortSpec.cache s1 = PortSpec.cache s
      \/ PortSpec.cache s1 = delete (cookie_key ctx) (PortSpec.cache s)).

Lemma probed_looked_up ctx s s1 : probed ctx s s1 -> looked_up s ctx s1.
Proof. intros (? & ? & ? & [?|?]); split; auto. Qed.

Lemma probed_step ctx s s1 s2 : probed ctx s s1 -> quiet s1 s2 -> probed ctx s s2.
Proof.
  intros (? & ? & ? & Hc) []. split; [congruence|]. split; [congruence|]. split; [lia|].
  destruct Hc; [left|right]; congruence.
Qed.

Lemma looked_up_step ctx s s1 s2 : looked_up s ctx s1 -> quiet s1 s2 -> looked_up s ctx s2.
Proof.
  intros [] []. split; [congruence|congruence|lia|].
  by replace (PortSpec.cache s2) with (PortSpec.cache s1).
Qed.

(** What the middleware makes of a request: it hands the request on with the
    identity that the cookie proves, refuses it, or passes on the panic of a
    call. *)
Lemma store_rule cache (next : Handler) ctx Q s s0 tr :
  cookie_token ctx <> "" ->
  (forall uid sid t s1 tr1, proves cache s ctx uid sid t -> looked_up s ctx s1 ->
     wp (traced spec) (next (authenticated_ctx uid sid t (cookie_key ctx) ctx)) Q (s1, tr1)) ->
  (forall r s1 tr1, refused s ctx tr1 r -> looked_up s ctx s1 -> Q (Returned tt, answered r ctx) (s1, tr1)) ->
  (forall msg s1 tr1, call_panicked tr1 msg -> looked_up s ctx s1 -> Q (Panicked msg, ctx) (s1, tr1)) ->
  probed ctx s s0 ->
  wp (traced spec) (session_from_store cache (HashOf (cookie_token ctx)) (cookie_key ctx) next ctx) Q (s0, tr).
Proof.
  intros Htok Hnext Href Hpanic Hp. unfold session_from_store.
  pose proof Hp as (Hcm & Htx & Hnow & Hca).
  apply wp_bind_go, wp_traced_call, wp_FindByTokenHash; [|rewrite Hcm..].
  - intros o [(e & -> & He)|[msg ->]]; cbn [fst]; cbv beta iota.
    + rewrite (errors_Is_infra e _ He) by (cbn; tauto). apply wp_WriteFast, Href; [|by apply probed_looked_up].
      eapply refused_internal; [done|exact He|apply last_snoc].
    + apply Hpanic; [apply call_panicked_last|by apply probed_looked_up].
  - intros i x Hx Hh. cbn [fst]. cbv beta iota. apply wp_bind_go, wp_traced_call, wp_Now. intros t Ht.
    cbn [fst]. cbv beta iota. destruct (IsActive x t) eqn:Ha; cbn [negb].
    2:{ apply wp_WriteFast, Href; [by apply (refused_ended s ctx _ i x t); auto; lia|].
        eapply probed_looked_up, probed_step; eauto with s2r. }
    assert (proves cache s ctx (Session.userID x) (Session.id x) (Session.tenantID x)) as Hproves
      by (apply (proves_stored cache s ctx i x t); auto; lia).
    assert (forall s1 tr1, looked_up s ctx s1 ->
      wp (traced spec) ((authenticated (Session.userID x) (Session.id x) (Session.tenantID x) (cookie_key ctx) ;;
                next)%go ctx) Q (s1, tr1)) as Htail.
    { intros s1 tr1 Hl. apply wp_bind_go, wp_authenticated. by apply Hnext. }
    assert (forall u ttl, 0 < ttl -> looked_up s ctx (set_cache (<[cookie_key ctx :=
        (MkCachedSession (Session.id x) (Session.userID x) (Session.tenantID x) (Session.expiresAt x), ttl)]>
        (PortSpec.cache s0)) (set_now (Z.max t u) s0))) as Hset.
    { intros u ttl Httl. split; [done|done|cbn; lia|]. right. right. apply IsActive_spec in Ha as [Hlive _].
      by exists i, x, ttl, (PortSpec.cache s0). }
    pose proof (probed_looked_up ctx s _ (probed_step ctx s _ _ Hp (quiet_now_to _ _ Ht))) as Hl.
    apply wp_bind_go. destruct cache; [|by apply Htail].
    apply wp_bind_go, wp_traced_call, wp_Now. intros u Hu. cbn [fst]. cbv beta iota.
    specialize (Hset u). rewrite Z.max_r in Hset by done.
    pose proof (looked_up_step ctx s _ _ Hl (quiet_now_to _ _ Hu)) as Hl'.
    destruct (0 <? Sub (Session.expiresAt x) u) eqn:Er; [|by apply Htail].
    apply Z.ltb_lt in Er. specialize (Hset _ Er).
    change (set_cache _ (set_now u s0)) with (set_cache (<[cookie_key ctx :=
        (MkCachedSession (Session.id x) (Session.userID x) (Session.tenantID x) (Session.expiresAt x),
         Sub (Session.expiresAt x) u)]> (PortSpec.cache s0)) (set_now u (set_now t s0))) in Hset.
    wp_go; try (by apply Hpanic; [apply call_panicked_last|]); apply Htail; eauto using looked_up_step with s2r.
  - intros Hn. cbn [fst]. cbv beta iota. rewrite errors_Is_refl.
    apply wp_WriteFast, Href; [by apply refused_unknown|by apply probed_looked_up].
Qed.

Lemma Session_rule_traced cache (next : Handler) ctx Q s :
  (forall uid sid t s1 tr1, proves cache s ctx uid sid t -> looked_up s ctx s1 ->
     wp (traced spec) (next (authenticated_ctx uid sid t (cookie_key ctx) ctx)) Q (s1, tr1)) ->
  (forall r s1 tr1, refused s ctx tr1 r -> looked_up s ctx s1 -> Q (Returned tt, answered r ctx) (s1, tr1)) ->
  (forall msg s1 tr1, call_panicked tr1 msg -> looked_up s ctx s1 -> Q (Panicked msg, ctx) (s1, tr1)) ->
  wp (traced spec) (Session cache next ctx) Q (s, []).
Proof.
  intros Hnext Href Hpanic. unfold Session. cbn [bind get pbind].
  pose proof (ReadSessionCookieFast_ok ctx) as Hok. destruct (ReadSessionCookieFast ctx) as [raw ok] eqn:Er.
  assert (cookie_token ctx = raw) as Htok by (unfold cookie_token; by rewrite Er).
  cbn [fst snd] in *. subst ok raw. fold (cookie_key ctx).
  case_bool_decide as Hraw; cbn [negb orb].
  { apply wp_WriteFast, Href; [by apply refused_missing|]. apply probed_looked_up. repeat split; auto; lia. }
  assert (forall s0 tr, probed ctx s s0 ->
    wp (traced spec) (session_from_store cache (HashOf (cookie_token ctx)) (cookie_key ctx) next ctx) Q (s0, tr))
    as Hstore by (intros; by apply (store_rule _ _ _ _ s)).
  assert (probed ctx s s) as Hp0 by (repeat split; auto; lia).
  apply wp_bind_go. destruct cache; [|by apply Hstore].
  apply wp_bind_go, wp_traced_call, wp_CacheGet.
  - wp_go; [apply Hstore|apply Hpanic; [by eexists _, _|by apply probed_looked_up]];
      eauto using probed_step with s2r.
  - intros body ttl Hbody. cbn [fst]. cbv beta iota. apply wp_bind_go, wp_traced_call, wp_Now. intros t Ht.
    cbn [fst]. cbv beta iota. unfold After. destruct (t <? ExpiresAt body) eqn:Et.
    2:{ apply Hstore. eauto using probed_step with s2r. }
    apply wp_bind_go, wp_authenticated, wp_bind_go.
    eapply wp_mono; [|eapply Hnext]; cbn.
    + by intros [[[]|msg] l] [s' tr'].
    + apply (proves_cached true s ctx body ttl t); [done|done|done|lia].
    + eauto using probed_looked_up, probed_step with s2r.
  - cbn [fst]. cbv beta iota. rewrite errors_Is_refl. by apply Hstore.
  - cbn [fst]. cbv beta iota. rewrite errors_Is_refl. apply Hstore. split; [done|]. split; [done|].
    split; [cbn; lia|]. by right.
Qed.

Lemma Session_rule cache (next : Handler) ctx Q s :
  (forall uid sid t s1, proves cache s ctx uid sid t -> looked_up s ctx s1 ->
     wp spec (next (authenticated_ctx uid sid t (cookie_key ctx) ctx)) Q s1) ->
  (forall r tr s1, refused s ctx tr r -> looked_up s ctx s1 -> Q (Returned tt, answered r ctx) s1) ->
  (forall msg s1, looked_up s ctx s1 -> Q (Panicked msg, ctx) s1) ->
  wp spec (Session cache next ctx) Q s.
Proof.
  intros Hnext Href Hpanic. apply (wp_traced spec _ Q s []), Session_rule_traced; [|by eauto..].
  intros uid sid t s1 tr1 Hp Hl. by apply wp_traced, Hnext.
Qed.

(** C7: the wrapped handler runs only with the user, session and tenant of a
    session that the cookie proves, from an unexpired cache entry or from an
    active row of the sessions table.  Any other request is refused: 401
    session_required without a cookie, before any call is made, 401
    session_invalid when no row has the digest of the token or the row has
    expired or is revoked, and 500 only when the lookup in the sessions table
    has just failed.  A panic leaves the middleware only as that of the last
    call.  Nothing but the cache entry of the cookie's token changes before the
    handler runs. *)
Theorem Session_authenticates cache (next : Handler) ctx s :
  wp (traced spec) (Session cache next ctx) (fun a '(s', tr) =>
    (exists uid sid t s1, proves cache s ctx uid sid t /\ looked_up s ctx s1
       /\ runs spec (next (authenticated_ctx uid sid t (cookie_key ctx) ctx)) s1 a s')
    \/ (exists r, refused s ctx tr r /\ looked_up s ctx s' /\ a = (Returned tt, answered r ctx))
    \/ (exists msg, call_panicked tr msg /\ looked_up s ctx s' /\ a = (Panicked msg, ctx))) (s, []).
Proof.
  apply Session_rule_traced.
  - intros uid sid t s1 tr1 Hp Hl. eapply wp_mono; [|apply wp_traced, wp_self].
    intros a [s' tr'] Hr. left. eauto 8.
  - eauto 6.
  - eauto 6.
Qed.
End Contract.

Section AccessLog.
Context `{UuidLib} (verifies : PasswordHash -> string -> bool).
Let spec := pstep verifies.

(** The line of a request [r] that ended in the context [c]. *)
Definition access_record (r : RequestCtx) (c : RequestCtx) (start stop : Time) : LogRecord :=
  let status := StatusCode (response c) in
  MkLog (if 500 <=? status then Error else if 400 <=? status then Warn else Info) "request"
    [("request_id", AString (user_value_string UVRequestID c)); ("tenant_id", AString (ctxTenantString c));
     ("user_id", AString (if bool_decide (ctxUserIDString c = "00000000-0000-0000-0000-000000000000") then ""
                           else ctxUserIDString c));
     ("method", AString (Method (request r))); ("path", AString (Path (request r))); ("status", AInt status);
     ("duration_ms", AInt (Milliseconds (Sub stop start))); ("client_ip", AString (clientIP r));
     ("user_agent", AString (UserAgent (request r)))].

(** C34: a request that the wrapped handler finishes adds one line to those of
    the handler, after them: its level tells 5xx from 4xx from success, and it
    shows the request, the status and the time the handler took; a request that
    panics adds none.  Apart from that line and from reading the clock nothing
    happens. *)
Theorem AccessLog_lines (next : Handler) ctx s :
  wp spec (AccessLog next ctx) (fun a s' => exists start s2,
    now s <= start /\ runs spec (next ctx) (set_now start s) a s2 /\
    match a with
    | (Returned _, c) => exists stop, now s2 <= stop /\ s' = add_log (access_record ctx c start stop) (set_now stop s2)
    | (Panicked _, _) => s' = s2
    end) s.
Proof.
  unfold AccessLog. wp_go. rename t into start.
  eapply wp_mono; [|apply wp_self]. intros [[[]|msg] c1] s2 Hr.
  - wp_go. exists start, s2. split; [done|]. split; [done|]. eexists. split; [done|].
    unfold access_record. do 2 f_equal. by repeat case_bool_decide; cbn; try congruence.
  - by exists start, s2.
Qed.
End AccessLog.
