(* ===== verification/Referer.v ===== *)
(** * Referers of an allowed origin

    The origin check reads the origin of a request without an Origin header off
    its Referer.  For every well-formed http URL, whatever its path, query and
    fragment contain, [originFromReferer] finds the scheme, the host and the port
    at its head, so that the check admits exactly the pages of the allow-list. *)
From S2P Require Import Prelude Program GoText GoNet Errors Ports Http Middleware.
#[local] Open Scope Z_scope.

(** ** Well-formed URLs *)

Definition is_lower (b : Z) : bool := (97 <=? b) && (b <=? 122).
Definition scheme_tail_byte (b : Z) : bool :=
  is_lower b || is_digit b || (b =? 43) || (b =? 45) || (b =? 46).
(** A lower-case letter, then lower-case letters, digits, [+-.]. *)
Definition proper_scheme (l : list Z) : bool :=
  match l with c :: r => is_lower c && forallb scheme_tail_byte r | [] => false end.

(** Letters, digits, [-.]: a host name or an IPv4 address. *)
Definition name_byte (b : Z) : bool := is_letter b || is_digit b || (b =? 45) || (b =? 46).
Definition proper_host (l : list Z) : bool := negb (bool_decide (l = [])) && forallb name_byte l.

(** Nothing, or a colon and digits. *)
Definition proper_port (l : list Z) : bool := valid_optional_port l.

(** Every percent sign is followed by two hexadecimal digits. *)
Fixpoint well_escaped (l : list Z) : bool :=
  match l with
  | [] => true
  | c :: r =>
    if c =? 37 then match r with a :: b :: r' => is_hex a && is_hex b && well_escaped r' | _ => false end
    else well_escaped r
  end.

Definition no_control (l : list Z) : bool := forallb (fun b => (32 <=? b) && negb (b =? 127)) l.

(** A path, a query or a fragment follows the authority. *)
Definition after_authority (l : list Z) : bool :=
  match l with [] => true | c :: _ => (c =? 47) || (c =? 63) || (c =? 35) end.

Definition web_url (scheme host port rest : string) : bool :=
  proper_scheme (bytes_of scheme) && proper_host (bytes_of host) && proper_port (bytes_of port)
  && after_authority (bytes_of rest) && well_escaped (bytes_of rest) && no_control (bytes_of rest).

(** ** Cutting *)

Lemma cut_app b l r : b ∉ l -> cut b (l ++ b :: r) = (l, r, true).
Proof.
  induction l as [|c l IH]; intros Hb; cbn; [by rewrite Z.eqb_refl|].
  apply not_elem_of_cons in Hb as [Hc Hb]. rewrite IH by done.
  by rewrite (proj2 (Z.eqb_neq c b)) by congruence.
Qed.

Lemma cut_none b l : b ∉ l -> cut b l = (l, [], false).
Proof.
  induction l as [|c l IH]; intros Hb; cbn; [done|].
  apply not_elem_of_cons in Hb as [Hc Hb]. rewrite IH by done.
  by rewrite (proj2 (Z.eqb_neq c b)) by congruence.
Qed.

(** What precedes the first [b] does not depend on what comes later. *)
Lemma cut_prefix b l r : b ∉ l -> (cut b (l ++ r)).1 = (l ++ (cut b r).1.1, (cut b r).1.2).
Proof.
  induction l as [|c l IH]; intros Hb; cbn; [by destruct (cut b r) as [[? ?] ?]|].
  apply not_elem_of_cons in Hb as [Hc Hb]. specialize (IH Hb).
  rewrite (proj2 (Z.eqb_neq c b)) by congruence.
  destruct (cut b (l ++ r)) as [[? ?] ?]. cbn in *. by injection IH as -> ->.
Qed.

Lemma cut_last_none b l : b ∉ l -> cut_last b l = None.
Proof. intros Hb. unfold cut_last. rewrite cut_none; [done|]. by rewrite list_elem_of_In, <- in_rev, <- list_elem_of_In. Qed.

Lemma cut_last_app b l r : b ∉ r -> cut_last b (l ++ b :: r) = Some (l, r).
Proof.
  intros Hb. unfold cut_last. rewrite rev_app_distr. cbn. rewrite <- app_assoc. cbn.
  rewrite cut_app by (by rewrite list_elem_of_In, <- in_rev, <- list_elem_of_In).
  by rewrite !rev_involutive.
Qed.

(** A byte outside a class is not in a list of the class. *)
Lemma not_in_class (p : Z -> bool) b l : forallb p l = true -> p b = false -> b ∉ l.
Proof.
  rewrite forallb_forall. intros Hl Hb Hin%list_elem_of_In. by rewrite (Hl b Hin) in Hb.
Qed.

(** ** Escapes *)

Lemma unescape_plain mode c r :
  c <> 37 -> unescape mode (c :: r) =
    (let bad := match mode with
                | encodeHost | encodeZone => (c <? 0x80) && negb (host_byte c)
                | _ => false
                end in
     if bad then None else option_map (cons c) (unescape mode r)).
Proof. intros Hc. cbn [unescape]. repeat case_match; done. Qed.

Lemma unescape_host l : forallb host_byte l = true -> unescape encodeHost l = Some l.
Proof.
  induction l as [|c l IH]; [done|]. intros [Hc Hl]%andb_true_iff.
  rewrite unescape_plain by (intros ->; by vm_compute in Hc). rewrite Hc, andb_false_r.
  cbn zeta iota. by rewrite IH.
Qed.

(** Paths and fragments unescape when they are well escaped. *)
Lemma unescape_well mode l :
  mode = encodePath \/ mode = encodeFragment -> well_escaped l = true ->
  exists l', unescape mode l = Some l'.
Proof.
  intros Hm. induction l as [l IH] using (induction_ltof1 _ (@length Z)). unfold ltof in IH.
  destruct l as [|c r]; [by eexists|]. cbn [well_escaped]. destruct (Z.eqb_spec c 37) as [->|Hc].
  - destruct r as [|a [|b r]]; try done. intros [Hx Hr]%andb_true_iff.
    destruct (IH r ltac:(cbn; lia) Hr) as [l' E]. cbn [unescape]. rewrite Hx. cbn [negb].
    destruct Hm as [->| ->]; rewrite E; by eexists.
  - intros Hr. destruct (IH r ltac:(cbn; lia) Hr) as [l' E]. rewrite unescape_plain by done.
    destruct Hm as [->| ->]; rewrite E; by eexists.
Qed.

(** A byte that is no hexadecimal digit splits no escape. *)
Lemma well_escaped_cut b l :
  is_hex b = false -> b <> 37 -> well_escaped l = true ->
  well_escaped (cut b l).1.1 = true /\ well_escaped (cut b l).1.2 = true.
Proof.
  intros Hb Hb'. induction l as [l IH] using (induction_ltof1 _ (@length Z)). unfold ltof in IH.
  destruct l as [|c r]; [done|]. cbn [well_escaped cut].
  destruct (Z.eqb_spec c 37) as [->|Hc].
  - destruct r as [|x [|y r]]; try done. intros [[Hx Hy]%andb_true_iff Hr]%andb_true_iff.
    destruct (IH r ltac:(cbn; lia) Hr) as [H1 H2]. cbn [cut].
    rewrite (proj2 (Z.eqb_neq 37 b)), (proj2 (Z.eqb_neq x b)), (proj2 (Z.eqb_neq y b)) by congruence.
    destruct (cut b r) as [[u v] f]. cbn in *. by rewrite Hx, Hy.
  - intros Hr. destruct (IH r ltac:(cbn; lia) Hr) as [H1 H2].
    destruct (Z.eqb_spec c b) as [->|Hcb]; [done|].
    destruct (cut b r) as [[u v] f]. cbn in *. by rewrite (proj2 (Z.eqb_neq c 37)).
Qed.

(** ** The scheme *)

Lemma get_scheme_tail raw acc s r :
  acc <> [] -> forallb scheme_tail_byte s = true ->
  get_scheme_from raw acc (s ++ 58 :: r) = Some (acc ++ s, r).
Proof.
  revert acc. induction s as [|c s IH]; intros acc Hacc; cbn [app forallb].
  - intros _. cbn. rewrite bool_decide_eq_false_2 by done. by rewrite app_nil_r.
  - intros [Hc Hs]%andb_true_iff. cbn [get_scheme_from].
    assert (get_scheme_from raw (acc ++ [c]) (s ++ 58 :: r) = Some (acc ++ c :: s, r)) as E.
    { rewrite IH by (done || by destruct acc). by rewrite <- app_assoc. }
    rewrite bool_decide_eq_false_2 by done. rewrite E.
    unfold scheme_tail_byte, is_lower, is_letter in *.
    destruct (_ || _) eqn:El at 1; [done|]. destruct (is_digit c || _ || _ || _) eqn:Ed; [done|].
    rewrite !orb_false_iff in *. destruct (is_digit c); lia.
Qed.

Lemma get_scheme_proper s r :
  proper_scheme s = true -> get_scheme (s ++ 58 :: r) = Some (s, r).
Proof.
  destruct s as [|c s]; [done|]. intros [Hc Hs]%andb_true_iff. unfold get_scheme. cbn [app get_scheme_from].
  assert (is_letter c = true) as -> by (unfold is_lower, is_letter in *; lia).
  by rewrite get_scheme_tail.
Qed.

Lemma lower_scheme s : proper_scheme s = true -> map lower_byte s = s.
Proof.
  assert (forall b, scheme_tail_byte b = true -> lower_byte b = b) as Hb.
  { intros b. unfold scheme_tail_byte, is_lower, is_digit, lower_byte. destruct ((65 <=? b) && (b <=? 90)) eqn:E; lia. }
  destruct s as [|c s]; [done|]. intros [Hc Hs]%andb_true_iff. cbn. f_equal.
  - apply Hb. unfold scheme_tail_byte. by rewrite Hc.
  - rewrite forallb_forall in Hs. rewrite <- (map_id s) at 2. apply map_ext_in. auto.
Qed.

(** ** The authority *)

Lemma forallb_weaken {A} (p q : A -> bool) l :
  (forall x, p x = true -> q x = true) -> forallb p l = true -> forallb q l = true.
Proof. rewrite !forallb_forall. auto. Qed.

Lemma port_digits port : proper_port port = true -> port = [] \/ exists d, port = 58 :: d /\ forallb is_digit d = true.
Proof. destruct port as [|c d]; [by left|]. intros [->%Z.eqb_eq Hd]%andb_true_iff. right. eauto. Qed.

Lemma authority_bytes host port :
  proper_host host = true -> proper_port port = true -> forallb host_byte (host ++ port) = true.
Proof.
  intros [_ Hh]%andb_true_iff Hp. rewrite forallb_app.
  assert (forall b, name_byte b = true -> host_byte b = true) as Hname.
  { intros b. unfold name_byte, host_byte. rewrite !orb_true_iff, !Z.eqb_eq.
    intros [[[?|?]| ->]| ->]; auto. }
  rewrite (forallb_weaken _ _ _ Hname Hh). destruct (port_digits port Hp) as [->|(d & -> & Hd)]; [done|].
  cbn. apply (forallb_weaken is_digit); [|done]. intros b Hb. unfold host_byte. by rewrite Hb, orb_true_r.
Qed.

Lemma parse_authority_proper host port :
  proper_host host = true -> proper_port port = true ->
  parse_authority (host ++ port) = Some (host ++ port).
Proof.
  intros Hh Hp. pose proof (authority_bytes host port Hh Hp) as Hb.
  unfold parse_authority. rewrite cut_last_none by (by apply (not_in_class host_byte)).
  apply andb_true_iff in Hh as [Hne Hh].
  destruct host as [|c host]; [done|]. cbn [app] in *. unfold parse_host.
  assert (c <> 91) as Hc by (intros ->; by vm_compute in Hh).
  assert (58 ∉ c :: host) as Hcolon by (by apply (not_in_class name_byte)).
  assert (match cut_last 58 (c :: host ++ port) with
    | Some (_, p) => if negb (valid_optional_port (58 :: p)) then None else unescape encodeHost (c :: host ++ port)
    | None => unescape encodeHost (c :: host ++ port)
    end = Some (c :: host ++ port)) as E.
  { destruct (port_digits port Hp) as [->|(d & -> & Hd)].
    - rewrite app_nil_r in *. rewrite cut_last_none by done. by apply unescape_host.
    - change (c :: host ++ 58 :: d) with ((c :: host) ++ 58 :: d) in *.
      rewrite cut_last_app by (by apply (not_in_class is_digit)). cbn [valid_optional_port].
      rewrite Hd. by apply unescape_host. }
  repeat case_match; done.
Qed.

(** ** The URL *)

Lemma scheme_bytes s : proper_scheme s = true -> forallb scheme_tail_byte s = true.
Proof.
  destruct s as [|c s]; [done|]. intros [Hc Hs]%andb_true_iff. cbn. unfold scheme_tail_byte at 1. by rewrite Hc.
Qed.

Lemma plain_bytes_visible l : forallb host_byte l = true -> no_control l = true.
Proof.
  apply forallb_weaken. intros b. unfold host_byte. rewrite !orb_true_iff. intros [[Hb|Hb]|Hb].
  - unfold is_letter in Hb. lia.
  - unfold is_digit in Hb. lia.
  - unfold has in Hb. apply existsb_exists in Hb as (x & Hx & ->%Z.eqb_eq).
    assert (no_control host_punctuation = true) as Hp by reflexivity.
    unfold no_control in Hp. rewrite forallb_forall in Hp. by apply Hp.
Qed.

Lemma scheme_bytes_plain b : scheme_tail_byte b = true -> host_byte b = true.
Proof.
  unfold scheme_tail_byte, is_lower, host_byte, is_letter. rewrite !orb_true_iff, !Z.eqb_eq.
  intros [[[[?| ->]| ->]| ->]| ->]; auto.
Qed.

Lemma no_control_exists l : no_control l = true -> existsb (fun b => (b <? 32) || (b =? 127)) l = false.
Proof.
  unfold no_control. intros Hl. apply not_true_iff_false. rewrite existsb_exists.
  intros (x & Hx & Hb). rewrite forallb_forall in Hl. specialize (Hl x Hx). lia.
Qed.

Lemma no_control_cut b l : no_control l = true -> no_control (cut b l).1.1 = true.
Proof.
  induction l as [|c l IH]; [done|]. intros [Hc Hl]%andb_true_iff. specialize (IH Hl). cbn [cut].
  destruct (c =? b); [done|]. destruct (cut b l) as [[u v] f]. unfold no_control in *. cbn in *. by rewrite Hc.
Qed.

Lemma no_control_app l r : no_control (l ++ r) = no_control l && no_control r.
Proof. apply forallb_app. Qed.

(** The part of a URL before its fragment. *)
Lemma parse_url_proper sch host port tail :
  proper_scheme sch = true -> proper_host host = true -> proper_port port = true ->
  match tail with [] => true | c :: _ => (c =? 47) || (c =? 63) end = true ->
  well_escaped tail = true -> no_control tail = true ->
  parse_url (sch ++ 58 :: 47 :: 47 :: (host ++ port) ++ tail) = Some (sch, host ++ port).
Proof.
  intros Hs Hh Hp Ht He Hc. pose proof (authority_bytes host port Hh Hp) as Ha.
  pose proof (scheme_bytes _ Hs) as Hsb. unfold parse_url.
  rewrite no_control_exists.
  2:{ rewrite no_control_app. rewrite plain_bytes_visible by (by apply (forallb_weaken _ _ _ scheme_bytes_plain)).
      change (no_control ((host ++ port) ++ tail) = true). by rewrite no_control_app, Hc, plain_bytes_visible. }
  rewrite bool_decide_eq_false_2 by (destruct sch as [|? [|]]; done).
  rewrite get_scheme_proper by done. rewrite lower_scheme by done. unfold cut_query.
  change (47 :: 47 :: (host ++ port) ++ tail) with ((47 :: 47 :: host ++ port) ++ tail).
  rewrite cut_prefix by (do 2 (apply not_elem_of_cons; split; [done|]); by apply (not_in_class host_byte)).
  cbn [fst app]. rewrite bool_decide_eq_false_2 by (by destruct sch). cbn [andb].
  destruct (well_escaped_cut 63 tail) as [Hw _]; [done|done|done|].
  set (path := (cut 63 tail).1.1) in *.
  assert (path = [] \/ exists p, path = 47 :: p) as Hpath.
  { subst path. destruct tail as [|c tail]; [by left|]. cbn [cut].
    destruct (Z.eqb_spec c 63); [by left|]. destruct (Z.eqb_spec c 47) as [->|]; [|done].
    destruct (cut 63 tail) as [[u v] f]. right. by eexists. }
  destruct (unescape_well encodePath path ltac:(by left) Hw) as [l' El].
  assert (47 ∉ host ++ port) as Hslash by (by apply (not_in_class host_byte)).
  destruct Hpath as [->|[p ->]].
  - rewrite app_nil_r, cut_none, parse_authority_proper by done. done.
  - rewrite cut_app, parse_authority_proper by done. by rewrite El.
Qed.

Lemma Parse_proper scheme host port rest :
  web_url scheme host port rest = true ->
  Parse (scheme +:+ "://" +:+ host +:+ port +:+ rest) = Some (MkURL scheme (host +:+ port)).
Proof.
  unfold web_url. rewrite !andb_true_iff. intros [[[[[Hs Hh] Hp] Ha] He] Hc].
  unfold Parse. rewrite !bytes_of_app. change (bytes_of "://") with [58; 47; 47].
  pose proof (authority_bytes _ _ Hh Hp) as Hab.
  rewrite (app_assoc (bytes_of host)).
  set (U := bytes_of scheme ++ 58 :: 47 :: 47 :: bytes_of host ++ bytes_of port).
  assert (bytes_of scheme ++ [58; 47; 47] ++ (bytes_of host ++ bytes_of port) ++ bytes_of rest = U ++ bytes_of rest)
    as -> by (subst U; rewrite <- !app_assoc; cbn; by rewrite <- !app_assoc).
  assert (35 ∉ U) as HU.
  { subst U. apply not_elem_of_app. split.
    - by apply (not_in_class scheme_tail_byte); [apply scheme_bytes|].
    - do 3 (apply not_elem_of_cons; split; [done|]). by apply (not_in_class host_byte). }
  pose proof (cut_prefix 35 U (bytes_of rest) HU) as Hcut.
  destruct (cut 35 (U ++ bytes_of rest)) as [[u frag] f]. cbn [fst] in Hcut. injection Hcut as -> ->.
  destruct (well_escaped_cut 35 (bytes_of rest)) as [Hw Hw']; [done..|].
  set (tail := (cut 35 (bytes_of rest)).1.1) in *. set (frag := (cut 35 (bytes_of rest)).1.2) in *.
  assert (U ++ tail = bytes_of scheme ++ 58 :: 47 :: 47 :: (bytes_of host ++ bytes_of port) ++ tail) as ->
    by (subst U; rewrite <- !app_assoc; cbn; by rewrite <- !app_assoc).
  rewrite parse_url_proper; [|done|done|done| |done|].
  - destruct (unescape_well encodeFragment frag ltac:(by right) Hw') as [l' ->].
    rewrite of_bytes_app, !of_bytes_of. done.
  - subst tail. destruct (bytes_of rest) as [|c l]; [done|]. cbn [cut] in *. destruct (Z.eqb_spec c 35); [done|].
    destruct (cut 35 l) as [[u v] g]. cbn in *. rewrite (proj2 (Z.eqb_neq c 35)), orb_false_r in Ha by done. done.
  - subst tail. by apply no_control_cut.
Qed.

(** ** The origin check *)

Lemma originFromReferer_proper scheme host port rest :
  web_url scheme host port rest = true ->
  originFromReferer (scheme +:+ "://" +:+ host +:+ port +:+ rest) = (scheme +:+ "://" +:+ host +:+ port, true).
Proof.
  intros Hw. unfold originFromReferer. rewrite Parse_proper by done. cbn [Scheme Host].
  unfold web_url in Hw. rewrite !andb_true_iff in Hw. destruct Hw as [[[[[Hs Hh] _] _] _] _].
  rewrite !bool_decide_eq_false_2; [done|by destruct host|by destruct scheme].
Qed.

(** C29: for every well-formed URL as Referer of a request without Origin, its
    path, query and fragment being anything, the origin that counts is the
    scheme, host and port at the head of the URL: the wrapped handler runs when
    the allow-list has this origin, and otherwise the answer is 403. *)
Theorem Referer_decides allowed (next : Handler) ctx scheme host port rest :
  web_url scheme host port rest = true ->
  Peek (request ctx) "Origin" = "" ->
  Peek (request ctx) "Referer" = scheme +:+ "://" +:+ host +:+ port +:+ rest ->
  let origin := scheme +:+ "://" +:+ host +:+ port in
  originFromReferer (Peek (request ctx) "Referer") = (origin, true)
  /\ (origin ∈ allowed -> OriginCheck allowed next ctx = next ctx)
  /\ (origin ∉ allowed -> exists msg attrs,
        OriginCheck allowed next ctx = (bind (call (Log (MkLog Warn msg attrs))) (fun _ => WriteFast Forbidden)) ctx).
Proof.
  intros Hw Ho Hr. cbv zeta. pose proof (originFromReferer_proper _ _ _ _ Hw) as E. rewrite <- Hr in E.
  split; [done|]. destruct (OriginCheck_guard allowed next ctx) as [[Hs Heq]|[Hs Heq]];
    unfold same_origin in Hs; rewrite Ho, E in Hs.
  - split; [done|]. intros Hn. destruct Hs as [[? _]|(_ & o & [= <-] & Hin)]; done.
  - split; [|done]. intros Hin. destruct Hs. right. eauto.
Qed.
