(* ===== verification/Handlers.v ===== *)
(** * internal/transport/http/handlers and dto: the endpoints *)
From S2P Require Import SignUp SignIn SignOut GetMe.
From S2P Require Import Prelude Program GoTime GoJson Errors Tenant Ports PortSpec PortRules Http Middleware.
#[local] Open Scope Z_scope.

(** ** dto *)

Record SignUpRequest := MkSignUpRequest { su_Email : string; su_Password : string }.
Record SignInRequest := MkSignInRequest { si_Email : string; si_Password : string }.

(** [json.Unmarshal(body, &req)] into the two requests. *)
Definition unmarshal_SignUpRequest (body : string) : option SignUpRequest :=
  match Unmarshal ["email"; "password"] body with
  | Some [e; p] => Some (MkSignUpRequest e p)
  | _ => None
  end.
Definition unmarshal_SignInRequest (body : string) : option SignInRequest :=
  match Unmarshal ["email"; "password"] body with
  | Some [e; p] => Some (MkSignInRequest e p)
  | _ => None
  end.

Definition SignUpResponse (userID : string) : mvalue := MStruct [("user_id", MString userID)].
Definition SignInResponse (userID : string) : mvalue := MStruct [("user_id", MString userID)].
Definition MeResponse (userID email status : string) (createdAt : Time) : mvalue :=
  MStruct [("user_id", MString userID); ("email", MString email); ("status", MString status);
           ("created_at", MTime createdAt)].

(** ** context.go *)

Section Handlers.
Context `{UuidLib}.

Definition mustTenant (ctx : RequestCtx) : ID :=
  match UserValue UVTenantID ctx with
  | None => DefaultID
  | Some (UVTenant t) => t
  | Some _ => DefaultID
  end.

Definition userIDOrNil (ctx : RequestCtx) : UUID := user_value_uuid UVUserID ctx.
Definition sessionIDOrNil (ctx : RequestCtx) : UUID := user_value_uuid UVSessionID ctx.
Definition tokenHashHex (ctx : RequestCtx) : string := user_value_string UVTokenHashHex ctx.

(** ** sign_up_handler.go *)

Definition maxBodyBytes : Z := Z.shiftl 1 14.

Definition sign_up_Handle (uc : SignUp.UseCase) (cookie : CookieConfig) : Handler := (
  ctx <- get ;;
  let body := PostBody (request ctx) in
  if maxBodyBytes <? len body then WriteFast InvalidBody else
  match unmarshal_SignUpRequest body with
  | None => WriteFast InvalidBody
  | Some req =>
    out <- scope false (SignUp.Execute uc (SignUp.MkInput (mustTenant ctx) (su_Email req) (su_Password req))) ;;
    match out with
    | Err err => WriteFast (FromSignUp err)
    | Ok out =>
      SetFast cookie (SignUp.SessionToken out) (SignUp.SessionExpiresAt out) ;;
      modify (SetContentType "application/json") ;;
      modify (SetStatusCode 201) ;;
      modify (SetBody (marshal_or_empty (SignUpResponse (uuid_String (SignUp.UserID out)))))
    end
  end)%go.

(** ** sign_in_handler.go *)

Definition sign_in_Handle (uc : SignIn.UseCase) (cookie : CookieConfig) : Handler := (
  ctx <- get ;;
  let body := PostBody (request ctx) in
  if maxBodyBytes <? len body then WriteFast InvalidBody else
  match unmarshal_SignInRequest body with
  | None => WriteFast InvalidBody
  | Some req =>
    out <- scope false (SignIn.Execute uc (SignIn.MkInput (mustTenant ctx) (si_Email req) (si_Password req))) ;;
    match out with
    | Err err => WriteFast (FromSignIn err)
    | Ok out =>
      SetFast cookie (SignIn.SessionToken out) (SignIn.SessionExpiresAt out) ;;
      modify (SetContentType "application/json") ;;
      modify (SetStatusCode 200) ;;
      modify (SetBody (marshal_or_empty (SignInResponse (uuid_String (SignIn.UserID out)))))
    end
  end)%go.

(** ** sign_out_handler.go *)

Definition sign_out_Handle (uc : SignOut.UseCase) (cookie : CookieConfig) : Handler := (
  ctx <- get ;;
  out <- scope false (SignOut.Execute uc (SignOut.MkInput (mustTenant ctx) (sessionIDOrNil ctx)
           (userIDOrNil ctx) (tokenHashHex ctx))) ;;
  match out with
  | Err err => WriteFast (FromSignOut err)
  | Ok _ =>
    ClearFast cookie ;;
    modify (SetStatusCode 204)
  end)%go.

(** ** get_me_handler.go *)

Definition get_me_Handle (uc : GetMe.UseCase) : Handler := (
  ctx <- get ;;
  out <- GetMe.Execute uc (GetMe.MkInput (mustTenant ctx) (userIDOrNil ctx)) ;;
  match out with
  | Err err => WriteFast (FromGetMe err)
  | Ok out =>
    modify (SetContentType "application/json") ;;
    modify (SetStatusCode 200) ;;
    modify (SetBody (marshal_or_empty (MeResponse (uuid_String (GetMe.out_UserID out)) (GetMe.out_Email out)
      (GetMe.out_Status out) (GetMe.out_CreatedAt out))))
  end)%go.

(** ** healthz_handler.go and openapi_handler.go *)

Definition Healthz : Handler := (
  modify (SetContentType "application/json") ;;
  modify (SetStatusCode 200) ;;
  modify (SetBody (json_text "{'status':'ok'}")))%go.

(** [spec] is the embedded document, apispec.Spec. *)
Definition OpenAPI (spec : string) : Handler := (
  modify (SetContentType "application/json") ;;
  modify (SetStatusCode 200) ;;
  modify (SetBody spec))%go.
End Handlers.
