(* ===== verification/JsonSchema.v ===== *)
(** * The schemas of the API document

    What internal/transport/apispec/openapi.json says of the bodies of requests
    and responses: a schema is a predicate on JSON values, and the schemas under
    [components] are values of [TypeSchema].  The bodies that the handlers
    write, read back as JSON, meet them. *)
From S2P Require Import Prelude Program GoText GoTime GoJson Errors Tenant User Http Handlers.
#[local] Open Scope Z_scope.

(** What the document uses of JSON Schema.  [format] is an annotation: it
    restricts nothing.  A bound that the document leaves out is [None]. *)
#[warnings="-register-all"]
Inductive TypeSchema :=
| StringOf (minLength maxLength : option Z)
| EnumOf (values : list string)
| ObjectOf (required : list string) (properties : list (string * TypeSchema)) (additionalProperties : bool).

Definition named (n : string) (m : list Z * json) : bool := bool_decide (m.1 = bytes_of n).

(** The length of a string is its number of characters; every member of an
    object meets the schema of its name. *)
Fixpoint valid (sch : TypeSchema) (v : json) : bool :=
  match sch, v with
  | StringOf lo hi, JText s =>
    let n := Z.of_nat (length (runes s)) in
    match lo with Some lo => lo <=? n | None => true end && match hi with Some hi => n <=? hi | None => true end
  | EnumOf values, JText s => existsb (fun u => bool_decide (bytes_of u = s)) values
  | ObjectOf required properties additional, JObject ms =>
    forallb (fun n => existsb (named n) ms) required
    && forallb (fun m =>
         (fix member ps := match ps with
          | [] => additional
          | (n, p) :: ps => if named n m then valid p m.2 else member ps
          end) properties) ms
  | _, _ => false
  end.

(** ** [components.schemas] *)

Definition UserIDSchema : TypeSchema := StringOf None None.
Definition EmailSchema : TypeSchema := StringOf None (Some 320).
Definition PasswordSchema : TypeSchema := StringOf (Some 12) (Some 256).
Definition CredentialsRequest : TypeSchema :=
  ObjectOf ["email"; "password"] [("email", EmailSchema); ("password", PasswordSchema)] false.
Definition SessionResponseSchema : TypeSchema := ObjectOf ["user_id"] [("user_id", UserIDSchema)] false.
Definition MeResponseSchema : TypeSchema :=
  ObjectOf ["user_id"; "email"; "status"; "created_at"]
    [("user_id", UserIDSchema); ("email", EmailSchema);
     ("status", EnumOf ["active"; "pending_activation"; "suspended"; "rejected"]);
     ("created_at", StringOf None None)] false.
Definition HealthResponseSchema : TypeSchema := ObjectOf ["status"] [("status", EnumOf ["ok"])] false.
Definition ErrorSchema : TypeSchema :=
  ObjectOf ["error"]
    [("error", ObjectOf ["code"; "message"]
       [("code", EnumOf ["invalid_body"; "invalid_email"; "weak_password"; "email_taken"; "invalid_credentials";
                         "session_required"; "session_invalid"; "forbidden"; "not_found"; "internal"]);
        ("message", StringOf None None)] false)] false.

(** A text that is a JSON value of the schema. *)
Definition validates (sch : TypeSchema) (text : string) : Prop :=
  exists v, parse_json (bytes_of text) = Some v /\ valid sch v = true.

(** ** The bodies the handlers write *)

Lemma named_key n k v : named n (bytes_of k, v) = String.eqb n k.
Proof.
  unfold named. cbn [fst]. destruct (String.eqb_spec n k) as [->|Hne]; [by apply bool_decide_eq_true|].
  apply bool_decide_eq_false. intros E. apply Hne. by apply bytes_of_inj.
Qed.

Lemma texts_validate sch kv kvs :
  Forall (fun kv => safe kv.1 /\ safe kv.2) (kv :: kvs) ->
  valid sch (JObject (map (fun kv => (bytes_of kv.1, JText (bytes_of kv.2))) (kv :: kvs))) = true ->
  validates sch (marshal_or_empty (MStruct (map (fun kv => (kv.1, MString kv.2)) (kv :: kvs)))).
Proof.
  intros Hs Hv. unfold marshal_or_empty, Marshal. rewrite marshal_texts. cbn [option_map default].
  eexists. split; [|exact Hv]. apply parse_Marshal_texts; [done|]. unfold Marshal. by rewrite marshal_texts.
Qed.

Lemma safe_text s : forallb safe_byte (bytes_of s) = true -> safe s.
Proof. rewrite forallb_forall. intros H. by apply List.Forall_forall. Qed.

#[local] Ltac safe_name := apply safe_text; vm_compute; reflexivity.

Lemma session_validates `{UuidLib} u :
  validates SessionResponseSchema (marshal_or_empty (SignUpResponse (uuid_String u))).
Proof.
  apply (texts_validate _ ("user_id", uuid_String u) []); [|done].
  constructor; [|constructor]. split; [safe_name|apply safe_uuid].
Qed.

Lemma safe_email s e : NewEmail s = Ok e -> safe (Email_String e).
Proof.
  intros (_ & Ha & _)%NewEmail_ok_inv. eapply List.Forall_impl; [|by apply address_bytes].
  intros b. unfold address_byte, safe_byte. lia.
Qed.

(** A user whose address NewEmail accepts, with a declared status and a year of
    four digits. *)
Definition presentable (u : User.User) : Prop :=
  NewEmail (Email_String (User.email u)) = Ok (User.email u)
  /\ User.status u ∈ [StatusActive; StatusPendingActivation; StatusSuspended; StatusRejected]
  /\ printable (User.createdAt u).

Lemma me_validates `{UuidLib} u : presentable u ->
  validates MeResponseSchema (marshal_or_empty
    (MeResponse (uuid_String (User.id u)) (Email_String (User.email u)) (User.status u) (User.createdAt u))).
Proof.
  intros (He & Hst & Hp).
  assert (marshal (MeResponse (uuid_String (User.id u)) (Email_String (User.email u)) (User.status u) (User.createdAt u))
    = marshal (MStruct (map (fun kv => (kv.1, MString kv.2))
        [("user_id", uuid_String (User.id u)); ("email", Email_String (User.email u)); ("status", User.status u);
         ("created_at", Format (User.createdAt u))]))) as E.
  { pose proof (marshal_time_text _ Hp) as Et. unfold MeResponse. cbn [map fst snd]. cbn [marshal] in Et |- *. by rewrite Et. }
  unfold marshal_or_empty, Marshal. rewrite E. apply texts_validate.
  - rewrite !Forall_cons, Forall_nil. cbn [fst snd]. repeat (split; [split; [safe_name|]|]); try done.
    + apply safe_uuid.
    + by eapply safe_email.
    + rewrite !elem_of_cons, elem_of_nil in Hst. destruct Hst as [->|[->|[->|[->|[]]]]]; safe_name.
    + apply safe_time.
  - cbn [map valid MeResponseSchema EmailSchema UserIDSchema forallb existsb fst snd]. rewrite !named_key. cbn [String.eqb Ascii.eqb Bool.eqb andb orb].
    apply andb_true_iff. split.
    + apply NewEmail_ok_inv in He as (_ & _ & Hlen). unfold emailMaxLen in Hlen. rewrite len_bytes in Hlen.
      pose proof (runes_length (bytes_of (Email_String (User.email u)))). unfold Email_String in *. lia.
    + rewrite !elem_of_cons, elem_of_nil in Hst. by destruct Hst as [->|[->|[->|[->|[]]]]].
Qed.

(** Every error of the mapper, and the answer to an unknown route. *)
Definition mapper_errors : list ErrResponse :=
  [InvalidBody; SessionRequired; SessionInvalid; Internal; Forbidden;
   FromSignUp sign_up.ErrInvalidEmail; FromSignUp sign_up.ErrWeakPassword; FromSignUp sign_up.ErrEmailTaken;
   FromSignIn sign_in.ErrInvalidCredentials; MkErrResponse 404 "not_found" "Route not found"].

Lemma errors_validate : Forall (fun r => validates ErrorSchema (marshal_or_empty (ErrBody (Code r) (Message r)))) mapper_errors.
Proof.
  unfold mapper_errors. rewrite !Forall_cons, Forall_nil.
  repeat split; eexists; (split; [vm_compute; reflexivity|vm_compute; reflexivity]).
Qed.

Lemma health_validates : validates HealthResponseSchema (json_text "{'status':'ok'}").
Proof. eexists. split; [vm_compute; reflexivity|]. by vm_compute. Qed.
