(* ===== verification/Router.v ===== *)
(** * internal/transport/http/router.go: the middleware chains and the dispatch *)
From S2P Require Import SignUp SignIn SignOut GetMe.
From S2P Require Import Prelude Program GoTime GoJson Errors Tenant Ports PortSpec PortRules Http Middleware Handlers.
#[local] Open Scope Z_scope.

Section Router.
Context `{UuidLib}.

Record Deps := MkDeps {
  dep_SignUp : SignUp.UseCase;
  dep_SignIn : SignIn.UseCase;
  dep_SignOut : SignOut.UseCase;
  dep_GetMe : GetMe.UseCase;
  dep_Cookie : CookieConfig;
  dep_Recover : Middleware;
  dep_AccessLog : Middleware;
  dep_Origin : Middleware;
  dep_OTel : Middleware;
  dep_SessionMW : Middleware;
  dep_Spec : string;
}.

Definition publicMutatingChain (d : Deps) : Middleware :=
  Chain [dep_Recover d; dep_AccessLog d; dep_OTel d; RequestID; Tenancy; dep_Origin d].
Definition protectedMutatingChain (d : Deps) : Middleware :=
  Chain [dep_Recover d; dep_AccessLog d; dep_OTel d; RequestID; Tenancy; dep_SessionMW d; dep_Origin d].
Definition protectedReadChain (d : Deps) : Middleware :=
  Chain [dep_Recover d; dep_AccessLog d; dep_OTel d; RequestID; Tenancy; dep_SessionMW d].
Definition infraChain (d : Deps) : Middleware := Chain [dep_Recover d; dep_AccessLog d].

Definition signUpRoute (d : Deps) : Handler :=
  publicMutatingChain d (sign_up_Handle (dep_SignUp d) (dep_Cookie d)).
Definition signInRoute (d : Deps) : Handler :=
  publicMutatingChain d (sign_in_Handle (dep_SignIn d) (dep_Cookie d)).
Definition signOutRoute (d : Deps) : Handler :=
  protectedMutatingChain d (sign_out_Handle (dep_SignOut d) (dep_Cookie d)).
Definition getMeRoute (d : Deps) : Handler := protectedReadChain d (get_me_Handle (dep_GetMe d)).
Definition healthzRoute (d : Deps) : Handler := infraChain d Healthz.
Definition openapiRoute (d : Deps) : Handler := infraChain d (OpenAPI (dep_Spec d)).

Definition not_found : mvalue :=
  MStruct [("error", MStruct [("code", MString "not_found"); ("message", MString "Route not found")])].

Definition NewHandler (d : Deps) : Handler := (
  ctx <- get ;;
  let method := Method (request ctx) in
  let path := Path (request ctx) in
  if bool_decide (method = "GET") && bool_decide (path = "/healthz") then healthzRoute d
  else if bool_decide (method = "GET") && bool_decide (path = "/openapi.json") then openapiRoute d
  else if bool_decide (method = "POST")
       && bool_decide (path = "/api/v1/crm/public/identity/sign-up") then signUpRoute d
  else if bool_decide (method = "POST")
       && bool_decide (path = "/api/v1/crm/public/identity/sessions") then signInRoute d
  else if bool_decide (method = "DELETE")
       && bool_decide (path = "/api/v1/crm/public/identity/sessions/current") then signOutRoute d
  else if bool_decide (method = "GET")
       && bool_decide (path = "/api/v1/crm/public/identity/profile/me") then getMeRoute d
  else WriteJSON 404 not_found)%go.

(** The routes, in the order the dispatch tries them. *)
Definition routes (d : Deps) : list Handler :=
  [healthzRoute d; openapiRoute d; signUpRoute d; signInRoute d; signOutRoute d; getMeRoute d;
   WriteJSON 404 not_found].

Lemma NewHandler_routes d c : exists h, h ∈ routes d /\ NewHandler d c = h c.
Proof.
  unfold NewHandler. cbn [bind get pbind].
  repeat (match goal with |- context [if ?b then _ else _] => destruct b end;
    [eexists; split; [|reflexivity]; unfold routes; set_solver|]).
  eexists. split; [|reflexivity]. unfold routes. set_solver.
Qed.
End Router.
