(* ===== verification/Effects.v ===== *)
(** * What handlers may do to the system

    [Within R P h]: on a request that satisfies [P] the handler [h] changes the
    system state by [R] only, and leaves the request itself alone.  Every
    middleware passes the property on, so that type-class resolution derives
    it for a whole route. *)
From S2P Require Import Prelude Program GoTime GoJson Errors Tenant User Session Outbox Ports PortSpec PortRules Http Middleware.
#[local] Open Scope Z_scope.

(** A bound on effects that allows the passing of time, logging, and what a
    session lookup does to the cache. *)
Class Effect (R : Sys -> Sys -> Prop) : Prop := {
  effect_preorder :: PreOrder R;
  effect_quiet s s' : quiet s s' -> R s s';
  effect_lookup c s s' : looked_up s c s' -> R s s';
}.

Section Within.
Context `{UuidLib} (verifies : PasswordHash -> string -> bool).
Context (R : Sys -> Sys -> Prop) `{!Effect R} (P : Request -> Prop).
Let spec := pstep verifies.

Class Within (h : Handler) : Prop :=
  within c s : P (request c) ->
    wp spec (h c) (fun a s' => request a.2 = request c /\ R s s') s.

(** A handler run after some quiet steps, with a changed context. *)
Lemma within_from (h : Handler) `{!Within h} c c0 s s1 (Q : outcome unit * RequestCtx -> Sys -> Prop) :
  P (request c0) -> request c = request c0 -> R s s1 ->
  (forall a s2, request a.2 = request c0 -> R s s2 -> Q a s2) ->
  wp spec (h c) Q s1.
Proof.
  intros HP Hc Hs HQ. eapply wp_mono; [|apply within; by rewrite Hc].
  intros a s2 [Ha Hr]. apply HQ; [congruence|by etransitivity].
Qed.

#[local] Hint Resolve quiet_log quiet_now_to : core.

Lemma effect_step s s1 s2 : R s s1 -> quiet s1 s2 -> R s s2.
Proof. intros ? ?. etransitivity; [done|by apply effect_quiet]. Qed.
Lemma effect_log s s1 r : R s s1 -> R s (add_log r s1).
Proof. eauto using effect_step. Qed.
Lemma effect_now s s1 t : R s s1 -> now s1 <= t -> R s (set_now t s1).
Proof. eauto using effect_step. Qed.
Lemma effect_looked_up c s s1 : looked_up s c s1 -> R s s1.
Proof. apply effect_lookup. Qed.
#[local] Hint Resolve effect_log effect_now effect_looked_up : core.
#[local] Hint Extern 1 (R _ _) => reflexivity : core.

#[global] Instance within_WriteFast r : Within (WriteFast r).
Proof. intros c s HP. apply wp_WriteFast. auto. Qed.

#[global] Instance within_Recover h : Within h -> Within (Recover h).
Proof.
  intros Hh c s HP. apply wp_recovering. apply (within_from h c c s s); auto.
  intros [[[]|msg] c1] s1 Hc HR; cbn [fst snd] in *; [done|]. wp_go. apply wp_WriteFast. auto.
Qed.

#[global] Instance within_AccessLog h : Within h -> Within (AccessLog h).
Proof.
  intros Hh c s HP. unfold AccessLog. wp_go. apply (within_from h c c s); auto.
  intros [[[]|msg] c1] s1 Hc HR; cbn [fst snd] in *; wp_go; auto.
Qed.

#[global] Instance within_OTelTrace h : Within h -> Within (OTelTrace h).
Proof.
  intros Hh c s HP. unfold OTelTrace. wp_go. apply (within_from h c c s); auto.
  intros [[[]|msg] c1] s1 Hc HR; cbn [fst snd] in *; wp_go; auto.
Qed.

#[global] Instance within_RequestID h : Within h -> Within (RequestID h).
Proof.
  intros Hh c s HP. unfold RequestID. wp_go. case_bool_decide; wp_go; auto;
    (eapply (within_from h _ c s); auto).
Qed.

#[global] Instance within_Tenancy h : Within h -> Within (Tenancy h).
Proof. intros Hh c s HP. unfold Tenancy. wp_go. eapply (within_from h _ c s); auto. Qed.

(** The origin check shields a handler from the requests it refuses. *)
Lemma within_OriginCheck_if allowed h :
  (forall c s, P (request c) -> same_origin allowed (request c) ->
     wp spec (h c) (fun a s' => request a.2 = request c /\ R s s') s) ->
  Within (OriginCheck allowed h).
Proof.
  intros Hh c s HP. destruct (OriginCheck_guard allowed h c) as [[Ho ->]|(_ & msg & attrs & ->)].
  - by apply Hh.
  - wp_go. apply wp_WriteFast. auto.
Qed.

#[global] Instance within_OriginCheck allowed h : Within h -> Within (OriginCheck allowed h).
Proof. intros Hh. apply within_OriginCheck_if. intros c s HP _. by apply within. Qed.

#[global] Instance within_Session cache h : Within h -> Within (Session cache h).
Proof.
  intros Hh c s HP. apply Session_rule.
  - intros uid sid t s1 _ Hl. apply (within_from h _ c s); eauto.
  - intros r tr s1 _ Hl. eauto.
  - intros msg s1 Hl. eauto.
Qed.
End Within.
