(* ===== verification/Service.v ===== *)
(** * The service as a whole: what any sequence of requests preserves *)
From S2P Require Import SignUp SignIn SignOut GetMe.
From S2P Require Import Prelude Program GoEncoding GoTime GoJson Errors Tenant User Session Outbox Ports PortSpec PortRules Invariant Http Middleware Handlers Router Effects.
#[local] Open Scope Z_scope.

(** ** The use cases preserve the invariant *)

(** An entry for one session. *)
Definition entry_for (x : Session.Session) (key : string) (body : CachedSession) : Prop :=
  cached_session_of key body x.

Section Preservation.
Context `{UuidLib} (verifies : PasswordHash -> string -> bool).

(** A state in which one session was added and perhaps cached. *)
Lemma session_added_wf s s' x key body :
  wf s -> wf_store (committed s') -> ~ session_conflict (committed s) x ->
  sessions (committed s') = <[Session.id x := stored_session x]> (sessions (committed s)) ->
  cached_session_of key body (stored_session x) ->
  (cache s' = cache s \/ exists ttl, cache s' = <[key := (body, ttl)]> (cache s)) ->
  wf s'.
Proof.
  intros Hs Hst' Hfree Hrows Hb Hcache.
  apply (wf_update s s' (entry_for (stored_session x))); [done|done|..].
  - intros i y Hy. rewrite Hrows. by apply sessions_inserted.
  - destruct Hcache as [E|[ttl E]]; [by apply cache_kept|].
    by eapply (cache_inserted _ _ _ key body ttl); [|by left|].
  - intros k b Hkb. eexists _, _. split; [rewrite Hrows; apply lookup_insert_eq|done].
Qed.

Lemma account_wf uc inp s a s' :
  wf s -> SignUp.answers verifies uc inp s a -> account_created uc inp s a s' -> wf s'.
Proof.
  intros Hs Ha [Hc _ Hcache]. pose proof Hs as [Hst _].
  pose proof (SignUp.ans_email _ _ _ _ _ Ha) as He. apply NewEmail_ok_inv in He as (_ & Haddr & Hlen).
  eapply session_added_wf with (body := MkCachedSession _ _ _ _); [done| |apply Ha|by rewrite Hc|by repeat split|].
  - rewrite Hc. unfold account_rows, apply_writes, fold_left. do 2 apply wf_WEvent.
    apply wf_WSession; [apply wf_WUser; [done|apply Ha|]| |apply len_Sum256|].
    + destruct (a_email a). by apply NewEmail_address.
    + apply (SignUp.ans_session _ _ _ _ _ Ha).
    + eexists. split; [apply lookup_insert_eq|done].
  - destruct Hcache as [E|(_ & ttl & E)]; [by left|right; by exists ttl].
Qed.

Lemma grant_wf uc inp s g s' :
  wf s -> SignIn.answers verifies uc inp s g -> session_created uc inp s g s' -> wf s'.
Proof.
  intros Hs Ha [Hc _ Hcache]. pose proof Hs as [Hst _].
  eapply session_added_wf with (body := MkCachedSession _ _ _ _); [done| |apply Ha|by rewrite Hc|by repeat split|].
  - rewrite Hc. unfold grant_rows, apply_writes, fold_left. apply wf_WEvent.
    apply wf_WSession; [done|apply Ha|apply len_Sum256|].
    destruct (SignIn.ans_user _ _ _ _ _ Ha) as (i & email & _ & Hu & Ht & _).
    exists (g_user g). split; [|done]. cbn. by rewrite (wf_user_key _ Hst _ _ Hu).
  - destruct Hcache as [E|(_ & ttl & E)]; [by left|right; by exists ttl].
Qed.

Lemma ended_wf inp s r s' :
  wf s -> SignOut.answers inp s r -> session_ended inp s r s' -> wf s'.
Proof.
  intros Hs Ha He. pose proof He as [Hc _ Hcache]. pose proof Hs as [Hst _].
  apply (wf_update s s' (fun _ _ => False)); [done|..].
  - rewrite Hc. unfold apply_writes, fold_left. by apply wf_WEvent, wf_WRevoke.
  - destruct (ended_rows inp s r s' Ha He) as (_ & -> & _). intros i x Hx.
    destruct (decide (i = SignOut.SessionID inp)) as [->|Hne].
    + pose proof (SignOut.ans_session _ _ _ Ha) as Hr. rewrite Hx in Hr. injection Hr as ->.
      eexists. split; [apply lookup_insert_eq|by repeat split].
    + exists x. split; [by rewrite lookup_insert_ne|apply same_identity_refl].
  - destruct Hcache as [E|E]; [by apply cache_kept|by eapply cache_deleted].
  - done.
Qed.

Lemma looked_up_wf s c s' : wf s -> looked_up s c s' -> wf s'.
Proof.
  intros Hs [Hc _ _ Hcache]. pose proof Hs as [Hst _].
  apply (wf_update s s' (fun key body => exists i x,
           sessions (committed s) !! i = Some x /\ cached_session_of key body x)); [done|by rewrite Hc|..].
  - intros i x Hx. rewrite Hc. exists x. split; [done|apply same_identity_refl].
  - destruct Hcache as [E|[E|(i & x & ttl & m & Hx & Hh & _ & _ & Hm & E)]];
      [by apply cache_kept|by eapply cache_deleted|].
    eapply cache_inserted; [|exact Hm|exact E]. exists i, x. split; [done|].
    repeat split; cbn; [unfold cookie_key; by rewrite Hh|]. by apply (wf_session_expiry _ Hst i x).
  - intros key body Hw. by rewrite Hc.
Qed.

Lemma evicted_wf s key : wf s -> wf (set_cache (delete key (cache s)) s).
Proof.
  intros Hs. pose proof Hs as [Hst _]. apply (wf_update s _ (fun _ _ => False)); try done.
  - intros i x Hx. exists x. split; [done|apply same_identity_refl].
  - by eapply cache_deleted.
Qed.

(** ** Invariants of the service *)

(** A property of the system state that no operation of the service breaks. *)
Class ServiceInvariant (I : Sys -> Prop) : Prop := {
  inv_quiet s s' : I s -> quiet s s' -> I s';
  inv_evicted s key : I s -> I (set_cache (delete key (cache s)) s);
  inv_looked_up s c s' : I s -> looked_up s c s' -> I s';
  inv_account s uc inp a s' :
    I s -> SignUp.answers verifies uc inp s a -> account_created uc inp s a s' -> I s';
  inv_grant s uc inp g s' :
    I s -> SignIn.answers verifies uc inp s g -> session_created uc inp s g s' -> I s';
  inv_ended s inp r s' : I s -> SignOut.answers inp s r -> session_ended inp s r s' -> I s';
}.

#[export] Instance wf_invariant : ServiceInvariant wf.
Proof.
  split; eauto using wf_quiet, evicted_wf, looked_up_wf, account_wf, grant_wf, ended_wf.
Qed.

(** ** Effects of the endpoints *)

(** The invariant is kept and no transaction is left open. *)
Definition keeps (I : Sys -> Prop) (s s' : Sys) : Prop := (I s -> I s') /\ txs s' = txs s.

#[export] Instance keeps_effect I : ServiceInvariant I -> Effect (keeps I).
Proof.
  intros HI. split.
  - split; [by split|]. intros s1 s2 s3 [? E1] [? E2]. split; [auto|by rewrite E2].
  - intros s s' Hq. split; [intros Hs; by eapply inv_quiet|apply Hq].
  - intros c s s' Hl. split; [intros Hs; by eapply inv_looked_up|apply Hl].
Qed.

(** The tables are not touched and no transaction is left open. *)
Definition same_tables (s s' : Sys) : Prop := committed s' = committed s /\ txs s' = txs s.

#[global] Instance same_tables_effect : Effect same_tables.
Proof.
  split.
  - split; [by split|]. intros s1 s2 s3 [E1 E2] [E3 E4]. split; congruence.
  - intros s s' Hq. split; apply Hq.
  - intros c s s' Hl. split; apply Hl.
Qed.

Let spec := pstep verifies.

(** *** Endpoints that write nothing *)

Section Reads.
Context (R : Sys -> Sys -> Prop) `{!Effect R} (P : Request -> Prop).

#[local] Instance effect_refl : Reflexive R.
Proof. apply _. Qed.

#[export] Instance within_pure (f : RequestCtx -> RequestCtx) :
  (forall c, request (f c) = request c) -> Within verifies R P (modify f).
Proof. intros Hf c s _. by split; [apply Hf|]. Qed.

#[export] Instance within_Healthz : Within verifies R P Healthz.
Proof. intros c s _. by split. Qed.

#[export] Instance within_OpenAPI doc : Within verifies R P (OpenAPI doc).
Proof. intros c s _. by split. Qed.

#[export] Instance within_WriteJSON status v : Within verifies R P (WriteJSON status v).
Proof. intros c s _. unfold WriteJSON. destruct (Marshal v); by split. Qed.

#[export] Instance within_get_me uc : Within verifies R P (get_me_Handle uc).
Proof.
  intros c s _. unfold get_me_Handle, GetMe.Execute. wp_go.
  destruct (IsZero _); wp_go; first [done|apply wp_WriteFast; by split].
Qed.
End Reads.

(** *** Endpoints that write *)

(** The answer to a result computed by a use case. *)
Lemma wp_usecase {A} (m : G Port bool (res A)) (R : Sys -> Sys -> Prop) (c : RequestCtx) s Q :
  wp spec (m false) (on_outcome (fun _ s' => R s s')) s ->
  (forall o s', R s s' -> Q (o, c) s') -> wp spec (scope false m c) Q s.
Proof.
  intros Hm HQ. apply wp_scope. eapply wp_mono; [|exact Hm]. intros [o l] s' HR. by apply HQ.
Qed.

Section Writes.
Context (I : Sys -> Prop) `{!ServiceInvariant I} (P : Request -> Prop).

#[local] Ltac use_spec spec inv txs :=
  eapply wp_mono; [|apply spec]; intros [? ?] ?; unfold on_outcome in *; cbn [fst] in *;
  intros []; try (by split); try (by apply effect_quiet);
  (split; [intros Hs; by eapply inv|by eapply txs]).

Lemma sign_up_keeps uc inp s :
  wp spec (SignUp.Execute uc inp false) (on_outcome (fun _ s' => keeps I s s')) s.
Proof. use_spec SignUp.sign_up_refines inv_account SignUp.created_txs. Qed.

Lemma sign_in_keeps uc inp s :
  wp spec (SignIn.Execute uc inp false) (on_outcome (fun _ s' => keeps I s s')) s.
Proof. use_spec SignIn.sign_in_refines inv_grant SignIn.created_txs. Qed.

Lemma sign_out_keeps uc inp s :
  wp spec (SignOut.Execute uc inp false) (on_outcome (fun _ s' => keeps I s s')) s.
Proof. use_spec SignOut.sign_out_refines inv_ended SignOut.ended_txs. Qed.

#[local] Ltac answer := first [done|apply wp_WriteFast; by split|by apply (effect_now (keeps I))].
#[local] Ltac after_usecase keeps :=
  apply wp_bind_go; eapply wp_usecase; [apply keeps|];
  intros [[?|?]|?] ? ?; wp_go; answer.

#[export] Instance within_sign_up uc cookie : Within verifies (keeps I) P (sign_up_Handle uc cookie).
Proof.
  intros c s _. unfold sign_up_Handle, SetFast. wp_go.
  destruct (maxBodyBytes <? len _); [answer|].
  destruct (unmarshal_SignUpRequest _) as [req|]; [after_usecase sign_up_keeps|answer].
Qed.

#[export] Instance within_sign_in uc cookie : Within verifies (keeps I) P (sign_in_Handle uc cookie).
Proof.
  intros c s _. unfold sign_in_Handle, SetFast. wp_go.
  destruct (maxBodyBytes <? len _); [answer|].
  destruct (unmarshal_SignInRequest _) as [req|]; [after_usecase sign_in_keeps|answer].
Qed.

#[export] Instance within_sign_out uc cookie : Within verifies (keeps I) P (sign_out_Handle uc cookie).
Proof.
  intros c s _. unfold sign_out_Handle, ClearFast. do 2 wp_rule. cbn [wp].
  after_usecase sign_out_keeps.
Qed.
End Writes.
End Preservation.

(** Anything may answer a call, except that the logger does not panic. *)
Definition loose : forall R, Port R -> unit -> outcome R -> unit -> Prop := fun R c =>
  match c in Port R return unit -> outcome R -> unit -> Prop with
  | Log _ => fun _ o _ => o = Returned tt
  | _ => fun _ _ _ => True
  end.

(** ** The wiring of cmd/server/main.go *)

(** What main passes to NewHandler once the configuration is loaded, the
    cache is connected and the dummy hash of sign-in is computed. *)
Definition wire `{UuidLib} (sessionTTL : Duration) (dummy : PasswordHash) (secure : bool)
    (allowedOrigins : list string) (doc : string) : Deps :=
  MkDeps (SignUp.New true sessionTTL) (SignIn.MkUseCase true sessionTTL dummy) (SignOut.New true)
    GetMe.New (MkCookieConfig secure) Recover AccessLog (OriginCheck allowedOrigins) OTelTrace
    (Session true) doc.

(** A route of the wired server as nested middleware. *)
Ltac unchain :=
  unfold signUpRoute, signInRoute, signOutRoute, getMeRoute, healthzRoute, openapiRoute,
    publicMutatingChain, protectedMutatingChain, protectedReadChain, infraChain;
  rewrite ?Chain_fold; cbn [fold_right wire dep_SignUp dep_SignIn dep_SignOut dep_GetMe dep_Cookie
    dep_Recover dep_AccessLog dep_Origin dep_OTel dep_SessionMW dep_Spec].

Section Wiring.
Context `{UuidLib} (verifies : PasswordHash -> string -> bool).
Let spec := pstep verifies.

Context (ttl : Duration) (dummy : PasswordHash) (secure : bool) (allowed : list string) (doc : string).
Let server : Handler := NewHandler (wire ttl dummy secure allowed doc).

(** A bound on the effects of every route is one on the server. *)
Lemma server_within R P :
  Forall (Within verifies R P) (routes (wire ttl dummy secure allowed doc)) ->
  Within verifies R P server.
Proof.
  intros Hr c s HP. destruct (NewHandler_routes (wire ttl dummy secure allowed doc) c) as (h & Hh & E).
  unfold server. rewrite E. rewrite Forall_forall in Hr. by apply Hr.
Qed.

Lemma server_keeps I : ServiceInvariant verifies I -> Within verifies (keeps I) (fun _ => True) server.
Proof. intros HI. apply server_within. unfold routes. rewrite !Forall_cons, Forall_nil. repeat apply conj; [..|done]; unchain; apply _. Qed.

(** A request that the origin check refuses. *)
Let foreign (r : Request) : Prop := ~ same_origin allowed r.

#[local] Instance within_shielded (h : Handler) :
  Within verifies same_tables foreign (OriginCheck allowed h).
Proof. apply within_OriginCheck_if; [apply _|]. by intros c s Hf Hs. Qed.

Lemma server_same_tables : Within verifies same_tables foreign server.
Proof. apply server_within. unfold routes. rewrite !Forall_cons, Forall_nil. repeat apply conj; [..|done]; unchain; apply _. Qed.
End Wiring.

(** ** Facts that stay true *)

Section Persistence.
Context `{UuidLib} (verifies : PasswordHash -> string -> bool).

#[export] Instance and_invariant I J :
  ServiceInvariant verifies I -> ServiceInvariant verifies J ->
  ServiceInvariant verifies (fun s => I s /\ J s).
Proof.
  intros HI HJ. split.
  - intros s s' [] Hq. split; by eapply (inv_quiet verifies _).
  - intros s key []. split; by apply (inv_evicted verifies _).
  - intros s c s' [] Hl. split; by eapply (inv_looked_up verifies _).
  - intros s uc inp a s' [] Ha Hc. split; by eapply inv_account.
  - intros s uc inp g s' [] Ha Hc. split; by eapply inv_grant.
  - intros s inp r s' [] Ha He. split; by eapply (inv_ended verifies _).
Qed.

(** A registered user stays registered. *)
Definition registered (i : UUID) (u : User.User) (s : Sys) : Prop := users (committed s) !! i = Some u.

#[export] Instance registered_invariant i u : ServiceInvariant verifies (registered i u).
Proof.
  unfold registered. split.
  - by intros s s' Hu [-> _ _ _].
  - done.
  - by intros s c s' Hu [-> _ _ _].
  - intros s uc inp a s' Hu Ha [-> _ _]. cbn. rewrite lookup_insert_ne; [done|].
    intros E. apply (SignUp.ans_free _ _ _ _ _ Ha). left. cbn. rewrite E, Hu. done.
  - by intros s uc inp g s' Hu Ha [-> _ _].
  - by intros s inp r s' Hu Ha [-> _ _].
Qed.

(** The session with this token digest is revoked and not cached. *)
Definition dead (hash : string) (s : Sys) : Prop :=
  wf s /\ cache s !! EncodeToString hash = None
  /\ exists i x, sessions (committed s) !! i = Some x /\ Session.tokenHash x = hash
       /\ is_Some (Session.revokedAt x).

(** A session added to the table has a digest of its own. *)
Lemma dead_added s s' hash x body :
  dead hash s -> wf s' -> ~ session_conflict (committed s) x ->
  sessions (committed s') = <[Session.id x := stored_session x]> (sessions (committed s)) ->
  (cache s' = cache s
   \/ exists ttl, cache s' = <[EncodeToString (Session.tokenHash x) := (body, ttl)]> (cache s)) ->
  dead hash s'.
Proof.
  intros (_ & Hnone & i & y & Hy & Hh & Hr) Hs' Hfree Hrows Hcache. split; [done|]. split.
  - destruct Hcache as [->|[ttl ->]]; [done|]. apply lookup_insert_None. split; [done|].
    intros E%EncodeToString_inj. apply Hfree. right. exists i, y. by rewrite Hh.
  - exists i, y. split; [|done]. rewrite Hrows, lookup_insert_ne; [done|].
    intros <-. apply Hfree. left. by rewrite Hy.
Qed.

Lemma dead_looked_up hash s c s' : dead hash s -> looked_up s c s' -> dead hash s'.
Proof.
  intros (Hs & Hnone & i & y & Hy & Hh & Hr) Hl. split; [by eapply looked_up_wf|].
  destruct Hl as [Hc _ _ Hcache]. split; [|rewrite Hc; by exists i, y].
  destruct Hcache as [->|[->|(j & x & ttl & m & Hx & Hxh & Hlive & _ & Hm & ->)]]; [done| |].
  - apply lookup_delete_None. by right.
  - apply lookup_insert_None. split.
    + destruct Hm as [->| ->]; [done|apply lookup_delete_None; by right].
    + intros E%EncodeToString_inj. rewrite E in Hxh.
      assert (i = j) as <- by (eapply (wf_session_unique _ (wf_committed _ Hs)); eauto; congruence).
      rewrite Hy in Hx. injection Hx as ->. rewrite Hlive in Hr. by destruct Hr.
Qed.

#[export] Instance dead_invariant hash : ServiceInvariant verifies (dead hash).
Proof.
  split.
  - intros s s' (Hs & Hnone & Hd) Hq. pose proof Hq as [Hc _ Hca _].
    split; [by eapply wf_quiet|]. by rewrite Hc, Hca.
  - intros s key (Hs & Hnone & Hd). split; [by apply evicted_wf|]. split; [|done].
    apply lookup_delete_None. by right.
  - intros s c s'. apply dead_looked_up.
  - intros s uc inp a s' Hd Ha Hc. pose proof (account_wf _ _ _ _ _ _ (proj1 Hd) Ha Hc) as Hs'.
    pose proof Hc as [Hrows _ Hcache].
    eapply dead_added; [done|done|apply Ha|by rewrite Hrows|].
    destruct Hcache as [->|(_ & ttl & ->)]; [by left|right; by exists ttl].
  - intros s uc inp g s' Hd Ha Hc. pose proof (grant_wf _ _ _ _ _ _ (proj1 Hd) Ha Hc) as Hs'.
    pose proof Hc as [Hrows _ Hcache].
    eapply dead_added; [done|done|apply Ha|by rewrite Hrows|].
    destruct Hcache as [->|(_ & ttl & ->)]; [by left|right; by exists ttl].
  - intros s inp r s' Hd Ha He. pose proof (ended_wf _ _ _ _ (proj1 Hd) Ha He) as Hs'.
    destruct Hd as (_ & Hnone & i & y & Hy & Hh & Hr). pose proof He as [_ _ Hcache].
    split; [done|]. split; [destruct Hcache as [->| ->]; [done|apply lookup_delete_None; by right]|].
    destruct (ended_rows _ _ _ _ Ha He) as (_ & -> & _).
    pose proof (SignOut.ans_session _ _ _ Ha) as Hses.
    destruct (decide (i = SignOut.SessionID inp)) as [->|Hne].
    + rewrite Hy in Hses. injection Hses as ->. eexists _, _.
      split; [apply lookup_insert_eq|]. split; [done|]. cbn. by eexists.
    + exists i, y. by rewrite lookup_insert_ne.
Qed.
End Persistence.

(** ** Traffic *)

Section Traffic.
Context `{UuidLib} (verifies : PasswordHash -> string -> bool).
Context (ttl : Duration) (dummy : PasswordHash) (secure : bool) (allowed : list string) (doc : string).
Let spec := pstep verifies.
Definition server : Handler := NewHandler (wire ttl dummy secure allowed doc).

(** One step of the running service: a request is served, the cache drops an
    entry, time passes. *)
Inductive step (s : Sys) : Sys -> Prop :=
| step_request r a s' : runs spec (server (new_ctx r)) s a s' -> step s s'
| step_evicted key : step s (set_cache (delete key (cache s)) s)
| step_time t : now s <= t -> step s (set_now t s).

(** The system after the migrations have run on an empty database. *)
Definition initial (t : Time) : Sys := MkSys (MkStore ∅ ∅ ∅) ∅ ∅ t [].

Lemma initial_wf t : wf (initial t).
Proof. by split; [split|]; repeat intro. Qed.

Lemma step_keeps I s s' : ServiceInvariant verifies I -> step s s' -> keeps I s s'.
Proof.
  intros HI [r a s2 Hr|key|t Ht].
  - pose proof (server_keeps verifies ttl dummy secure allowed doc I HI (new_ctx r) s Logic.I) as Hw.
    by apply (proj1 (wp_runs _ _ _ _) Hw a s2 Hr).
  - split; [|done]. intros Hs. by apply (inv_evicted verifies).
  - split; [|done]. intros Hs. by apply (inv_quiet verifies s _ Hs), quiet_now_to.
Qed.

Lemma steps_keep I s s' : ServiceInvariant verifies I -> rtc step s s' -> keeps I s s'.
Proof.
  intros HI Hr. induction Hr as [s|s1 s2 s3 H12 _ IH].
  - by split.
  - etransitivity; [by apply step_keeps|done].
Qed.

(** Every request is answered, whatever the collaborators do, as long as the
    logger does not panic: the middleware lets no panic through. *)
Lemma Recover_answers {S} (any : forall R, Port R -> S -> outcome R -> S -> Prop) (next : Handler) c s :
  (forall r s o s', any unit (Log r) s o s' -> o = Returned tt) ->
  wp any (Recover next c) (fun a _ => a.1 = Returned tt) s.
Proof.
  intros Hlog. unfold Recover. apply wp_recovering. apply wp_runs. intros [[[]|msg] c1] s1 _; [done|].
  cbn. intros o s2 Ho. by apply Hlog in Ho as ->.
Qed.

Lemma server_answers {S} (any : forall R, Port R -> S -> outcome R -> S -> Prop) c s :
  (forall r s o s', any unit (Log r) s o s' -> o = Returned tt) ->
  wp any (server c) (fun a _ => a.1 = Returned tt) s.
Proof.
  intros Hlog. destruct (NewHandler_routes (wire ttl dummy secure allowed doc) c) as (h & Hh & E).
  unfold server. rewrite E. clear E. unfold routes in Hh.
  repeat (apply elem_of_cons in Hh as [->|Hh];
    [unchain; first [by apply Recover_answers|unfold WriteJSON; by destruct (Marshal not_found)]|]).
  by apply not_elem_of_nil in Hh.
Qed.

Lemma server_returns c s : wp spec (server c) (fun a _ => a.1 = Returned tt) s.
Proof. apply server_answers. by intros r s0 o s' [-> _]. Qed.

Lemma server_handles r s :
  wf s ->
  wp spec (server (new_ctx r)) (fun a s' => a.1 = Returned tt /\ wf s' /\ txs s' = txs s) s.
Proof.
  intros Hs. eapply wp_mono; [|apply wp_conj; [apply server_returns|]].
  2:{ apply (server_keeps verifies ttl dummy secure allowed doc wf _ (new_ctx r) s Logic.I). }
  cbn. intros a s' (Ha & _ & Hw & Ht). auto.
Qed.

(** C1: every request to the running server gets an answer (no panic leaves
    the handler), leaves no transaction open and preserves the invariant of
    the database and the cache. *)
Theorem server_safe r s :
  wf s ->
  wp spec (server (new_ctx r)) (fun a s' => a.1 = Returned tt /\ wf s' /\ txs s' = txs s) s.
Proof. apply server_handles. Qed.

(** C9: a request without an allowed Origin, or in its absence an allowed
    Referer, changes no row of the database, whatever its method, path and
    cookie. *)
Theorem server_rejects_foreign r s :
  ~ same_origin allowed r ->
  wp spec (server (new_ctx r)) (fun _ s' => committed s' = committed s /\ txs s' = txs s) s.
Proof.
  intros Hf. eapply wp_mono; [|by apply (server_same_tables verifies ttl dummy secure allowed doc)].
  by intros a s' [_ HR].
Qed.

(** C17: after a successful sign-up, and any traffic after it, a sign-in of the
    tenant with the same password and any spelling of the address that has
    the same canonical form is not refused, and a sign-in that succeeds is
    for the user of the sign-up. *)
Theorem sign_up_then_sign_in uc uc2 inp inp2 out l l2 s s1 s2 :
  wf s -> runs spec (SignUp.Execute uc inp false) s (Returned (Ok out), l) s1 ->
  rtc step s1 s2 ->
  SignIn.TenantID inp2 = SignUp.TenantID inp ->
  NewEmail (SignIn.Email inp2) = NewEmail (SignUp.Email inp) ->
  SignIn.Password inp2 = SignUp.Password inp ->
  wp spec (SignIn.Execute uc2 inp2 l2) (on_outcome (fun (o : outcome (res SignIn.Output)) _ =>
    match o with
    | Returned (Ok out2) => SignIn.UserID out2 = SignUp.UserID out
    | Returned (Err e) => e = sign_in.ErrInternal
    | Panicked _ => True
    end)) s2.
Proof.
  intros Hs Hup Hsteps Ht He Hp.
  pose proof (proj1 (wp_runs _ _ _ _) (SignUp.sign_up_refines verifies uc inp s false) _ _ Hup) as Hspec.
  unfold on_outcome in Hspec. cbn [fst] in Hspec.
  destruct (sign_up_ok _ _ _ _ _ _ Hspec) as (a & Ha & Hc & ->).
  set (u := stored_user (User.New (a_user a) (SignUp.TenantID inp) (a_email a) (a_hash a) (a_now a))).
  assert (registered (a_user a) u s1 /\ wf s1) as Hreg.
  { split; [|by eapply account_wf]. unfold registered. rewrite (SignUp.created_committed _ _ _ _ _ Hc).
    apply lookup_insert_eq. }
  destruct (proj1 (steps_keep (fun s => registered (a_user a) u s /\ wf s) s1 s2 _ Hsteps) Hreg)
    as [Hu [Hst2 _]].
  assert (forall v, names_user inp2 s2 v -> v = u) as Huniq.
  { intros v (i & email & He' & Hv & Hvt & Hve).
    assert (i = a_user a) as ->.
    { eapply (wf_user_unique _ Hst2); [exact Hv|exact Hu|cbn; congruence|].
      rewrite He, (SignUp.ans_email _ _ _ _ _ Ha) in He'. injection He' as <-. done. }
    unfold registered in Hu. congruence. }
  eapply wp_mono; [|apply SignIn.sign_in_refines]. intros [o l3] s3. unfold on_outcome. cbn [fst].
  intros [|s4 Hbad _|o' s4 Hg _|g o' s4 _ _ Hg|g s4 _ Hans]; try done;
    try (by destruct Hg as [->|[msg ->]]).
  - destruct Hbad as [Hno|(v & Hv & Hbad)].
    + destruct (Hno u). exists (a_user a), (a_email a).
      rewrite He, (SignUp.ans_email _ _ _ _ _ Ha), Ht. done.
    + rewrite (Huniq v Hv), Hp in Hbad. cbn in Hbad. by rewrite (SignUp.ans_hash _ _ _ _ _ Ha) in Hbad.
  - cbn. by rewrite (Huniq _ (SignIn.ans_user _ _ _ _ _ Hans)).
Qed.

(** A dead session proves nothing. *)
Lemma dead_proves_nothing cache hash s c uid sid t :
  dead hash s -> HashOf (cookie_token c) = hash -> ~ proves cache s c uid sid t.
Proof.
  intros (Hs & Hnone & i & x & Hx & Hh & Hr) Hc Hp.
  assert (cookie_key c = EncodeToString hash) as Hkey by (unfold cookie_key; by rewrite Hc).
  destruct Hp as [body ttl' t' _ Hk _ _|j y t' Hy Hyh _ Hact].
  - rewrite Hkey, Hnone in Hk. done.
  - assert (i = j) as <- by (eapply (wf_session_unique _ (wf_committed _ Hs)); eauto; congruence).
    rewrite Hx in Hy. injection Hy as <-. apply IsActive_spec in Hact as [Hn _].
    rewrite Hn in Hr. by destruct Hr.
Qed.

(** C8: a sign-out has succeeded and the cache entry of the token is gone.  Then,
    after any further requests, handled one after another, a request with that
    token is refused by the session middleware: the protected handler does not
    run, no row changes, and the answer is 401 session_invalid, unless the lookup
    in the sessions table has just failed (500) or a call has panicked.  Requests
    that overlap with the sign-out are another matter
    ([cached_session_outlives_sign_out] of Race.v). *)
Theorem signed_out_token_refused uc inp x out l s s1 s2 (next : Handler) c :
  wf s -> sessions (committed s) !! SignOut.SessionID inp = Some x ->
  runs spec (SignOut.Execute uc inp false) s (Returned (Ok out), l) s1 ->
  cache s1 !! EncodeToString (Session.tokenHash x) = None ->
  rtc step s1 s2 -> cookie_token c <> "" -> HashOf (cookie_token c) = Session.tokenHash x ->
  wp (traced spec) (Session true next c) (fun a '(s3, tr) => committed s3 = committed s2 /\
    (a = (Returned tt, answered SessionInvalid c)
     \/ (exists e, infra e /\ last tr = Some (reply (Sessions (FindByTokenHash (Session.tokenHash x))) (Returned (Err e)))
          /\ a = (Returned tt, answered Internal c))
     \/ exists msg, call_panicked tr msg /\ a = (Panicked msg, c))) (s2, []).
Proof.
  intros Hs Hx Hout Hnone Hsteps Htok Hc.
  pose proof (proj1 (wp_runs _ _ _ _) (SignOut.sign_out_refines verifies uc inp s false) _ _ Hout) as Hspec.
  unfold on_outcome in Hspec. cbn [fst] in Hspec.
  destruct (sign_out_ok _ _ _ _ _ Hspec) as (r & Ha & He).
  pose proof (SignOut.ans_session _ _ _ Ha) as Hr. rewrite Hx in Hr. injection Hr as ->.
  assert (dead (Session.tokenHash (r_session r)) s1) as Hd.
  { split; [by eapply ended_wf|]. split; [done|].
    destruct (ended_rows _ _ _ _ Ha He) as (_ & -> & _). eexists _, _.
    split; [apply lookup_insert_eq|]. split; [done|]. cbn. by eexists. }
  apply (steps_keep (dead _) s1 s2 _ Hsteps) in Hd.
  apply (Session_rule_traced verifies).
  - intros uid sid t s3 tr Hp. by destruct (dead_proves_nothing _ _ _ _ _ _ _ Hd Hc Hp).
  - intros r' s3 tr Href [-> _ _ _]. split; [done|].
    destruct Href as [Hempty|_ _|i y t _ _ _ _ _|e _ He' Hlast]; [done|by left..|].
    right. left. rewrite Hc in Hlast. eauto.
  - intros msg s3 tr Hmsg [-> _ _ _]. eauto 6.
Qed.
End Traffic.
