(* ===== verification/Responses.v ===== *)
(** * The responses of the service

    The API document (internal/transport/apispec/openapi.json) lists, for every
    operation, its success response and the statuses and codes of its errors.
    Every response of the wired server has one of those statuses and its body is of
    the schema the document gives (JsonSchema.v), whatever its collaborators answer,
    and the only cookie it sets or clears is the session cookie with the attributes
    of the configuration.  The age and the expiry of the cookie are those of the
    code (a cleared one differs from the document's Max-Age=0). *)
From S2P Require Import SignUp SignIn SignOut GetMe.
From S2P Require Import Prelude Program GoText GoTime GoJson Errors Tenant User Session Outbox Ports PortSpec PortRules Http Middleware Handlers JsonSchema Router Service.
#[local] Open Scope Z_scope.

(** ** The API document *)

(** An error the document allows: a status with its codes. *)
Record ErrorDoc := MkErrorDoc { doc_status : Z; doc_codes : list string }.

(** The shared responses under [components]. *)
Definition BadRequestDoc : ErrorDoc := MkErrorDoc 400 ["invalid_body"; "invalid_email"; "weak_password"].
(** [invalid_credentials] is for sign-in only. *)
Definition UnauthorizedDoc (sign_in : bool) : ErrorDoc :=
  MkErrorDoc 401 ((if sign_in then ["invalid_credentials"] else []) ++ ["session_required"; "session_invalid"]).
Definition ForbiddenDoc : ErrorDoc := MkErrorDoc 403 ["forbidden"].
Definition ConflictDoc : ErrorDoc := MkErrorDoc 409 ["email_taken"].
Definition InternalDoc : ErrorDoc := MkErrorDoc 500 ["internal"].

(** The body of a success response. *)
Inductive Schema := SessionResponse | NoContent | MeSchema | HealthResponse | DocumentItself.

Record Operation := MkOperation {
  op_method : string;
  op_path : string;
  op_success : Z;
  op_schema : Schema;
  op_errors : list ErrorDoc;
}.

Definition signUpOp : Operation :=
  MkOperation "POST" "/api/v1/crm/public/identity/sign-up" 201 SessionResponse
    [BadRequestDoc; ForbiddenDoc; ConflictDoc; InternalDoc].
Definition signInOp : Operation :=
  MkOperation "POST" "/api/v1/crm/public/identity/sessions" 200 SessionResponse
    [BadRequestDoc; UnauthorizedDoc true; ForbiddenDoc; InternalDoc].
Definition signOutOp : Operation :=
  MkOperation "DELETE" "/api/v1/crm/public/identity/sessions/current" 204 NoContent
    [UnauthorizedDoc false; ForbiddenDoc; InternalDoc].
Definition getMeOp : Operation :=
  MkOperation "GET" "/api/v1/crm/public/identity/profile/me" 200 MeSchema [UnauthorizedDoc false; InternalDoc].
Definition healthzOp : Operation := MkOperation "GET" "/healthz" 200 HealthResponse [].
Definition openapiOp : Operation := MkOperation "GET" "/openapi.json" 200 DocumentItself [].

Definition operations : list Operation := [signUpOp; signInOp; signOutOp; getMeOp; healthzOp; openapiOp].

Definition serves (r : Request) (op : Operation) : bool :=
  bool_decide (Method r = op_method op) && bool_decide (Path r = op_path op).

(** ** Responses *)

(** Runs a handler up to its next branch; the answers of the collaborators
    stay open. *)
Ltac wp_sane :=
  repeat (cbv beta iota; cbn [fst snd negb orb];
    match goal with
    | |- wp _ (call (Log _) _) _ _ => apply wp_call_go; intros ? [] ->
    | |- wp _ (call (Now _) _) _ _ => apply wp_call_go; intros ? [] [? ->]
    | |- wp _ (call _ _) _ _ => apply wp_call_go; intros [?|?] [] _
    | |- wp _ (WriteFast _ _) _ _ => apply wp_WriteFast
    | |- wp _ (authenticated _ _ _ _ _) _ _ => unfold authenticated
    | |- wp _ (match ?r with Ok _ => _ | Err _ => _ end _) _ _ => destruct r
    | |- wp _ ((if negb ?b then _ else _) _) _ _ => destruct b
    | |- wp _ ((if ?b then _ else _) _) _ _ => destruct b
    | |- wp _ _ _ _ => wp_rule
    end).

Section Responses.
Context `{UuidLib} (cfg : CookieConfig) (doc : string).

(** The attributes of the session cookie; all but its value and age. *)
Definition session_cookie (ck : Cookie) : Prop :=
  Key ck = Name cfg /\ CookiePath ck = "/" /\ HTTPOnly ck = true /\ Secure ck = cfg_Secure cfg
  /\ CookieSameSite ck = CookieSameSiteLaxMode.

(** The cookies of a response. *)
Definition only_session_cookie (p : Response) : Prop :=
  forall n ck, SetCookies p !! n = Some ck -> n = Name cfg /\ session_cookie ck.

(** A cookie with a token, and the one that removes it. *)
Definition grants_cookie (p : Response) : Prop :=
  exists token t age, SetCookies p =
    {[Name cfg := MkCookie (Name cfg) token "/" (ExpireAt t) age true (cfg_Secure cfg) CookieSameSiteLaxMode]}.
Definition clears_cookie (p : Response) : Prop :=
  SetCookies p =
    {[Name cfg := MkCookie (Name cfg) "" "/" CookieExpireDelete (-1) true (cfg_Secure cfg) CookieSameSiteLaxMode]}.

Definition json_body (p : Response) (v : mvalue) : Prop :=
  ContentType p = "application/json" /\ Body p = marshal_or_empty v.

Definition shaped (sch : Schema) (p : Response) : Prop :=
  match sch with
  | SessionResponse => exists u, json_body p (SignUpResponse (uuid_String u))
      /\ validates SessionResponseSchema (Body p) /\ grants_cookie p
  | NoContent => Body p = "" /\ clears_cookie p
  | MeSchema => (exists u, json_body p (MeResponse (uuid_String (User.id u)) (Email_String (User.email u))
                   (User.status u) (User.createdAt u))
                 /\ (presentable u -> validates MeResponseSchema (Body p))) /\ SetCookies p = ∅
  | HealthResponse => ContentType p = "application/json" /\ Body p = json_text "{'status':'ok'}"
      /\ validates HealthResponseSchema (Body p) /\ SetCookies p = ∅
  | DocumentItself => ContentType p = "application/json" /\ Body p = doc /\ SetCookies p = ∅
  end.

Definition success (op : Operation) (p : Response) : Prop :=
  StatusCode p = op_success op /\ shaped (op_schema op) p.

(** The response is the error [r]. *)
Definition refusal (r : ErrResponse) (p : Response) : Prop :=
  StatusCode p = Status r /\ json_body p (ErrBody (Code r) (Message r)).

(** The document lists the error [r] of the mapper for the operation. *)
Definition documents (op : Operation) (r : ErrResponse) : bool :=
  bool_decide (r ∈ mapper_errors) && existsb (fun d => (doc_status d =? Status r) && existsb (String.eqb (Code r)) (doc_codes d)) (op_errors op).

Definition documented (op : Operation) (p : Response) : Prop :=
  success op p \/ exists r, documents op r = true /\ refusal r p /\ validates ErrorSchema (Body p).

(** Collaborators that answer anything, except that the logger and the clock
    do not panic. *)
Definition sane : forall R, Port R -> unit -> outcome R -> unit -> Prop := fun R c =>
  match c in Port R return unit -> outcome R -> unit -> Prop with
  | Log _ => fun _ o _ => o = Returned tt
  | Now _ => fun _ o _ => exists t, o = Returned t
  | _ => fun _ _ _ => True
  end.

(** ** Handlers that answer with a success or one of the listed errors *)

(** Nothing is answered yet. *)
Definition blank (c : RequestCtx) : Prop :=
  StatusCode (response c) = 200 /\ ContentType (response c) = "" /\ Body (response c) = ""
  /\ SetCookies (response c) = ∅.

Definition answer (op : Operation) (es : list ErrResponse) (p : Response) : Prop :=
  success op p \/ exists r, r ∈ es /\ refusal r p.

(** What a handler leaves: when it returns, an answer; when it panics, at
    most the session cookie. *)
Definition outcome_ok (op : Operation) (es : list ErrResponse) (a : outcome unit * RequestCtx) : Prop :=
  only_session_cookie (response a.2) /\
  match a.1 with Returned _ => answer op es (response a.2) | Panicked _ => True end.

(** For the requests that satisfy [P]. *)
Class Answers (P : Request -> Prop) (op : Operation) (es : list ErrResponse) (h : Handler) : Prop :=
  answers c : P (request c) -> blank c -> wp sane (h c) (fun a _ => outcome_ok op es a) tt.

Lemma blank_cookie c : blank c -> only_session_cookie (response c).
Proof. intros (_ & _ & _ & E) n ck. by rewrite E, lookup_empty. Qed.

Lemma refused_with op es r c msg :
  r ∈ es -> only_session_cookie (response c) -> outcome_ok op es (Returned msg, answered r c).
Proof. intros Hr Hc. split; [exact Hc|]. right. exists r. by repeat split. Qed.

Lemma panicked_with op es msg c : only_session_cookie (response c) -> outcome_ok op es (Panicked msg, c).
Proof. by split. Qed.

(** The answer of a wrapped handler, handed on by a wrapper that may itself
    answer with more errors. *)
Lemma passed_on op es es' v c :
  only_session_cookie (response c) -> answer op es (response c) -> es ⊆ es' ->
  outcome_ok op es' (Returned v, c).
Proof. intros Hc Ha He. split; [done|]. destruct Ha as [?|(r & Hr & ?)]; [by left|right; exists r; auto]. Qed.

Lemma answers_next P op es h c (Q : outcome unit * RequestCtx -> unit -> Prop) :
  Answers P op es h -> P (request c) -> blank c ->
  (forall v c1, only_session_cookie (response c1) -> answer op es (response c1) -> Q (Returned v, c1) tt) ->
  (forall msg c1, only_session_cookie (response c1) -> Q (Panicked msg, c1) tt) ->
  wp sane (h c) Q tt.
Proof.
  intros Hh HP Hc Hret Hpanic. eapply wp_mono; [|by apply Hh]. intros [[v|msg] c1] [] [Hk Ha]; auto.
Qed.

(** A collaborator's answer, or any program's, when nothing depends on it. *)
Lemma wp_anything {A} (p : Prog Port A) (Q : A -> unit -> Prop) : (forall a, Q a tt) -> wp sane p Q tt.
Proof. intros HQ. induction p; cbn; [auto|]. intros o [] _. auto. Qed.

(** *** The middleware *)

#[local] Hint Resolve blank_cookie panicked_with : core.

#[local] Ltac member := first [by left|assumption|right; member].
#[local] Ltac settle :=
  wp_sane; first [apply refused_with; [member|by auto]|eapply passed_on; [done|done|intros ? ?; member]|by auto].
#[local] Ltac finish := wp_sane; first [eapply answers_next; [eassumption|eassumption|done|intros; settle..]|settle].

Section Wrappers.
Context (P : Request -> Prop) (op : Operation) (es : list ErrResponse).

#[export] Instance answers_Recover h : Answers P op es h -> Answers P op (Internal :: es) (Recover h).
Proof. intros Hh c HP Hc. apply wp_recovering. finish. Qed.

#[export] Instance answers_AccessLog h : Answers P op es h -> Answers P op es (AccessLog h).
Proof. intros Hh c HP Hc. unfold AccessLog. finish. Qed.

#[export] Instance answers_OTelTrace h : Answers P op es h -> Answers P op es (OTelTrace h).
Proof. intros Hh c HP Hc. unfold OTelTrace. finish. Qed.

#[export] Instance answers_RequestID h : Answers P op es h -> Answers P op es (RequestID h).
Proof. intros Hh c HP Hc. unfold RequestID. finish. Qed.

#[export] Instance answers_Tenancy h : Answers P op es h -> Answers P op es (Tenancy h).
Proof. intros Hh c HP Hc. unfold Tenancy. finish. Qed.

#[export] Instance answers_OriginCheck allowed h :
  Answers P op es h -> Answers P op (Forbidden :: es) (OriginCheck allowed h).
Proof.
  intros Hh c HP Hc. destruct (OriginCheck_guard allowed h c) as [[_ ->]|(_ & msg & attrs & ->)]; finish.
Qed.

Lemma answers_store cache hash key h :
  Answers P op es h ->
  Answers P op (SessionRequired :: SessionInvalid :: Internal :: es) (session_from_store cache hash key h).
Proof. intros Hh c HP Hc. unfold session_from_store. finish. Qed.

#[export] Instance answers_Session cache h :
  Answers P op es h -> Answers P op (SessionRequired :: SessionInvalid :: Internal :: es) (Session cache h).
Proof.
  intros Hh c HP Hc. unfold Session. wp_sane.
  destruct (ReadSessionCookieFast c) as [raw ok].
  destruct (negb ok || bool_decide (raw = "")); wp_sane; first [by apply answers_store|finish].
Qed.

End Wrappers.

(** *** The handlers *)

(** The errors of each operation, as the mapper writes them. *)
Definition invalid_email : ErrResponse := FromSignUp sign_up.ErrInvalidEmail.
Definition weak_password : ErrResponse := FromSignUp sign_up.ErrWeakPassword.
Definition email_taken : ErrResponse := FromSignUp sign_up.ErrEmailTaken.
Definition invalid_credentials : ErrResponse := FromSignIn sign_in.ErrInvalidCredentials.

Lemma FromSignUp_cases e : FromSignUp e ∈ [invalid_email; weak_password; email_taken; Internal].
Proof. unfold FromSignUp at 1. repeat case_match; member. Qed.
Lemma FromSignIn_cases e : FromSignIn e ∈ [invalid_credentials; Internal].
Proof. unfold FromSignIn at 1. case_match; member. Qed.
Lemma FromGetMe_cases e : FromGetMe e ∈ [SessionInvalid; Internal].
Proof. unfold FromGetMe. case_match; member. Qed.

(** A response that sets the session cookie and no other. *)
Lemma sets_session_cookie c ck :
  blank c -> session_cookie ck ->
  SetCookies (response (SetCookie ck c)) = {[Name cfg := ck]}
  /\ only_session_cookie (response (SetCookie ck c)).
Proof.
  intros (_ & _ & _ & E) Hck. cbn. destruct Hck as [Hk Hck]. rewrite E, Hk. split; [done|].
  intros n ck'. cbn. intros [<- <-]%lookup_singleton_Some. by repeat split; try apply Hck.
Qed.

(** The use case's result decides; its calls do not touch the request. *)
Lemma any_usecase {A} (m : G Port bool (res A)) c (Q : outcome (res A) * RequestCtx -> unit -> Prop) :
  (forall o, Q (o, c) tt) -> wp sane (scope false m c) Q tt.
Proof. intros HQ. apply wp_scope, wp_anything. intros [o l]. apply HQ. Qed.

#[local] Ltac after_usecase cases :=
  apply wp_bind_go, any_usecase; intros [[out|e]|msg];
  [|wp_sane; apply refused_with; [right; apply cases|by auto]|by auto].

(** A success with the session cookie. *)
Lemma granted o es c ck status u t token age :
  blank c -> op_schema o = SessionResponse -> op_success o = status ->
  ck = MkCookie (Name cfg) token "/" (ExpireAt t) age true (cfg_Secure cfg) CookieSameSiteLaxMode ->
  outcome_ok o es (Returned tt, SetBody (marshal_or_empty (SignUpResponse (uuid_String u)))
    (SetStatusCode status (SetContentType "application/json" (SetCookie ck c)))).
Proof.
  intros Hc Hsch <- ->. destruct (sets_session_cookie c _ Hc
    (ltac:(by repeat split) : session_cookie (MkCookie _ token "/" (ExpireAt t) age _ _ _))) as [Hs Ho].
  split; [exact Ho|]. left. split; [done|]. rewrite Hsch. exists u. split; [done|].
  split; [apply session_validates|].
  exists token, t, age. exact Hs.
Qed.

#[export] Instance answers_sign_up P uc :
  Answers P signUpOp (InvalidBody :: [invalid_email; weak_password; email_taken; Internal])
    (sign_up_Handle uc cfg).
Proof.
  intros c HP Hc. unfold sign_up_Handle, SetFast. wp_rule. wp_sane; [settle|].
  destruct (unmarshal_SignUpRequest _) as [req|]; [|settle].
  after_usecase FromSignUp_cases. wp_sane. by eapply granted.
Qed.

#[export] Instance answers_sign_in P uc :
  Answers P signInOp (InvalidBody :: [invalid_credentials; Internal]) (sign_in_Handle uc cfg).
Proof.
  intros c HP Hc. unfold sign_in_Handle, SetFast. wp_rule. wp_sane; [settle|].
  destruct (unmarshal_SignInRequest _) as [req|]; [|settle].
  after_usecase FromSignIn_cases. wp_sane. by eapply granted.
Qed.

#[export] Instance answers_sign_out P uc : Answers P signOutOp [Internal] (sign_out_Handle uc cfg).
Proof.
  intros c HP Hc. unfold sign_out_Handle, ClearFast. wp_rule. wp_rule.
  apply wp_bind_go, any_usecase. intros [[out|e]|msg]; [|settle|by auto].
  wp_sane. destruct (sets_session_cookie c (MkCookie (Name cfg) "" "/" CookieExpireDelete (-1) true
    (cfg_Secure cfg) CookieSameSiteLaxMode) Hc ltac:(by repeat split)) as [Hs Ho].
  split; [exact Ho|]. left. split; [done|]. split; [by apply Hc|exact Hs].
Qed.

#[export] Instance answers_get_me P uc : Answers P getMeOp [SessionInvalid; Internal] (get_me_Handle uc).
Proof.
  intros c HP Hc. unfold get_me_Handle, GetMe.Execute. wp_rule. wp_rule. wp_rule.
  destruct (IsZero _); [settle|]. wp_sane; try settle.
  split; [exact (blank_cookie c Hc)|]. left. split; [done|]. split; [|apply Hc].
  eexists. split; [done|]. apply me_validates.
Qed.

(** The infra endpoints answer always with their success. *)
Lemma answers_infra op h f c :
  (forall c, h c = Ret (Returned tt, f c)) -> success op (response (f c)) ->
  only_session_cookie (response (f c)) ->
  wp sane (Recover (AccessLog h) c) (fun a _ => outcome_ok op [] a) tt.
Proof.
  intros Hh Hs Hk. unfold AccessLog. apply wp_recovering. wp_sane. rewrite Hh. cbn [wp].
  wp_sane. split; [done|by left].
Qed.

#[export] Instance answers_healthz P : Answers P healthzOp [] (Recover (AccessLog Healthz)).
Proof.
  intros c _ Hc. eapply answers_infra; [done| |exact (blank_cookie c Hc)].
  split; [done|]. split; [done|]. split; [done|]. split; [exact health_validates|apply Hc].
Qed.

#[export] Instance answers_openapi P : Answers P openapiOp [] (Recover (AccessLog (OpenAPI doc))).
Proof.
  intros c _ Hc. eapply answers_infra; [done| |exact (blank_cookie c Hc)].
  split; [done|]. split; [done|]. split; [done|apply Hc].
Qed.

(** ** The server *)

Definition NotFound : ErrResponse := MkErrResponse 404 "not_found" "Route not found".

(** What the document says of the response [p] to the request [r]. *)
Definition conforms (r : Request) (p : Response) : Prop :=
  only_session_cookie p /\
  match List.find (serves r) operations with
  | Some op => documented op p
  | None => refusal NotFound p /\ validates ErrorSchema (Body p)
  end.

(** The dispatch follows the document's operations. *)
Lemma NewHandler_serves d c :
  NewHandler d c =
    (let r := request c in
     if serves r healthzOp then healthzRoute d else if serves r openapiOp then openapiRoute d
     else if serves r signUpOp then signUpRoute d else if serves r signInOp then signInRoute d
     else if serves r signOutOp then signOutRoute d else if serves r getMeOp then getMeRoute d
     else WriteJSON 404 not_found) c.
Proof. reflexivity. Qed.

Lemma refusal_validates r p : r ∈ mapper_errors -> refusal r p -> validates ErrorSchema (Body p).
Proof.
  intros Hr (_ & _ & ->). pose proof errors_validate as Hall. rewrite Forall_forall in Hall. by apply Hall.
Qed.

Lemma documented_answer op es p :
  forallb (documents op) es = true -> answer op es p -> documented op p.
Proof.
  intros Hes. rewrite forallb_forall in Hes. intros [?|(r & Hr%list_elem_of_In%Hes & Hp)]; [by left|right].
  exists r. split; [done|]. split; [done|]. apply andb_true_iff in Hr as [Hr%bool_decide_eq_true _].
  by eapply refusal_validates.
Qed.
End Responses.

Section Documented.
Context `{UuidLib} (ttl : Duration) (dummy : PasswordHash) (secure : bool) (allowed : list string) (doc : string).
#[local] Notation cfg := (MkCookieConfig secure).

(** A route that answers with a success or some errors that the document
    lists. *)
Lemma route_conforms op es h c :
  List.find (serves (request c)) operations = Some op ->
  wp sane (h c) (fun a _ => a.1 = Returned tt) tt ->
  wp sane (h c) (fun a _ => outcome_ok cfg doc op es a) tt ->
  forallb (documents op) es = true ->
  wp sane (h c) (fun a _ => a.1 = Returned tt /\ conforms cfg doc (request c) (response a.2)) tt.
Proof.
  intros Hf Hret Ha Hes. eapply wp_mono; [|exact (wp_conj _ _ _ _ _ Hret Ha)]. clear Ha.
  intros [o c1] [] [Ho [Hk Ha]]. split; [done|]. split; [done|]. rewrite Hf. cbn in Ho, Ha. rewrite Ho in Ha.
  by eapply documented_answer.
Qed.

Lemma find_serves r op :
  op ∈ operations -> serves r op = true -> List.find (serves r) operations = Some op.
Proof.
  intros Hop [Hm%bool_decide_eq_true Hp%bool_decide_eq_true]%andb_true_iff.
  unfold operations, List.find, serves. rewrite Hm, Hp.
  repeat (apply elem_of_cons in Hop as [->|Hop]; [reflexivity|]). by apply not_elem_of_nil in Hop.
Qed.

Lemma find_nothing r :
  (forall op, op ∈ operations -> serves r op = false) -> List.find (serves r) operations = None.
Proof.
  intros Hn. destruct (List.find _ _) as [op|] eqn:E; [|done].
  apply find_some in E as [Hin%list_elem_of_In Hs]. by rewrite Hn in Hs.
Qed.

(** C10: every request is answered with a status that the API document lists: the
    success status of the operation it names, or a status and code of an error
    listed for that operation; a request that names no operation is answered 404.
    The bodies, read as JSON, are of the schemas of the document, that of a profile
    as far as the stored user is presentable: a valid address, a declared status
    and a year of four digits.  A sign-up and a sign-in set the session cookie with
    the configured attributes; a sign-out clears it, with MaxAge -1 and
    CookieExpireDelete, where the document shows Max-Age=0; no other cookie is ever
    set.  It holds whatever the database, the cache, the hasher and the tracer
    answer. *)
Theorem server_conforms r :
  wp sane (server ttl dummy secure allowed doc (new_ctx r))
    (fun a _ => a.1 = Returned tt /\ conforms cfg doc r (response a.2)) tt.
Proof.
  assert (blank (new_ctx r)) as Hc by done.
  pose proof (server_answers ttl dummy secure allowed doc sane (new_ctx r) tt (fun _ _ _ _ E => E)) as Hret.
  unfold server in *. rewrite NewHandler_serves in *. cbv zeta in *. change (request (new_ctx r)) with r in *.
  assert (forall op, op ∈ operations -> serves r op = true ->
    List.find (serves (request (new_ctx r))) operations = Some op) as Hfind by apply find_serves.
  destruct (serves r healthzOp) eqn:E1; [|destruct (serves r openapiOp) eqn:E2;
    [|destruct (serves r signUpOp) eqn:E3; [|destruct (serves r signInOp) eqn:E4;
    [|destruct (serves r signOutOp) eqn:E5; [|destruct (serves r getMeOp) eqn:E6]]]]].
  1-6: eapply route_conforms;
    [eapply Hfind; [|eassumption]; unfold operations; set_solver|exact Hret
    |unchain; by apply (answers cfg doc (P := fun _ => True))|reflexivity].
  unfold WriteJSON. destruct (Marshal not_found) as [b|] eqn:Em; [|by vm_compute in Em].
  cbn. split; [done|]. split; [exact (blank_cookie _ _ Hc)|].
  rewrite find_nothing.
  - assert (refusal NotFound (response (SetBody b (SetStatusCode 404 (SetContentType "application/json" (new_ctx r))))))
      as Hp.
    { split; [done|]. split; [done|]. unfold marshal_or_empty.
      change (ErrBody (Code NotFound) (Message NotFound)) with not_found. by rewrite Em. }
    split; [exact Hp|]. eapply refusal_validates; [|exact Hp]. by apply (bool_decide_unpack _); vm_compute.
  - intros op Hop. unfold operations in Hop.
    repeat (apply elem_of_cons in Hop as [->|Hop]; [done|]). by apply not_elem_of_nil in Hop.
Qed.
End Documented.
