(* ===== verification/Schemas.v ===== *)
(** * Requests that follow the API document

    The document (internal/transport/apispec/openapi.json) describes the body of
    a sign-up and of a sign-in by the schema CredentialsRequest of JsonSchema.v.
    A client that follows the document is understood: its body is never refused
    as malformed, and the only further conditions the service puts on it are the
    shape of the address and the length of the password in bytes. *)
From S2P Require Import SignUp SignIn SignOut GetMe.
From S2P Require Import Prelude Program GoText GoTime GoJson Errors Tenant User Session Outbox Ports PortSpec PortRules Http Middleware Handlers JsonSchema Router Service Responses.
#[local] Open Scope Z_scope.

(** ** What a conforming body decodes to *)

(** The text of the member [n], the last one if the name is repeated. *)
Definition text_of (n : string) (ms : list (list Z * json)) (start : option string) : option string :=
  fold_left (fun acc m =>
    if named n m then match m.2 with JText s => Some (of_bytes s) | _ => acc end else acc) ms start.

(** A body that conforms to the schema, with the address [e] and the password
    [p], within the limit the service puts on every body. *)
Definition conforming (e p : string) (r : Request) : Prop :=
  len (PostBody r) <= maxBodyBytes /\ exists ms,
    parse_json (bytes_of (PostBody r)) = Some (JObject ms) /\ valid CredentialsRequest (JObject ms) = true
    /\ text_of "email" ms None = Some e /\ text_of "password" ms None = Some p.

(** A member of a conforming body. *)
Definition credential (m : list Z * json) : Prop :=
  exists s, m.2 = JText s /\ (m.1 = bytes_of "email" \/ m.1 = bytes_of "password" /\ 12 <= Z.of_nat (length (runes s))).

Lemma valid_credentials ms : valid CredentialsRequest (JObject ms) = true -> Forall credential ms.
Proof.
  intros [_ H]%andb_true_iff. rewrite forallb_forall in H. apply List.Forall_forall. intros [k v] Hm%H.
  cbn in Hm. unfold named in Hm. cbn [fst snd] in Hm. unfold credential. cbn [fst snd].
  repeat case_bool_decide; destruct v as [|?| |s|?|?]; try done; exists s; split; auto. right. split; [done|lia].
Qed.

Lemma store_credential e p m :
  credential m ->
  store_member ["email"; "password"] [e; p] m
  = Some [default e (text_of "email" [m] None); default p (text_of "password" [m] None)].
Proof.
  destruct m as [k v]. intros (s & Ev & [Ek|[Ek _]]); cbn in Ev, Ek; subst v k; by vm_compute.
Qed.

Lemma text_of_from n ms d : text_of n ms (Some d) = Some (default d (text_of n ms None)).
Proof.
  revert d. induction ms as [|[k v] ms IH]; intros d; [done|]. unfold text_of in *. cbn [fold_left].
  destruct (named n (k, v)), v; cbn [snd]; rewrite ?IH; try done.
Qed.

Lemma store_credentials ms e p :
  Forall credential ms ->
  store_members ["email"; "password"] [e; p] ms
  = Some [default e (text_of "email" ms None); default p (text_of "password" ms None)].
Proof.
  intros H. revert e p. induction H as [|m ms Hm _ IH]; intros e p; [done|]. cbn [store_members].
  rewrite store_credential by done. cbn [mbind option_bind]. rewrite IH.
  assert (forall n d, text_of n (m :: ms) None = text_of n ms (text_of n [m] None)) as Hc by done.
  do 2 f_equal; [|f_equal]; rewrite Hc by done; by destruct (text_of _ [m] None); rewrite ?text_of_from.
Qed.

Lemma text_of_member n ms d t :
  text_of n ms d = Some t -> d = Some t \/ exists s, (bytes_of n, JText s) ∈ ms /\ t = of_bytes s.
Proof.
  revert d. induction ms as [|[k v] ms IH]; intros d; [by left|]. unfold text_of. cbn [fold_left].
  intros [Hd|(s & Hs & ->)]%IH; [|right; exists s; split; [by right|done]].
  revert Hd. unfold named. cbn [fst snd]. case_bool_decide as Hk; [|by left]. subst k.
  destruct v as [| | |s| |]; try by left. intros [= <-]. right. exists s. split; [by left|done].
Qed.

Lemma conforming_decodes e p r :
  conforming e p r ->
  unmarshal_SignUpRequest (PostBody r) = Some (MkSignUpRequest e p)
  /\ unmarshal_SignInRequest (PostBody r) = Some (MkSignInRequest e p) /\ 12 <= len p.
Proof.
  intros (_ & ms & Hp & Hv%valid_credentials & He & Hpw).
  assert (Unmarshal ["email"; "password"] (PostBody r) = Some [e; p]) as E.
  { unfold Unmarshal. rewrite Hp. cbn [mbind option_bind map]. rewrite store_credentials by done. by rewrite He, Hpw. }
  unfold unmarshal_SignUpRequest, unmarshal_SignInRequest. rewrite E. split_and!; [done..|].
  apply text_of_member in Hpw as [|(s & Hs & ->)]; [done|]. rewrite of_bytes_len.
  rewrite Forall_forall in Hv. apply Hv in Hs as (s' & [= ->] & [Hn|[_ H12]]); [by vm_compute in Hn|].
  pose proof (runes_length s'). lia.
Qed.

(** The service takes more than the schema: names up to case, members the schema
    does not know, and missing members as empty. *)
Lemma handlers_take_more :
  unmarshal_SignUpRequest (json_text "{'EMAIL':'ada@example.com','role':'admin','password':'correct horse battery'}")
    = Some (MkSignUpRequest "ada@example.com" "correct horse battery")
  /\ unmarshal_SignInRequest "{}" = Some (MkSignInRequest "" "")
  /\ valid CredentialsRequest (JObject []) = false
  /\ (valid CredentialsRequest <$> parse_json (bytes_of
        (json_text "{'email':'ada@example.com','role':'admin','password':'correct horse battery'}"))) = Some false.
Proof. by vm_compute. Qed.

(** ** The service *)

(** The refusals of a sign-up with these credentials. *)
Definition sign_up_refusals (e p : string) : list ErrResponse :=
  match NewEmail e with
  | Err _ => [Internal; invalid_email]
  | Ok _ => match ValidatePasswordPolicy p with Err _ => [Internal; weak_password] | Ok _ => [Internal; email_taken] end
  end.

Definition refused_as {A} (from : error -> ErrResponse) (es : list ErrResponse) (o : outcome (res A)) : Prop :=
  match o with Returned (Err x) => from x ∈ es | _ => True end.

Section Conforming.
Context `{UuidLib} (cfg : CookieConfig) (doc : string) (e p : string).

#[local] Ltac refused := cbn; unfold refused_as; cbn; first [done|by left|by right; left].

Lemma sign_up_refused uc t l :
  wp sane (SignUp.Execute uc (SignUp.MkInput t e p) l)
    (fun a _ => refused_as FromSignUp (sign_up_refusals e p) a.1) tt.
Proof.
  unfold SignUp.Execute, sign_up_refusals, rollback_unless_committed. cbn [SignUp.TenantID SignUp.Email SignUp.Password].
  destruct (IsZero t); [cbn; repeat case_match; by left|].
  destruct (NewEmail e) as [email|x]; [|refused].
  destruct (ValidatePasswordPolicy p) as [[]|x]; [|refused].
  wp_sane; refused.
Qed.

(** The handlers, for conforming requests. *)
#[local] Ltac refuse :=
  wp_sane; apply refused_with; [assumption|by apply blank_cookie].

#[export] Instance answers_conforming_sign_up uc :
  Answers cfg doc (conforming e p) signUpOp (sign_up_refusals e p) (sign_up_Handle uc cfg) | 0.
Proof.
  intros c HP Hc. destruct (conforming_decodes _ _ _ HP) as (E & _). destruct HP as [Hl _].
  unfold sign_up_Handle, SetFast. wp_rule. cbn [wp get]. rewrite E. rewrite (proj2 (Z.ltb_ge _ _) Hl).
  apply wp_bind_go, wp_scope. eapply wp_mono; [|apply sign_up_refused].
  intros [[[out|x]|msg] l] [] Hx; cbn [fst] in *; [wp_sane; by eapply granted|refuse|].
  apply panicked_with. by apply blank_cookie.
Qed.

#[export] Instance answers_conforming_sign_in uc :
  Answers cfg doc (conforming e p) signInOp [invalid_credentials; Internal] (sign_in_Handle uc cfg) | 0.
Proof.
  intros c HP Hc. destruct (conforming_decodes _ _ _ HP) as (_ & E & _). destruct HP as [Hl _].
  unfold sign_in_Handle, SetFast. wp_rule. cbn [wp get]. rewrite E. rewrite (proj2 (Z.ltb_ge _ _) Hl).
  apply wp_bind_go, any_usecase. intros [[out|x]|msg]; [wp_sane; by eapply granted| |].
  - pose proof (FromSignIn_cases x). refuse.
  - apply panicked_with. by apply blank_cookie.
Qed.

End Conforming.

Section Server.
Context `{UuidLib} (ttl : Duration) (dummy : PasswordHash) (secure : bool) (allowed : list string) (doc : string).
#[local] Notation cfg := (MkCookieConfig secure).

(** A response with the status 400 is one of the errors of the handler. *)
Lemma bad_request op es q :
  op_success op <> 400 -> answer cfg doc op es q -> StatusCode q = 400 ->
  exists r, r ∈ es /\ Status r = 400 /\ refusal r q.
Proof.
  intros Hop [[E _]|(r & Hr & Hq)] Eq; [by destruct Hop; rewrite <- E|]. exists r. split; [exact Hr|]. split; [|exact Hq].
  destruct Hq as [<- _]. exact Eq.
Qed.

(** The only bad requests among the conforming ones. *)
Definition understood (e p : string) (r : Request) (q : Response) : Prop :=
  StatusCode q = 400 -> serves r signUpOp = true /\
    ((exists x, NewEmail e = Err x) /\ refusal invalid_email q
     \/ (exists m, NewEmail e = Ok m) /\ 256 < len p /\ refusal weak_password q).

Lemma others_understood e p r op es q :
  op_success op <> 400 -> forallb (fun x => negb (Status x =? 400)) es = true ->
  answer cfg doc op es q -> understood e p r q.
Proof.
  intros Hop Hes Ha E. destruct (bad_request _ _ _ Hop Ha E) as (x & Hx & Hs & _).
  rewrite forallb_forall in Hes. apply list_elem_of_In, Hes in Hx. lia.
Qed.

Lemma second_of x y : x ∈ [Internal; y] -> Status x = 400 -> x = y.
Proof. rewrite !elem_of_cons, elem_of_nil. intros [->|[->|[]]]; [discriminate|done]. Qed.

Lemma sign_up_understood e p r es q :
  serves r signUpOp = true -> 12 <= len p -> forallb (fun x => negb (Status x =? 400)) es = true ->
  answer cfg doc signUpOp (es ++ sign_up_refusals e p) q -> understood e p r q.
Proof.
  intros Hr Hp Hes Ha E. split; [done|].
  destruct (bad_request _ _ _ (ltac:(done) : op_success signUpOp <> 400) Ha E) as (x & Hx & Hs & Hq).
  apply elem_of_app in Hx as [Hx|Hx].
  { rewrite forallb_forall in Hes. apply list_elem_of_In, Hes in Hx. lia. }
  unfold sign_up_refusals, ValidatePasswordPolicy in Hx.
  change PasswordMinLen with 12 in Hx. change PasswordMaxLen with 256 in Hx.
  destruct (NewEmail e) as [m|y] eqn:Ee.
  - right. split; [by exists m|].
    destruct (Z.ltb_spec (len p) 12); [lia|]. destruct (Z.ltb_spec 256 (len p)); cbn [orb] in Hx.
    + split; [lia|]. apply second_of in Hx as ->; [exact Hq|exact Hs].
    + apply second_of in Hx as ->; [discriminate Hs|exact Hs].
  - left. split; [by exists y|]. apply second_of in Hx as ->; [exact Hq|exact Hs].
Qed.

Lemma route_understood e p r op es (h : Handler) c :
  wp sane (h c) (fun a _ => a.1 = Returned tt) tt ->
  wp sane (h c) (fun a _ => outcome_ok cfg doc op es a) tt ->
  (forall q, answer cfg doc op es q -> understood e p r q) ->
  wp sane (h c) (fun a _ => a.1 = Returned tt /\ understood e p r (response a.2)) tt.
Proof.
  intros Hret Ha Hu. eapply wp_mono; [|exact (wp_conj _ _ _ _ _ Hret Ha)].
  intros [o c1] [] [Ho [_ Hq]]. cbn in Ho. subst o. split; [done|]. by apply Hu.
Qed.

(** C11: a client that follows the document is understood: a request whose body
    conforms to the schema CredentialsRequest (and is at most 16 KiB long) is never
    refused as malformed, whatever the collaborators answer.  A 400 comes only from
    a sign-up, for an address of a shape the service does not take or for a
    password of more than 256 bytes, and says which. *)
Theorem conforming_requests_understood e p r :
  conforming e p r ->
  wp sane (server ttl dummy secure allowed doc (new_ctx r))
    (fun a _ => a.1 = Returned tt /\ understood e p r (response a.2)) tt.
Proof.
  intros HP. assert (blank (new_ctx r)) as Hc by done.
  destruct (conforming_decodes _ _ _ HP) as (_ & _ & H12).
  pose proof (server_answers ttl dummy secure allowed doc sane (new_ctx r) tt (fun _ _ _ _ E => E)) as Hret.
  unfold server in *. rewrite NewHandler_serves in *. cbv zeta in *. change (request (new_ctx r)) with r in *.
  repeat match goal with |- wp _ ((if serves r ?op then _ else _) _) _ _ =>
    destruct (serves r op) eqn:?E; [eapply (route_understood e p r op); [exact Hret
      |unchain; by apply (answers cfg doc (P := conforming e p))
      |intros q; first [by apply (sign_up_understood e p r [Internal; Forbidden])|by apply others_understood]]|]
  end.
  unfold WriteJSON. destruct (Marshal not_found) as [b|] eqn:Em; [|by vm_compute in Em].
  cbn. split; [done|]. by intros [=].
Qed.
End Server.
