(* ===== verification/Secrecy.v ===== *)
(** * What passwords can influence

    Two requests that differ in the password only are handled by the same
    calls, in the same order and with the same arguments, and answered alike, as
    long as the collaborators answer alike; the password itself is handed to the
    password hasher and to nothing else.  No log line, trace attribute, event,
    cache entry, row or response can therefore depend on it, other than through
    what the hasher answers. *)
From S2P Require Import SignUp SignIn SignOut GetMe.
From S2P Require Import Prelude Program GoEncoding GoTime GoJson Errors Tenant User Session Outbox Ports PortSpec PortRules Http Middleware Handlers Router Service.
#[local] Open Scope Z_scope.

(** ** Programs that agree up to passwords *)

(** A call without the password it carries. *)
Definition mask {R} (e : Port R) : Port R :=
  match e in Port R return Port R with
  | Hasher c => Hasher match c in PasswordHasher R return PasswordHasher R with
                       | Hash _ => Hash ""
                       | Verify h _ => Verify h ""
                       end
  | Uow c => Uow c
  | Users c => Users c
  | Sessions c => Sessions c
  | OutboxRepo c => OutboxRepo c
  | SessionCache c => SessionCache c
  | Tokens c => Tokens c
  | Now src => Now src
  | UuidNew => UuidNew
  | Log r => Log r
  | Trace c => Trace c
  end.

(** The two programs make the same calls up to [mask] whatever they are
    answered, and end in related values. *)
Inductive agree {A B} (rel : A -> B -> Prop) : Prog Port A -> Prog Port B -> Prop :=
| agree_ret a b : rel a b -> agree rel (Ret a) (Ret b)
| agree_call R (e e' : Port R) k k' :
    mask e = mask e' -> (forall o, agree rel (k o) (k' o)) -> agree rel (Vis e k) (Vis e' k').

Lemma agree_pbind {A B A' B'} (rel : A -> B -> Prop) (rel' : A' -> B' -> Prop) p q f g :
  agree rel p q -> (forall a b, rel a b -> agree rel' (f a) (g b)) -> agree rel' (pbind p f) (pbind q g).
Proof. intros Hp Hf. induction Hp as [a b Hab|R e e' k k' He _ IH]; cbn; [auto|]. by constructor. Qed.

Lemma agree_refl {A} (rel : A -> A -> Prop) p : (forall a, rel a a) -> agree rel p p.
Proof. intros Hr. induction p as [a|R e k IH]; [by constructor|]. by constructor. Qed.

Lemma agree_mono {A B} (rel rel' : A -> B -> Prop) p q :
  (forall a b, rel a b -> rel' a b) -> agree rel p q -> agree rel' p q.
Proof. intros Hr. induction 1; constructor; auto. Qed.

Section Rules.
Context {L : Type} (alike : L -> L -> Prop).

(** Equal outcomes and like locals. *)
Definition same_out {A} (a b : outcome A * L) : Prop := a.1 = b.1 /\ alike a.2 b.2.

Lemma agree_bind {A B} (m m' : G Port L A) (f f' : A -> G Port L B) l l' :
  agree same_out (m l) (m' l') ->
  (forall a l l', alike l l' -> agree same_out (f a l) (f' a l')) ->
  agree same_out (bind m f l) (bind m' f' l').
Proof.
  intros Hm Hf. eapply agree_pbind; [exact Hm|]. intros [o1 l1] [o2 l2] [Ho Hl]. cbn in Ho, Hl. subst o2.
  destruct o1 as [a|msg]; [by apply Hf|]. by constructor.
Qed.

Lemma agree_this {R} (e e' : Port R) l l' :
  mask e = mask e' -> alike l l' -> agree same_out (call e l) (call e' l').
Proof. intros He Hl. constructor; [done|]. intros o. by constructor. Qed.

Lemma agree_done {A} (o : outcome A) l l' : alike l l' -> agree same_out (Ret (o, l)) (Ret (o, l')).
Proof. intros Hl. by constructor. Qed.

Lemma agree_defer {A} (c c' : G Port L unit) (m m' : G Port L A) l l' :
  agree same_out (m l) (m' l') ->
  (forall l l', alike l l' -> agree same_out (c l) (c' l')) ->
  agree same_out (defer c m l) (defer c' m' l').
Proof.
  intros Hm Hc. eapply agree_pbind; [exact Hm|]. intros [o1 l1] [o2 l2] [Ho Hl]. cbn in Ho, Hl. subst o2.
  eapply agree_pbind; [by apply Hc|]. intros [p1 k1] [p2 k2] [Hp Hk]. cbn in Hp, Hk. subst p2.
  destruct p1; by constructor.
Qed.

Lemma agree_recovering (h h' : string -> G Port L unit) (m m' : G Port L unit) l l' :
  agree same_out (m l) (m' l') ->
  (forall msg l l', alike l l' -> agree same_out (h msg l) (h' msg l')) ->
  agree same_out (recovering h m l) (recovering h' m' l').
Proof.
  intros Hm Hh. eapply agree_pbind; [exact Hm|]. intros [o1 l1] [o2 l2] [Ho Hl]. cbn in Ho, Hl. subst o2.
  destruct o1 as [a|msg]; [by constructor|]. by apply Hh.
Qed.
End Rules.

(** A use case with its own locals. *)
Lemma agree_scope {L L' A} (alike : L -> L -> Prop) (l0 : L') (m m' : G Port L' A) l l' :
  alike l l' -> agree (same_out eq) (m l0) (m' l0) -> agree (same_out alike) (scope l0 m l) (scope l0 m' l').
Proof.
  intros Hl Hm. eapply agree_pbind; [exact Hm|]. intros [o1 k1] [o2 k2] [Ho _]. cbn in Ho. subst o2. by constructor.
Qed.

(** ** The request *)

(** The same request with another body. *)
Definition with_body (b : string) (r : Request) : Request :=
  MkRequest (Method r) (Path r) (Peek r) (RequestCookie r) (UserAgent r) b (RemoteAddr r).
Definition rebody (b : string) (c : RequestCtx) : RequestCtx :=
  MkRequestCtx (with_body b (request c)) (response c) (uservalues c).


(** Contexts that differ in the body only. *)
Definition alike (b0 b : string) (c c' : RequestCtx) : Prop := PostBody (request c) = b0 /\ c' = rebody b c.

(** One step along both programs; like locals are equations. *)
Ltac agree_next := let E := fresh "E" in intros ? ? E; first [destruct E as [? ->]|subst].
Ltac agree_step :=
  match goal with
  | |- context [ReadSessionCookieFast (rebody ?b ?c)] => change (ReadSessionCookieFast (rebody b c)) with (ReadSessionCookieFast c)
  | |- context [mustTenant (rebody ?b ?c)] => change (mustTenant (rebody b c)) with (mustTenant c)
  | |- context [userIDOrNil (rebody ?b ?c)] => change (userIDOrNil (rebody b c)) with (userIDOrNil c)
  | |- context [sessionIDOrNil (rebody ?b ?c)] => change (sessionIDOrNil (rebody b c)) with (sessionIDOrNil c)
  | |- context [tokenHashHex (rebody ?b ?c)] => change (tokenHashHex (rebody b c)) with (tokenHashHex c)
  | |- agree (same_out eq) ?p ?p => apply agree_refl; by split
  | |- agree _ (Ret _) (Ret _) => apply agree_done
  | |- agree ?R (bind get ?f ?l) (bind get ?f' ?l') => change (agree R (f l l) (f' l' l')); cbv beta zeta;
      cbn [request response uservalues rebody with_body Method Path Peek RequestCookie UserAgent RemoteAddr]
  | |- agree _ (bind _ _ _) (bind _ _ _) => apply agree_bind; [|intros ?; agree_next]
  | |- agree _ (call _ _) (call _ _) => apply agree_this; [reflexivity|]
  | |- agree _ (defer _ _ _) (defer _ _ _) => apply agree_defer; [|agree_next]
  | |- agree _ (recovering _ _ _) (recovering _ _ _) => apply agree_recovering; [|intros ?; agree_next]
  | |- agree _ (scope _ _ _) (scope _ _ _) => apply agree_scope
  | |- agree _ (ret _ _) (ret _ _) => apply agree_done
  | |- agree _ (fail _ _) (fail _ _) => apply agree_done
  | |- agree _ (put _ _) (put _ _) => apply agree_done
  | |- agree _ (modify _ _) (modify _ _) => apply agree_done
  | |- agree _ (WriteFast _ _) (WriteFast _ _) => apply agree_done
  | |- agree _ ((match ?x with _ => _ end) _) ((match ?x with _ => _ end) _) => destruct x
  | |- agree _ (match ?x with _ => _ end) (match ?x with _ => _ end) => destruct x
  | |- alike _ _ _ _ => split; [assumption|reflexivity]
  | |- ?x = ?y => reflexivity
  end; cbv beta iota.
Ltac agree_go := cbv beta iota; repeat agree_step.

(** ** The use cases *)

Section UseCases.
Context `{UuidLib}.

Lemma sign_in_agrees uc t e p p' l :
  agree (same_out eq) (SignIn.Execute uc (SignIn.MkInput t e p) l) (SignIn.Execute uc (SignIn.MkInput t e p') l).
Proof.
  unfold SignIn.Execute, burn, rollback_unless_committed. cbn [SignIn.TenantID SignIn.Email SignIn.Password].
  agree_go.
Qed.

(** Both passwords are acceptable, or neither is. *)
Definition equally_acceptable (p p' : string) : Prop :=
  ValidatePasswordPolicy p = Ok tt <-> ValidatePasswordPolicy p' = Ok tt.

Lemma sign_up_agrees uc t e p p' l :
  equally_acceptable p p' ->
  agree (same_out eq) (SignUp.Execute uc (SignUp.MkInput t e p) l) (SignUp.Execute uc (SignUp.MkInput t e p') l).
Proof.
  intros Hp. unfold SignUp.Execute, rollback_unless_committed. cbn [SignUp.TenantID SignUp.Email SignUp.Password].
  destruct (IsZero t); [by agree_go|]. destruct (NewEmail e) as [email|]; [|by agree_go].
  unfold equally_acceptable in Hp.
  destruct (ValidatePasswordPolicy p) as [[]|err], (ValidatePasswordPolicy p') as [[]|err'].
  - agree_go.
  - discriminate (proj1 Hp eq_refl).
  - discriminate (proj2 Hp eq_refl).
  - agree_go.
Qed.
End UseCases.

(** ** The handlers *)

Section Handlers.
Context `{UuidLib}.

(** [P] tells which bodies the handler cannot tell apart. *)
Class Blind (P : string -> string -> Prop) (h : Handler) : Prop :=
  blind b0 b c c' : P b0 b -> alike b0 b c c' -> agree (same_out (alike b0 b)) (h c) (h c').

Section Middleware.
Context (P : string -> string -> Prop) (next : Handler) `{!Blind P next}.

(** The next handler, in a context that differs in the body only. *)
#[local] Ltac to_next :=
  match goal with
  | HP : P ?b0 ?b |- agree _ (next _) (next _) => apply (blind b0 b); [exact HP|by split]
  end.
#[local] Ltac blind_go := intros b0 b c c' HP [Hb ->]; agree_go; repeat first [to_next|agree_step].

#[global] Instance blind_Recover : Blind P (Recover next).
Proof. unfold Recover. blind_go. Qed.
#[global] Instance blind_AccessLog : Blind P (AccessLog next).
Proof. unfold AccessLog. blind_go. Qed.
#[global] Instance blind_OTelTrace : Blind P (OTelTrace next).
Proof. unfold OTelTrace. blind_go. Qed.
#[global] Instance blind_RequestID : Blind P (RequestID next).
Proof. unfold RequestID. blind_go. Qed.
#[global] Instance blind_Tenancy : Blind P (Tenancy next).
Proof. unfold Tenancy. blind_go. Qed.
#[global] Instance blind_OriginCheck allowed : Blind P (OriginCheck allowed next).
Proof. unfold OriginCheck. blind_go. Qed.
#[global] Instance blind_Session cache : Blind P (Session cache next).
Proof. unfold Session, session_from_store, authenticated. blind_go. Qed.
End Middleware.

(** The endpoints that do not read the body. *)
Section Bodiless.
Context (P : string -> string -> Prop).

#[local] Ltac blind_go := intros b0 b c c' HP [Hb ->]; agree_go.

#[global] Instance blind_Healthz : Blind P Healthz.
Proof. unfold Healthz. blind_go. Qed.
#[global] Instance blind_OpenAPI doc : Blind P (OpenAPI doc).
Proof. unfold OpenAPI. blind_go. Qed.
#[global] Instance blind_WriteJSON status v : Blind P (WriteJSON status v).
Proof. unfold WriteJSON. blind_go. Qed.
#[global] Instance blind_sign_out uc cookie : Blind P (sign_out_Handle uc cookie).
Proof. unfold sign_out_Handle, ClearFast, SignOut.Execute, rollback_unless_committed. blind_go. Qed.
#[global] Instance blind_get_me uc : Blind P (get_me_Handle uc).
Proof. unfold get_me_Handle, GetMe.Execute. blind_go. Qed.
End Bodiless.

(** Bodies of the documented size with the same address and another password. *)
Definition same_address (Q : string -> string -> Prop) (b0 b : string) : Prop :=
  len b0 <= maxBodyBytes /\ len b <= maxBodyBytes /\ exists e p p',
    Unmarshal ["email"; "password"] b0 = Some [e; p] /\ Unmarshal ["email"; "password"] b = Some [e; p'] /\ Q p p'.

#[local] Ltac decode HP :=
  destruct HP as (Hl0 & Hl & e & p & p' & E0 & E & HQ);
  cbn [PostBody with_body request rebody]; rewrite (proj2 (Z.ltb_ge _ _) Hl).

#[global] Instance blind_sign_in uc cookie : Blind (same_address (fun _ _ => True)) (sign_in_Handle uc cookie).
Proof.
  intros b0 b c c' HP [Hb ->]. unfold sign_in_Handle, SetFast. cbv beta.
  agree_step. decode HP. rewrite Hb, (proj2 (Z.ltb_ge _ _) Hl0).
  unfold unmarshal_SignInRequest. rewrite E0, E. cbn [si_Email si_Password]. agree_go; apply sign_in_agrees.
Qed.

#[global] Instance blind_sign_up uc cookie : Blind (same_address equally_acceptable) (sign_up_Handle uc cookie).
Proof.
  intros b0 b c c' HP [Hb ->]. unfold sign_up_Handle, SetFast. cbv beta.
  agree_step. decode HP. rewrite Hb, (proj2 (Z.ltb_ge _ _) Hl0).
  unfold unmarshal_SignUpRequest. rewrite E0, E. cbn [su_Email su_Password]. agree_go. by apply sign_up_agrees.
Qed.

Context (ttl : Duration) (dummy : PasswordHash) (secure : bool) (allowed : list string) (doc : string).

(** C13: two requests that differ in the password only, with bodies of at most 16
    KiB that both decode, are handled by the same calls in the same order, up to
    the password that is handed to the password hasher, and get the same response,
    whatever the collaborators answer: no log line, trace attribute, event, cache
    entry, row or response depends on the password.  Of a sign-up the two passwords
    must both meet the length policy or both miss it: what the policy says of a
    password is the one thing that its response shows. *)
Theorem passwords_stay_secret r b :
  same_address (fun p p' => Path r = "/api/v1/crm/public/identity/sign-up" -> equally_acceptable p p')
    (PostBody r) b ->
  agree (fun a a' => a.1 = a'.1 /\ response a.2 = response a'.2 /\ uservalues a.2 = uservalues a'.2)
    (server ttl dummy secure allowed doc (new_ctx r))
    (server ttl dummy secure allowed doc (new_ctx (with_body b r))).
Proof.
  intros HP. assert (alike (PostBody r) b (new_ctx r) (new_ctx (with_body b r))) as Hc by done.
  assert (forall h Q, Blind Q h -> Q (PostBody r) b ->
    agree (fun a a' => a.1 = a'.1 /\ response a.2 = response a'.2 /\ uservalues a.2 = uservalues a'.2)
      (h (new_ctx r)) (h (new_ctx (with_body b r)))) as Hend.
  { intros h Q Hh HQ. eapply agree_mono; [|by apply (blind (P := Q) (PostBody r) b)]. by intros [o l] [o' l'] [Ho [_ ->]]. }
  unfold server, NewHandler. agree_step. cbn [new_ctx with_body request Method Path]. unchain.
  repeat match goal with |- agree _ ((if ?b then _ else _) _) _ => destruct b eqn:?E end.
  all: match goal with
       | |- context [sign_up_Handle] => apply (Hend _ (same_address equally_acceptable)); [apply _|]
       | |- context [sign_in_Handle] => apply (Hend _ (same_address (fun _ _ => True))); [apply _|]
       | |- _ => by apply (Hend _ (fun _ _ => True)); [apply _|]
       end.
  all: destruct HP as (Hl0 & Hl & e & p & p' & E0' & E' & HQ); split; [done|]; split; [done|].
  all: exists e, p, p'; split; [done|]; split; [done|]; try done.
  match goal with E : _ && bool_decide (Path r = "/api/v1/crm/public/identity/sign-up") = true |- _ =>
    apply andb_true_iff in E as [_ Hpath] end.
  apply HQ. by apply bool_decide_eq_true in Hpath.
Qed.
End Handlers.
