(* ===== verification/Served.v ===== *)
(** * Valid requests are served

    The contracts of PortSpec.v let every call fail, and the theorems elsewhere
    say what the service guarantees nevertheless.  Here is the converse: when the
    collaborators work ([works]), a valid request is answered with the success of
    its operation.  The cache need not work: it may answer with errors. *)
From S2P Require Import SignUp SignIn SignOut GetMe.
From S2P Require Import Prelude Program GoEncoding GoTime GoJson Errors Tenant User Session Outbox Ports PortSpec PortRules Invariant Http Middleware Handlers Router Service.
#[local] Open Scope Z_scope.

(** ** Collaborators that work *)

(** No failure of the infrastructure. *)
Definition sound {A} (o : outcome (res A)) : bool :=
  match o with Returned (Err (EDriver _)) | Returned (Err (EOther _)) | Panicked _ => false | _ => true end.
Definition returns {A} (o : outcome A) : bool := match o with Returned _ => true | Panicked _ => false end.

(** The answer of a call that works: identifiers are new, and the clock shows a
    time before [deadline] that can be printed. *)
Definition works (deadline : Time) {R} (e : Port R) (s : Sys) : outcome R -> bool :=
  match e in Port R return outcome R -> bool with
  | Uow c => match c in UnitOfWork R return outcome R -> bool with
             | Begin => sound | Commit _ => sound | Rollback _ => sound
             end
  | Users c => match c in UserRepository R return outcome R -> bool with
               | UserSaveTx _ _ => sound | FindByEmail _ _ => sound | FindByID _ _ => sound
               end
  | Sessions c => match c in SessionRepository R return outcome R -> bool with
                  | SessionSaveTx _ _ => sound | FindByTokenHash _ => sound | RevokeTx _ _ _ => sound
                  end
  | OutboxRepo c => match c in OutboxRepository R return outcome R -> bool with WriteTx _ _ => sound end
  | SessionCache c => returns
  | Hasher c => match c in PasswordHasher R return outcome R -> bool with Hash _ => sound | Verify _ _ => sound end
  | Tokens c => match c in TokenGenerator R return outcome R -> bool with GenerateToken => sound end
  | Now _ => fun o => match o with Returned t => bool_decide (printable t) && (t <=? deadline) | _ => false end
  | UuidNew => fun o =>
      match o with
      | Returned u => match users (committed s) !! u with None => true | Some _ => false end
      | Panicked _ => false
      end
  | Log _ => returns
  | Trace _ => returns
  end.

(** Payloads of texts and printable times. *)
Fixpoint plain_value (v : mvalue) : bool :=
  match v with
  | MString _ => true
  | MTime t => bool_decide (printable t)
  | MStruct fields => forallb (fun f => plain_value f.2) fields
  end.

Lemma marshal_plain : forall v, plain_value v = true -> is_Some (marshal v).
Proof.
  fix IH 1. intros [s|t|fields]; cbn; [by eexists| |].
  - intros Ht%bool_decide_eq_true. unfold marshal_time. rewrite decide_True by done. by eexists.
  - intros Hf. apply fmap_is_Some. induction fields as [|[n v] fs IHfs]; [by eexists|]. cbn in Hf |- *.
    apply andb_true_iff in Hf as [Hv Hfs]. destruct (IH v Hv) as [b ->], (IHfs Hfs) as [bs ->]. by eexists.
Qed.

Lemma Marshal_plain v : plain_value v = true -> exists b, Marshal v = Some b.
Proof. intros [b Hb]%marshal_plain. exists (of_bytes b). unfold Marshal. by rewrite Hb. Qed.

Section Served.
Context `{UuidLib} (verifies : PasswordHash -> string -> bool) (deadline : Time).

Definition healthy : forall R, Port R -> Sys -> outcome R -> Sys -> Prop := fun R e s o s' =>
  pstep verifies R e s o s' /\ works deadline e s o = true.

(** A rule of the contract, when the call works. *)
Lemma wp_works {R L} (e : Port R) (l : L) Q s :
  wp (pstep verifies) (call e l) (fun ol s' => works deadline e s ol.1 = true -> Q ol s') s ->
  wp healthy (call e l) Q s.
Proof. intros He o s' [Hs Hw]. by apply (He o s' Hs). Qed.

(** Runs the program to its end or to its next decision. *)
#[local] Ltac served :=
  repeat (cbv beta iota; cbn [fst snd negb andb orb];
    match goal with
    | |- wp healthy (call _ _) _ _ => apply wp_works; port_rule
    | |- wp healthy _ _ _ => wp_rule
    | |- forall _, fails _ -> _ => intros ? [(? & -> & ?)|[? ->]]
    | |- forall _, Panicked _ = _ -> _ => intros ? ?
    | |- works deadline _ _ _ = true -> _ => cbn [works]; intro
    | Hi : infra ?e, Hs : sound (Returned (Err ?e)) = true |- _ => by destruct e
    | Hr : _ (Panicked _) = true |- _ => discriminate Hr
    | Hr : false = true |- _ => discriminate Hr
    | u : unit |- _ => destruct u
    | Hr : bool_decide (printable _) && _ = true |- _ => apply andb_true_iff in Hr as [? ?]
    | |- wp healthy (match ok_or _ (Marshal ?v) with Ok _ => _ | Err _ => _ end _) _ _ =>
        let b := fresh "body" in let E := fresh "E" in
        destruct (Marshal_plain v) as [b E]; [cbn; rewrite ?andb_true_r; assumption|rewrite E; clear E; cbn [ok_or]]
    | |- wp healthy (rollback_unless_committed _ true _) _ _ => unfold rollback_unless_committed
    | |- _ /\ _ => split
    | |- forall _, _ => intro
    end); cbv beta iota; cbn [fst snd app].

(** *** The use cases *)

(** No user of the tenant has the address. *)
Definition address_free (t : ID) (email : User.Email) (s : Sys) : Prop :=
  forall i u, users (committed s) !! i = Some u -> ~ (User.tenantID u = t /\ User.email u = email).

Lemma sign_up_served uc inp email s l :
  IsZero (SignUp.TenantID inp) = false -> NewEmail (SignUp.Email inp) = Ok email ->
  ValidatePasswordPolicy (SignUp.Password inp) = Ok tt -> address_free (SignUp.TenantID inp) email s ->
  wp healthy (SignUp.Execute uc inp l) (on_outcome (fun o _ => exists out, o = Returned (Ok out))) s.
Proof.
  intros Hz He Hp Hfree. unfold SignUp.Execute. rewrite Hz, He, Hp.
  destruct (SignUp.cache uc); served; try assumption; try by eexists.
  all: exfalso; match goal with Hc : user_conflict _ _ |- _ => destruct Hc as [Hid|(i & v & Hv & Ht & Hm)] end;
    [|by apply (Hfree i v)].
  all: destruct Hid as [v Hv]; cbn in *; by rewrite Hv in *.
Qed.

(** The user of the address, whose hash accepts the password. *)
Lemma sign_in_served uc inp email i u s l :
  IsZero (SignIn.TenantID inp) = false -> NewEmail (SignIn.Email inp) = Ok email ->
  wf s -> users (committed s) !! i = Some u -> User.tenantID u = SignIn.TenantID inp -> User.email u = email ->
  verifies (User.passwordHash u) (SignIn.Password inp) = true ->
  wp healthy (SignIn.Execute uc inp l) (on_outcome (fun o _ => exists out, o = Returned (Ok out))) s.
Proof.
  intros Hz He [Hst _] Hu Ht Hm Hv. unfold SignIn.Execute. rewrite Hz, He.
  wp_rule. apply wp_works, wp_FindByEmail.
  - served.
  - intros j v Hj Hvt Hvm Hw. cbn [fst].
    assert (j = i) as -> by (apply (wf_user_unique _ Hst j i v u); congruence).
    assert (v = u) as -> by congruence.
    wp_rule. apply wp_works, wp_Verify; [served|]. rewrite Hv. intros _. cbv beta iota. cbn [negb].
    destruct (SignIn.cache uc); served; try assumption; by eexists.
  - intros Hn. by destruct (Hn i u Hu).
Qed.

Lemma sign_out_served uc inp x s l :
  IsZero (SignOut.TenantID inp) = false -> SignOut.SessionID inp <> Nil ->
  sessions (committed s) !! SignOut.SessionID inp = Some x -> Session.tenantID x = SignOut.TenantID inp ->
  wp healthy (SignOut.Execute uc inp l) (on_outcome (fun o _ => exists out, o = Returned (Ok out))) s.
Proof.
  intros Hz Hn Hx Ht. unfold SignOut.Execute. rewrite Hz, bool_decide_eq_false_2 by done. cbn [orb].
  destruct (SignOut.cache uc && _); served; try assumption; try by eexists.
  all: match goal with Hno : forall x, sessions _ !! _ = Some x -> _ |- _ => by destruct (Hno x Hx) end.
Qed.

Lemma get_me_served {L} uc inp u s (l : L) :
  IsZero (GetMe.TenantID inp) = false ->
  users (committed s) !! GetMe.UserID inp = Some u -> User.tenantID u = GetMe.TenantID inp ->
  wp healthy (GetMe.Execute uc inp l) (fun a _ => a.2 = l /\ exists out, a.1 = Returned (Ok out)) s.
Proof.
  intros Hz Hu Ht. unfold GetMe.Execute. rewrite Hz. served; try by eexists.
  all: match goal with Hno : forall u, users _ !! _ = Some u -> _ |- _ => by destruct (Hno u Hu) end.
Qed.

(** *** The middleware *)

Section Serves.
(** The status of the success. *)
Context (code : Z).

(** [pre] is what the handler needs of its context and of the system. *)
Class Serves (pre : RequestCtx -> Sys -> Prop) (h : Handler) : Prop :=
  serves c s : pre c s ->
    wp healthy (h c) (fun a _ => a.1 = Returned tt /\ StatusCode (response a.2) = code) s.

(** The passing of time and log lines do not matter. *)
Class Patient (pre : RequestCtx -> Sys -> Prop) : Prop :=
  patient c s s' : quiet s s' -> pre c s -> pre c s'.

Lemma serves_from pre h `{!Serves pre h} c s Q :
  pre c s -> (forall c' s', StatusCode (response c') = code -> Q (Returned tt, c') s') -> wp healthy (h c) Q s.
Proof. intros Hp HQ. eapply wp_mono; [|by apply (serves c s)]. intros [o c'] s' [Ho Hc]. cbn in Ho. subst o. by apply HQ. Qed.

Section Middleware.
Context (pre : RequestCtx -> Sys -> Prop) `{!Patient pre} (next : Handler) `{!Serves pre next}.

#[local] Ltac to_next :=
  match goal with |- wp healthy (next _) _ _ =>
    apply (serves_from pre next); [eauto using (patient (pre := pre)) with s2r|intros ? ? ?]
  end.

#[global] Instance serves_Recover : Serves pre (Recover next).
Proof. intros c s Hp. unfold Recover. wp_rule. to_next. done. Qed.

#[global] Instance serves_AccessLog : Serves pre (AccessLog next).
Proof. intros c s Hp. unfold AccessLog. served. to_next. served; done. Qed.

#[global] Instance serves_OTelTrace : Serves pre (OTelTrace next).
Proof. intros c s Hp. unfold OTelTrace. served; try done. to_next. served; done. Qed.

Lemma serves_OriginCheck allowed :
  (forall c s, pre c s -> same_origin allowed (request c)) -> Serves pre (OriginCheck allowed next).
Proof.
  intros Hsame c s Hp. destruct (OriginCheck_guard allowed next c) as [[_ ->]|[Hno _]]; [by apply serves|].
  by destruct Hno; eapply Hsame.
Qed.
End Middleware.

(** Conditions on the request and on the system. *)
Definition on (P : Request -> Sys -> Prop) (c : RequestCtx) (s : Sys) : Prop := P (request c) s.
Definition tenanted (P : Request -> Sys -> Prop) (c : RequestCtx) (s : Sys) : Prop :=
  P (request c) s /\ mustTenant c = DefaultID.

Section Context_.
Context (P : Request -> Sys -> Prop) `{!Patient (on P)} (next : Handler).

#[global] Instance serves_RequestID : Serves (on P) next -> Serves (on P) (RequestID next).
Proof.
  intros Hn c s Hp. unfold RequestID. wp_rule. cbn [wp get]. destruct (bool_decide _); served.
  all: try (apply (serves_from (on P) next); [exact Hp|done]).
Qed.

#[global] Instance serves_Tenancy : Serves (tenanted P) next -> Serves (on P) (Tenancy next).
Proof.
  intros Hn c s Hp. unfold Tenancy. served. apply (serves_from (tenanted P) next); [|done].
  split; [exact Hp|]. unfold mustTenant, UserValue. cbn. by rewrite lookup_insert_eq.
Qed.
End Context_.

(** *** The session *)

(** The session [x] of the token that the request presents. *)
Record live (r : Request) (x : Session.Session) (s : Sys) : Prop := {
  lv_wf : wf s;
  lv_cookie : cookie_token (new_ctx r) <> "";
  lv_row : sessions (committed s) !! Session.id x = Some x;
  lv_token : Session.tokenHash x = HashOf (cookie_token (new_ctx r));
  lv_active : Session.revokedAt x = None;
  lv_expiry : deadline < Session.expiresAt x;
}.

Section Session.
Context (F : Request -> Session.Session -> Store -> Prop).

Definition has_session (r : Request) (s : Sys) : Prop := exists x, live r x s /\ F r x (committed s).
Definition as_session (c : RequestCtx) (s : Sys) : Prop := exists x,
  userIDOrNil c = Session.userID x /\ sessionIDOrNil c = Session.id x /\ mustTenant c = Session.tenantID x
  /\ F (request c) x (committed s).

Lemma as_session_authenticated x key c s :
  F (request c) x (committed s) ->
  as_session (authenticated_ctx (Session.userID x) (Session.id x) (Session.tenantID x) key c) s.
Proof.
  intros HF. exists x. split_and!; [..|exact HF].
  all: unfold userIDOrNil, sessionIDOrNil, mustTenant, user_value_uuid, authenticated_ctx, UserValue,
    UVUserID, UVSessionID, UVTenantID, UVTokenHashHex; cbn [uservalues SetUserValue].
  all: by rewrite ?lookup_insert_ne, lookup_insert_eq by done.
Qed.

(** The row that a lookup by the digest finds. *)
Lemma live_unique r x s i y :
  live r x s -> sessions (committed s) !! i = Some y -> Session.tokenHash y = HashOf (cookie_token (new_ctx r)) ->
  y = x.
Proof.
  intros Hx Hy Hh. pose proof (lv_wf _ _ _ Hx) as [Hst _].
  pose proof (wf_session_unique _ Hst _ _ _ _ Hy (lv_row _ _ _ Hx) ltac:(by rewrite Hh, (lv_token _ _ _ Hx))) as ->.
  pose proof (lv_row _ _ _ Hx) as Hrow. congruence.
Qed.

(** A cache entry of the token is one of the session. *)
Lemma live_cached r x s body d :
  live r x s -> cache s !! cookie_key (new_ctx r) = Some (body, d) ->
  UserID body = Session.userID x /\ Session.SessionID body = Session.id x /\ TenantID body = Session.tenantID x
  /\ deadline < ExpiresAt body.
Proof.
  intros Hx Hk. pose proof (lv_wf _ _ _ Hx) as [_ Hca].
  destruct (Hca _ _ _ Hk) as (i & y & Hy & Hkey & Hsid & Huid & Htid & Hexp).
  apply EncodeToString_inj in Hkey. rewrite (live_unique r x s i y Hx Hy) in * by done.
  split_and!; [done..|]. pose proof (lv_expiry _ _ _ Hx). unfold stored_time in Hexp.
  pose proof (Z.mod_pos_bound (ExpiresAt body) 1000). pose proof (Z.div_mod (ExpiresAt body) 1000). lia.
Qed.

Lemma live_active r x s t : live r x s -> t <= deadline -> IsActive x t = true.
Proof. intros Hx Ht. apply IsActive_spec. split; [apply Hx|]. pose proof (lv_expiry _ _ _ Hx). lia. Qed.

(** The sessions table serves. *)
Lemma store_served b next `{!Serves as_session next} c s s0 x Q :
  live (request c) x s -> F (request c) x (committed s) -> committed s0 = committed s ->
  (forall c' s', StatusCode (response c') = code -> Q (Returned tt, c') s') ->
  wp healthy (session_from_store b (HashOf (cookie_token c)) (cookie_key c) next c) Q s0.
Proof.
  intros Hx HF Hc HQ. unfold session_from_store, authenticated.
  assert (forall key s', committed s' = committed s -> wp healthy (next (authenticated_ctx (Session.userID x)
    (Session.id x) (Session.tenantID x) key c)) Q s') as Hnext.
  { intros key s' Hc'. apply (serves_from as_session next); [|done].
    apply as_session_authenticated. by rewrite Hc'. }
  wp_rule. apply wp_works, wp_FindByTokenHash; rewrite ?Hc.
  - served.
  - intros i y Hy Hh _. cbv beta iota. rewrite (live_unique _ _ _ _ _ Hx Hy Hh). wp_rule. apply wp_works, wp_Now.
    intros t Ht Hw. cbn [fst works] in Hw. apply andb_true_iff in Hw as [_ Hw].
    rewrite (live_active _ x s t Hx) by lia. cbn [negb]. destruct b; [|served; by apply Hnext].
    served. destruct (0 <? _); served; by apply Hnext.
  - intros Hno. by destruct (Hno _ _ (lv_row _ _ _ Hx) (lv_token _ _ _ Hx)).
Qed.

#[global] Instance serves_Session b next : Serves as_session next -> Serves (on has_session) (Session b next).
Proof.
  intros Hn c s (x & Hx & HF). unfold Session. cbv beta. wp_rule. cbn [wp get].
  pose proof (ReadSessionCookieFast_ok c) as Hok. pose proof (lv_cookie _ _ _ Hx) as Hne.
  assert (forall s0, committed s0 = committed s -> wp healthy
    (session_from_store b (HashOf (cookie_token c)) (cookie_key c) next c)
    (fun a _ => a.1 = Returned tt /\ StatusCode (response a.2) = code) s0) as Hstore
    by (intros s0 Hs0; by apply (store_served b next c s s0 x)).
  assert (forall body d, cache s !! cookie_key c = Some (body, d) -> _) as Hcached
    by exact (fun body d => live_cached (request c) x s body d Hx).
  change (cookie_token (new_ctx (request c))) with (cookie_token c) in Hne.
  unfold cookie_key, cookie_token in *.
  destruct (ReadSessionCookieFast c) as [raw ok] eqn:Er. cbn [fst snd] in *. subst ok.
  rewrite bool_decide_eq_false_2 by done. cbn [negb orb].
  destruct b; [|wp_rule; by apply Hstore]. do 2 wp_rule. apply wp_works, wp_CacheGet.
  - served. destruct (errors_Is _ _); served; by apply Hstore.
  - intros body d Hb _. destruct (Hcached _ _ Hb) as (E1 & E2 & E3 & Hlt). cbv beta iota. wp_rule.
    apply wp_works, wp_Now. intros t Ht Hw. cbn [fst works] in Hw. apply andb_true_iff in Hw as [_ Hw].
    unfold After. rewrite (proj2 (Z.ltb_lt t (ExpiresAt body))) by lia. cbv beta iota.
    rewrite E1, E2, E3. unfold authenticated. served.
    apply (serves_from as_session next); [by apply as_session_authenticated|]. intros c' s' Hc'. by served.
  - served. by apply Hstore.
  - served. by apply Hstore.
Qed.
End Session.
End Serves.

(** *** The endpoints *)

Context (ttl : Duration) (dummy : PasswordHash) (secure : bool) (allowed : list string) (doc : string).
Let cookie : CookieConfig := MkCookieConfig secure.

(** A sign-up that can succeed: the documented body, a good password, a free
    address. *)
Definition valid_sign_up (r : Request) (s : Sys) : Prop :=
  same_origin allowed r /\ len (PostBody r) <= maxBodyBytes /\ exists req email,
    unmarshal_SignUpRequest (PostBody r) = Some req /\ NewEmail (su_Email req) = Ok email
    /\ ValidatePasswordPolicy (su_Password req) = Ok tt /\ address_free DefaultID email s.

(** A sign-in of a user with the right password. *)
Definition valid_sign_in (r : Request) (s : Sys) : Prop :=
  same_origin allowed r /\ wf s /\ len (PostBody r) <= maxBodyBytes /\ exists req email i u,
    unmarshal_SignInRequest (PostBody r) = Some req /\ NewEmail (si_Email req) = Ok email
    /\ users (committed s) !! i = Some u /\ User.tenantID u = DefaultID /\ User.email u = email
    /\ verifies (User.passwordHash u) (si_Password req) = true.

(** What the endpoints behind the session need of its row. *)
Definition can_end (r : Request) (x : Session.Session) (st : Store) : Prop :=
  same_origin allowed r /\ IsZero (Session.tenantID x) = false /\ Session.id x <> Nil
  /\ sessions st !! Session.id x = Some x.
Definition has_profile (r : Request) (x : Session.Session) (st : Store) : Prop :=
  IsZero (Session.tenantID x) = false
  /\ exists u, users st !! Session.userID x = Some u /\ User.tenantID u = Session.tenantID x.

#[local] Ltac decoded Hlen Ereq Ht :=
  wp_rule; cbn [wp get]; rewrite (proj2 (Z.ltb_ge _ _) Hlen), Ereq, Ht; wp_rule; wp_rule.

(** What follows a use case that succeeded. *)
#[local] Ltac succeeded :=
  let Ho := fresh in intros [? ?] ? Ho; unfold on_outcome in Ho; cbn [fst] in Ho; destruct Ho as [? ->];
  cbn [fst]; served; done.

#[local] Instance serves_sign_up : Serves 201 (tenanted valid_sign_up) (sign_up_Handle (SignUp.New true ttl) cookie).
Proof.
  intros c s ((_ & Hlen & req & email & Ereq & He & Hp & Hfree) & Ht). unfold sign_up_Handle, SetFast. cbv beta.
  decoded Hlen Ereq Ht. eapply wp_mono; [|apply (sign_up_served _ _ email); [apply DefaultID_initialised|done..]].
  succeeded.
Qed.

#[local] Instance serves_sign_in :
  Serves 200 (tenanted valid_sign_in) (sign_in_Handle (SignIn.MkUseCase true ttl dummy) cookie).
Proof.
  intros c s ((_ & Hwf & Hlen & req & email & i & u & Ereq & He & Hu & Htu & Hm & Hv) & Ht).
  unfold sign_in_Handle, SetFast. cbv beta. decoded Hlen Ereq Ht.
  eapply wp_mono; [|by apply (sign_in_served _ _ email i u); [apply DefaultID_initialised|..]]. succeeded.
Qed.

#[local] Instance serves_sign_out : Serves 204 (as_session can_end) (sign_out_Handle (SignOut.New true) cookie).
Proof.
  intros c s (x & Eu & Es & Et & (_ & Hz & Hnil & Hx)). unfold sign_out_Handle, ClearFast. cbv beta.
  wp_rule. cbn [wp get]. wp_rule. wp_rule. rewrite Et, Es.
  eapply wp_mono; [|by apply (sign_out_served _ _ x)]. succeeded.
Qed.

#[local] Instance serves_get_me : Serves 200 (as_session has_profile) (get_me_Handle GetMe.New).
Proof.
  intros c s (x & Eu & _ & Et & (Hz & u & Hu & Htu)). unfold get_me_Handle. cbv beta.
  wp_rule. cbn [wp get]. wp_rule. rewrite Et, Eu.
  eapply wp_mono; [|by apply (get_me_served _ _ u)].
  intros [o l] s' [El [out Eo]]. cbn in El, Eo. subst. served; done.
Qed.

(** ** The server *)

#[local] Instance patient_sign_up : Patient (on valid_sign_up).
Proof. intros c s s' [Hc _ _ _] Hp. unfold on, valid_sign_up, address_free in *. by rewrite Hc. Qed.
#[local] Instance patient_sign_in : Patient (on valid_sign_in).
Proof.
  intros c s s' Hq (Ho & Hwf & Hr). pose proof Hq as [Hc _ _ _]. split; [done|]. split; [by eapply wf_quiet|].
  by rewrite Hc.
Qed.
#[local] Instance patient_session F : Patient (on (has_session F)).
Proof.
  intros c s s' Hq (x & [] & HF). pose proof Hq as [Hc _ _ _]. exists x. rewrite Hc. split; [|done].
  split; rewrite ?Hc; try done. by eapply wf_quiet.
Qed.

#[local] Instance serves_tenanted code P h : Serves code (on P) h -> Serves code (tenanted P) h.
Proof. intros Hh c s [Hp _]. by apply (serves code (pre := on P)). Qed.

#[local] Instance serves_origin_sign_up code h :
  Serves code (tenanted valid_sign_up) h -> Serves code (tenanted valid_sign_up) (OriginCheck allowed h).
Proof. intros Hh. apply serves_OriginCheck; [done|]. by intros c s [[Ho _] _]. Qed.
#[local] Instance serves_origin_sign_in code h :
  Serves code (tenanted valid_sign_in) h -> Serves code (tenanted valid_sign_in) (OriginCheck allowed h).
Proof. intros Hh. apply serves_OriginCheck; [done|]. by intros c s [[Ho _] _]. Qed.
#[local] Instance serves_origin_sign_out code h :
  Serves code (as_session can_end) h -> Serves code (as_session can_end) (OriginCheck allowed h).
Proof. intros Hh. apply serves_OriginCheck; [done|]. by intros c s (x & _ & _ & _ & Ho & _). Qed.

Let server : Handler := server ttl dummy secure allowed doc.

(** The request is answered with the status [code]. *)
Definition answered_with (code : Z) (r : Request) (s : Sys) : Prop :=
  wp healthy (server (new_ctx r)) (fun a _ => a.1 = Returned tt /\ StatusCode (response a.2) = code) s.

#[local] Ltac dispatch Hm Hp :=
  unfold answered_with, server, Service.server, NewHandler; cbv beta; wp_rule; cbn [wp get new_ctx request];
  rewrite Hm, Hp;
  repeat match goal with |- context [bool_decide (?a = ?b)] =>
    first [rewrite (bool_decide_eq_true_2 (a = b)) by reflexivity
          |rewrite (bool_decide_eq_false_2 (a = b)) by discriminate]; cbn [andb]
  end; unchain.

(** C12: when the collaborators work, valid requests are served, whatever else is
    stored and even with the cache down: a sign-up with a good password and a free
    address from an allowed origin is answered 201, a sign-in of a user with the
    right password 200, a sign-out and a profile with the cookie of an active
    session 204 and 200. *)
Theorem valid_requests_served r s :
  (Method r = "POST" -> Path r = "/api/v1/crm/public/identity/sign-up" ->
     valid_sign_up r s -> answered_with 201 r s)
  /\ (Method r = "POST" -> Path r = "/api/v1/crm/public/identity/sessions" ->
     valid_sign_in r s -> answered_with 200 r s)
  /\ (Method r = "DELETE" -> Path r = "/api/v1/crm/public/identity/sessions/current" ->
     has_session can_end r s -> answered_with 204 r s)
  /\ (Method r = "GET" -> Path r = "/api/v1/crm/public/identity/profile/me" ->
     has_session has_profile r s -> answered_with 200 r s).
Proof.
  split_and!; intros Hm Hp Hv; dispatch Hm Hp.
  - by apply (serves 201 (pre := on valid_sign_up)).
  - by apply (serves 200 (pre := on valid_sign_in)).
  - by apply (serves 204 (pre := on (has_session can_end))).
  - by apply (serves 200 (pre := on (has_session has_profile))).
Qed.
End Served.
