(* ===== verification/Reference.v ===== *)
(** * An executable system that meets the contract

    [answer] implements every interface call over the abstract state, so that
    whole requests evaluate by computation, and [answer_meets] shows that it
    meets [pstep]: the contract the use cases are verified against can be
    implemented, and what [wp] proves of a program holds of its runs here.
    [Canonical] is a concrete text form of UUIDs. *)
From S2P Require Import Prelude Program GoText GoEncoding GoTime Errors Tenant User Session Outbox Ports PortSpec.
#[local] Open Scope Z_scope.

(** ** UUIDs in their canonical text form *)

(** The 16 bytes of a UUID, most significant first, as 32 digits. *)
Fixpoint hex_digits (n : nat) (v : Z) : list Z :=
  match n with
  | O => []
  | S m => hex_digits m (v / 16) ++ [hex_digit (v mod 16)]
  end.

Definition hex_digit_value (b : Z) : option Z :=
  if is_digit b then Some (b - 48)
  else if (97 <=? b) && (b <=? 102) then Some (b - 87) else None.

Fixpoint hex_value_from (acc : Z) (l : list Z) : option Z :=
  match l with
  | [] => Some acc
  | b :: r => match hex_digit_value b with Some d => hex_value_from (16 * acc + d) r | None => None end
  end.

Definition dashed (l : list Z) : list Z :=
  firstn 8 l ++ [45] ++ firstn 4 (skipn 8 l) ++ [45] ++ firstn 4 (skipn 12 l) ++ [45]
  ++ firstn 4 (skipn 16 l) ++ [45] ++ skipn 20 l.

Definition canonical (u : UUID) : string := of_bytes (dashed (hex_digits 32 (Z.of_N (uuid_value u)))).

(** Accepts the canonical form, with the dashes anywhere. *)
Definition parse_canonical (s : string) : option UUID :=
  match hex_value_from 0 (List.filter (fun b => negb (b =? 45)) (bytes_of s)) with
  | Some v => Some (uuid_of (Z.to_N v))
  | None => None
  end.

Lemma hex_digits_range n v : 0 <= v -> Forall (fun b => 48 <= b <= 57 \/ 97 <= b <= 102) (hex_digits n v).
Proof.
  revert v. induction n as [|n IH]; intros v Hv; [constructor|]. cbn. apply Forall_app. split.
  - apply IH. apply Z.div_pos; lia.
  - constructor; [|constructor]. apply hex_digit_range. apply Z.mod_pos_bound. lia.
Qed.

Lemma hex_digit_value_digit d : 0 <= d < 16 -> hex_digit_value (hex_digit d) = Some d.
Proof.
  intros Hd. unfold hex_digit_value, hex_digit, is_digit.
  repeat case_match; try (f_equal; lia); lia.
Qed.

Lemma hex_value_from_app acc l k :
  hex_value_from acc (l ++ k) =
    match hex_value_from acc l with Some a => hex_value_from a k | None => None end.
Proof. revert acc. induction l as [|b l IH]; intros acc; [done|]. cbn. by case_match. Qed.

Lemma hex_value_digits n v : 0 <= v < 16 ^ Z.of_nat n -> hex_value_from 0 (hex_digits n v) = Some v.
Proof.
  revert v. induction n as [|n IH]; intros v Hv; [cbn in *; f_equal; lia|].
  cbn [hex_digits]. rewrite hex_value_from_app, IH.
  - cbn. rewrite hex_digit_value_digit by (apply Z.mod_pos_bound; lia).
    f_equal. pose proof (Z.div_mod v 16). lia.
  - rewrite Nat2Z.inj_succ, Z.pow_succ_r in Hv by lia.
    split; [apply Z.div_pos; lia|]. apply Z.div_lt_upper_bound; lia.
Qed.

Lemma dashed_filter l :
  Forall (fun b => 48 <= b <= 57 \/ 97 <= b <= 102) l ->
  List.filter (fun b => negb (b =? 45)) (dashed l) = l.
Proof.
  intros Hl.
  assert (forall k, Forall (fun b => 48 <= b <= 57 \/ 97 <= b <= 102) k ->
            List.filter (fun b => negb (b =? 45)) k = k) as Hid.
  { intros k Hk. induction Hk as [|b k Hb _ IH]; [done|]. cbn.
    destruct (Z.eqb_spec b 45); [lia|]. cbn. by rewrite IH. }
  unfold dashed. rewrite !List.filter_app. cbn [List.filter Z.eqb Pos.eqb negb app].
  rewrite !Hid by (repeat first [apply Forall_take|apply Forall_drop]; done).
  replace (skipn 20 l) with (skipn 4 (skipn 16 l)) by (by rewrite skipn_skipn).
  rewrite firstn_skipn.
  replace (skipn 16 l) with (skipn 4 (skipn 12 l)) by (by rewrite skipn_skipn).
  rewrite firstn_skipn.
  replace (skipn 12 l) with (skipn 4 (skipn 8 l)) by (by rewrite skipn_skipn).
  by rewrite firstn_skipn, firstn_skipn.
Qed.

Lemma dashed_chars l :
  Forall (fun b => 48 <= b <= 57 \/ 97 <= b <= 102) l -> Forall uuid_char (dashed l).
Proof.
  intros Hl. assert (Forall uuid_char l) as Hu.
  { eapply List.Forall_impl; [|exact Hl]. unfold uuid_char. cbn. lia. }
  unfold dashed. rewrite !Forall_app.
  repeat split; try (repeat constructor; unfold uuid_char; lia);
    repeat first [apply Forall_take|apply Forall_drop]; done.
Qed.

Lemma uuid_value_bound u : 0 <= Z.of_N (uuid_value u) < 16 ^ 32.
Proof.
  destruct u as [n Hn]. cbn. apply Is_true_eq_true, N.ltb_lt in Hn. change (16 ^ 32) with (Z.of_N (2 ^ 128)). lia.
Qed.

Lemma canonical_bytes u : bytes_of (canonical u) = dashed (hex_digits 32 (Z.of_N (uuid_value u))).
Proof.
  unfold canonical. apply bytes_of_of.
  eapply List.Forall_impl; [|apply dashed_chars, hex_digits_range; apply uuid_value_bound].
  unfold uuid_char. cbn. lia.
Qed.

#[export] Program Instance Canonical : UuidLib := {|
  uuid_String := canonical;
  uuid_Parse := parse_canonical;
|}.
Next Obligation.
  intros u. rewrite canonical_bytes. apply dashed_chars, hex_digits_range, uuid_value_bound.
Qed.
Next Obligation.
  intros u. unfold parse_canonical.
  rewrite canonical_bytes, dashed_filter by (apply hex_digits_range, uuid_value_bound).
  rewrite hex_value_digits by apply uuid_value_bound. by rewrite N2Z.id, uuid_of_value.
Qed.
Next Obligation. by vm_compute. Qed.

(** ** The calls *)

(** The reference hash of a password. *)
Definition plain_hash (raw : string) : PasswordHash := MkPasswordHash ("plain:" +:+ raw).
Definition plain_verifies (h : PasswordHash) (raw : string) : bool := bool_decide (h = plain_hash raw).

Definition failed {A} : outcome (res A) := Returned (Err (EOther "unavailable")).

(** The number of rows ever inserted: it names the next fresh identifier. *)
Definition tx_length (t : TxState) : nat := match t with TxActive ws => length ws | TxAborted => 0%nat end.
Definition row_count (s : Sys) : nat :=
  (size (users (committed s)) + size (sessions (committed s)) + size (events (committed s))
   + sum_list (map (fun kv => tx_length kv.2) (map_to_list (txs s))))%nat.

#[global] Instance user_conflict_dec st u : Decision (user_conflict st u).
Proof.
  refine (cast_if (decide (is_Some (users st !! User.id u)
    \/ map_Exists (fun _ v => User.tenantID v = User.tenantID u /\ User.email v = User.email u) (users st))));
    unfold user_conflict, map_Exists in *; naive_solver.
Defined.

#[global] Instance session_conflict_dec st x : Decision (session_conflict st x).
Proof.
  refine (cast_if (decide (is_Some (sessions st !! Session.id x)
    \/ map_Exists (fun _ y => Session.tokenHash y = Session.tokenHash x) (sessions st))));
    unfold session_conflict, map_Exists in *; naive_solver.
Defined.

(** The only open transaction, if [tx] is it. *)
Definition only_tx (s : Sys) (tx : Tx) : option (positive * list Write) :=
  match open_tx s tx with
  | Some (h, ws) => if decide (delete h (txs s) = ∅) then Some (h, ws) else None
  | None => None
  end.

Definition abort (tx : Tx) (s : Sys) : Sys :=
  match open_tx s tx with Some (h, _) => abort_in h s | None => s end.

Definition answer_uow {R} (c : UnitOfWork R) (s : Sys) : outcome R * Sys :=
  match c in UnitOfWork R return outcome R * Sys with
  | Begin =>
    match txs s !! 1%positive with
    | None => (Returned (Ok (NewTx (any_pgx_tx 1))), set_txs (<[1%positive := TxActive []]> (txs s)) s)
    | Some _ => (failed, s)
    end
  | Commit tx =>
    match open_tx s tx with
    | Some (h, ws) => (Returned (Ok tt), set_committed (tx_view s ws) (close_tx tx s))
    | None => (failed, close_tx tx s)
    end
  | Rollback tx => (Returned (Ok tt), close_tx tx s)
  end.

Definition answer_users {R} (c : UserRepository R) (s : Sys) : outcome R * Sys :=
  match c in UserRepository R return outcome R * Sys with
  | UserSaveTx tx u =>
    match only_tx s tx with
    | None => (failed, abort tx s)
    | Some (h, ws) =>
      if decide (user_conflict (tx_view s ws) u)
      then (Returned (Err (user.ErrEmailTaken : error)), abort_in h s)
      else (Returned (Ok tt), write_in h ws (WUser (stored_user u)) s)
    end
  | FindByEmail t e =>
    (match list_find (fun iu => User.tenantID iu.2 = t /\ User.email iu.2 = e) (map_to_list (users (committed s))) with
     | Some (_, (_, u)) => Returned (Ok u)
     | None => Returned (Err (user.ErrUserNotFound : error))
     end, s)
  | FindByID t uid =>
    (match users (committed s) !! uid with
     | Some u => if decide (User.tenantID u = t) then Returned (Ok u)
                 else Returned (Err (user.ErrUserNotFound : error))
     | None => Returned (Err (user.ErrUserNotFound : error))
     end, s)
  end.

Definition answer_sessions {R} (c : SessionRepository R) (s : Sys) : outcome R * Sys :=
  match c in SessionRepository R return outcome R * Sys with
  | SessionSaveTx tx x =>
    match only_tx s tx with
    | None => (failed, abort tx s)
    | Some (h, ws) =>
      if decide (session_conflict (tx_view s ws) x \/ users (tx_view s ws) !! Session.userID x = None)
      then (failed, abort_in h s)
      else (Returned (Ok tt), write_in h ws (WSession (stored_session x)) s)
    end
  | FindByTokenHash hash =>
    (match list_find (fun ix => Session.tokenHash ix.2 = hash) (map_to_list (sessions (committed s))) with
     | Some (_, (_, x)) => Returned (Ok x)
     | None => Returned (Err (session.ErrSessionNotFound : error))
     end, s)
  | RevokeTx tx t sid =>
    match open_tx s tx with
    | None => (failed, s)
    | Some (h, ws) =>
      match sessions (tx_view s ws) !! sid with
      | Some x => if decide (Session.tenantID x = t)
                  then (Returned (Ok tt), write_in h ws (WRevoke sid (stored_time (now s))) s)
                  else (Returned (Err (session.ErrSessionNotFound : error)), s)
      | None => (Returned (Err (session.ErrSessionNotFound : error)), s)
      end
    end
  end.

Definition answer_outbox {R} (c : OutboxRepository R) (s : Sys) : outcome R * Sys :=
  match c in OutboxRepository R return outcome R * Sys with
  | WriteTx tx ev =>
    match only_tx s tx with
    | None => (failed, abort tx s)
    | Some (h, ws) =>
      if decide (events (tx_view s ws) !! Outbox.id ev = None)
      then (Returned (Ok tt), write_in h ws (WEvent (stored_event ev)) s)
      else (failed, abort_in h s)
    end
  end.

Definition answer_cache {R} (c : Cache R) (s : Sys) : outcome R * Sys :=
  match c in Cache R return outcome R * Sys with
  | CacheSet key body ttl => (Returned (Ok tt), set_cache (<[key := (body, ttl)]> (cache s)) s)
  | CacheGet key =>
    (match cache s !! key with
     | Some (body, _) => Returned (Ok body)
     | None => Returned (Err (session.ErrCacheMiss : error))
     end, s)
  | CacheDelete key => (Returned (Ok tt), set_cache (delete key (cache s)) s)
  end.

Definition answer : forall R, Port R -> Sys -> outcome R * Sys := fun R op s =>
  match op in Port R return outcome R * Sys with
  | Uow c => answer_uow c s
  | Users c => answer_users c s
  | Sessions c => answer_sessions c s
  | OutboxRepo c => answer_outbox c s
  | SessionCache c => answer_cache c s
  | Hasher c =>
    match c in PasswordHasher R return outcome R * Sys with
    | Hash raw => (Returned (Ok (plain_hash raw)), s)
    | Verify h raw => (Returned (Ok (plain_verifies h raw)), s)
    end
  | Tokens c =>
    match c in TokenGenerator R return outcome R * Sys with
    | GenerateToken =>
      (Returned (Ok (MkToken (of_bytes (fixed 43 (Z.of_nat (row_count s)))))), s)
    end
  | Now _ => (Returned (now s), s)
  | UuidNew => (Returned (uuid_of (N.of_nat (S (row_count s)))), s)
  | Log r => (Returned tt, add_log r s)
  | Trace c =>
    match c in Tracer R return outcome R * Sys with
    | SpanStart _ _ => (Returned 1%positive, s)
    | SetAttributes _ _ => (Returned tt, s)
    | SpanEnd _ => (Returned tt, s)
    end
  end.

(** ** The contract is met *)

Lemma failed_fails {A} : @fails A failed.
Proof. left. by eexists. Qed.
#[local] Hint Resolve failed_fails : core.

Lemma set_now_id s : set_now (now s) s = s.
Proof. by destruct s. Qed.

Lemma only_tx_open s tx h ws : only_tx s tx = Some (h, ws) -> open_tx s tx = Some (h, ws) /\ delete h (txs s) = ∅.
Proof.
  unfold only_tx. destruct (open_tx s tx) as [[h' ws']|]; [|done].
  destruct (decide (delete h' (txs s) = ∅)) as [E|]; [|done]. by intros [= <- <-].
Qed.

Lemma only_unblocked s h w : delete h (txs s) = ∅ -> unblocked s h w.
Proof.
  intros E h' ws w' Hh Hne. assert (delete h (txs s) !! h' = Some (TxActive ws)) as Hl
    by by rewrite lookup_delete_ne.
  rewrite E in Hl. done.
Qed.

(** A statement that fails aborts the transaction it is in. *)
Lemma in_tx_fails {A} tx s (ok : positive -> list Write -> Prop) :
  in_tx tx s (failed : outcome (res A)) (abort tx s) ok.
Proof. unfold in_tx, abort. destruct (open_tx s tx) as [[h ws]|]; auto. Qed.

Lemma answer_users_meets {R} (c : UserRepository R) s :
  users_step c s (answer_users c s).1 (answer_users c s).2.
Proof.
  destruct c as [tx u|t e|t uid]; cbn.
  - destruct (only_tx s tx) as [[h ws]|] eqn:E; [|apply in_tx_fails].
    apply only_tx_open in E as [Eo Ed]. unfold in_tx. rewrite Eo.
    case_decide; left; cbn; [by right|left]. auto using only_unblocked.
  - split; [done|]. case_match eqn:E.
    + destruct p as [k [i u]]. apply list_find_Some in E as (Hl & [Ht He] & _). left.
      exists i, u. split; [done|]. split; [|done].
      apply elem_of_map_to_list. by eapply list_elem_of_lookup_2.
    + right. left. split; [done|]. apply list_find_None in E. intros i u Hu.
      rewrite Forall_forall in E. apply (E (i, u)). by apply elem_of_map_to_list.
  - split; [done|]. destruct (users (committed s) !! uid) as [u|] eqn:E.
    + case_decide; [left; by exists u|right; left]. split; [done|]. congruence.
    + right. left. by split.
Qed.

Lemma answer_sessions_meets {R} (c : SessionRepository R) s :
  sessions_step c s (answer_sessions c s).1 (answer_sessions c s).2.
Proof.
  destruct c as [tx x|hash|tx t sid]; cbn.
  - destruct (only_tx s tx) as [[h ws]|] eqn:E; [|apply in_tx_fails].
    apply only_tx_open in E as [Eo Ed]. unfold in_tx. rewrite Eo.
    case_decide as Hc; [by right|left]. cbn. apply Decidable.not_or in Hc as [Hc Hu].
    split; [done|]. split; [done|]. split; [by apply only_unblocked|].
    split; [|done]. by apply not_eq_None_Some.
  - split; [done|]. case_match eqn:E.
    + destruct p as [k [i x]]. apply list_find_Some in E as (Hl & Hh & _). left.
      exists i, x. split; [done|]. split; [|done].
      apply elem_of_map_to_list. by eapply list_elem_of_lookup_2.
    + right. left. split; [done|]. apply list_find_None in E. intros i x Hx.
      rewrite Forall_forall in E. apply (E (i, x)). by apply elem_of_map_to_list.
  - unfold in_tx. destruct (open_tx s tx) as [[h ws]|]; [|done]. left. cbn.
    destruct (sessions (tx_view s ws) !! sid) as [x|] eqn:E.
    + case_decide; [left; by exists x, (stored_time (now s))|right]. split; [done|]. split; [|done]. congruence.
    + right. by split.
Qed.

Lemma fixed_token n : len (of_bytes (fixed 43 n)) = 43.
Proof.
  rewrite len_bytes, bytes_of_of; [by rewrite fixed_length|].
  eapply List.Forall_impl; [|apply digits_are_digits, fixed_digits]. cbn. lia.
Qed.

Theorem answer_meets R (op : Port R) s :
  pstep plain_verifies R op s (answer R op s).1 (answer R op s).2.
Proof.
  destruct op as [R c|R c|R c|R c|R c|R c|R c|src| |r|R c]; cbn.
  - destruct c as [|tx|tx]; cbn; [|destruct (open_tx s tx) as [[h ws]|]; auto|by auto].
    destruct (txs s !! 1%positive) eqn:E; [by right; auto|]. left. by exists 1%positive.
  - apply answer_users_meets.
  - apply answer_sessions_meets.
  - destruct c as [tx ev]; cbn. destruct (only_tx s tx) as [[h ws]|] eqn:E; [|apply in_tx_fails].
    apply only_tx_open in E as [Eo Ed]. unfold in_tx. rewrite Eo.
    case_decide; [left|by right]. cbn. auto using only_unblocked.
  - destruct c as [key body ttl|key|key]; cbn; [by left| |by left].
    destruct (cache s !! key) as [[body ttl]|] eqn:E; [left; by exists body, ttl|right; left; auto].
  - destruct c; cbn; split; try done; left; [|done]. eexists. split; [done|].
    apply bool_decide_eq_true. done.
  - destruct c. split; [done|]. left. eexists. split; [reflexivity|].
    change (32 <= len (of_bytes (fixed 43 (Z.of_nat (row_count s)))) <= 128).
    rewrite fixed_token. lia.
  - exists (now s). rewrite set_now_id. split; [lia|done].
  - split; [done|]. left. by eexists.
  - done.
  - destruct c; cbn; eauto.
Qed.

(** The execution of a program is one of its runs. *)
Lemma exec_runs {A} (p : Prog Port A) s :
  runs (pstep plain_verifies) p s (exec answer p s).1 (exec answer p s).2.
Proof.
  revert s. induction p as [a|R e k IH]; intros s; [done|]. cbn.
  pose proof (answer_meets R e s) as Hm. destruct (answer R e s) as [o s1] eqn:E.
  exists o, s1. split; [done|]. apply IH.
Qed.
