(* ===== verification/Argon2id.v ===== *)
(** * internal/infrastructure/argon2id and internal/infrastructure/tokens

    The key derivation (golang.org/x/crypto/argon2) and the random source
    (crypto/rand) are parameters.  The theorems: a hash produced by [Hash] is
    parsed back by [Verify] into the same parameters, salt and key, so that
    Verify accepts exactly the passwords that derive the same key; and the
    hasher and the token generator meet the contract of PortSpec.v.  How long the
    derivation takes is not modelled; when it does not run is
    ([Verify_without_KDF]). *)
From S2P Require Import Prelude Program GoText GoEncoding Errors Tenant User Session Outbox Ports PortSpec PortRules.
#[local] Open Scope Z_scope.

(** ** crypto/rand *)

Inductive Random : Type -> Type :=
| Read (n : Z) : Random (res string).

(** [rand.Read] fills the buffer or fails. *)
Definition random_step : forall R, Random R -> unit -> outcome R -> unit -> Prop := fun R c =>
  match c in Random R return unit -> outcome R -> unit -> Prop with
  | Read n => fun _ o _ => (exists b, o = Returned (Ok b) /\ len b = n) \/ fails o
  end.

(** ** tokens/opaque.go *)

Definition OpaqueGenerator_NewToken {L} : G Random L (res Token) := (
  try b <- call (Read 32) catch err => fail err ;;
  ret (Session.NewToken (of_bytes (b64_encode url_alphabet (bytes_of b)))))%go.

(** ** argon2id/hasher.go *)

(** golang.org/x/crypto/argon2: [IDKey] panics when the time or the
    parallelism is zero and derives a key of the wanted length, at least one
    byte, otherwise. *)
Class Argon2 := {
  IDKey : string -> string -> Z -> Z -> Z -> Z -> outcome string;
  Version : Z;
  Version_range : 0 <= Version <= max_int64;
  IDKey_returns : forall pw salt t m p n, 1 <= t -> 1 <= p -> 1 <= n ->
    exists key, IDKey pw salt t m p n = Returned key;
  IDKey_len : forall pw salt t m p n key, 0 <= n -> IDKey pw salt t m p n = Returned key -> len key = n;
}.

Record Params := MkParams {
  MemoryKiB : Z;
  Time : Z;
  Parallelism : Z;
  SaltLen : Z;
  KeyLen : Z;
}.

(** The fields are uint32, the parallelism a uint8. *)
Definition params_ok (p : Params) : Prop :=
  0 <= MemoryKiB p < 2 ^ 32 /\ 0 <= Time p < 2 ^ 32 /\ 0 <= Parallelism p < 2 ^ 8
  /\ 0 <= SaltLen p < 2 ^ 32 /\ 0 <= KeyLen p < 2 ^ 32.

Definition Default : Params := MkParams (64 * 1024) 3 1 16 32.

Section Argon2id.
Context `{Argon2}.

(** [fmt.Sprintf("$argon2id$v=%d$m=%d,t=%d,p=%d$%s$%s", ...)]. *)
Definition encode (p : Params) (salt key : string) : string :=
  "$argon2id$v=" +:+ Itoa Version +:+ "$m=" +:+ Itoa (MemoryKiB p) +:+ ",t=" +:+ Itoa (Time p)
  +:+ ",p=" +:+ Itoa (Parallelism p)
  +:+ "$" +:+ of_bytes (b64_encode std_alphabet (bytes_of salt))
  +:+ "$" +:+ of_bytes (b64_encode std_alphabet (bytes_of key)).

Definition Hash {L} (h : Params) (raw : string) : G Random L (res PasswordHash) := (
  if PasswordMaxLen <? len raw then fail (EOther "argon2id: password exceeds max length") else
  try salt <- call (Read (SaltLen h)) catch err => fail err ;;
  match IDKey raw salt (Time h) (MemoryKiB h) (Parallelism h) (KeyLen h) with
  | Panicked msg => panic msg
  | Returned key => ret (Ok (NewPasswordHash (encode h salt key)))
  end)%go.

(** The parsed form of a hash: memory, time, parallelism, salt, key. *)
Definition parse_hash (encoded : string) : res (Z * Z * Z * string * string) :=
  match Split encoded "$"%char with
  | [_; alg; v; ps; s; k] =>
    if negb (bool_decide (alg = "argon2id")) then Err (EOther "argon2id: malformed hash") else
    match sscanf (lits "v=" ++ [VInt 64]) (bytes_of v) with
    | Some [version] =>
      if negb (version =? Version) then Err (EOther "argon2id: unsupported version") else
      match sscanf (lits "m=" ++ [VUint 32] ++ lits ",t=" ++ [VUint 32] ++ lits ",p=" ++ [VUint 8]) (bytes_of ps) with
      | Some [memory; time; parallelism] =>
        match b64_decode std_alphabet (bytes_of s) with
        | None => Err (EOther "argon2id: malformed salt")
        | Some salt =>
          match b64_decode std_alphabet (bytes_of k) with
          | None => Err (EOther "argon2id: malformed key")
          | Some want => Ok (memory, time, parallelism, of_bytes salt, of_bytes want)
          end
        end
      | _ => Err (EOther "argon2id: malformed params")
      end
    | _ => Err (EOther "argon2id: unsupported version")
    end
  | _ => Err (EOther "argon2id: malformed hash")
  end.

Definition Verify (hash : PasswordHash) (raw : string) : outcome (res bool) :=
  if PasswordMaxLen <? len raw then Returned (Ok false) else
  match parse_hash (PasswordHash_String hash) with
  | Err e => Returned (Err e)
  | Ok (memory, time, parallelism, salt, want) =>
    match IDKey raw salt time memory parallelism (uint32_wrap (len want)) with
    | Panicked msg => Panicked msg
    | Returned got => Returned (Ok (bool_decide (got = want)))
    end
  end.

(** ** A hash is parsed back *)

Lemma bytes_Itoa n : 0 <= n -> bytes_of (Itoa n) = decimal n.
Proof.
  intros Hn. unfold Itoa. rewrite (proj2 (Z.ltb_ge n 0)) by lia.
  destruct (decimal_spec n Hn) as (_ & _ & Hall). apply bytes_of_of.
  eapply List.Forall_impl; [|by apply digits_are_digits]. cbn. lia.
Qed.

Lemma decimal_no_dollar n : 0 <= n -> Forall (fun b => b <> 36) (decimal n).
Proof.
  intros Hn. destruct (decimal_spec n Hn) as (_ & _ & Hall).
  eapply List.Forall_impl; [|by apply digits_are_digits]. cbn. lia.
Qed.

(** The symbols of the standard alphabet: not a dollar sign, a byte. *)
Definition b64_plain (b : Z) : bool := negb (b =? 36) && (0 <=? b) && (b <? 256).

Lemma b64_symbols s : Forall (fun b => b64_plain b = true) (b64_encode std_alphabet (bytes_of s)).
Proof. apply b64_encode_within; [by vm_compute|apply bytes_of_bounds]. Qed.

Lemma b64_no_dollar s : Forall (fun b => b <> 36) (b64_encode std_alphabet (bytes_of s)).
Proof. eapply List.Forall_impl; [|apply (b64_symbols s)]. unfold b64_plain. cbn. lia. Qed.

Lemma b64_bytes s : bytes_of (of_bytes (b64_encode std_alphabet (bytes_of s))) = b64_encode std_alphabet (bytes_of s).
Proof.
  apply bytes_of_of. eapply List.Forall_impl; [|apply (b64_symbols s)]. unfold b64_plain. cbn. lia.
Qed.

Lemma b64_decode_back s : b64_decode std_alphabet (b64_encode std_alphabet (bytes_of s)) = Some (bytes_of s).
Proof. apply b64_roundtrip; [apply std_alphabet_ok|apply bytes_of_bounds]. Qed.

Definition version_part : list Z := bytes_of "v=" ++ decimal Version.
Definition params_part (p : Params) : list Z :=
  bytes_of "m=" ++ decimal (MemoryKiB p) ++ bytes_of ",t=" ++ decimal (Time p)
  ++ bytes_of ",p=" ++ decimal (Parallelism p).

Lemma encode_bytes p salt key :
  params_ok p ->
  bytes_of (encode p salt key) =
    [] ++ 36 :: bytes_of "argon2id" ++ 36 :: version_part ++ 36 :: params_part p ++ 36 ::
    b64_encode std_alphabet (bytes_of salt) ++ 36 :: b64_encode std_alphabet (bytes_of key).
Proof.
  intros (Hm & Ht & Hp & _). pose proof Version_range as Hv. unfold encode.
  rewrite !bytes_of_app, !bytes_Itoa, !b64_bytes by lia. unfold version_part, params_part.
  generalize (b64_encode std_alphabet (bytes_of salt)), (b64_encode std_alphabet (bytes_of key)).
  generalize (decimal Version), (decimal (MemoryKiB p)), (decimal (Time p)), (decimal (Parallelism p)).
  intros dv dm dt dp S K. rewrite <- !app_assoc. reflexivity.
Qed.

(** The six parts between the dollar signs. *)
Lemma Split_encode p salt key :
  params_ok p ->
  Split (encode p salt key) "$"%char =
    map of_bytes [[]; bytes_of "argon2id"; version_part; params_part p;
                  b64_encode std_alphabet (bytes_of salt); b64_encode std_alphabet (bytes_of key)].
Proof.
  intros Hp. pose proof Hp as (Hm & Ht & Hpar & _). pose proof Version_range as Hv.
  unfold Split. f_equal. rewrite encode_bytes by done. change (byte_of "$"%char) with 36.
  assert (Forall (fun b => b <> 36) version_part) as Hver.
  { apply Forall_app. split; [by repeat constructor|]. apply decimal_no_dollar. lia. }
  assert (Forall (fun b => b <> 36) (params_part p)) as Hpp.
  { unfold params_part. rewrite !Forall_app.
    repeat split; try (by repeat constructor); apply decimal_no_dollar; lia. }
  rewrite !split_bytes_app, split_bytes_last; [done|..]; auto using b64_no_dollar;
    by repeat constructor.
Qed.

Lemma parse_encode p salt key :
  params_ok p ->
  parse_hash (encode p salt key) = Ok (MemoryKiB p, Time p, Parallelism p, salt, key).
Proof.
  intros Hp. pose proof Hp as (Hm & Ht & Hpar & _). pose proof Version_range as Hv.
  unfold parse_hash. rewrite Split_encode by done. cbn [map].
  rewrite bool_decide_eq_true_2 by done. cbn [negb].
  assert (forall l n, Forall (fun b => 0 <= b < 256) l -> 0 <= n ->
            Forall (fun b => 0 <= b < 256) (l ++ decimal n)) as Hbytes.
  { intros l n Hl Hn. apply Forall_app. split; [done|].
    destruct (decimal_spec n Hn) as (_ & _ & Hall).
    eapply List.Forall_impl; [|by apply digits_are_digits]. cbn. lia. }
  assert (Forall (fun b => 0 <= b < 256) version_part) as Hver
    by (apply Hbytes; [apply bytes_of_bounds|lia]).
  assert (Forall (fun b => 0 <= b < 256) (params_part p)) as Hpp.
  { unfold params_part. rewrite !app_assoc.
    do 3 (apply Hbytes; [|lia]; try apply Forall_app_2; try apply bytes_of_bounds). }
  rewrite !b64_bytes, !b64_decode_back, !of_bytes_of, !bytes_of_of by done.
  unfold version_part, params_part. rewrite sscanf_lits. cbn [sscanf].
  rewrite <- (app_nil_r (decimal Version)), scan_number_decimal by (done || (unfold max_int64 in *; cbn; lia)).
  cbn [option_map]. rewrite Z.eqb_refl. cbn [negb].
  rewrite sscanf_lits. cbn [sscanf app].
  rewrite scan_number_decimal by (done || lia). rewrite sscanf_lits. cbn [sscanf app].
  rewrite scan_number_decimal by (done || lia). rewrite sscanf_lits. cbn [sscanf app].
  rewrite <- (app_nil_r (decimal (Parallelism p))), scan_number_decimal by (done || lia). done.
Qed.

(** Verify on a hash made with given parameters, salt and key. *)
Lemma Verify_encode p salt key raw :
  params_ok p -> len key = KeyLen p -> len raw <= PasswordMaxLen ->
  Verify (NewPasswordHash (encode p salt key)) raw =
    match IDKey raw salt (Time p) (MemoryKiB p) (Parallelism p) (KeyLen p) with
    | Panicked msg => Panicked msg
    | Returned got => Returned (Ok (bool_decide (got = key)))
    end.
Proof.
  intros Hp Hk Hraw. unfold Verify. rewrite (proj2 (Z.ltb_ge PasswordMaxLen (len raw))) by done.
  cbn [PasswordHash_String NewPasswordHash encoded]. rewrite parse_encode by done.
  rewrite Hk, uint32_wrap_small by (unfold params_ok in Hp; lia). done.
Qed.

(** C21: a hash accepts the password it was made from, and any other password
    exactly when it derives the same key from the salt stored in the hash;
    [Hash] fails only when the password is too long or the random source
    fails. *)
Theorem Verify_Hash {L} p raw (l : L) :
  params_ok p ->
  wp random_step (Hash p raw l) (fun ol _ =>
    match ol.1 with
    | Returned (Ok hash) => exists salt key,
        len salt = SaltLen p /\ hash = NewPasswordHash (encode p salt key)
        /\ Verify hash raw = Returned (Ok true)
        /\ forall other, len other <= PasswordMaxLen ->
             Verify hash other =
               match IDKey other salt (Time p) (MemoryKiB p) (Parallelism p) (KeyLen p) with
               | Panicked msg => Panicked msg
               | Returned got => Returned (Ok (bool_decide (got = key)))
               end
    | Returned (Err e) => infra e
    | Panicked _ => True
    end) tt.
Proof.
  intros Hp. unfold Hash. destruct (PasswordMaxLen <? len raw) eqn:El; [done|]. apply Z.ltb_ge in El.
  repeat wp_rule. intros o [] [(salt & -> & Hsalt)|[(e & -> & He)|[msg ->]]]; [|done|done].
  destruct (IDKey raw salt _ _ _ _) as [key|msg] eqn:Ek; [|done]. cbn.
  assert (len key = KeyLen p) as Hlen by (eapply IDKey_len; [|done]; unfold params_ok in Hp; lia).
  exists salt, key. split; [done|]. split; [done|]. split.
  - rewrite Verify_encode, Ek by done. by rewrite bool_decide_eq_true_2.
  - intros other Ho. by apply Verify_encode.
Qed.

(** ** The contract of the hasher *)

(** A hash accepts a password of at most 256 bytes from which its parameters
    and its salt derive its key.  This is what the text stands for; it does not
    speak of [Verify]. *)
Definition argon2_verifies (hash : PasswordHash) (raw : string) : bool :=
  match parse_hash (PasswordHash_String hash) with
  | Ok (memory, time, parallelism, salt, key) =>
    bool_decide (len raw <= PasswordMaxLen
                 /\ IDKey raw salt time memory parallelism (uint32_wrap (len key)) = Returned key)
  | Err _ => false
  end.

Lemma parse_infra text e : parse_hash text = Err e -> infra e.
Proof. unfold parse_hash. repeat case_match; try done; by intros [= <-]. Qed.

Lemma argon2_verifies_encode p salt key raw :
  params_ok p -> len key = KeyLen p ->
  argon2_verifies (NewPasswordHash (encode p salt key)) raw = true
  <-> len raw <= PasswordMaxLen /\ IDKey raw salt (Time p) (MemoryKiB p) (Parallelism p) (KeyLen p) = Returned key.
Proof.
  intros Hp Hk. unfold argon2_verifies. cbn [PasswordHash_String NewPasswordHash encoded].
  rewrite parse_encode, bool_decide_eq_true, Hk, uint32_wrap_small by (done || (unfold params_ok in Hp; lia)). done.
Qed.

(** Every answer of Verify. *)
Definition verify_answers (hash : PasswordHash) (raw : string) (o : outcome (res bool)) : Prop :=
  match o with
  | Returned (Ok b) => b = argon2_verifies hash raw
  | Returned (Err e) => len raw <= PasswordMaxLen /\ parse_hash (PasswordHash_String hash) = Err e
  | Panicked msg => len raw <= PasswordMaxLen /\ exists memory time parallelism salt key,
      parse_hash (PasswordHash_String hash) = Ok (memory, time, parallelism, salt, key)
      /\ IDKey raw salt time memory parallelism (uint32_wrap (len key)) = Panicked msg
  end.

Lemma Verify_answers hash raw : verify_answers hash raw (Verify hash raw).
Proof.
  unfold verify_answers, Verify, argon2_verifies. destruct (Z.ltb_spec PasswordMaxLen (len raw)) as [Hl|Hl].
  { destruct (parse_hash _) as [[[[[m t] q] salt] key]|e]; [|done]. rewrite bool_decide_eq_false_2; [done|]. lia. }
  destruct (parse_hash _) as [[[[[m t] q] salt] key]|e]; [|done].
  destruct (IDKey _ _ _ _ _ _) as [got|msg] eqn:E; [|split; [done|by exists m, t, q, salt, key]].
  apply bool_decide_ext. split; [by intros ->|by intros [_ [= ->]]].
Qed.

Lemma Verify_contract hash raw s : hasher_step argon2_verifies (Ports.Verify hash raw) s (Verify hash raw) s.
Proof.
  split; [done|]. pose proof (Verify_answers hash raw) as Hv. destruct (Verify hash raw) as [[b|e]|msg]; cbn in Hv.
  - left. by subst.
  - right. left. exists e. split; [done|]. by eapply parse_infra, Hv.
  - right. right. by exists msg.
Qed.

Lemma Hash_contract {L} p (l : L) s raw :
  params_ok p ->
  wp random_step (Hash p raw l) (fun ol _ => hasher_step argon2_verifies (Ports.Hash raw) s ol.1 s) tt.
Proof.
  intros Hp. unfold Hash. destruct (PasswordMaxLen <? len raw) eqn:El.
  { split; [done|]. right. left. by eexists. }
  apply Z.ltb_ge in El. repeat wp_rule. intros o [] [(salt & -> & Hsalt)|Ho].
  2:{ destruct Ho as [(e & -> & He)|[msg ->]]; (split; [done|]); right; [left|right]; eauto. }
  destruct (IDKey raw salt _ _ _ _) as [key|msg] eqn:Ek; (split; [done|]); [left|right; right; by eexists].
  eexists. split; [done|]. apply argon2_verifies_encode; [done| |done].
  eapply IDKey_len; [|done]. unfold params_ok in Hp. lia.
Qed.


End Argon2id.

(** [Verify] does not run the derivation for a password that is too long or a
    hash that is malformed: its answer is the same for every derivation. *)
Lemma Verify_without_KDF (A B : Argon2) hash raw :
  @Version A = @Version B ->
  PasswordMaxLen < len raw \/ (exists e, @parse_hash A (PasswordHash_String hash) = Err e) ->
  @Verify A hash raw = @Verify B hash raw.
Proof.
  intros Ev Hshort. assert (forall text, @parse_hash A text = @parse_hash B text) as Hparse
    by (intros; unfold parse_hash; by rewrite Ev).
  unfold Verify. destruct (Z.ltb_spec PasswordMaxLen (len raw)) as [Hl|Hl]; [done|].
  destruct Hshort as [Hs|[e He]]; [lia|]. by rewrite <- Hparse, He.
Qed.

(** ** Tokens *)

(** The bytes of the URL alphabet: letters, digits, dash and underscore. *)
Definition url_byte (b : Z) : bool :=
  ((97 <=? b) && (b <=? 122)) || ((65 <=? b) && (b <=? 90)) || ((48 <=? b) && (b <=? 57)) || (b =? 45) || (b =? 95).

Lemma url_symbols s : Forall (fun b => url_byte b = true) (b64_encode url_alphabet (bytes_of s)).
Proof. apply b64_encode_within; [by vm_compute|apply bytes_of_bounds]. Qed.

Lemma url_bytes s : bytes_of (of_bytes (b64_encode url_alphabet (bytes_of s))) = b64_encode url_alphabet (bytes_of s).
Proof.
  apply bytes_of_of. eapply List.Forall_impl; [|apply (url_symbols s)]. unfold url_byte. cbn. lia.
Qed.

(** The token that 32 random bytes make. *)
Lemma NewToken_of b : len b = 32 ->
  let t := of_bytes (b64_encode url_alphabet (bytes_of b)) in
  len t = 43 /\ Session.NewToken t = Ok (MkToken t).
Proof.
  intros Hb t. assert (len t = 43) as Hlen.
  { subst t. rewrite len_bytes, url_bytes. unfold b64_encode. rewrite length_map, sextets_length.
    rewrite <- len_bytes, Hb. done. }
  split; [done|]. rewrite NewToken_spec, decide_True by lia. done.
Qed.

Lemma NewToken_contract {L} (l : L) s :
  wp random_step (OpaqueGenerator_NewToken l) (fun ol _ => tokens_step GenerateToken s ol.1 s) tt.
Proof.
  unfold OpaqueGenerator_NewToken. repeat wp_rule.
  intros o [] [(b & -> & Hb)|[(e & -> & He)|[msg ->]]]; cbn [wp fst ret]; (split; [done|]).
  - destruct (NewToken_of b Hb) as [Hlen ->]. left. eexists. split; [done|]. cbn [token_value]. lia.
  - right. left. eauto.
  - right. right. by eexists.
Qed.

(** A token is 43 URL-safe characters that decode to the 32 random bytes it
      was made from, so distinct randomness gives distinct tokens; generation
      fails only when the random source does. *)
Theorem NewToken_opaque {L} (l : L) :
  wp random_step (OpaqueGenerator_NewToken l) (fun ol _ =>
    match ol.1 with
    | Returned (Ok t) => len (token_value t) = 43
        /\ Forall (fun b => url_byte b = true) (bytes_of (token_value t))
        /\ exists b, len b = 32 /\ b64_decode url_alphabet (bytes_of (token_value t)) = Some (bytes_of b)
    | Returned (Err e) => infra e
    | Panicked _ => True
    end) tt.
Proof.
  unfold OpaqueGenerator_NewToken. repeat wp_rule.
  intros o [] [(b & -> & Hb)|[(e & -> & He)|[msg ->]]]; [|done|done].
  cbn [wp fst ret]. destruct (NewToken_of b Hb) as [Hlen ->]. cbn [token_value].
  split; [done|]. rewrite url_bytes. split; [apply url_symbols|].
  exists b. split; [done|]. apply b64_roundtrip; [apply url_alphabet_ok|apply bytes_of_bounds].
Qed.
