(* ===== verification/Valkey.v ===== *)
(** * internal/infrastructure/valkey: the session cache on a Valkey server

    The go-redis client is a parameter: [Redis] are the calls of the client and
    [redis_step] what they do to the server's keys.  The theorems: what [Set]
    wrote [Get] reads back, a corrupt entry is a miss, and the adapter
    implements the cache contract of PortSpec.v. *)
From S2P Require Import Prelude Program GoText GoEncoding GoTime GoJson Errors Tenant User Session Outbox Ports PortSpec PortRules.
#[local] Open Scope Z_scope.

(** ** The client *)

Inductive Redis : Type -> Type :=
| RSet (key value : string) (ttl : Duration) : Redis (res unit)
| RGet (key : string) : Redis (res string)
| RDel (key : string) : Redis (res unit)
| RPing : Redis (res unit)
| RLog (r : LogRecord) : Redis unit.

(** The keys of the server with their values and the TTL they were set with. *)
Definition Keys : Type := gmap string (string * Duration).

(** An entry may expire or be evicted before a GET; a failed command may have
    taken effect. *)
Definition redis_step : forall R, Redis R -> Keys -> outcome R -> Keys -> Prop := fun R c =>
  match c in Redis R return Keys -> outcome R -> Keys -> Prop with
  | RSet key value ttl => fun m o m' =>
      (o = Returned (Ok tt) /\ m' = <[key := (value, ttl)]> m)
      \/ (fails o /\ (m' = m \/ m' = <[key := (value, ttl)]> m))
  | RGet key => fun m o m' =>
      (exists value ttl, o = Returned (Ok value) /\ m !! key = Some (value, ttl) /\ m' = m)
      \/ (o = Returned (Err (driver.RedisNil : error)) /\ m' = delete key m)
      \/ (fails o /\ o <> Returned (Err (driver.RedisNil : error)) /\ m' = m)
  | RDel key => fun m o m' =>
      (o = Returned (Ok tt) /\ m' = delete key m)
      \/ (fails o /\ (m' = m \/ m' = delete key m))
  | RPing => fun m o m' => (o = Returned (Ok tt) \/ fails o) /\ m' = m
  | RLog _ => fun m o m' => o = Returned tt /\ m' = m
  end.

(** ** New *)

(** The options of the client that the code sets; [MinVersion] is [None] when
    TLS is off. *)
Record Options := MkOptions {
  opt_DialTimeout : Duration;
  opt_ReadTimeout : Duration;
  opt_WriteTimeout : Duration;
  opt_MinVersion : option Z;
}.

Definition VersionTLS12 : Z := 0x0303.

Record Config := MkConfig { URL : string; DialTimeout : Duration; OpTimeout : Duration }.

Record SessionCache := MkSessionCache { client : Options; opTimeout : Duration }.

(** [parse] is [redis.ParseURL]. *)
Definition New (parse : string -> res Options) (cfg : Config) : res SessionCache :=
  match parse (URL cfg) with
  | Err err => Err err
  | Ok opts =>
    let dial := if 0 <? DialTimeout cfg then DialTimeout cfg else opt_DialTimeout opts in
    let '(rd, wr) := if 0 <? OpTimeout cfg then (OpTimeout cfg, OpTimeout cfg)
                     else (opt_ReadTimeout opts, opt_WriteTimeout opts) in
    let tls := match opt_MinVersion opts with
               | Some v => Some (if v =? 0 then VersionTLS12 else v)
               | None => None
               end in
    Ok (MkSessionCache (MkOptions dial rd wr tls) (OpTimeout cfg))
  end.

Definition Ping {L} : G Redis L (res unit) := call RPing.

(** ** Set, Get and Delete *)

Definition keyPrefix : string := "identity:session:".

Definition payload_fields : list string := ["session_id"; "user_id"; "tenant_id"; "expires_at"].

Section Operations.
Context `{UuidLib}.

(** [cachePayload] as JSON. *)
Definition cachePayload (b : CachedSession) : list (string * string) :=
  [("session_id", uuid_String (SessionID b)); ("user_id", uuid_String (UserID b));
   ("tenant_id", Tenant.String (TenantID b)); ("expires_at", Format (ExpiresAt b))].
Definition wire (b : CachedSession) : res string :=
  ok_or marshal_error (Marshal (MStruct (map (fun kv => (kv.1, MString kv.2)) (cachePayload b)))).

Definition Set_ {L} (tokenHash : string) (body : CachedSession) (ttl : Duration) : G Redis L (res unit) := (
  match wire body with
  | Err err => fail err
  | Ok b => call (RSet (keyPrefix +:+ tokenHash) b ttl)
  end)%go.

Definition corrupt {L} (what : string) : G Redis L (res CachedSession) := (
  call (RLog (MkLog Warn what [("err", AErr (EOther "corrupt"))])) ;;
  fail session.ErrCacheMiss)%go.

Definition Get {L} (tokenHash : string) : G Redis L (res CachedSession) := (
  r <- call (RGet (keyPrefix +:+ tokenHash)) ;;
  match r with
  | Err err => if errors_Is err driver.RedisNil then fail session.ErrCacheMiss else fail err
  | Ok b =>
  match Unmarshal payload_fields b with
  | Some [sid; uid; tid; exp] =>
    match uuid_Parse sid with
    | None => corrupt "session cache: corrupt session_id, treating as miss"
    | Some sid =>
    match uuid_Parse uid with
    | None => corrupt "session cache: corrupt user_id, treating as miss"
    | Some uid =>
    match Tenant.Parse tid with
    | Err _ => corrupt "session cache: corrupt tenant_id, treating as miss"
    | Ok tid =>
    match GoTime.Parse exp with
    | None => corrupt "session cache: corrupt expires_at, treating as miss"
    | Some exp => ret (Ok (MkCachedSession sid uid tid exp))
    end end end end
  | _ => corrupt "session cache: corrupt JSON payload, treating as miss"
  end end)%go.

Definition Delete {L} (tokenHash : string) : G Redis L (res unit) :=
  call (RDel (keyPrefix +:+ tokenHash)).

(** ** Decoding what was encoded *)

(** The entry a stored text stands for. *)
Definition decode (b : string) : option CachedSession :=
  match Unmarshal payload_fields b with
  | Some [sid; uid; tid; exp] =>
    match uuid_Parse sid, uuid_Parse uid, Tenant.Parse tid, GoTime.Parse exp with
    | Some sid, Some uid, Ok tid, Some exp => Some (MkCachedSession sid uid tid exp)
    | _, _, _, _ => None
    end
  | _ => None
  end.

(** Storing the four members of a payload. *)
Lemma stored_payload sid uid tid exp :
  store_members payload_fields (map (fun _ => ""%string) payload_fields)
    (map (fun kv => (bytes_of kv.1, JText (bytes_of kv.2)))
       [("session_id", sid); ("user_id", uid); ("tenant_id", tid); ("expires_at", exp)])
  = Some [of_bytes (bytes_of sid); of_bytes (bytes_of uid); of_bytes (bytes_of tid); of_bytes (bytes_of exp)].
Proof.
  assert (field_index payload_fields (bytes_of "session_id") = Some 0%nat) as E0 by (vm_compute; reflexivity).
  assert (field_index payload_fields (bytes_of "user_id") = Some 1%nat) as E1 by (vm_compute; reflexivity).
  assert (field_index payload_fields (bytes_of "tenant_id") = Some 2%nat) as E2 by (vm_compute; reflexivity).
  assert (field_index payload_fields (bytes_of "expires_at") = Some 3%nat) as E3 by (vm_compute; reflexivity).
  cbn [map]. unfold store_members, store_member. cbn [fst snd]. by rewrite E0, E1, E2, E3.
Qed.

(** The four texts of an entry are decoded one by one. *)
Lemma decode_wire_texts body b : wire body = Ok b ->
  decode b = match GoTime.Parse (Format (ExpiresAt body)) with
             | Some exp => Some (MkCachedSession (SessionID body) (UserID body) (TenantID body) exp)
             | None => None
             end.
Proof.
  unfold wire. destruct (Marshal _) as [text|] eqn:E; [|done]. intros [= <-].
  unfold decode.
  rewrite (Unmarshal_Marshal_texts payload_fields ("session_id", uuid_String (SessionID body))
    [("user_id", uuid_String (UserID body)); ("tenant_id", Tenant.String (TenantID body));
     ("expires_at", Format (ExpiresAt body))] text).
  3: exact E.
  2:{ repeat constructor; try apply safe_uuid; try apply safe_time. }
  by rewrite stored_payload, !of_bytes_of, !uuid_Parse_String, Parse_String.
Qed.

Lemma decode_wire body b : printable (ExpiresAt body) -> wire body = Ok b -> decode b = Some body.
Proof.
  intros Ht Hb. rewrite (decode_wire_texts _ _ Hb), GoTime.Parse_Format by done. by destruct body.
Qed.

(** An entry whose expiry has no four-digit year cannot be read back. *)
Lemma decode_wire_only body b : wire body = Ok b -> decode b = None \/ decode b = Some body.
Proof.
  intros Hb. destruct (decide (printable (ExpiresAt body))) as [Ht|Ht].
  - right. by apply decode_wire.
  - left. by rewrite (decode_wire_texts _ _ Hb), GoTime.Parse_unprintable.
Qed.

(** Get asks for the key; a text it is answered is decoded or is corrupt. *)
Lemma Get_asks {L} (l : L) tokenHash : exists k,
  Get tokenHash l = Vis (RGet (keyPrefix +:+ tokenHash)) k
  /\ (forall b, exists what, k (Returned (Ok b)) =
        match decode b with Some body => ret (Ok body) | None => corrupt what end l)
  /\ (forall e, k (Returned (Err e)) =
        fail (if errors_Is e driver.RedisNil then (session.ErrCacheMiss : error) else e) l)
  /\ (forall msg, k (Panicked msg) = Ret (Panicked msg, l)).
Proof.
  eexists. split; [done|]. cbn [pbind]. split; [|split; [|done]].
  - intros b. unfold decode. repeat case_match; by eexists.
  - intros e. by destruct (errors_Is e driver.RedisNil).
Qed.

(** Get on the contents of the key. *)
Lemma wp_Get {L} (l : L) tokenHash (Q : outcome (res CachedSession) * L -> Keys -> Prop) m :
  (forall b ttl body, m !! (keyPrefix +:+ tokenHash) = Some (b, ttl) -> decode b = Some body ->
     Q (Returned (Ok body), l) m) ->
  (forall b ttl, m !! (keyPrefix +:+ tokenHash) = Some (b, ttl) -> decode b = None ->
     Q (Returned (Err (session.ErrCacheMiss : error)), l) m) ->
  Q (Returned (Err (session.ErrCacheMiss : error)), l) (delete (keyPrefix +:+ tokenHash) m) ->
  (forall o, fails o -> Q (o, l) m) ->
  wp redis_step (Get tokenHash l) Q m.
Proof.
  intros Hhit Hbad Hmiss Hf. destruct (Get_asks l tokenHash) as (k & -> & Hok & Herr & Hpanic).
  intros o m' [(b & ttl & -> & Hb & ->)|[[-> ->]|(Ho & Hnil & ->)]].
  - destruct (Hok b) as [what ->]. destruct (decode b) as [body|] eqn:Ed; [by eapply Hhit|].
    intros o m' [-> ->]. by eapply Hbad.
  - rewrite Herr, errors_Is_refl. done.
  - destruct Ho as [(e & -> & He)|[msg ->]]; [|rewrite Hpanic; apply Hf; right; by eexists].
    rewrite Herr. destruct (errors_Is e driver.RedisNil) eqn:Ee; [apply errors_Is_infra_eq in Ee; [|done]; by subst|].
    apply Hf. left. by eexists.
Qed.

(** ** The cache contract *)

(** The keys of the server implement the abstract cache: every entry that
    decodes is in it.  A corrupt entry is as good as none. *)
Definition cached_as (m : Keys) (s : Sys) : Prop :=
  forall key b ttl body, m !! (keyPrefix +:+ key) = Some (b, ttl) -> decode b = Some body ->
    cache s !! key = Some (body, ttl).

(** The adapter: each call of session.Cache by its method. *)
Definition adapter {R} (c : Cache R) : Prog Redis (outcome R) :=
  pbind (match c in Cache R return G Redis unit R with
         | CacheSet key body ttl => Set_ key body ttl
         | CacheGet key => Get key
         | CacheDelete key => Delete key
         end tt) (fun ol => Ret ol.1).

Lemma prefix_inj key key' : keyPrefix +:+ key = keyPrefix +:+ key' -> key = key'.
Proof. intros Heq. unfold keyPrefix in Heq. by simplify_eq/=. Qed.

Lemma cached_as_insert m s key b body ttl :
  decode b = None \/ decode b = Some body -> cached_as m s ->
  cached_as (<[keyPrefix +:+ key := (b, ttl)]> m) (set_cache (<[key := (body, ttl)]> (cache s)) s).
Proof.
  unfold cached_as, Keys in *. intros Hb Hrel key' b' ttl' body' Hm Hd. cbn. destruct (decide (key' = key)) as [->|Hne].
  - rewrite lookup_insert_eq in Hm. rewrite lookup_insert_eq. destruct Hb; by simplify_eq.
  - rewrite lookup_insert_ne in Hm by (intros Heq; apply prefix_inj in Heq; done).
    rewrite lookup_insert_ne by done. by apply (Hrel key' b' ttl' body').
Qed.

Lemma cached_as_delete m s key :
  cached_as m s -> cached_as (delete (keyPrefix +:+ key) m) (set_cache (delete key (cache s)) s).
Proof.
  unfold cached_as, Keys in *. intros Hrel key' b ttl body Hm Hd. cbn. apply lookup_delete_Some in Hm as [Hne Hm].
  rewrite lookup_delete_ne by (by intros ->). by apply (Hrel key' b ttl body).
Qed.

Lemma valkey_refines {R} (c : Cache R) :
  refines_call (fun R => cache_step) redis_step cached_as (fun R => adapter) c.
Proof.
  intros m s Hrel. unfold adapter. apply wp_bind. destruct c as [key body ttl|key|key]; cbn [fst].
  - unfold Set_. destruct (wire body) as [b|err] eqn:E.
    + pose proof (cached_as_insert m s key b body ttl (decode_wire_only _ _ E) Hrel) as Hins.
      intros o m' [[-> ->]|[Ho [->| ->]]]; cbn.
      * eexists. split; [by left|done].
      * exists s. split; [|done]. by right; split; [|left].
      * eexists. split; [right; split; [done|by right]|done].
    + unfold wire in E. destruct (Marshal _); simplify_eq/=. exists s.
      split; [|done]. right. split; [|by left]. left. by eexists.
  - apply wp_Get.
    + intros b ttl body Hm Hd. cbn. exists s. split; [|done]. left. exists body, ttl.
      split; [done|]. split; [|done]. by apply (Hrel _ b).
    + intros b ttl Hm Hd. cbn. exists s. split; [|done]. right. left. auto.
    + cbn. eexists. split; [right; left; split; [done|by right]|]. by apply cached_as_delete.
    + intros o Ho. cbn. exists s. split; [|done]. right. by right.
  - pose proof (cached_as_delete m s key Hrel) as Hdel.
    intros o m' [[-> ->]|[Ho [->| ->]]]; cbn.
    + eexists. split; [by left|done].
    + exists s. split; [|done]. right. split; [done|by left].
    + eexists. split; [right; split; [done|by right]|done].
Qed.

(** The calls that each method makes, and what it makes of their answers. *)
Definition handled {R} (c : Cache R) : outcome R -> list (Reply Redis) -> Prop :=
  match c in Cache R return outcome R -> list (Reply Redis) -> Prop with
  | CacheSet key body ttl => fun o tr =>
    match wire body with
    | Ok b => tr = [reply (RSet (keyPrefix +:+ key) b ttl) o]
    | Err e => tr = [] /\ o = Returned (Err e)
    end
  | CacheGet key => fun o tr => exists got log,
    tr = reply (RGet (keyPrefix +:+ key)) got :: log /\
    match got with
    | Returned (Ok b) =>
      match decode b with
      | Some body => o = Returned (Ok body) /\ log = []
      | None => exists what attrs logged, log = [reply (RLog (MkLog Warn what attrs)) logged]
          /\ o = match logged with
                 | Returned _ => Returned (Err (session.ErrCacheMiss : error))
                 | Panicked msg => Panicked msg
                 end
      end
    | Returned (Err e) => log = []
        /\ o = Returned (Err (if errors_Is e driver.RedisNil then (session.ErrCacheMiss : error) else e))
    | Panicked msg => log = [] /\ o = Panicked msg
    end
  | CacheDelete key => fun o tr => tr = [reply (RDel (keyPrefix +:+ key)) o]
  end.

Lemma adapter_handled {R} (c : Cache R) : wp replied (adapter c) (handled c) [].
Proof.
  unfold adapter. apply wp_bind. destruct c as [key body ttl|key|key]; cbn [fst].
  - unfold Set_, handled. destruct (wire body) as [b|err] eqn:E; [|done]. by intros o tr ->.
  - destruct (Get_asks tt key) as (k & -> & Hok & Herr & Hpanic). intros o tr ->. destruct o as [[b|e]|msg].
    + destruct (Hok b) as [what ->]. destruct (decode b) as [body|] eqn:Ed.
      * exists (Returned (Ok b)), []. by rewrite Ed.
      * intros o tr ->. destruct o as [[]|msg]; cbn; exists (Returned (Ok b)); eexists; rewrite Ed;
          (split; [done|]); by eexists _, _, _.
    + rewrite Herr. by exists (Returned (Err e)), [].
    + rewrite Hpanic. by exists (Panicked msg), [].
  - by intros o tr ->.
Qed.

(** C23: the Valkey adapter implements the contract of session.Cache: on keys
    whose decodable entries are those of the abstract cache, each of its methods
    answers and changes the keys as the contract allows, whatever is stored under
    other keys or in an unreadable form.  Every method asks the server, once and
    under the prefixed key: [Set] and [Delete] pass its answer on; [Get] answers
    the entry that the stored text stands for, a miss for a missing key and, after
    a warning, for a text that stands for none, and passes any other error on. *)
Theorem valkey_implements_cache {R} (c : Cache R) :
  refines_call (fun R => cache_step) redis_step cached_as (fun R => adapter) c
  /\ wp replied (adapter c) (handled c) [].
Proof. split; [apply valkey_refines|apply adapter_handled]. Qed.

(** C24: what [Set] stored successfully, [Get] answers, unless the entry has
    gone or the server fails. *)
Theorem Set_then_Get tokenHash body ttl m :
  printable (ExpiresAt body) ->
  wp redis_step (Set_ (L := unit) tokenHash body ttl tt) (fun ol m' =>
    ol.1 = Returned (Ok tt) ->
    wp redis_step (Get (L := unit) tokenHash tt) (fun ol' _ =>
      ol'.1 = Returned (Ok body) \/ ol'.1 = Returned (Err (session.ErrCacheMiss : error)) \/ fails ol'.1) m'
    /\ exists m'', runs redis_step (Get (L := unit) tokenHash tt) m' (Returned (Ok body), tt) m'') m.
Proof.
  intros Ht. unfold Set_. destruct (wire body) as [b|err] eqn:E; [|done].
  pose proof (decode_wire _ _ Ht E) as Hd.
  intros o m' [[-> ->]|[Ho _]]; cbn; [|by intros ->; destruct Ho as [(? & ? & _)|[? ?]]].
  intros _. split.
  - apply wp_Get; [|auto..].
    intros b' ttl' body' Hb Hd'. left. unfold Keys in *. rewrite lookup_insert_eq in Hb. by simplify_eq.
  - set (m' := <[_ := _]> m). exists m', (Returned (Ok b)), m'.
    split; [left; exists b, ttl; split; [done|split; [|done]]; apply lookup_insert_eq|].
    cbn. unfold decode in Hd. repeat (case_match; try done); by simplify_eq.
Qed.
End Operations.
