(* ===== verification/Testkit.v ===== *)
(** * internal/usecase/internal_testkit: the in-memory fakes

    The collaborators that the unit tests of the use cases run against: each
    fake is the record of its fields with one function per method, from the
    state to the answer and the next state (the mutex makes every method
    atomic).  [fake] assembles them into an implementation of the interfaces.
    The theorems: the decimal loop terminates and prints decimals, the tokens of
    the generator are valid and all different, and the fakes meet the contract of
    PortSpec.v with every statement in a transaction of its own, as far as they
    check what the tables check. *)
From S2P Require Import Prelude Program GoText GoEncoding GoTime Errors Tenant User Session Outbox Ports PortSpec PortRules.
#[local] Open Scope Z_scope.

(** ** The clock, the hasher and the token generator *)

Record FakeClock := MkFakeClock { T : Time }.
Definition FakeClock_Now (c : FakeClock) : Time := T c.

(** [None] is a nil function. *)
Record FakeHasher := MkFakeHasher {
  HashFn : option (string -> string);
  VerifyFn : option (string -> string -> bool);
}.
Definition FakeHasher_Hash (h : FakeHasher) (raw : string) : res PasswordHash :=
  match HashFn h with
  | Some f => Ok (NewPasswordHash (f raw))
  | None => Ok (NewPasswordHash ("fakehash:" +:+ raw))
  end.
Definition FakeHasher_Verify (h : FakeHasher) (stored : PasswordHash) (raw : string) : res bool :=
  match VerifyFn h with
  | Some f => Ok (f (PasswordHash_String stored) raw)
  | None => Ok (bool_decide (PasswordHash_String stored = "fakehash:" +:+ raw))
  end.

(** [for n > 0 { s = string(rune('0'+n%10)) + s; n /= 10 }]: [None] when the
    rounds run out. *)
Fixpoint digit_loop (rounds : nat) (n : Z) (s : string) : option string :=
  if negb (0 <? n) then Some s else
  match rounds with
  | O => None
  | S r => digit_loop r (Z.quot n 10) (of_bytes [48 + Z.rem n 10] +:+ s)
  end.

(** An [int] has at most 19 decimal digits. *)
Definition intToString (n : Z) : option string :=
  if n =? 0 then Some "0" else digit_loop 19 n "".

Record FakeTokenGen := MkFakeTokenGen { Next : Z }.

(** [None]: the loop of [intToString] has not ended. *)
Definition FakeTokenGen_NewToken (g : FakeTokenGen) : option (res Token) * FakeTokenGen :=
  let g := MkFakeTokenGen (int64_wrap (Next g + 1)) in
  let pad := of_bytes (repeat 97 40) in
  (match intToString (Next g) with
   | Some digits => Some (NewToken (pad +:+ "-" +:+ digits))
   | None => None
   end, g).

(** *** The loop *)

Lemma dec_digits_app fuel n acc acc' : dec_digits fuel n (acc ++ acc') = dec_digits fuel n acc ++ acc'.
Proof.
  revert n acc. induction fuel as [|f IH]; intros n acc; [done|]. cbn. case_match; [done|].
  apply (IH (n / 10) ((48 + n mod 10) :: acc)).
Qed.

Lemma dec_digits_fuel f f' n acc :
  0 <= n -> n < 2 ^ Z.of_nat f -> n < 2 ^ Z.of_nat f' -> f <> 0%nat -> f' <> 0%nat ->
  dec_digits f n acc = dec_digits f' n acc.
Proof.
  revert f' n acc. induction f as [|f IH]; intros [|f'] n acc Hn H1 H2 N1 N2; try done. cbn.
  destruct (Z.ltb_spec n 10); [done|].
  rewrite Nat2Z.inj_succ, Z.pow_succ_r in H1, H2 by lia.
  assert (0 < n / 10) as Hpos by (apply Z.div_str_pos; lia).
  assert (forall m, n < 2 * 2 ^ Z.of_nat m -> n / 10 < 2 ^ Z.of_nat m) as Hd
    by (intros m Hm; apply Z.div_lt_upper_bound; lia).
  apply IH; [lia|auto|auto|..]; intros ->; cbn in *; lia.
Qed.

(** One round of [decimal]. *)
Lemma decimal_step n : 10 <= n -> decimal n = decimal (n / 10) ++ [48 + n mod 10].
Proof.
  intros Hn. unfold decimal at 1. cbn [dec_digits]. destruct (Z.ltb_spec n 10); [lia|].
  pose proof (Z.log2_spec n ltac:(lia)) as [_ Hb].
  rewrite (dec_digits_app _ (n / 10) [] [48 + n mod 10]). f_equal.
  assert (0 < n / 10) by (apply Z.div_str_pos; lia).
  pose proof (Z.log2_spec (n / 10) ltac:(lia)) as [_ Hb'].
  unfold decimal. apply dec_digits_fuel; [lia|..].
  - rewrite Z2Nat.id by apply Z.log2_nonneg. apply Z.div_lt_upper_bound; [lia|].
    rewrite Z.pow_succ_r in Hb by apply Z.log2_nonneg. lia.
  - rewrite Nat2Z.inj_succ, Z2Nat.id by apply Z.log2_nonneg. done.
  - intros E. assert (2 <= Z.log2 n) by (apply (Z.log2_le_mono 4 n); lia). lia.
  - lia.
Qed.

Lemma digit_loop_decimal rounds n s :
  0 <= n < 10 ^ Z.of_nat rounds ->
  digit_loop rounds n s = Some (if 0 <? n then of_bytes (decimal n) +:+ s else s).
Proof.
  revert n s. induction rounds as [|r IH]; intros n s Hn; cbn [digit_loop];
    destruct (Z.ltb_spec 0 n) as [Hpos|Hz]; cbn [negb]; try done.
  - cbn in Hn. lia.
  - rewrite Z.quot_div_nonneg, Z.rem_mod_nonneg by lia.
    rewrite Nat2Z.inj_succ, Z.pow_succ_r in Hn by lia.
    rewrite IH by (split; [apply Z.div_pos; lia|apply Z.div_lt_upper_bound; lia]). f_equal.
    destruct (Z.ltb_spec 0 (n / 10)) as [Hq|Hq].
    + rewrite (decimal_step n), of_bytes_app, string_app_assoc; [done|].
      destruct (decide (10 <= n)); [done|]. rewrite Z.div_small in Hq; lia.
    + assert (n < 10) by (destruct (decide (n < 10)); [done|]; pose proof (Z.div_str_pos n 10); lia).
      unfold decimal. cbn [dec_digits]. rewrite (proj2 (Z.ltb_lt n 10)) by done.
      rewrite Z.mod_small by lia. done.
Qed.

Lemma intToString_spec n :
  min_int64 <= n <= max_int64 -> intToString n = Some (if n <? 0 then "" else Itoa n).
Proof.
  unfold min_int64, max_int64. intros Hn. unfold intToString, Itoa.
  destruct (Z.eqb_spec n 0) as [->|Hne]; [by vm_compute|].
  destruct (Z.ltb_spec n 0) as [Hneg|Hpos].
  - cbn [digit_loop]. destruct (Z.ltb_spec 0 n); [lia|done].
  - rewrite digit_loop_decimal by lia. rewrite (proj2 (Z.ltb_lt 0 n)) by lia.
    by rewrite string_app_nil_r.
Qed.

(** The loop of [intToString] ends for every int, within 19 rounds; its
    result is the decimal text of the number, and the empty text for a negative
    one. *)
Theorem intToString_terminates n :
  min_int64 <= n <= max_int64 -> intToString n = Some (if n <? 0 then "" else Itoa n).
Proof. apply intToString_spec. Qed.

(** *** The tokens *)

Lemma length_decimal k n : 0 <= n < 10 ^ Z.of_nat (S k) -> (1 <= length (decimal n) <= S k)%nat.
Proof.
  revert n. induction k as [|k IH]; intros n Hn; rewrite Nat2Z.inj_succ, Z.pow_succ_r in Hn by lia.
  - cbn in Hn. unfold decimal. cbn [dec_digits]. rewrite (proj2 (Z.ltb_lt n 10)) by lia. cbn. lia.
  - destruct (decide (n < 10)).
    + unfold decimal. cbn [dec_digits]. rewrite (proj2 (Z.ltb_lt n 10)) by lia. cbn. lia.
    + rewrite decimal_step, length_app by lia.
      assert (0 <= n / 10 < 10 ^ Z.of_nat (S k)) as Hd
        by (split; [apply Z.div_pos; lia|apply Z.div_lt_upper_bound; lia]).
      specialize (IH _ Hd). cbn [length]. lia.
Qed.

Lemma bytes_of_decimal n : 0 <= n -> bytes_of (of_bytes (decimal n)) = decimal n.
Proof.
  intros Hn. destruct (decimal_spec n Hn) as (_ & _ & Hall). apply bytes_of_of.
  eapply List.Forall_impl; [|by apply digits_are_digits]. cbn. lia.
Qed.

(** Until its counter overflows the fake generator hands out a valid token
    of 42 to 60 bytes on every call, and calls with different counters give
    different tokens. *)
Theorem FakeTokenGen_tokens g :
  0 <= Next g < max_int64 ->
  exists tok, FakeTokenGen_NewToken g = (Some (Ok (MkToken tok)), MkFakeTokenGen (Next g + 1))
    /\ 42 <= len tok <= 60
    /\ forall g', 0 <= Next g' < max_int64 -> (FakeTokenGen_NewToken g').1 = Some (Ok (MkToken tok)) -> Next g' = Next g.
Proof.
  set (pad := of_bytes (repeat 97 40)).
  assert (forall h, 0 <= Next h < max_int64 ->
    FakeTokenGen_NewToken h = (Some (NewToken (pad +:+ "-" +:+ of_bytes (decimal (Next h + 1)))), MkFakeTokenGen (Next h + 1))
    /\ 42 <= len (pad +:+ "-" +:+ of_bytes (decimal (Next h + 1))) <= 60) as Hgen.
  { intros h Hh. unfold max_int64 in Hh. split.
    - unfold FakeTokenGen_NewToken. cbn [Next]. rewrite int64_wrap_small by (unfold min_int64, max_int64; lia).
      rewrite intToString_spec by (unfold min_int64, max_int64; lia).
      unfold Itoa. by rewrite !(proj2 (Z.ltb_ge (Next h + 1) 0)) by lia.
    - rewrite !len_app, (len_bytes (of_bytes (decimal _))), bytes_of_decimal by lia.
      pose proof (length_decimal 18 (Next h + 1) ltac:(change (10 ^ Z.of_nat 19) with 10000000000000000000; lia)).
      change (len pad) with 40. change (len "-") with 1. lia. }
  intros Hg. destruct (Hgen g Hg) as [E Hlen].
  exists (pad +:+ "-" +:+ of_bytes (decimal (Next g + 1))).
  assert (forall s, 42 <= len s <= 60 -> NewToken s = Ok (MkToken s)) as Hok.
  { intros s Hs. rewrite NewToken_spec. by rewrite decide_True by lia. }
  split; [by rewrite E, Hok|]. split; [done|]. intros g' Hg'. destruct (Hgen g' Hg') as [E' Hlen'].
  rewrite E', Hok by done. cbn [fst]. intros [= Heq].
  apply (f_equal bytes_of) in Heq. rewrite !bytes_of_app, !bytes_of_decimal in Heq by lia.
  apply app_inv_head in Heq.
  pose proof (decimal_spec (Next g' + 1) ltac:(lia)) as [H1 _].
  pose proof (decimal_spec (Next g + 1) ltac:(lia)) as [H2 _]. rewrite Heq in H1. lia.
Qed.

(** ** The repositories *)

(** domain.UnitOfWork without transactions. *)
Definition FakeUoW_Begin : res Tx := Ok (NewTx any_foreign).
Definition FakeUoW_Commit (t : Tx) : res unit := Ok tt.
Definition FakeUoW_Rollback (t : Tx) : res unit := Ok tt.

Section Repositories.
Context `{UuidLib}.

Record FakeUsers := MkFakeUsers { users_byID : gmap UUID User.User; users_byMail : gmap string UUID }.
Definition NewFakeUsers : FakeUsers := MkFakeUsers ∅ ∅.

Definition mail_key (t : ID) (e : Email) : string := Tenant.String t +:+ "|" +:+ Email_String e.

Definition FakeUsers_SaveTx (t : Tx) (u : User.User) (r : FakeUsers) : res unit * FakeUsers :=
  let key := mail_key (User.tenantID u) (User.email u) in
  match users_byMail r !! key with
  | Some _ => (Err (user.ErrEmailTaken : error), r)
  | None => (Ok tt, MkFakeUsers (<[User.id u := u]> (users_byID r)) (<[key := User.id u]> (users_byMail r)))
  end.

(** [time.Time{}]: January 1, year 1, 00:00:00 UTC. *)
Definition zero_Time : Time := -62135596800 * Second.

(** [r.byID[id]] of a missing key is the zero user. *)
Definition zero_user : User.User :=
  User.Hydrate Nil zero_ID (MkEmail "") (NewPasswordHash "") "" zero_Time zero_Time.

Definition FakeUsers_FindByEmail (t : ID) (e : Email) (r : FakeUsers) : res User.User :=
  match users_byMail r !! mail_key t e with
  | None => Err (user.ErrUserNotFound : error)
  | Some i => Ok (default zero_user (users_byID r !! i))
  end.

(** The order of a Go map iteration is not specified: some permutation. *)
Definition FakeUsers_NewListIDs (r : FakeUsers) : list UUID := map fst (map_to_list (users_byID r)).

Definition FakeUsers_FindByID (t : ID) (i : UUID) (r : FakeUsers) : res User.User :=
  match users_byID r !! i with
  | None => Err (user.ErrUserNotFound : error)
  | Some u =>
    if negb (bool_decide (Tenant.String (User.tenantID u) = Tenant.String t))
    then Err (user.ErrUserNotFound : error) else Ok u
  end.

Record FakeSessions := MkFakeSessions {
  sessions_byID : gmap UUID Session.Session;
  sessions_byHash : gmap string UUID;
}.
Definition NewFakeSessions : FakeSessions := MkFakeSessions ∅ ∅.

Definition FakeSessions_SaveTx (t : Tx) (x : Session.Session) (r : FakeSessions) : res unit * FakeSessions :=
  (Ok tt, MkFakeSessions (<[Session.id x := x]> (sessions_byID r))
            (<[Session.tokenHash x := Session.id x]> (sessions_byHash r))).

Definition zero_session : Session.Session := Session.Hydrate Nil zero_ID Nil "" zero_Time zero_Time None.

Definition FakeSessions_FindByTokenHash (hash : string) (r : FakeSessions) : res Session.Session :=
  match sessions_byHash r !! hash with
  | None => Err (session.ErrSessionNotFound : error)
  | Some i => Ok (default zero_session (sessions_byID r !! i))
  end.

Definition FakeSessions_NewListIDs (r : FakeSessions) : list UUID := map fst (map_to_list (sessions_byID r)).

(** [now] is what [time.Now().UTC()] answers. *)
Definition FakeSessions_RevokeTx (now : Time) (tx : Tx) (t : ID) (i : UUID) (r : FakeSessions)
    : res unit * FakeSessions :=
  match sessions_byID r !! i with
  | None => (Err (session.ErrSessionNotFound : error), r)
  | Some s =>
    if negb (bool_decide (Tenant.String (Session.tenantID s) = Tenant.String t))
    then (Err (session.ErrSessionNotFound : error), r) else
    match Session.revokedAt s with
    | Some _ => (Ok tt, r)
    | None =>
      (Ok tt, MkFakeSessions
        (<[i := Session.Hydrate (Session.id s) (Session.tenantID s) (Session.userID s) (Session.tokenHash s)
                  (Session.createdAt s) (Session.expiresAt s) (Some now)]> (sessions_byID r))
        (sessions_byHash r))
    end
  end.
End Repositories.

Record FakeOutbox := MkFakeOutbox { Events : list Event }.
Definition NewFakeOutbox : FakeOutbox := MkFakeOutbox [].
Definition FakeOutbox_WriteTx (t : Tx) (ev : Event) (r : FakeOutbox) : res unit * FakeOutbox :=
  (Ok tt, MkFakeOutbox (Events r ++ [ev])).

(** ** The cache *)

Record FakeCache := MkFakeCache {
  entries : gmap string CachedSession;
  TTLs : gmap string Duration;
  SetCalls : Z;
  GetCalls : Z;
  DelCalls : Z;
  FailSet : bool;
  FailGet : bool;
  FailDel : bool;
  ForceMiss : bool;
}.
Definition NewFakeCache : FakeCache := MkFakeCache ∅ ∅ 0 0 0 false false false false.

(** Assignments to the fields. *)
Definition set_maps (es : gmap string CachedSession) (ts : gmap string Duration) (c : FakeCache) : FakeCache :=
  MkFakeCache es ts (SetCalls c) (GetCalls c) (DelCalls c) (FailSet c) (FailGet c) (FailDel c) (ForceMiss c).
Definition count (set get del : Z) (c : FakeCache) : FakeCache :=
  MkFakeCache (entries c) (TTLs c) (int64_wrap (SetCalls c + set)) (int64_wrap (GetCalls c + get))
    (int64_wrap (DelCalls c + del)) (FailSet c) (FailGet c) (FailDel c) (ForceMiss c).

(** Installs an entry without counting. *)
Definition FakeCache_Seed (tokenHash : string) (body : CachedSession) (ttl : Duration) (c : FakeCache) : FakeCache :=
  set_maps (<[tokenHash := body]> (entries c)) (<[tokenHash := ttl]> (TTLs c)) c.

Definition FakeCache_Set (tokenHash : string) (body : CachedSession) (ttl : Duration) (c : FakeCache)
    : res unit * FakeCache :=
  let c := count 1 0 0 c in
  if FailSet c then (Err (EOther "fake cache set failure"), c)
  else (Ok tt, set_maps (<[tokenHash := body]> (entries c)) (<[tokenHash := ttl]> (TTLs c)) c).

Definition FakeCache_Get (tokenHash : string) (c : FakeCache) : res CachedSession * FakeCache :=
  let c := count 0 1 0 c in
  if FailGet c then (Err (EOther "fake cache get failure"), c)
  else if ForceMiss c then (Err (session.ErrCacheMiss : error), c)
  else match entries c !! tokenHash with
       | None => (Err (session.ErrCacheMiss : error), c)
       | Some v => (Ok v, c)
       end.

Definition FakeCache_Delete (tokenHash : string) (c : FakeCache) : res unit * FakeCache :=
  let c := count 0 0 1 c in
  if FailDel c then (Err (EOther "fake cache delete failure"), c)
  else (Ok tt, set_maps (delete tokenHash (entries c)) (delete tokenHash (TTLs c)) c).

Definition FakeCache_Has (tokenHash : string) (c : FakeCache) : bool := bool_decide (is_Some (entries c !! tokenHash)).
Definition FakeCache_TTL (tokenHash : string) (c : FakeCache) : Duration := default 0 (TTLs c !! tokenHash).

(** ** The fakes as an implementation of the interfaces *)

Record Kit := MkKit {
  k_clock : FakeClock;
  k_hasher : FakeHasher;
  k_tokens : FakeTokenGen;
  k_users : FakeUsers;
  k_sessions : FakeSessions;
  k_outbox : FakeOutbox;
  k_cache : FakeCache;
}.

(** Assignments to the collaborators. *)
Definition with_users (r : FakeUsers) (k : Kit) : Kit :=
  MkKit (k_clock k) (k_hasher k) (k_tokens k) r (k_sessions k) (k_outbox k) (k_cache k).
Definition with_sessions (r : FakeSessions) (k : Kit) : Kit :=
  MkKit (k_clock k) (k_hasher k) (k_tokens k) (k_users k) r (k_outbox k) (k_cache k).
Definition with_outbox (r : FakeOutbox) (k : Kit) : Kit :=
  MkKit (k_clock k) (k_hasher k) (k_tokens k) (k_users k) (k_sessions k) r (k_cache k).
Definition with_cache (c : FakeCache) (k : Kit) : Kit :=
  MkKit (k_clock k) (k_hasher k) (k_tokens k) (k_users k) (k_sessions k) (k_outbox k) c.

Section Fakes.
Context `{UuidLib}.

(** The repository and cache calls, on the fakes; [now] is [time.Now]. *)
Inductive Fake : Type -> Type :=
| FUsers {R} (c : UserRepository R) : Fake R
| FSessions {R} (c : SessionRepository R) : Fake R
| FOutbox {R} (c : OutboxRepository R) : Fake R
| FCache {R} (c : Cache R) : Fake R.

Definition fake (now : Time) {R} (c : Fake R) (k : Kit) : R * Kit :=
  match c in Fake R return R * Kit with
  | FUsers c =>
    match c in UserRepository R return R * Kit with
    | UserSaveTx tx u => let '(r, us) := FakeUsers_SaveTx tx u (k_users k) in (r, with_users us k)
    | FindByEmail t e => (FakeUsers_FindByEmail t e (k_users k), k)
    | FindByID t i => (FakeUsers_FindByID t i (k_users k), k)
    end
  | FSessions c =>
    match c in SessionRepository R return R * Kit with
    | SessionSaveTx tx x => let '(r, xs) := FakeSessions_SaveTx tx x (k_sessions k) in (r, with_sessions xs k)
    | FindByTokenHash h => (FakeSessions_FindByTokenHash h (k_sessions k), k)
    | RevokeTx tx t i => let '(r, xs) := FakeSessions_RevokeTx now tx t i (k_sessions k) in (r, with_sessions xs k)
    end
  | FOutbox c =>
    match c in OutboxRepository R return R * Kit with
    | WriteTx tx ev => let '(r, o) := FakeOutbox_WriteTx tx ev (k_outbox k) in (r, with_outbox o k)
    end
  | FCache c =>
    match c in Cache R return R * Kit with
    | CacheSet key body ttl => let '(r, c) := FakeCache_Set key body ttl (k_cache k) in (r, with_cache c k)
    | CacheGet key => let '(r, c) := FakeCache_Get key (k_cache k) in (r, with_cache c k)
    | CacheDelete key => let '(r, c) := FakeCache_Delete key (k_cache k) in (r, with_cache c k)
    end
  end.

(** *** The abstract system the fakes stand for *)

Definition view (k : Kit) : Sys :=
  MkSys (MkStore (users_byID (k_users k)) (sessions_byID (k_sessions k))
           (list_to_map (map (fun e => (Outbox.id e, e)) (rev (Events (k_outbox k))))))
    ∅ (map_zip (entries (k_cache k)) (TTLs (k_cache k))) (T (k_clock k)) [].

(** The two maps of each fake agree. *)
Record kit_ok (k : Kit) : Prop := {
  ko_users : forall i u, users_byID (k_users k) !! i = Some u ->
    User.id u = i /\ users_byMail (k_users k) !! mail_key (User.tenantID u) (User.email u) = Some i;
  ko_mails : forall key i, users_byMail (k_users k) !! key = Some i ->
    exists u, users_byID (k_users k) !! i = Some u /\ mail_key (User.tenantID u) (User.email u) = key;
  ko_sessions : forall i x, sessions_byID (k_sessions k) !! i = Some x ->
    Session.id x = i /\ sessions_byHash (k_sessions k) !! Session.tokenHash x = Some i;
  ko_hashes : forall h i, sessions_byHash (k_sessions k) !! h = Some i ->
    exists x, sessions_byID (k_sessions k) !! i = Some x /\ Session.tokenHash x = h;
  ko_cache : forall key, is_Some (entries (k_cache k) !! key) <-> is_Some (TTLs (k_cache k) !! key);
}.

(** The statements on which the fakes and the tables agree: the fakes do not
    check the primary keys, the token digest, the owner of a session and the id
    of an event, and they do not round times to microseconds. *)
Definition admissible {R} (c : Fake R) (k : Kit) : Prop :=
  match c with
  | FUsers (UserSaveTx _ u) => users_byID (k_users k) !! User.id u = None /\ stored_user u = u
  | FSessions (SessionSaveTx _ x) =>
    ~ session_conflict (committed (view k)) x /\ is_Some (users_byID (k_users k) !! Session.userID x)
    /\ stored_session x = x
  | FOutbox (WriteTx _ ev) => events (committed (view k)) !! Outbox.id ev = None /\ stored_event ev = ev
  | _ => True
  end.

(** A statement in a transaction of its own, which is then committed, or rolled
    back when the statement has aborted it. *)
Definition alone {R} (statement : Tx -> Sys -> outcome R -> Sys -> Prop) (s : Sys) (r : R) (s' : Sys) : Prop :=
  exists h s1, txs s !! h = None /\ statement (tx_of h) (tx_at h [] s) (Returned r) s1
  /\ ((exists ws, s1 = tx_at h ws s /\ s' = set_committed (tx_view s ws) s) \/ (s1 = tx_dead h s /\ s' = s)).

(** The contract of PortSpec.v, every statement in a transaction of its own. *)
Definition autocommit {R} (c : Fake R) : Sys -> R -> Sys -> Prop :=
  match c in Fake R return Sys -> R -> Sys -> Prop with
  | FUsers c =>
    match c in UserRepository R return Sys -> R -> Sys -> Prop with
    | UserSaveTx _ u => alone (fun tx => users_step (UserSaveTx tx u))
    | FindByEmail t e => fun s r s' => users_step (FindByEmail t e) s (Returned r) s'
    | FindByID t i => fun s r s' => users_step (FindByID t i) s (Returned r) s'
    end
  | FSessions c =>
    match c in SessionRepository R return Sys -> R -> Sys -> Prop with
    | SessionSaveTx _ x => alone (fun tx => sessions_step (SessionSaveTx tx x))
    | FindByTokenHash h => fun s r s' => sessions_step (FindByTokenHash h) s (Returned r) s'
    | RevokeTx _ t i => alone (fun tx => sessions_step (RevokeTx tx t i))
    end
  | FOutbox c =>
    match c in OutboxRepository R return Sys -> R -> Sys -> Prop with
    | WriteTx _ ev => alone (fun tx => outbox_step (WriteTx tx ev))
    end
  | FCache c => fun s r s' => cache_step c s (Returned r) s'
  end.

(** On the view of the fakes, which has no open transaction. *)
Lemma alone_writes {R} (statement : Tx -> Sys -> outcome R -> Sys -> Prop) k r ws :
  statement (tx_of 1) (tx_at 1 [] (view k)) (Returned r) (tx_at 1 ws (view k)) ->
  alone statement (view k) r (set_committed (tx_view (view k) ws) (view k)).
Proof. intros Hs. exists 1%positive, (tx_at 1 ws (view k)). split; [done|]. split; [done|]. left. by exists ws. Qed.

Lemma alone_aborts {R} (statement : Tx -> Sys -> outcome R -> Sys -> Prop) k r :
  statement (tx_of 1) (tx_at 1 [] (view k)) (Returned r) (tx_dead 1 (view k)) ->
  alone statement (view k) r (view k).
Proof. intros Hs. exists 1%positive, (tx_dead 1 (view k)). split; [done|]. split; [done|]. by right. Qed.

Lemma view_unblocked k w : unblocked (tx_at 1 [] (view k)) 1 w.
Proof. intros h ws w' Hh Hne. cbn in Hh. by rewrite lookup_insert_ne, lookup_empty in Hh. Qed.

(** The statement finds the transaction open and without writes. *)
#[local] Ltac in_alone := cbn -[tx_at tx_dead tx_view view]; unfold in_tx; rewrite open_tx_at; left;
  rewrite ?write_in_at, ?abort_in_at.

Lemma split_at_bar a b c d :
  Forall (fun x => x <> 124) a -> Forall (fun x => x <> 124) c ->
  a ++ 124 :: b = c ++ 124 :: d -> a = c /\ b = d.
Proof.
  intros Ha. revert c. induction Ha as [|x a Hx _ IH]; intros [|y c] Hc E; cbn in E; injection E; intros; subst.
  - done.
  - by apply Forall_cons in Hc as [? _].
  - done.
  - apply Forall_cons in Hc as [_ Hc]. by destruct (IH c Hc) as [-> ->].
Qed.

Lemma mail_key_inj t e t' e' : mail_key t e = mail_key t' e' <-> t = t' /\ e = e'.
Proof.
  split; [|by intros [-> ->]]. intros E. apply (f_equal bytes_of) in E. unfold mail_key in E.
  rewrite !bytes_of_app in E.
  assert (forall t, Forall (fun x => x <> 124) (bytes_of (Tenant.String t))) as Hno.
  { intros i. eapply Forall_impl; [apply uuid_String_chars|]. unfold uuid_char. cbn. lia. }
  apply split_at_bar in E as [E1 E2]; [|apply Hno..].
  apply (f_equal of_bytes) in E1, E2. rewrite !of_bytes_of in E1, E2.
  split; [by apply String_inj|]. destruct e, e'. cbn in E2. by subst.
Qed.

(** The conflicts the fake checks are those of the store. *)
Lemma fake_conflict k u :
  kit_ok k -> users_byID (k_users k) !! User.id u = None ->
  is_Some (users_byMail (k_users k) !! mail_key (User.tenantID u) (User.email u))
  <-> user_conflict (committed (view k)) u.
Proof.
  intros Hk Hfresh. unfold user_conflict. cbn. split.
  - intros [i Hi]. right. destruct (ko_mails k Hk _ _ Hi) as (v & Hv & E).
    apply mail_key_inj in E as [? ?]. eauto.
  - intros [[v Hv]|(i & v & Hv & Ht & He)]; [congruence|].
    destruct (ko_users k Hk i v Hv) as [_ Hm]. rewrite Ht, He in Hm. by eexists.
Qed.

Lemma string_eqb_tenant t t' : negb (bool_decide (Tenant.String t = Tenant.String t')) = negb (bool_decide (t = t')).
Proof. f_equal. apply bool_decide_ext. split; [apply String_inj|by intros ->]. Qed.

Lemma fake_users_refine now {R} (c : UserRepository R) k :
  kit_ok k -> admissible (FUsers c) k ->
  kit_ok (fake now (FUsers c) k).2 /\ autocommit (FUsers c) (view k) (fake now (FUsers c) k).1 (view (fake now (FUsers c) k).2).
Proof.
  intros Hk Hf. destruct c as [tx u|t e|t i]; cbn [fake fst snd].
  - destruct Hf as [Hf Hround]. pose proof (fake_conflict k u Hk Hf) as Hc. unfold FakeUsers_SaveTx.
    destruct (users_byMail (k_users k) !! mail_key _ _) as [j|] eqn:E; cbn [fst snd].
    + replace (with_users (k_users k) k) with k by by destruct k. split; [done|].
      apply alone_aborts. in_alone. right. split; [done|]. split; [apply Hc; by eexists|done].
    + split; [|apply (alone_writes _ k _ [WUser u]); in_alone; left; rewrite Hround; split; [done|];
        split; [intros Hu; apply Hc in Hu as [? ?]; congruence|]; split; [apply view_unblocked|done]].
      destruct Hk as [H1 H2 H3 H4 H5]. split; cbn; try done.
      * intros i v. rewrite !lookup_insert_Some. intros [[<- <-]|[Hne Hv]]; [by split; [|left]|].
        destruct (H1 i v Hv) as [<- Hm]. split; [done|]. right. split; [|done]. intros Ek. congruence.
      * intros key i. rewrite lookup_insert_Some. intros [[<- <-]|[Hne Hi]].
        -- exists u. by rewrite lookup_insert_eq.
        -- destruct (H2 key i Hi) as (v & Hv & Hkey). exists v. split; [|done].
           rewrite lookup_insert_ne; [done|]. intros Ei. congruence.
  - split; [done|]. split; [done|]. unfold FakeUsers_FindByEmail.
    destruct (users_byMail (k_users k) !! mail_key t e) as [i|] eqn:E.
    + left. destruct (ko_mails k Hk _ _ E) as (v & Hv & Hkey). apply mail_key_inj in Hkey as [? ?].
      exists i, v. rewrite Hv. by cbn.
    + right. left. split; [done|]. intros i v Hv [Ht He].
      destruct (ko_users k Hk i v Hv) as [_ Hm]. rewrite Ht, He in Hm. congruence.
  - split; [done|]. split; [done|]. unfold FakeUsers_FindByID.
    destruct (users_byID (k_users k) !! i) as [v|] eqn:E.
    + rewrite string_eqb_tenant. case_bool_decide as Ht; cbn [negb].
      * left. by exists v.
      * right. left. split; [done|]. cbn. intros v' Hv'. congruence.
    + right. left. split; [done|]. cbn. congruence.
Qed.

Lemma fake_sessions_refine now {R} (c : SessionRepository R) k :
  kit_ok k -> admissible (FSessions c) k ->
  kit_ok (fake now (FSessions c) k).2
  /\ autocommit (FSessions c) (view k) (fake now (FSessions c) k).1 (view (fake now (FSessions c) k).2).
Proof.
  intros Hk Hf. destruct c as [tx x|h|tx t i]; cbn [fake fst snd].
  - destruct Hf as (Hf & Howner & Hround). split.
    2:{ apply (alone_writes _ k _ [WSession x]). in_alone. rewrite Hround.
        split; [done|]. split; [exact Hf|]. split; [apply view_unblocked|]. by split. }
    assert (sessions_byID (k_sessions k) !! Session.id x = None) as Hid.
    { apply eq_None_not_Some. intros Hs. apply Hf. by left. }
    destruct Hk as [H1 H2 H3 H4 H5]. split; cbn; try done.
    + intros i y. rewrite !lookup_insert_Some. intros [[<- <-]|[Hne Hy]]; [by split; [|left]|].
      destruct (H3 i y Hy) as [<- Hh]. split; [done|]. right. split; [|done].
      intros Eh. apply Hf. right. by exists (Session.id y), y.
    + intros h i. rewrite lookup_insert_Some. intros [[<- <-]|[Hne Hi]].
      * exists x. by rewrite lookup_insert_eq.
      * destruct (H4 h i Hi) as (y & Hy & Hh). exists y. split; [|done].
        rewrite lookup_insert_ne; [done|]. intros Ei. congruence.
  - split; [done|]. split; [done|]. unfold FakeSessions_FindByTokenHash.
    destruct (sessions_byHash (k_sessions k) !! h) as [i|] eqn:E.
    + left. destruct (ko_hashes k Hk _ _ E) as (y & Hy & Hh). exists i, y. rewrite Hy. by cbn.
    + right. left. split; [done|]. intros i y Hy Hh.
      destruct (ko_sessions k Hk i y Hy) as [_ Hm]. rewrite Hh in Hm. congruence.
  - assert (forall r, (forall y, sessions_byID (k_sessions k) !! i = Some y -> Session.tenantID y <> t) ->
      r = Err (session.ErrSessionNotFound : error) -> alone (fun tx => sessions_step (RevokeTx tx t i)) (view k) r (view k)) as Hnone.
    { intros r Hno ->. refine (eq_rect _ (alone _ _ _) (alone_writes _ k _ [] _) _ _); [|by destruct k].
      in_alone. by right. }
    unfold FakeSessions_RevokeTx. destruct (sessions_byID (k_sessions k) !! i) as [x|] eqn:E; cbn [fst snd].
    2:{ replace (with_sessions (k_sessions k) k) with k by by destruct k. split; [done|]. apply Hnone; [congruence|done]. }
    rewrite string_eqb_tenant. case_bool_decide as Ht; cbn [negb fst snd].
    2:{ replace (with_sessions (k_sessions k) k) with k by by destruct k. split; [done|]. apply Hnone; [congruence|done]. }
    assert (alter (revoke now) i (sessions_byID (k_sessions k)) = <[i := revoke now x]> (sessions_byID (k_sessions k))) as Ha.
    { apply map_eq. intros j. destruct (decide (i = j)) as [<-|Hne].
      - by rewrite lookup_alter_eq, lookup_insert_eq, E.
      - by rewrite lookup_alter_ne, lookup_insert_ne. }
    assert (forall s', s' = set_committed (tx_view (view k) [WRevoke i now]) (view k) ->
      alone (fun tx => sessions_step (RevokeTx tx t i)) (view k) (Ok tt) s') as Hrevoked.
    { intros s' ->. apply (alone_writes _ k _ [WRevoke i now]). in_alone. left. by exists x, now. }
    destruct (Session.revokedAt x) as [at_|] eqn:Er; cbn [fst snd].
    + replace (with_sessions (k_sessions k) k) with k by by destruct k. split; [done|]. apply Hrevoked.
      unfold set_committed, tx_view. cbn. rewrite Ha.
      replace (revoke now x) with x by (destruct x; cbn in *; by subst). by rewrite insert_id by done.
    + split.
      * destruct Hk as [H1 H2 H3 H4 H5]. split; cbn; try done.
        -- intros j y. rewrite lookup_insert_Some. intros [[<- <-]|[Hne Hy]]; [cbn; by apply H3|by apply H3].
        -- intros h j Hj. destruct (H4 h j Hj) as (y & Hy & Hh). destruct (decide (i = j)) as [<-|Hne].
           ++ eexists. rewrite lookup_insert_eq. split; [done|]. cbn. congruence.
           ++ exists y. by rewrite lookup_insert_ne.
      * apply Hrevoked. unfold set_committed, tx_view. cbn. rewrite Ha. unfold revoke. by rewrite Er.
Qed.

Lemma kit_ok_cache k c :
  (forall key, is_Some (entries c !! key) <-> is_Some (TTLs c !! key)) -> kit_ok k -> kit_ok (with_cache c k).
Proof. intros Hc [H1 H2 H3 H4 _]. by split. Qed.

Lemma view_cache k c : view (with_cache c k) = set_cache (map_zip (entries c) (TTLs c)) (view k).
Proof. done. Qed.

Lemma fake_cache_refine now {R} (c : Cache R) k :
  kit_ok k -> kit_ok (fake now (FCache c) k).2
  /\ cache_step c (view k) (Returned (fake now (FCache c) k).1) (view (fake now (FCache c) k).2).
Proof.
  intros Hk. pose proof (ko_cache k Hk) as Hdom. destruct c as [key body ttl|key|key]; cbn [fake].
  - unfold FakeCache_Set. cbn [FailSet count]. destruct (FailSet (k_cache k)); cbn [fst snd].
    + split; [by apply kit_ok_cache|]. right. split; [left; by eexists|by left].
    + split.
      * apply kit_ok_cache; [|done]. intros key'. cbn. rewrite !lookup_insert_is_Some'. by rewrite (Hdom key').
      * left. split; [done|]. rewrite view_cache. cbn. unfold set_cache. cbn. f_equal.
        by rewrite map_insert_zip_with.
  - unfold FakeCache_Get. cbn [FailGet ForceMiss entries count]. destruct (FailGet (k_cache k)); cbn [fst snd].
    + split; [by apply kit_ok_cache|]. right. right. split; [left; by eexists|done].
    + destruct (ForceMiss (k_cache k)); cbn [fst snd].
      * split; [by apply kit_ok_cache|]. right. left. split; [done|by left].
      * destruct (entries (k_cache k) !! key) as [v|] eqn:E; cbn [fst snd]; (split; [by apply kit_ok_cache|]).
        -- left. destruct (proj1 (Hdom key)) as [ttl Ht]; [by eexists|]. exists v, ttl.
           split; [done|]. split; [|done]. cbn. by rewrite map_lookup_zip_with, E, Ht.
        -- right. left. split; [done|by left].
  - unfold FakeCache_Delete. cbn [FailDel count]. destruct (FailDel (k_cache k)); cbn [fst snd].
    + split; [by apply kit_ok_cache|]. right. split; [left; by eexists|by left].
    + split.
      * apply kit_ok_cache; [|done]. intros key'. cbn. rewrite !lookup_delete_is_Some. by rewrite (Hdom key').
      * left. split; [done|]. rewrite view_cache. cbn. unfold set_cache. cbn. f_equal.
        by rewrite map_delete_zip_with.
Qed.

Lemma fake_outbox_refine now {R} (c : OutboxRepository R) k :
  kit_ok k -> admissible (FOutbox c) k -> kit_ok (fake now (FOutbox c) k).2
  /\ autocommit (FOutbox c) (view k) (fake now (FOutbox c) k).1 (view (fake now (FOutbox c) k).2).
Proof.
  intros Hk Hf. destruct c as [tx ev]. destruct Hf as [Hid Hround]. cbn [fake FakeOutbox_WriteTx fst snd].
  split; [by destruct Hk|].
  refine (eq_rect _ (alone _ _ _) (alone_writes _ k _ [WEvent ev] _) _ _).
  - in_alone. rewrite Hround. split; [done|]. split; [exact Hid|]. split; [apply view_unblocked|done].
  - unfold view, set_committed, tx_view. cbn. by rewrite rev_app_distr.
Qed.

(** C30: the fakes of the unit tests meet the contract of PortSpec.v that the
    use cases are verified against, every statement in a transaction of its own:
    which rows a lookup finds, when an address is taken, what a revocation
    changes, hits and misses of the cache and its injected failures.  This is for
    statements that violate none of the constraints that the fakes do not check
    ([admissible]: an id, a token digest or an event id in use, a session without
    a stored owner) and for times of whole microseconds. *)
Theorem fakes_meet_contract now {R} (c : Fake R) k :
  kit_ok k -> admissible c k ->
  kit_ok (fake now c k).2 /\ autocommit c (view k) (fake now c k).1 (view (fake now c k).2).
Proof.
  intros Hk Hf. destruct c as [R c|R c|R c|R c];
    [by apply fake_users_refine|by apply fake_sessions_refine|by apply fake_outbox_refine|by apply fake_cache_refine].
Qed.

End Fakes.
