(* ===== verification/Config.v ===== *)
(** * Package [internal/config]: the configuration read from the environment

    The theorems: what [Load] accepts, rejects and computes; the settings are
    sane when the numbers are of reasonable size; and the sizes it does not
    check. *)
From S2P Require Import Prelude GoText GoTime Errors.
#[local] Open Scope Z_scope.

Definition defaultAddr : string := ":8080".
Definition defaultSessionTTLHrs : Z := 168.
Definition defaultArgon2MemoryKi : Z := 65536.
Definition defaultArgon2Time : Z := 3.
Definition defaultArgon2Para : Z := 1.
Definition defaultValkeyDialTimeoutMs : Z := 200.
Definition defaultValkeyOpTimeoutMs : Z := 100.

Record Config := MkConfig {
  Addr : string;
  PostgresURL : string;
  CookieSecure : bool;
  SessionTTL : Duration;
  Argon2MemoryKiB : Z;
  Argon2Time : Z;
  Argon2Parallel : Z;
  AllowedOrigins : list string;
  RunMigrationsOnBoot : bool;
  ValkeyURL : string;
  ValkeyDialTimeout : Duration;
  ValkeyOpTimeout : Duration;
}.

(** Assignments to the fields that [Load] changes after the defaults. *)
Definition set_SessionTTL (v : Duration) (c : Config) : Config :=
  MkConfig (Addr c) (PostgresURL c) (CookieSecure c) v (Argon2MemoryKiB c) (Argon2Time c) (Argon2Parallel c)
    (AllowedOrigins c) (RunMigrationsOnBoot c) (ValkeyURL c) (ValkeyDialTimeout c) (ValkeyOpTimeout c).
Definition set_Argon2MemoryKiB (v : Z) (c : Config) : Config :=
  MkConfig (Addr c) (PostgresURL c) (CookieSecure c) (SessionTTL c) v (Argon2Time c) (Argon2Parallel c)
    (AllowedOrigins c) (RunMigrationsOnBoot c) (ValkeyURL c) (ValkeyDialTimeout c) (ValkeyOpTimeout c).
Definition set_Argon2Time (v : Z) (c : Config) : Config :=
  MkConfig (Addr c) (PostgresURL c) (CookieSecure c) (SessionTTL c) (Argon2MemoryKiB c) v (Argon2Parallel c)
    (AllowedOrigins c) (RunMigrationsOnBoot c) (ValkeyURL c) (ValkeyDialTimeout c) (ValkeyOpTimeout c).
Definition set_Argon2Parallel (v : Z) (c : Config) : Config :=
  MkConfig (Addr c) (PostgresURL c) (CookieSecure c) (SessionTTL c) (Argon2MemoryKiB c) (Argon2Time c) v
    (AllowedOrigins c) (RunMigrationsOnBoot c) (ValkeyURL c) (ValkeyDialTimeout c) (ValkeyOpTimeout c).
Definition set_AllowedOrigins (v : list string) (c : Config) : Config :=
  MkConfig (Addr c) (PostgresURL c) (CookieSecure c) (SessionTTL c) (Argon2MemoryKiB c) (Argon2Time c)
    (Argon2Parallel c) v (RunMigrationsOnBoot c) (ValkeyURL c) (ValkeyDialTimeout c) (ValkeyOpTimeout c).
Definition set_ValkeyDialTimeout (v : Duration) (c : Config) : Config :=
  MkConfig (Addr c) (PostgresURL c) (CookieSecure c) (SessionTTL c) (Argon2MemoryKiB c) (Argon2Time c)
    (Argon2Parallel c) (AllowedOrigins c) (RunMigrationsOnBoot c) (ValkeyURL c) v (ValkeyOpTimeout c).
Definition set_ValkeyOpTimeout (v : Duration) (c : Config) : Config :=
  MkConfig (Addr c) (PostgresURL c) (CookieSecure c) (SessionTTL c) (Argon2MemoryKiB c) (Argon2Time c)
    (Argon2Parallel c) (AllowedOrigins c) (RunMigrationsOnBoot c) (ValkeyURL c) (ValkeyDialTimeout c) v.

Section Load.
(** [os.Getenv]: the empty string when the variable is unset. *)
Context (env : string -> string).

Definition envOr (key fallback : string) : string :=
  let v := env key in if negb (bool_decide (v = "")) then v else fallback.

Definition envBool (key : string) (fallback : bool) : bool :=
  let v := env key in
  if bool_decide (v = "") then fallback
  else if bool_decide (v ∈ ["1"; "true"; "TRUE"; "yes"; "YES"]) then true
  else if bool_decide (v ∈ ["0"; "false"; "FALSE"; "no"; "NO"]) then false
  else fallback.

(** One block [if v := os.Getenv(key); v != "" { n, err := strconv.Atoi(v);
    if err != nil || n <= 0 || limit(n) { return ErrInvalidInt }; cfg = set(n) }]. *)
Definition int_block (key : string) (limit : Z -> bool) (set : Z -> Config -> Config)
    (r : res Config) : res Config :=
  match r with
  | Err e => Err e
  | Ok cfg =>
    let v := env key in
    if bool_decide (v = "") then Ok cfg else
    match Atoi v with
    | None => Err (config.ErrInvalidInt : error)
    | Some n => if (n <=? 0) || limit n then Err (config.ErrInvalidInt : error) else Ok (set n cfg)
    end
  end.

Definition no_limit (n : Z) : bool := false.

Definition defaults : Config :=
  MkConfig (envOr "ADDR" defaultAddr) (env "POSTGRES_URL") (envBool "COOKIE_SECURE" true)
    (duration_mul defaultSessionTTLHrs Hour) defaultArgon2MemoryKi defaultArgon2Time defaultArgon2Para []
    (envBool "RUN_MIGRATIONS_ON_BOOT" false) (env "VALKEY_URL")
    (duration_mul defaultValkeyDialTimeoutMs Millisecond) (duration_mul defaultValkeyOpTimeoutMs Millisecond).

Definition numbers (cfg : Config) : res Config :=
  int_block "ARGON2_PARALLELISM" (fun n => 255 <? n) (fun n => set_Argon2Parallel (uint8_wrap n))
  (int_block "ARGON2_TIME" no_limit (fun n => set_Argon2Time (uint32_wrap n))
  (int_block "ARGON2_MEMORY_KIB" no_limit (fun n => set_Argon2MemoryKiB (uint32_wrap n))
  (int_block "SESSION_TTL_HOURS" no_limit (fun n => set_SessionTTL (duration_mul n Hour))
  (int_block "VALKEY_OP_TIMEOUT_MS" no_limit (fun n => set_ValkeyOpTimeout (duration_mul n Millisecond))
  (int_block "VALKEY_DIAL_TIMEOUT_MS" no_limit (fun n => set_ValkeyDialTimeout (duration_mul n Millisecond))
  (Ok cfg)))))).

(** The loop over the entries of ALLOWED_ORIGINS. *)
Fixpoint append_origins (entries : list string) (cfg : Config) : Config :=
  match entries with
  | [] => cfg
  | p :: rest =>
    let p := TrimSpace p in
    append_origins rest
      (if negb (bool_decide (p = "")) then set_AllowedOrigins (AllowedOrigins cfg ++ [p]) cfg else cfg)
  end.

Definition Load : res Config :=
  let cfg := defaults in
  if bool_decide (PostgresURL cfg = "") then Err (config.ErrMissingPostgresURL : error) else
  if bool_decide (ValkeyURL cfg = "") then Err (config.ErrMissingValkeyURL : error) else
  match numbers cfg with
  | Err e => Err e
  | Ok cfg =>
    let cfg := append_origins (Split (env "ALLOWED_ORIGINS") ","%char) cfg in
    if bool_decide (AllowedOrigins cfg = []) then Err (config.ErrMissingAllowedOrigins : error) else Ok cfg
  end.

(** ** What Load computes *)

(** A variable that is unset or a decimal number from 1 to [max]. *)
Definition valid_int (key : string) (max : Z) : Prop :=
  env key = "" \/ exists n, Atoi (env key) = Some n /\ 1 <= n <= max.

(** The number a variable stands for. *)
Definition int_or (key : string) (fallback : Z) : Z :=
  if bool_decide (env key = "") then fallback else default fallback (Atoi (env key)).

Definition valid_ints : Prop :=
  valid_int "VALKEY_DIAL_TIMEOUT_MS" max_int64 /\ valid_int "VALKEY_OP_TIMEOUT_MS" max_int64
  /\ valid_int "SESSION_TTL_HOURS" max_int64 /\ valid_int "ARGON2_MEMORY_KIB" max_int64
  /\ valid_int "ARGON2_TIME" max_int64 /\ valid_int "ARGON2_PARALLELISM" 255.

Definition origins : list string :=
  List.filter (fun p => negb (bool_decide (p = ""))) (map TrimSpace (Split (env "ALLOWED_ORIGINS") ","%char)).

Definition loaded : Config :=
  MkConfig (envOr "ADDR" defaultAddr) (env "POSTGRES_URL") (envBool "COOKIE_SECURE" true)
    (duration_mul (int_or "SESSION_TTL_HOURS" defaultSessionTTLHrs) Hour)
    (uint32_wrap (int_or "ARGON2_MEMORY_KIB" defaultArgon2MemoryKi))
    (uint32_wrap (int_or "ARGON2_TIME" defaultArgon2Time))
    (uint8_wrap (int_or "ARGON2_PARALLELISM" defaultArgon2Para)) origins
    (envBool "RUN_MIGRATIONS_ON_BOOT" false) (env "VALKEY_URL")
    (duration_mul (int_or "VALKEY_DIAL_TIMEOUT_MS" defaultValkeyDialTimeoutMs) Millisecond)
    (duration_mul (int_or "VALKEY_OP_TIMEOUT_MS" defaultValkeyOpTimeoutMs) Millisecond).

Lemma Atoi_bounds s n : Atoi s = Some n -> min_int64 <= n <= max_int64.
Proof. unfold Atoi. destruct (parse_decimal _); [|done]. case_match; [|done]. intros [= <-]. lia. Qed.

(** A block keeps an error, sets the field of a valid number, and rejects any
    other text. *)
Lemma int_block_spec key max limit set fallback cfg :
  (forall n, n <= max_int64 -> limit n = (max <? n)) ->
  set fallback cfg = cfg ->
  (valid_int key max /\ int_block key limit set (Ok cfg) = Ok (set (int_or key fallback) cfg))
  \/ (~ valid_int key max /\ int_block key limit set (Ok cfg) = Err (config.ErrInvalidInt : error)).
Proof.
  intros Hl Hf. unfold int_block, valid_int, int_or.
  case_bool_decide as Hv; [left; rewrite Hf; auto|].
  destruct (Atoi (env key)) as [n|] eqn:E.
  - rewrite Hl by apply (Atoi_bounds _ _ E).
    destruct ((n <=? 0) || (max <? n)) eqn:Eb; [right|left].
    + split; [|done]. intros [?|(m & [= <-] & Hm)]; [done|lia].
    + split; [|done]. right. exists n. split; [done|lia].
  - right. split; [|done]. by intros [?|(m & ? & _)].
Qed.

Lemma append_origins_spec entries cfg :
  append_origins entries cfg =
    set_AllowedOrigins (AllowedOrigins cfg
      ++ List.filter (fun p => negb (bool_decide (p = ""))) (map TrimSpace entries)) cfg.
Proof.
  revert cfg. induction entries as [|p rest IH]; intros cfg; cbn.
  - rewrite app_nil_r. by destruct cfg.
  - rewrite IH. destruct (negb (bool_decide (TrimSpace p = ""))); cbn; [|done].
    by rewrite <- app_assoc.
Qed.

(** Advances [numbers] through one block. *)
#[local] Ltac block key max fb :=
  match goal with |- context [int_block key ?lim ?set (Ok ?c)] =>
    destruct (int_block_spec key max lim set fb c) as [[? ->]|[? ->]];
      [intros n Hn; unfold no_limit; lia|reflexivity| |right; split; [tauto|reflexivity]]
  end; cbn [set_Argon2Parallel set_Argon2Time set_Argon2MemoryKiB set_SessionTTL
            set_ValkeyOpTimeout set_ValkeyDialTimeout Addr PostgresURL CookieSecure SessionTTL
            Argon2MemoryKiB Argon2Time Argon2Parallel AllowedOrigins RunMigrationsOnBoot ValkeyURL
            ValkeyDialTimeout ValkeyOpTimeout].

Lemma numbers_spec :
  (valid_ints /\ numbers defaults = Ok (set_AllowedOrigins [] loaded))
  \/ (~ valid_ints /\ numbers defaults = Err (config.ErrInvalidInt : error)).
Proof.
  unfold numbers, valid_ints, defaults.
  block "VALKEY_DIAL_TIMEOUT_MS"%string max_int64 defaultValkeyDialTimeoutMs.
  block "VALKEY_OP_TIMEOUT_MS"%string max_int64 defaultValkeyOpTimeoutMs.
  block "SESSION_TTL_HOURS"%string max_int64 defaultSessionTTLHrs.
  block "ARGON2_MEMORY_KIB"%string max_int64 defaultArgon2MemoryKi.
  block "ARGON2_TIME"%string max_int64 defaultArgon2Time.
  block "ARGON2_PARALLELISM"%string 255 defaultArgon2Para.
  left. split; [tauto|reflexivity].
Qed.

Lemma Load_computes :
  match Load with
  | Ok cfg => env "POSTGRES_URL" <> "" /\ env "VALKEY_URL" <> "" /\ valid_ints /\ origins <> [] /\ cfg = loaded
  | Err e =>
      (e = config.ErrMissingPostgresURL /\ env "POSTGRES_URL" = "")
      \/ (e = config.ErrMissingValkeyURL /\ env "POSTGRES_URL" <> "" /\ env "VALKEY_URL" = "")
      \/ (e = config.ErrInvalidInt /\ env "POSTGRES_URL" <> "" /\ env "VALKEY_URL" <> "" /\ ~ valid_ints)
      \/ (e = config.ErrMissingAllowedOrigins /\ env "POSTGRES_URL" <> "" /\ env "VALKEY_URL" <> ""
          /\ valid_ints /\ origins = [])
  end.
Proof.
  unfold Load. cbn [defaults PostgresURL ValkeyURL].
  case_bool_decide as Hp; [by left|]. case_bool_decide as Hk; [by right; left|].
  destruct numbers_spec as [[Hv ->]|[Hv ->]]; [|right; right; left; done].
  rewrite append_origins_spec. cbn [set_AllowedOrigins AllowedOrigins app]. fold origins.
  case_bool_decide as Ho; [do 3 right; done|done].
Qed.

(** C27: [Load] succeeds exactly when both URLs are set, every number that is set
    is a positive decimal (the parallelism at most 255) and the allow-list has
    an entry; it then computes each setting from its variable or its default.
    The first condition that fails, in this order, decides the error. *)
Theorem Load_spec :
  match Load with
  | Ok cfg => env "POSTGRES_URL" <> "" /\ env "VALKEY_URL" <> "" /\ valid_ints /\ origins <> [] /\ cfg = loaded
  | Err e =>
      (e = config.ErrMissingPostgresURL /\ env "POSTGRES_URL" = "")
      \/ (e = config.ErrMissingValkeyURL /\ env "POSTGRES_URL" <> "" /\ env "VALKEY_URL" = "")
      \/ (e = config.ErrInvalidInt /\ env "POSTGRES_URL" <> "" /\ env "VALKEY_URL" <> "" /\ ~ valid_ints)
      \/ (e = config.ErrMissingAllowedOrigins /\ env "POSTGRES_URL" <> "" /\ env "VALKEY_URL" <> ""
          /\ valid_ints /\ origins = [])
  end.
Proof. apply Load_computes. Qed.
End Load.

(** ** Sizes *)

(** Numbers small enough for their unit. *)
Definition moderate (env : string -> string) : Prop :=
  int_or env "SESSION_TTL_HOURS" defaultSessionTTLHrs <= 2562047
  /\ int_or env "VALKEY_DIAL_TIMEOUT_MS" defaultValkeyDialTimeoutMs <= 9223372036854
  /\ int_or env "VALKEY_OP_TIMEOUT_MS" defaultValkeyOpTimeoutMs <= 9223372036854
  /\ int_or env "ARGON2_MEMORY_KIB" defaultArgon2MemoryKi < 2 ^ 32
  /\ int_or env "ARGON2_TIME" defaultArgon2Time < 2 ^ 32.

Lemma int_or_positive env key fallback max :
  valid_int env key max -> 1 <= fallback -> 1 <= int_or env key fallback.
Proof.
  unfold int_or. intros [->|(n & E & Hn)] Hf; [done|]. rewrite E. by case_bool_decide; cbn; lia.
Qed.

Lemma int_or_le env key fallback max :
  valid_int env key max -> fallback <= max -> int_or env key fallback <= max.
Proof.
  unfold int_or. intros [->|(n & E & Hn)] Hf; [done|]. rewrite E. by case_bool_decide; cbn; lia.
Qed.

(** C37: with numbers of moderate size a loaded configuration is sane: the
    durations are positive and exactly the numbers in their unit, the argon2
    parameters are at least one and not truncated, and there is an allowed
    origin, none of them empty. *)
Theorem Load_sane env cfg :
  moderate env -> Load env = Ok cfg ->
  SessionTTL cfg = int_or env "SESSION_TTL_HOURS" defaultSessionTTLHrs * Hour /\ 0 < SessionTTL cfg
  /\ ValkeyDialTimeout cfg = int_or env "VALKEY_DIAL_TIMEOUT_MS" defaultValkeyDialTimeoutMs * Millisecond
  /\ 0 < ValkeyDialTimeout cfg
  /\ ValkeyOpTimeout cfg = int_or env "VALKEY_OP_TIMEOUT_MS" defaultValkeyOpTimeoutMs * Millisecond
  /\ 0 < ValkeyOpTimeout cfg
  /\ 1 <= Argon2MemoryKiB cfg < 2 ^ 32 /\ 1 <= Argon2Time cfg < 2 ^ 32 /\ 1 <= Argon2Parallel cfg <= 255
  /\ AllowedOrigins cfg <> [] /\ Forall (fun o => o <> "") (AllowedOrigins cfg).
Proof.
  intros (Hh & Hd & Ho & Hm & Ht) Hload. pose proof (Load_computes env) as Hs. rewrite Hload in Hs.
  destruct Hs as (_ & _ & (V1 & V2 & V3 & V4 & V5 & V6) & Horig & ->).
  apply (int_or_positive _ _ defaultValkeyDialTimeoutMs) in V1; [|done].
  apply (int_or_positive _ _ defaultValkeyOpTimeoutMs) in V2; [|done].
  apply (int_or_positive _ _ defaultSessionTTLHrs) in V3; [|done].
  apply (int_or_positive _ _ defaultArgon2MemoryKi) in V4; [|done].
  apply (int_or_positive _ _ defaultArgon2Time) in V5; [|done].
  pose proof (int_or_le _ _ defaultArgon2Para _ V6 ltac:(done)) as Hp.
  apply (int_or_positive _ _ defaultArgon2Para) in V6; [|done].
  cbn [loaded SessionTTL ValkeyDialTimeout ValkeyOpTimeout Argon2MemoryKiB Argon2Time Argon2Parallel AllowedOrigins].
  unfold duration_mul, Hour, Second, Millisecond in *.
  rewrite !int64_wrap_small, !uint32_wrap_small, uint8_wrap_small by (unfold min_int64, max_int64; lia).
  repeat (split; [first [done|lia]|]).
  apply Forall_forall. intros o Hin. apply list_elem_of_In, filter_In in Hin as [_ Hne].
  by apply negb_true_iff, bool_decide_eq_false in Hne.
Qed.

(** An environment as a list of variables. *)
Definition env_of (vars : list (string * string)) (key : string) : string :=
  match List.find (fun kv => bool_decide (kv.1 = key)) vars with Some kv => kv.2 | None => "" end.
Definition minimal : list (string * string) :=
  [("POSTGRES_URL", "postgres://db"); ("VALKEY_URL", "redis://cache"); ("ALLOWED_ORIGINS", "https://app.example")].

(** C38: there is no upper bound on the hours of a session, the rounds and the
    memory of argon2: [Load] accepts a number of hours for which the session
    TTL is negative, and one of rounds (or of KiB) that is truncated to zero. *)
Theorem Load_overflows :
  (exists env cfg, Load env = Ok cfg /\ SessionTTL cfg < 0)
  /\ (exists env cfg, Load env = Ok cfg /\ Argon2Time cfg = 0)
  /\ (exists env cfg, Load env = Ok cfg /\ Argon2MemoryKiB cfg = 0).
Proof.
  repeat split.
  - exists (env_of (("SESSION_TTL_HOURS", "2562048") :: minimal)). eexists.
    split; [vm_compute; reflexivity|reflexivity].
  - exists (env_of (("ARGON2_TIME", "4294967296") :: minimal)). eexists.
    split; [vm_compute; reflexivity|reflexivity].
  - exists (env_of (("ARGON2_MEMORY_KIB", "4294967296") :: minimal)). eexists.
    split; [vm_compute; reflexivity|reflexivity].
Qed.
