(* ===== verification/Postgres.v ===== *)
(** * internal/infrastructure/postgres: the repositories and the unit of work

    The pgx driver and the server are parameters: [Pg] are the calls of the
    driver, with the statements that squirrel builds as data, and [pg_step] what
    PostgreSQL documents of them on the tables of the migrations.  The theorem
    [postgres_implements_repositories] shows that the adapters implement the
    contracts of PortSpec.v. *)
From S2P Require Import Prelude Program GoText GoTime Errors Tenant User Session Outbox Ports PortSpec PortRules.
#[local] Open Scope Z_scope.

(** ** Statements *)

Inductive value :=
| VNull
| VUuid (u : UUID)
| VText (s : string)
| VBytes (s : string)
| VTime (t : Time)
| VJson (s : string).

#[global] Instance value_eq_dec : EqDecision value.
Proof. solve_decision. Defined.

(** [sq.Eq] as a conjunction of equations. *)
Definition where_clause : Type := list (string * value).

Inductive stmt :=
| Insert (table : string) (columns : list string) (values : list value)
| UpdateCoalesceNow (table column : string) (cond : where_clause).

Record select := MkSelect { s_columns : list string; s_table : string; s_where : where_clause }.

(** ** The driver *)

Inductive Pg : Type -> Type :=
| PoolBegin : Pg (res positive)
| PoolQueryRow (q : select) : Pg (res (list value))
| TxExec (h : positive) (q : stmt) : Pg (res Z)
| TxCommit (h : positive) : Pg (res unit)
| TxRollback (h : positive) : Pg (res unit).

(** A row: its columns that are not NULL. *)
Definition row : Type := list (string * value).
Definition col (r : row) (c : string) : value :=
  match List.find (fun kv => String.eqb kv.1 c) r with Some kv => kv.2 | None => VNull end.
Definition coalesce (c : string) (t : Time) (r : row) : row :=
  if bool_decide (col r c = VNull) then r ++ [(c, VTime t)] else r.
Definition matches (cond : where_clause) (r : row) : Prop :=
  Forall (fun kv => col r kv.1 = kv.2) cond.

(** The three tables by primary key. *)
Record Tables := MkTables {
  t_users : gmap UUID row;
  t_sessions : gmap UUID row;
  t_outbox : gmap UUID row;
}.

Definition rows (table : string) (ts : Tables) : gmap UUID row :=
  if String.eqb table "identity.users" then t_users ts
  else if String.eqb table "identity.sessions" then t_sessions ts
  else if String.eqb table "identity.outbox_events" then t_outbox ts
  else ∅.
Definition set_rows (table : string) (m : gmap UUID row) (ts : Tables) : Tables :=
  if String.eqb table "identity.users" then MkTables m (t_sessions ts) (t_outbox ts)
  else if String.eqb table "identity.sessions" then MkTables (t_users ts) m (t_outbox ts)
  else if String.eqb table "identity.outbox_events" then MkTables (t_users ts) (t_sessions ts) m
  else ts.

(** The constraints of the migrations: columns without a default that are NOT
    NULL, the unique indexes and the foreign keys. *)
Record schema := MkSchema {
  required : list string;
  uniques : list (list string);
  references : list (string * string);
}.
Definition schema_of (table : string) : option schema :=
  if String.eqb table "identity.users" then
    Some (MkSchema ["id"; "tenant_id"; "email"; "password_hash"] [["id"]; ["tenant_id"; "email"]] [])
  else if String.eqb table "identity.sessions" then
    Some (MkSchema ["id"; "tenant_id"; "user_id"; "token_hash"; "expires_at"] [["id"]; ["token_hash"]]
            [("user_id", "identity.users")])
  else if String.eqb table "identity.outbox_events" then
    Some (MkSchema ["id"; "tenant_id"; "aggregate_type"; "aggregate_id"; "event_type"; "payload"] [["id"]] [])
  else None.

(** TIMESTAMPTZ columns keep microseconds. *)
Definition stored_value (v : value) : value :=
  match v with VTime t => VTime (stored_time t) | _ => v end.
Definition stored_row (columns : list string) (values : list value) : row :=
  zip columns (map stored_value values).

(** Two rows that a unique index of the table does not admit together. *)
Definition collide (sc : schema) (r r' : row) : Prop :=
  Exists (fun index => Forall (fun c => col r c = col r' c) index) (uniques sc).
Definition violates_unique (sc : schema) (table : string) (ts : Tables) (r : row) : Prop :=
  exists i r', rows table ts !! i = Some r' /\ collide sc r r'.
Definition references_ok (sc : schema) (ts : Tables) (r : row) : Prop :=
  Forall (fun ct => exists i, col r ct.1 = VUuid i /\ is_Some (rows ct.2 ts !! i)) (references sc).

Inductive DWrite :=
| DInsert (table : string) (i : UUID) (r : row)
| DCoalesce (table : string) (i : UUID) (c : string) (t : Time).

Definition apply_dwrite (ts : Tables) (w : DWrite) : Tables :=
  match w with
  | DInsert table i r => set_rows table (<[i := r]> (rows table ts)) ts
  | DCoalesce table i c t => set_rows table (alter (coalesce c t) i (rows table ts)) ts
  end.
Definition apply_dwrites (ws : list DWrite) (ts : Tables) : Tables := fold_left apply_dwrite ws ts.

(** The committed tables and the transactions: the writes of an open one,
    [None] for one that a failed statement has aborted. *)
Record Db := MkDb { d_tables : Tables; d_txs : gmap positive (option (list DWrite)) }.

Definition set_tables (ts : Tables) (d : Db) : Db := MkDb ts (d_txs d).
Definition set_tx (h : positive) (t : option (list DWrite)) (d : Db) : Db :=
  MkDb (d_tables d) (<[h := t]> (d_txs d)).
Definition end_tx (h : positive) (d : Db) : Db := MkDb (d_tables d) (delete h (d_txs d)).

(** An insert waits for the other transactions that have inserted a row it
    collides with. *)
Definition may_proceed (sc : schema) (table : string) (h : positive) (r : row) (d : Db) : Prop :=
  forall h' ws i r', d_txs d !! h' = Some (Some ws) -> h' <> h ->
    DInsert table i r' ∈ ws -> ~ collide sc r r'.

Definition uniqueViolationCode : string := "23505".
Definition unique_violation : error := driver.PgError uniqueViolationCode.

Definition exec_step (h : positive) (q : stmt) (ws : list DWrite) (d : Db) (n : Z) (d' : Db) : Prop :=
  let ts := apply_dwrites ws (d_tables d) in
  match q with
  | Insert table columns values =>
      let r := stored_row columns values in
      exists sc i, n = 1 /\ schema_of table = Some sc /\ length columns = length values
        /\ Forall (fun c => col r c <> VNull) (required sc) /\ col r "id" = VUuid i
        /\ ~ violates_unique sc table ts r /\ references_ok sc ts r
        /\ may_proceed sc table h r d
        /\ d' = set_tx h (Some (ws ++ [DInsert table i r])) d
  | UpdateCoalesceNow table c cond =>
      exists ids t, NoDup ids /\ n = Z.of_nat (length ids)
        /\ (forall i, i ∈ ids <-> exists r, rows table ts !! i = Some r /\ matches cond r)
        /\ d' = set_tx h (Some (ws ++ map (fun i => DCoalesce table i c t) ids)) d
  end.

Definition rejects (q : stmt) (ts : Tables) : Prop :=
  match q with
  | Insert table columns values =>
      exists sc, schema_of table = Some sc /\ violates_unique sc table ts (stored_row columns values)
  | UpdateCoalesceNow _ _ _ => False
  end.

Definition pg_step : forall R, Pg R -> Db -> outcome R -> Db -> Prop := fun R c =>
  match c in Pg R return Db -> outcome R -> Db -> Prop with
  | PoolBegin => fun d o d' =>
      (exists h, d_txs d !! h = None /\ o = Returned (Ok h) /\ d' = set_tx h (Some []) d)
      \/ (fails o /\ d' = d)
  | PoolQueryRow q => fun d o d' => d' = d /\
      ((exists i r, rows (s_table q) (d_tables d) !! i = Some r /\ matches (s_where q) r
                    /\ o = Returned (Ok (map (col r) (s_columns q))))
       \/ (o = Returned (Err (driver.ErrNoRows : error))
           /\ forall i r, rows (s_table q) (d_tables d) !! i = Some r -> ~ matches (s_where q) r)
       \/ (fails o /\ o <> Returned (Err (driver.ErrNoRows : error))))
  | TxExec h q => fun d o d' =>
      match d_txs d !! h with
      | Some (Some ws) =>
          (exists n, o = Returned (Ok n) /\ exec_step h q ws d n d')
          \/ (o = Returned (Err unique_violation) /\ rejects q (apply_dwrites ws (d_tables d))
              /\ d' = set_tx h None d)
          \/ (fails o /\ o <> Returned (Err unique_violation) /\ d' = set_tx h None d)
      | _ => fails o /\ o <> Returned (Err unique_violation) /\ d' = d
      end
  | TxCommit h => fun d o d' =>
      match d_txs d !! h with
      | Some (Some ws) =>
          let committed := set_tables (apply_dwrites ws (d_tables d)) (end_tx h d) in
          (o = Returned (Ok tt) /\ d' = committed)
          (** the acknowledgement is lost *)
          \/ (fails o /\ (d' = end_tx h d \/ d' = committed))
      (** a commit of an aborted transaction rolls back and reports it *)
      | _ => fails o /\ d' = end_tx h d
      end
  | TxRollback h => fun d o d' =>
      match d_txs d !! h with
      | Some _ => (o = Returned (Ok tt) \/ fails o) /\ d' = end_tx h d
      | None => o = Returned (Err (driver.ErrTxClosed : error)) /\ d' = d
      end
  end.

(** ** unit_of_work.go *)

Definition txOf (t : Tx) : res positive :=
  match InnerTx t with
  | any_nil => Err (EOther "postgres: empty tx token")
  | any_foreign => Err (EOther "postgres: foreign tx token")
  | any_pgx_tx h => Ok h
  end.

Definition Begin {L} : G Pg L (res Tx) := (
  try t <- call PoolBegin catch err => fail err ;;
  ret (Ok (NewTx (any_pgx_tx t))))%go.

Definition Commit {L} (t : Tx) : G Pg L (res unit) := (
  match txOf t with
  | Err err => fail err
  | Ok pgxT => call (TxCommit pgxT)
  end)%go.

Definition Rollback {L} (t : Tx) : G Pg L (res unit) := (
  match txOf t with
  | Err err => fail err
  | Ok pgxT =>
    try _ <- call (TxRollback pgxT)
      catch err => (if negb (errors_Is err driver.ErrTxClosed) then fail err else ret (Ok tt)) ;;
    ret (Ok tt)
  end)%go.

(** ** user_repository.go *)

Definition user_columns : list string :=
  ["id"; "tenant_id"; "email"; "password_hash"; "status"; "created_at"; "updated_at"].

Definition UserRepository_SaveTx {L} (t : Tx) (u : User.User) : G Pg L (res unit) := (
  match txOf t with
  | Err err => fail err
  | Ok tx =>
    try _ <- call (TxExec tx (Insert "identity.users" user_columns
        [VUuid (User.id u); VUuid (Tenant.value (User.tenantID u)); VText (Email_String (User.email u));
         VText (PasswordHash_String (User.passwordHash u)); VText (User.status u);
         VTime (User.createdAt u); VTime (User.updatedAt u)]))
      catch err =>
        (if bool_decide (errors_As_PgError err = Some uniqueViolationCode) then fail user.ErrEmailTaken
         else fail err) ;;
    ret (Ok tt)
  end)%go.

(** [Scan] into the seven variables, then the reconstruction of the user. *)
Definition scanOne {L} (q : select) : G Pg L (res User.User) := (
  r <- call (PoolQueryRow q) ;;
  match r with
  | Err err => if errors_Is err driver.ErrNoRows then fail user.ErrUserNotFound else fail err
  | Ok [VUuid uid; VUuid tid; VText emailStr; VText hashStr; VText statusStr; VTime createdAt; VTime updatedAt] =>
    match NewEmail emailStr with
    | Err err => fail err
    | Ok em => ret (Ok (User.Hydrate uid (NewID tid) em (NewPasswordHash hashStr) statusStr createdAt updatedAt))
    end
  | Ok _ => fail (EOther "can't scan into dest")
  end)%go.

Definition FindByEmail {L} (t : ID) (email : Email) : G Pg L (res User.User) :=
  scanOne (MkSelect user_columns "identity.users"
    [("tenant_id", VUuid (Tenant.value t)); ("email", VText (Email_String email))]).

Definition FindByID {L} (t : ID) (uid : UUID) : G Pg L (res User.User) :=
  scanOne (MkSelect user_columns "identity.users"
    [("tenant_id", VUuid (Tenant.value t)); ("id", VUuid uid)]).

(** ** session_repository.go *)

Definition SessionRepository_SaveTx {L} (t : Tx) (s : Session.Session) : G Pg L (res unit) := (
  match txOf t with
  | Err err => fail err
  | Ok tx =>
    try _ <- call (TxExec tx (Insert "identity.sessions"
        ["id"; "tenant_id"; "user_id"; "token_hash"; "created_at"; "expires_at"]
        [VUuid (Session.id s); VUuid (Tenant.value (Session.tenantID s)); VUuid (Session.userID s);
         VBytes (Session.tokenHash s); VTime (Session.createdAt s); VTime (Session.expiresAt s)]))
      catch err => fail err ;;
    ret (Ok tt)
  end)%go.

(** The target of [&revokedAt], a pointer to a time. *)
Definition scan_nullable (v : value) : option (option Time) :=
  match v with VNull => Some None | VTime t => Some (Some t) | _ => None end.

Definition FindByTokenHash {L} (tokenHash : string) : G Pg L (res Session.Session) := (
  r <- call (PoolQueryRow (MkSelect
         ["id"; "tenant_id"; "user_id"; "token_hash"; "created_at"; "expires_at"; "revoked_at"]
         "identity.sessions" [("token_hash", VBytes tokenHash)])) ;;
  match r with
  | Err err => if errors_Is err driver.ErrNoRows then fail session.ErrSessionNotFound else fail err
  | Ok [VUuid sid; VUuid tid; VUuid uid; VBytes hash; VTime createdAt; VTime expiresAt; revoked] =>
    match scan_nullable revoked with
    | Some revokedAt => ret (Ok (Session.Hydrate sid (NewID tid) uid hash createdAt expiresAt revokedAt))
    | None => fail (EOther "can't scan into dest")
    end
  | Ok _ => fail (EOther "can't scan into dest")
  end)%go.

Definition RevokeTx {L} (t : Tx) (ten : ID) (sid : UUID) : G Pg L (res unit) := (
  match txOf t with
  | Err err => fail err
  | Ok tx =>
    try tag <- call (TxExec tx (UpdateCoalesceNow "identity.sessions" "revoked_at"
        [("tenant_id", VUuid (Tenant.value ten)); ("id", VUuid sid)]))
      catch err => fail err ;;
    if tag =? 0 then fail session.ErrSessionNotFound else ret (Ok tt)
  end)%go.

(** ** outbox_repository.go *)

Definition OutboxRepository_WriteTx {L} (t : Tx) (ev : Event) : G Pg L (res unit) := (
  match txOf t with
  | Err err => fail err
  | Ok tx =>
    try _ <- call (TxExec tx (Insert "identity.outbox_events"
        ["id"; "tenant_id"; "aggregate_type"; "aggregate_id"; "event_type"; "payload"; "created_at"]
        [VUuid (Outbox.id ev); VUuid (Tenant.value (Outbox.tenantID ev)); VText (aggregateType ev);
         VUuid (aggregateID ev); VText (eventType ev); VJson (payload ev); VTime (Outbox.createdAt ev)]))
      catch err => fail err ;;
    ret (Ok tt)
  end)%go.

(** ** The tables implement the abstract store *)

Definition user_row (u : User.User) : row :=
  [("id", VUuid (User.id u)); ("tenant_id", VUuid (Tenant.value (User.tenantID u)));
   ("email", VText (Email_String (User.email u)));
   ("password_hash", VText (PasswordHash_String (User.passwordHash u)));
   ("status", VText (User.status u));
   ("created_at", VTime (User.createdAt u)); ("updated_at", VTime (User.updatedAt u))].

Definition session_row (x : Session.Session) : row :=
  [("id", VUuid (Session.id x)); ("tenant_id", VUuid (Tenant.value (Session.tenantID x)));
   ("user_id", VUuid (Session.userID x)); ("token_hash", VBytes (Session.tokenHash x));
   ("created_at", VTime (Session.createdAt x)); ("expires_at", VTime (Session.expiresAt x))]
  ++ match Session.revokedAt x with Some t => [("revoked_at", VTime t)] | None => [] end.

Definition event_row (e : Event) : row :=
  [("id", VUuid (Outbox.id e)); ("tenant_id", VUuid (Tenant.value (Outbox.tenantID e)));
   ("aggregate_type", VText (aggregateType e)); ("aggregate_id", VUuid (aggregateID e));
   ("event_type", VText (eventType e)); ("payload", VJson (payload e));
   ("created_at", VTime (Outbox.createdAt e))].

Definition encode_store (st : Store) : Tables :=
  MkTables (user_row <$> users st) (session_row <$> sessions st) (event_row <$> events st).

Definition encode_write (w : Write) : DWrite :=
  match w with
  | WUser u => DInsert "identity.users" (User.id u) (user_row u)
  | WSession x => DInsert "identity.sessions" (Session.id x) (session_row x)
  | WRevoke sid t => DCoalesce "identity.sessions" sid "revoked_at" t
  | WEvent e => DInsert "identity.outbox_events" (Outbox.id e) (event_row e)
  end.

Definition encode_tx (t : TxState) : option (list DWrite) :=
  match t with TxActive ws => Some (map encode_write ws) | TxAborted => None end.

(** Rows are stored under their own id, addresses in canonical form. *)
Record typed_store (st : Store) : Prop := {
  ts_user : forall i u, users st !! i = Some u ->
    User.id u = i /\ NewEmail (Email_String (User.email u)) = Ok (User.email u);
  ts_session : forall i x, sessions st !! i = Some x -> Session.id x = i;
  ts_event : forall i e, events st !! i = Some e -> Outbox.id e = i;
}.
Definition typed_write (w : Write) : Prop :=
  match w with WUser u => NewEmail (Email_String (User.email u)) = Ok (User.email u) | _ => True end.

Record implements (d : Db) (s : Sys) : Prop := {
  im_tables : d_tables d = encode_store (committed s);
  im_txs : d_txs d = encode_tx <$> txs s;
  im_store : typed_store (committed s);
  im_writes : forall h ws, txs s !! h = Some (TxActive ws) -> Forall typed_write ws;
}.

Lemma user_row_inj_conflict u v :
  collide (MkSchema [] [["id"]; ["tenant_id"; "email"]] []) (user_row u) (user_row v)
  <-> User.id u = User.id v \/ (User.tenantID u = User.tenantID v /\ User.email u = User.email v).
Proof.
  unfold collide. cbn [uniques]. rewrite !Exists_cons, Exists_nil, !Forall_cons, !Forall_nil. cbn.
  destruct u as [i [t] [e] ? ? ? ?], v as [j [t'] [e'] ? ? ? ?]. cbn. unfold Email_String. cbn.
  split; [intros [[? _]|[(? & ? & _)|[]]]; simplify_eq; auto|].
  intros [->|[? ?]]; simplify_eq; auto.
Qed.

Lemma session_row_inj_conflict x y :
  collide (MkSchema [] [["id"]; ["token_hash"]] []) (session_row x) (session_row y)
  <-> Session.id x = Session.id y \/ Session.tokenHash x = Session.tokenHash y.
Proof.
  unfold collide. cbn [uniques]. rewrite !Exists_cons, Exists_nil, !Forall_cons, !Forall_nil.
  destruct x, y. cbn. split; [intros [[? _]|[[? _]|[]]]; simplify_eq; auto|].
  intros [->| ->]; auto.
Qed.

Lemma session_row_revoke t x : session_row (revoke t x) = coalesce "revoked_at" t (session_row x).
Proof. by destruct x as [? ? ? ? ? ? [?|]]. Qed.

Lemma typed_apply st w : typed_store st -> typed_write w -> typed_store (apply_write st w).
Proof.
  intros [Hu Hx He] Hw. destruct w as [u|x|sid t|e]; split; cbn; auto; intros i y.
  - intros [[<- <-]|[_ ?]]%lookup_insert_Some; [done|auto].
  - intros [[<- <-]|[_ ?]]%lookup_insert_Some; [done|auto].
  - intros [(_ & z & Hz & ->)|[_ ?]]%lookup_alter_Some; [|auto]. cbn. by apply Hx.
  - intros [[<- <-]|[_ ?]]%lookup_insert_Some; [done|auto].
Qed.

Lemma typed_applies ws st : typed_store st -> Forall typed_write ws -> typed_store (apply_writes ws st).
Proof.
  intros Hst Hws. revert st Hst. induction Hws as [|w ws Hw _ IH]; intros st Hst; [done|].
  by apply IH, typed_apply.
Qed.

Lemma encode_apply st w : apply_dwrite (encode_store st) (encode_write w) = encode_store (apply_write st w).
Proof.
  destruct w as [u|x|sid t|e]; unfold encode_store, apply_dwrite, set_rows, rows; cbn; f_equal.
  - by rewrite fmap_insert.
  - by rewrite fmap_insert.
  - symmetry. apply fmap_alter. intros. apply session_row_revoke.
  - by rewrite fmap_insert.
Qed.

Lemma encode_applies ws st :
  apply_dwrites (map encode_write ws) (encode_store st) = encode_store (apply_writes ws st).
Proof.
  revert st. induction ws as [|w ws IH]; intros st; [done|]. unfold apply_dwrites in *. cbn.
  by rewrite encode_apply, IH.
Qed.

(** *** Transactions *)

Lemma implements_open d s h : implements d s -> txs s !! h = None ->
  implements (set_tx h (Some []) d) (set_txs (<[h := TxActive []]> (txs s)) s).
Proof.
  intros [Ht Hx Hst Hw] Hh. split; cbn; auto.
  - by rewrite Hx, fmap_insert.
  - intros h' ws. intros [[<- [= <-]]|[_ ?]]%lookup_insert_Some; [done|eauto].
Qed.

Lemma implements_abort d s h : implements d s -> implements (set_tx h None d) (abort_in h s).
Proof.
  intros [Ht Hx Hst Hw]. split; cbn; auto.
  - by rewrite Hx, fmap_insert.
  - intros h' ws. intros [[<- [=]]|[_ ?]]%lookup_insert_Some. eauto.
Qed.

Lemma implements_write d s h ws w :
  implements d s -> txs s !! h = Some (TxActive ws) -> typed_write w ->
  implements (set_tx h (Some (map encode_write ws ++ [encode_write w])) d) (write_in h ws w s).
Proof.
  intros [Ht Hx Hst Hw] Hh Htyped. split; cbn; auto.
  - rewrite Hx, fmap_insert. cbn. by rewrite map_app.
  - intros h' ws'. intros [[<- [= <-]]|[_ ?]]%lookup_insert_Some; [|eauto].
    apply Forall_app. eauto.
Qed.

Lemma implements_end d s h : implements d s -> implements (end_tx h d) (set_txs (delete h (txs s)) s).
Proof.
  intros [Ht Hx Hst Hw]. split; cbn; auto.
  - by rewrite Hx, fmap_delete.
  - intros h' ws [_ ?]%lookup_delete_Some. eauto.
Qed.

Lemma implements_commit d s h ws : implements d s -> txs s !! h = Some (TxActive ws) ->
  implements (set_tables (apply_dwrites (map encode_write ws) (d_tables d)) (end_tx h d))
    (set_committed (tx_view s ws) (set_txs (delete h (txs s)) s)).
Proof.
  intros Him Hh. destruct (implements_end d s h Him) as [_ Hx _ Hw]. destruct Him as [Ht _ Hst Hwr].
  split; cbn; auto.
  - by rewrite Ht, encode_applies.
  - apply typed_applies; eauto.
Qed.

Lemma encoded_tx d s h : implements d s -> d_txs d !! h = encode_tx <$> (txs s !! h).
Proof. intros Him. by rewrite (im_txs d s Him), lookup_fmap. Qed.

(** *** An insert *)

Lemma fails_of {A} (e : error) : infra e -> fails (A := A) (Returned (Err e)).
Proof. intros. left. eauto. Qed.

Section Insert.
Context {L : Type} (l : L) (d : Db) (s : Sys) (Him : implements d s) (h : positive).
Context (table : string) (columns : list string) (values : list value) (sc : schema).
Let r := stored_row columns values.
Context (w : Write) (i : UUID) (Hschema : schema_of table = Some sc)
  (Hw : encode_write w = DInsert table i r) (Hid : col r "id" = VUuid i) (Htyped : typed_write w).
Context (Hclash : forall w', write_clash w w' ->
  exists i' r', encode_write w' = DInsert table i' r' /\ collide sc r r').

(** An insert adds the encoded write, is rejected by a unique index, fails and
    aborts the transaction, or meets a transaction that is not open. *)
Lemma wp_insert (Q : outcome (res Z) * L -> Db -> Prop) :
  (forall ws d', txs s !! h = Some (TxActive ws) ->
     ~ violates_unique sc table (encode_store (tx_view s ws)) r ->
     references_ok sc (encode_store (tx_view s ws)) r -> unblocked s h w ->
     implements d' (write_in h ws w s) -> Q (Returned (Ok 1), l) d') ->
  (forall ws d', txs s !! h = Some (TxActive ws) ->
     violates_unique sc table (encode_store (tx_view s ws)) r ->
     implements d' (abort_in h s) -> Q (Returned (Err unique_violation), l) d') ->
  (forall ws o d', txs s !! h = Some (TxActive ws) -> fails o -> o <> Returned (Err unique_violation) ->
     implements d' (abort_in h s) -> Q (o, l) d') ->
  (forall o, (forall ws, txs s !! h <> Some (TxActive ws)) -> fails o ->
     o <> Returned (Err unique_violation) -> Q (o, l) d) ->
  wp pg_step (call (TxExec h (Insert table columns values)) l) Q d.
Proof.
  intros Hok Huniq Hfail Hclosed o d' Hstep. cbn in Hstep. rewrite (encoded_tx d s h Him) in Hstep.
  destruct (txs s !! h) as [[ws|]|] eqn:E; cbn in Hstep.
  2, 3: destruct Hstep as (Ho & Hne & ->); apply Hclosed; [by intros ?|done|done].
  rewrite (im_tables d s Him), encode_applies in Hstep. fold r in Hstep.
  destruct Hstep as [(n & -> & sc' & i' & -> & Hs & _ & _ & Hi & Hu & Hr & Hm & ->)
                    |[(-> & (sc' & Hs & Hv) & ->)|(Ho & Hne & ->)]].
  - rewrite Hschema in Hs. injection Hs as <-. rewrite Hid in Hi. injection Hi as <-.
    apply (Hok ws); [done|exact Hu|exact Hr| |].
    + intros h' ws' w' Hh' Hne Hin Hc. destruct (Hclash w' Hc) as (i' & r' & Hw' & Hcol).
      refine (Hm h' (map encode_write ws') i' r' _ Hne _ Hcol).
      * by rewrite (encoded_tx d s h' Him), Hh'.
      * rewrite <- Hw'. apply list_elem_of_fmap. by exists w'.
    + rewrite <- Hw. by apply implements_write.
  - rewrite Hschema in Hs. injection Hs as <-. apply (Huniq ws); [done|exact Hv|by apply implements_abort].
  - apply (Hfail ws); [done..|by apply implements_abort].
Qed.

(** A method that inserts and passes on the errors it does not recognise. *)
Lemma wp_insert_method {B} (f : res Z -> G Pg L (res B)) (Q : outcome (res B) * L -> Db -> Prop) :
  (forall e, infra e -> e <> unique_violation -> f (Err e) = fail e) ->
  (forall ws d', txs s !! h = Some (TxActive ws) ->
     ~ violates_unique sc table (encode_store (tx_view s ws)) r ->
     references_ok sc (encode_store (tx_view s ws)) r -> unblocked s h w ->
     implements d' (write_in h ws w s) -> wp pg_step (f (Ok 1) l) Q d') ->
  (forall ws d', txs s !! h = Some (TxActive ws) ->
     violates_unique sc table (encode_store (tx_view s ws)) r ->
     implements d' (abort_in h s) -> wp pg_step (f (Err unique_violation) l) Q d') ->
  (forall ws o d', txs s !! h = Some (TxActive ws) -> fails o ->
     implements d' (abort_in h s) -> Q (o, l) d') ->
  (forall o, (forall ws, txs s !! h <> Some (TxActive ws)) -> fails o -> Q (o, l) d) ->
  wp pg_step (bind (call (TxExec h (Insert table columns values))) f l) Q d.
Proof.
  intros Hf Hok Huniq Hfail Hclosed. apply wp_bind_go, wp_insert; [exact Hok|exact Huniq| |].
  - intros ws o d' Hh [(e & -> & He)|[msg ->]] Hne Him'.
    + rewrite Hf by congruence || done. apply (Hfail ws); [done|by apply fails_of|done].
    + apply (Hfail ws); [done|right; by eexists|done].
  - intros o Hn [(e & -> & He)|[msg ->]] Hne.
    + rewrite Hf by congruence || done. apply Hclosed; [done|by apply fails_of].
    + apply Hclosed; [done|right; by eexists].
Qed.
End Insert.

(** ** The contracts *)

Inductive Repo : Type -> Type :=
| RUow {R} (c : UnitOfWork R) : Repo R
| RUsers {R} (c : UserRepository R) : Repo R
| RSessions {R} (c : SessionRepository R) : Repo R
| ROutbox {R} (c : OutboxRepository R) : Repo R.

Definition repo_step : forall R, Repo R -> Sys -> outcome R -> Sys -> Prop := fun R c =>
  match c in Repo R return Sys -> outcome R -> Sys -> Prop with
  | RUow c => uow_step c
  | RUsers c => users_step c
  | RSessions c => sessions_step c
  | ROutbox c => outbox_step c
  end.

Definition uow_method {R} (c : UnitOfWork R) : G Pg unit R :=
  match c with
  | Ports.Begin => Begin
  | Ports.Commit tx => Commit tx
  | Ports.Rollback tx => Rollback tx
  end.
Definition users_method {R} (c : UserRepository R) : G Pg unit R :=
  match c with
  | UserSaveTx tx u => UserRepository_SaveTx tx u
  | Ports.FindByEmail t e => FindByEmail t e
  | Ports.FindByID t uid => FindByID t uid
  end.
Definition sessions_method {R} (c : SessionRepository R) : G Pg unit R :=
  match c with
  | SessionSaveTx tx x => SessionRepository_SaveTx tx x
  | Ports.FindByTokenHash hash => FindByTokenHash hash
  | Ports.RevokeTx tx t sid => RevokeTx tx t sid
  end.
Definition outbox_method {R} (c : OutboxRepository R) : G Pg unit R :=
  match c with WriteTx tx ev => OutboxRepository_WriteTx tx ev end.

(** A method as the implementation of a call. *)
Definition as_call {R} (m : G Pg unit R) : Prog Pg (outcome R) := pbind (m tt) (fun ol => Ret ol.1).

Definition adapter {R} (c : Repo R) : Prog Pg (outcome R) :=
  match c in Repo R return Prog Pg (outcome R) with
  | RUow c => as_call (uow_method c)
  | RUsers c => as_call (users_method c)
  | RSessions c => as_call (sessions_method c)
  | ROutbox c => as_call (outbox_method c)
  end.

(** What the code saves: a user whose address was made by NewEmail, a session
    made by session.New. *)
Definition saveable {R} (c : Repo R) : Prop :=
  match c with
  | RUsers (UserSaveTx _ u) => NewEmail (Email_String (User.email u)) = Ok (User.email u)
  | RSessions (SessionSaveTx _ x) => Session.revokedAt x = None
  | _ => True
  end.

Lemma wp_as_call {R} (m : G Pg unit R) (Q : outcome R -> Db -> Prop) d :
  wp pg_step (m tt) (fun ol d' => Q ol.1 d') d -> wp pg_step (as_call m) Q d.
Proof. intros H. apply wp_bind. exact H. Qed.

Lemma open_tx_active s tx h ws :
  InnerTx tx = any_pgx_tx h -> txs s !! h = Some (TxActive ws) -> open_tx s tx = Some (h, ws).
Proof. unfold open_tx. by intros -> ->. Qed.

Lemma open_tx_closed s tx h :
  InnerTx tx = any_pgx_tx h -> (forall ws, txs s !! h <> Some (TxActive ws)) -> open_tx s tx = None.
Proof.
  unfold open_tx. intros -> Hn. destruct (txs s !! h) as [[ws|]|] eqn:E; try done. by destruct (Hn ws).
Qed.

Lemma txOf_ok tx h : txOf tx = Ok h <-> InnerTx tx = any_pgx_tx h.
Proof. unfold txOf. destruct (InnerTx tx); split; congruence. Qed.

Lemma txOf_err s tx e : txOf tx = Err e -> open_tx s tx = None /\ infra e /\ close_tx tx s = s.
Proof. unfold txOf, open_tx, close_tx. destruct (InnerTx tx); intros; simplify_eq; done. Qed.

(** *** UnitOfWork *)

Lemma uow_implements {R} (c : UnitOfWork R) d s :
  implements d s ->
  wp pg_step (as_call (uow_method c)) (fun o d' => exists s', uow_step c s o s' /\ implements d' s') d.
Proof.
  intros Him. apply wp_as_call. destruct c as [|tx|tx]; cbn [uow_method].
  - intros o d' [(h & Hh & -> & ->)|[Ho ->]].
    + rewrite (encoded_tx d s h Him) in Hh. apply fmap_None in Hh. cbn.
      eexists. split; [left; by exists h|]. by apply implements_open.
    + destruct Ho as [(e & -> & He)|[msg ->]]; cbn; exists s; (split; [right|done]); (split; [|done]);
        [by apply fails_of|right; by eexists].
  - unfold Commit. destruct (txOf tx) as [h|e] eqn:E.
    2:{ destruct (txOf_err s _ _ E) as (Ho & He & Hc). cbn. exists s. rewrite Ho, Hc. eauto using fails_of. }
    apply txOf_ok in E. intros o d' Hstep. cbn in Hstep |- *. rewrite (encoded_tx d s h Him) in Hstep.
    unfold open_tx, close_tx. rewrite E. pose proof (implements_end d s h Him) as Hend.
    destruct (txs s !! h) as [[ws|]|] eqn:Et; cbn in Hstep.
    + pose proof (implements_commit d s h ws Him Et) as Hcom.
      destruct Hstep as [[-> ->]|[Ho [->| ->]]]; eauto 7.
    + destruct Hstep as [Ho ->]. eauto.
    + destruct Hstep as [Ho ->]. eauto.
  - unfold Rollback. destruct (txOf tx) as [h|e] eqn:E.
    2:{ destruct (txOf_err s _ _ E) as (Ho & He & Hc). cbn. exists s. rewrite Hc. eauto using fails_of. }
    apply txOf_ok in E. apply wp_bind_go. intros o d' Hstep. cbn in Hstep |- *.
    rewrite (encoded_tx d s h Him) in Hstep. unfold close_tx. rewrite E.
    destruct (txs s !! h) as [t|] eqn:Et; cbn in Hstep.
    + destruct Hstep as [Ho ->]. pose proof (implements_end d s h Him) as Hend.
      assert (forall o, o = Returned (Ok tt) \/ fails o ->
        exists s', (o = Returned (Ok tt) \/ fails o) /\ s' = set_txs (delete h (txs s)) s
          /\ implements (end_tx h d) s') as Hany by eauto.
      setoid_rewrite (assoc and) in Hany.
      destruct o as [[[]|e]|msg]; cbn; [by apply Hany; left| |apply Hany; right; right; by eexists].
      destruct Ho as [?|[(e' & [= <-] & He)|[? ?]]]; try done.
      destruct (errors_Is e driver.ErrTxClosed); cbn; apply Hany; [by left|right; by apply fails_of].
    + destruct Hstep as [-> ->]. cbn. exists s. rewrite delete_id by done. split; [|done].
      split; [by left|by destruct s].
Qed.

(** *** UserRepository *)

Definition users_schema : schema :=
  MkSchema ["id"; "tenant_id"; "email"; "password_hash"] [["id"]; ["tenant_id"; "email"]] [].
Definition sessions_schema : schema :=
  MkSchema ["id"; "tenant_id"; "user_id"; "token_hash"; "expires_at"] [["id"]; ["token_hash"]]
    [("user_id", "identity.users")].

Lemma user_violation st u : typed_store st ->
  violates_unique users_schema "identity.users" (encode_store st) (user_row (stored_user u)) <-> user_conflict st u.
Proof.
  intros Hst. unfold violates_unique, user_conflict. cbn [rows String.eqb]. cbn. split.
  - intros (i & r & Hr & Hc). apply lookup_fmap_Some in Hr as (v & <- & Hv).
    apply user_row_inj_conflict in Hc as [Hc|[Hc Hd]]; cbn in *.
    + left. rewrite Hc, (proj1 (ts_user st Hst i v Hv)). eauto.
    + right. eauto.
  - intros [[v Hv]|(i & v & Hv & Ht & He)].
    + exists (User.id u), (user_row v). rewrite lookup_fmap, Hv. split; [done|].
      apply user_row_inj_conflict. left. cbn. symmetry. apply (ts_user st Hst _ _ Hv).
    + exists i, (user_row v). rewrite lookup_fmap, Hv. split; [done|].
      apply user_row_inj_conflict. right. by cbn.
Qed.

Lemma session_violation st x : typed_store st ->
  violates_unique sessions_schema "identity.sessions" (encode_store st) (session_row (stored_session x))
  <-> session_conflict st x.
Proof.
  intros Hst. unfold violates_unique, session_conflict.
  change (rows "identity.sessions" (encode_store st)) with (session_row <$> sessions st). split.
  - intros (i & r & Hr & Hc). apply lookup_fmap_Some in Hr as (v & <- & Hv).
    apply session_row_inj_conflict in Hc as [Hc|Hc]; cbn in Hc.
    + left. rewrite Hc, (ts_session st Hst i v Hv). eauto.
    + right. eauto.
  - intros [[v Hv]|(i & v & Hv & Ht)].
    + exists (Session.id x), (session_row v). rewrite lookup_fmap, Hv. split; [done|].
      apply session_row_inj_conflict. left. cbn. symmetry. apply (ts_session st Hst _ _ Hv).
    + exists i, (session_row v). rewrite lookup_fmap, Hv. split; [done|].
      apply session_row_inj_conflict. right. by cbn.
Qed.

Lemma typed_view d s h ws : implements d s -> txs s !! h = Some (TxActive ws) -> typed_store (tx_view s ws).
Proof. intros [_ _ Hst Hw] Hh. apply typed_applies; eauto. Qed.

Lemma users_save_implements tx u d s :
  implements d s -> NewEmail (Email_String (User.email u)) = Ok (User.email u) ->
  wp pg_step (as_call (users_method (UserSaveTx tx u)))
    (fun o d' => exists s', users_step (UserSaveTx tx u) s o s' /\ implements d' s') d.
Proof.
  intros Him He. apply wp_as_call. cbn [users_method users_step]. unfold UserRepository_SaveTx, in_tx.
  destruct (txOf tx) as [h|e] eqn:E.
  2:{ destruct (txOf_err s _ _ E) as (Ho & Hi & _). rewrite Ho. cbn. eauto using fails_of. }
  apply txOf_ok in E.
  apply (wp_insert_method tt d s Him h _ _ _ users_schema (WUser (stored_user u)) (User.id u)); try done.
  - intros w' Hc. destruct w' as [v| | |]; try done. exists (User.id v), (user_row v). split; [done|].
    exact (proj2 (user_row_inj_conflict (stored_user u) v) Hc).
  - intros e Hi Hne. rewrite bool_decide_eq_false_2; [done|]. by destruct e as [| | | | | | | | | |[]| |]; cbn; try done; intros [= ->].
  - intros ws d' Hh Hv _ Hu Him'. cbn. rewrite (open_tx_active s tx h ws E Hh). eexists. split; [|done].
    left. left. split; [done|]. split; [|done]. intros Hc. apply Hv.
    exact (proj2 (user_violation _ u (typed_view d s h ws Him Hh)) Hc).
  - intros ws d' Hh Hv Him'. cbn. rewrite (open_tx_active s tx h ws E Hh). eexists. split; [|done].
    left. right. split; [done|]. split; [|done].
    exact (proj1 (user_violation _ u (typed_view d s h ws Him Hh)) Hv).
  - intros ws o d' Hh Ho Him'. rewrite (open_tx_active s tx h ws E Hh). eauto.
  - intros o Hn Ho. rewrite (open_tx_closed s tx h E Hn). eauto.
Qed.

(** The row of a user under the conditions of the two lookups. *)
Lemma wp_scanOne cond d s (Q : outcome (res User.User) * unit -> Db -> Prop) :
  implements d s ->
  (forall i u, users (committed s) !! i = Some u -> matches cond (user_row u) -> Q (Returned (Ok u), tt) d) ->
  ((forall i u, users (committed s) !! i = Some u -> ~ matches cond (user_row u)) ->
     Q (Returned (Err (user.ErrUserNotFound : error)), tt) d) ->
  (forall o, fails o -> Q (o, tt) d) ->
  wp pg_step (scanOne (MkSelect user_columns "identity.users" cond) tt) Q d.
Proof.
  intros Him Hfound Hnone Hfail. unfold scanOne. apply wp_bind_go.
  assert (rows "identity.users" (d_tables d) = user_row <$> users (committed s)) as Hrows
    by (by rewrite (im_tables d s Him)).
  intros o d' [-> Hstep]. cbn [s_table s_where s_columns] in Hstep. rewrite Hrows in Hstep.
  destruct Hstep as [(i & r & Hr & Hm & ->)|[[-> Hn]|[[(e & -> & He)|[msg ->]] Hne]]].
  - apply lookup_fmap_Some in Hr as (u & <- & Hu). specialize (Hfound i u Hu Hm).
    cbn [map user_columns]. cbn. rewrite (proj2 (ts_user _ (im_store d s Him) i u Hu)). cbn.
    by destruct u as [? [?] ? [?] ? ? ?].
  - cbn. rewrite errors_Is_refl. apply Hnone. intros i u Hu. apply (Hn i). by rewrite lookup_fmap, Hu.
  - cbn. destruct (errors_Is e driver.ErrNoRows) eqn:Ee.
    { apply errors_Is_infra_eq in Ee; [|done]. by subst. }
    apply Hfail. by apply fails_of.
  - apply Hfail. right. by eexists.
Qed.

Lemma matches_email t e u :
  matches [("tenant_id", VUuid (Tenant.value t)); ("email", VText (Email_String e))] (user_row u)
  <-> User.tenantID u = t /\ User.email u = e.
Proof.
  unfold matches. rewrite !Forall_cons, Forall_nil. cbn.
  destruct u as [? [?] [?] ? ? ? ?], t, e. cbn. unfold Email_String. cbn.
  split; [intros (? & ? & _)|intros [? ?]]; by simplify_eq.
Qed.

Lemma matches_id t i u :
  matches [("tenant_id", VUuid (Tenant.value t)); ("id", VUuid i)] (user_row u)
  <-> User.tenantID u = t /\ User.id u = i.
Proof.
  unfold matches. rewrite !Forall_cons, Forall_nil. cbn. destruct u as [? [?] [?] ? ? ? ?], t. cbn.
  split; [intros (? & ? & _)|intros [? ?]]; by simplify_eq.
Qed.

Lemma users_find_implements {R} (c : UserRepository R) d s :
  implements d s -> match c with UserSaveTx _ _ => False | _ => True end ->
  wp pg_step (as_call (users_method c)) (fun o d' => exists s', users_step c s o s' /\ implements d' s') d.
Proof.
  intros Him Hc. apply wp_as_call. destruct c as [tx u|t e|t uid]; [done|..]; cbn [users_method users_step].
  - apply (wp_scanOne _ d s); [done|..]; cbn.
    + intros i u Hu Hm. apply matches_email in Hm as [Ht He]. exists s. split; [|done]. split; [done|].
      left. by exists i, u.
    + intros Hn. exists s. split; [|done]. split; [done|]. right. left. split; [done|].
      intros i u Hu Hm. apply (Hn i u Hu). by apply matches_email.
    + eauto 7.
  - apply (wp_scanOne _ d s); [done|..]; cbn.
    + intros i u Hu Hm. apply matches_id in Hm as [Ht Hi]. exists s. split; [|done]. split; [done|]. left.
      exists u. rewrite <- Hi, (proj1 (ts_user _ (im_store d s Him) i u Hu)). done.
    + intros Hn. exists s. split; [|done]. split; [done|]. right. left. split; [done|].
      intros u Hu Ht. apply (Hn uid u Hu), matches_id. split; [done|].
      apply (ts_user _ (im_store d s Him) uid u Hu).
    + eauto 7.
Qed.

(** *** SessionRepository *)

Lemma sessions_save_implements tx x d s :
  implements d s -> Session.revokedAt x = None ->
  wp pg_step (as_call (sessions_method (SessionSaveTx tx x)))
    (fun o d' => exists s', sessions_step (SessionSaveTx tx x) s o s' /\ implements d' s') d.
Proof.
  intros Him Hrev. destruct x as [sid t uid hash created expires rev]. cbn in Hrev. subst rev.
  set (x := Session.New sid t uid hash created expires).
  apply wp_as_call. cbn [sessions_method sessions_step]. unfold SessionRepository_SaveTx, in_tx.
  destruct (txOf tx) as [h|e] eqn:E.
  2:{ destruct (txOf_err s _ _ E) as (Ho & Hi & _). rewrite Ho. cbn. eauto using fails_of. }
  apply txOf_ok in E.
  apply (wp_insert_method tt d s Him h _ _ _ sessions_schema (WSession (stored_session x)) sid); try done.
  - intros w' Hc. destruct w' as [|y| |]; try done. exists (Session.id y), (session_row y). split; [done|].
    exact (proj2 (session_row_inj_conflict (stored_session x) y) Hc).
  - intros ws d' Hh Hv Hr Hu Him'. cbn. rewrite (open_tx_active s tx h ws E Hh). eexists. split; [|done].
    left. split; [done|]. split; [|split; [done|split; [|done]]].
    + intros Hc. apply Hv. exact (proj2 (session_violation _ x (typed_view d s h ws Him Hh)) Hc).
    + apply Forall_cons in Hr as [(i & [= <-] & Hi) _]. cbn in Hi.
      rewrite lookup_fmap in Hi. by apply fmap_is_Some in Hi.
  - intros ws d' Hh Hv Him'. cbn. rewrite (open_tx_active s tx h ws E Hh). eexists. split; [|done].
    right. split; [|done]. by apply fails_of.
  - intros ws o d' Hh Ho Him'. rewrite (open_tx_active s tx h ws E Hh). eauto.
  - intros o Hn Ho. rewrite (open_tx_closed s tx h E Hn). eauto.
Qed.

Lemma sessions_find_implements hash d s :
  implements d s ->
  wp pg_step (as_call (sessions_method (Ports.FindByTokenHash hash)))
    (fun o d' => exists s', sessions_step (Ports.FindByTokenHash hash) s o s' /\ implements d' s') d.
Proof.
  intros Him. apply wp_as_call. cbn [sessions_method sessions_step]. unfold FindByTokenHash. apply wp_bind_go.
  intros o d' [-> Hstep]. cbn [s_table s_where s_columns] in Hstep. rewrite (im_tables d s Him) in Hstep.
  change (rows "identity.sessions" (encode_store (committed s))) with (session_row <$> sessions (committed s)) in Hstep.
  assert (forall x, matches [("token_hash", VBytes hash)] (session_row x) <-> Session.tokenHash x = hash) as Hm.
  { intros x. unfold matches. rewrite Forall_cons, Forall_nil. destruct x. cbn.
    split; [intros [? _]; by simplify_eq|by intros ->]. }
  destruct Hstep as [(i & r & Hr & Hmr & ->)|[[-> Hn]|[[(e & -> & He)|[msg ->]] Hne]]].
  - apply lookup_fmap_Some in Hr as (x & <- & Hx). apply Hm in Hmr.
    destruct x as [sid [t] uid h c e [rev|]]; cbn; exists s; (split; [|done]); (split; [done|]);
      left; by eexists i, _.
  - cbn. rewrite errors_Is_refl. cbn. exists s. split; [|done]. split; [done|]. right. left. split; [done|].
    intros i x Hx Hh. apply (Hn i (session_row x)); [by rewrite lookup_fmap, Hx|by apply Hm].
  - cbn. destruct (errors_Is e driver.ErrNoRows) eqn:Ee.
    { apply errors_Is_infra_eq in Ee; [|done]. by subst. }
    exists s. eauto 7 using fails_of.
  - cbn. exists s. split; [|done]. split; [done|]. right. right. right. by eexists.
Qed.

Lemma set_tx_id d s h ws : implements d s -> txs s !! h = Some (TxActive ws) ->
  set_tx h (Some (map encode_write ws)) d = d.
Proof.
  intros Him Hh. unfold set_tx. rewrite insert_id; [by destruct d|]. by rewrite (encoded_tx d s h Him), Hh.
Qed.

Lemma matches_session t i x :
  matches [("tenant_id", VUuid (Tenant.value t)); ("id", VUuid i)] (session_row x)
  <-> Session.tenantID x = t /\ Session.id x = i.
Proof.
  unfold matches. rewrite !Forall_cons, Forall_nil. destruct x as [? [?] ? ? ? ? ?], t. cbn.
  split; [intros (? & ? & _)|intros [? ?]]; by simplify_eq.
Qed.

(** A method that updates and passes on every error. *)
Lemma wp_update_method {B L} (l : L) d s h table c cond (f : res Z -> G Pg L (res B))
    (Q : outcome (res B) * L -> Db -> Prop) :
  implements d s -> (forall e, f (Err e) = fail e) ->
  (forall ws ids t, txs s !! h = Some (TxActive ws) -> NoDup ids ->
     (forall i, i ∈ ids <-> exists r, rows table (encode_store (tx_view s ws)) !! i = Some r /\ matches cond r) ->
     wp pg_step (f (Ok (Z.of_nat (length ids))) l) Q
       (set_tx h (Some (map encode_write ws ++ map (fun i => DCoalesce table i c t) ids)) d)) ->
  (forall ws o d', txs s !! h = Some (TxActive ws) -> fails o ->
     implements d' (abort_in h s) -> Q (o, l) d') ->
  (forall o, (forall ws, txs s !! h <> Some (TxActive ws)) -> fails o -> Q (o, l) d) ->
  wp pg_step (bind (call (TxExec h (UpdateCoalesceNow table c cond))) f l) Q d.
Proof.
  intros Him Hf Hok Hfail Hclosed. apply wp_bind_go. intros o d' Hstep. cbn in Hstep.
  rewrite (encoded_tx d s h Him) in Hstep.
  destruct (txs s !! h) as [[ws|]|] eqn:Et; cbn in Hstep.
  2, 3: destruct Hstep as ([(e & -> & He)|[msg ->]] & _ & ->);
    [cbn; rewrite Hf; apply Hclosed; [by intros ?|by apply fails_of]
    |apply Hclosed; [by intros ?|right; by eexists]].
  rewrite (im_tables d s Him), encode_applies in Hstep.
  destruct Hstep as [(n & -> & ids & t & Hnd & -> & Hids & ->)|[(_ & [] & _)|(Ho & _ & ->)]].
  - by apply Hok.
  - pose proof (implements_abort d s h Him) as Hab.
    destruct Ho as [(e & -> & He)|[msg ->]]; [cbn; rewrite Hf|]; apply (Hfail ws); try done;
      [by apply fails_of|right; by eexists].
Qed.

Lemma sessions_revoke_implements tx t sid d s :
  implements d s ->
  wp pg_step (as_call (sessions_method (Ports.RevokeTx tx t sid)))
    (fun o d' => exists s', sessions_step (Ports.RevokeTx tx t sid) s o s' /\ implements d' s') d.
Proof.
  intros Him. apply wp_as_call. cbn [sessions_method sessions_step]. unfold RevokeTx, in_tx.
  destruct (txOf tx) as [h|e] eqn:E.
  2:{ destruct (txOf_err s _ _ E) as (Ho & Hi & _). rewrite Ho. cbn. eauto using fails_of. }
  apply txOf_ok in E. apply (wp_update_method tt d s); [done|done|..].
  - intros ws ids at_ Hh Hnd Hids. rewrite (open_tx_active s tx h ws E Hh).
    change (rows "identity.sessions" (encode_store (tx_view s ws)))
      with (session_row <$> sessions (tx_view s ws)) in Hids.
    assert (forall i, i ∈ ids <-> i = sid /\ exists x, sessions (tx_view s ws) !! sid = Some x /\ Session.tenantID x = t)
      as Hsid.
    { intros i. rewrite Hids. split.
      - intros (r & Hr & Hm). apply lookup_fmap_Some in Hr as (x & <- & Hx).
        apply matches_session in Hm as [Ht Hi].
        assert (i = sid) as -> by (by rewrite <- (ts_session _ (typed_view d s h ws Him Hh) i x Hx)). eauto.
      - intros (-> & x & Hx & Ht). exists (session_row x). rewrite lookup_fmap, Hx. split; [done|].
        apply matches_session. split; [done|]. apply (ts_session _ (typed_view d s h ws Him Hh) _ _ Hx). }
    destruct ids as [|i ids].
    + cbn. rewrite app_nil_r, (set_tx_id d s h ws Him Hh). exists s. split; [|done]. left. right.
      split; [done|]. split; [|done]. intros x Hx Ht.
      destruct (not_elem_of_nil sid). apply Hsid. eauto.
    + destruct (proj1 (Hsid i) (list_elem_of_here _ _)) as (-> & x & Hx & Ht).
      assert (ids = []) as ->.
      { destruct ids as [|j ids]; [done|]. apply NoDup_cons in Hnd as [Hn _].
        destruct (proj1 (Hsid j)) as [-> _]; [do 2 constructor|]. destruct Hn. constructor. }
      cbn. eexists. split; [left; left; exists x, at_; done|].
      by apply (implements_write d s h ws (WRevoke sid at_)).
  - intros ws o d' Hh Ho Him'. rewrite (open_tx_active s tx h ws E Hh). eauto.
  - intros o Hn Ho. rewrite (open_tx_closed s tx h E Hn). eauto.
Qed.

(** *** OutboxRepository *)

Definition outbox_schema : schema :=
  MkSchema ["id"; "tenant_id"; "aggregate_type"; "aggregate_id"; "event_type"; "payload"] [["id"]] [].

Lemma event_collide e f : collide outbox_schema (event_row e) (event_row f) <-> Outbox.id e = Outbox.id f.
Proof.
  unfold collide. cbn [uniques outbox_schema]. rewrite !Exists_cons, Exists_nil, !Forall_cons, !Forall_nil.
  destruct e, f. cbn. split; [intros [[? _]|[]]; by simplify_eq|intros ->; auto].
Qed.

Lemma outbox_implements {R} (c : OutboxRepository R) d s :
  implements d s ->
  wp pg_step (as_call (outbox_method c)) (fun o d' => exists s', outbox_step c s o s' /\ implements d' s') d.
Proof.
  intros Him. apply wp_as_call. destruct c as [tx ev]. cbn [outbox_method outbox_step].
  unfold OutboxRepository_WriteTx, in_tx.
  destruct (txOf tx) as [h|e] eqn:E.
  2:{ destruct (txOf_err s _ _ E) as (Ho & Hi & _). rewrite Ho. cbn. eauto using fails_of. }
  apply txOf_ok in E.
  apply (wp_insert_method tt d s Him h _ _ _ outbox_schema (WEvent (stored_event ev)) (Outbox.id ev)); try done.
  - intros w' Hc. destruct w' as [| | |f]; try done. exists (Outbox.id f), (event_row f). split; [done|].
    exact (proj2 (event_collide (stored_event ev) f) Hc).
  - intros ws d' Hh Hv Hr Hu Him'. cbn. rewrite (open_tx_active s tx h ws E Hh). eexists. split; [|done].
    left. split; [done|]. split; [|done]. apply eq_None_not_Some. intros [f Hf]. apply Hv.
    exists (Outbox.id ev), (event_row f).
    change (rows "identity.outbox_events" (encode_store (tx_view s ws))) with (event_row <$> events (tx_view s ws)).
    split; [by rewrite lookup_fmap, Hf|].
    apply (proj2 (event_collide (stored_event ev) f)). cbn. symmetry.
    apply (ts_event _ (typed_view d s h ws Him Hh) _ _ Hf).
  - intros ws d' Hh Hv Him'. cbn. rewrite (open_tx_active s tx h ws E Hh). eexists. split; [|done].
    right. split; [|done]. by apply fails_of.
  - intros ws o d' Hh Ho Him'. rewrite (open_tx_active s tx h ws E Hh). eauto.
  - intros o Hn Ho. rewrite (open_tx_closed s tx h E Hn). eauto.
Qed.

Lemma postgres_refines {R} (c : Repo R) :
  saveable c -> refines_call repo_step pg_step implements (fun R => adapter) c.
Proof.
  intros Hok d s Him. destruct c as [R c|R c|R c|R c]; cbn [adapter repo_step].
  - by apply uow_implements.
  - destruct c as [tx u|t e|t uid]; [by apply users_save_implements|by apply users_find_implements..].
  - destruct c as [tx x|hash|tx t sid];
      [by apply sessions_save_implements|by apply sessions_find_implements|by apply sessions_revoke_implements].
  - by apply outbox_implements.
Qed.

(** C19: the PostgreSQL adapters implement the contracts of domain.UnitOfWork and
    of the three repositories.  On tables whose rows are those of the abstract
    store, and transactions with the same pending writes, every method answers
    and changes the database as its contract allows: which rows a lookup finds,
    when an insert conflicts, fails or waits, what a commit makes visible. *)
Theorem postgres_implements_repositories {R} (c : Repo R) :
  saveable c -> refines_call repo_step pg_step implements (fun R => adapter) c.
Proof. apply postgres_refines. Qed.

(** The empty database implements the empty store. *)
Lemma implements_empty t :
  implements (MkDb (MkTables ∅ ∅ ∅) ∅) (MkSys (MkStore ∅ ∅ ∅) ∅ ∅ t []).
Proof.
  by split; cbn; rewrite ?fmap_empty.
Qed.
