(* ===== verification/Adapters.v ===== *)
(** * The service on its real adapters

    Every interface call of the service answered by the adapter that
    cmd/server/main.go wires in: PostgreSQL for the unit of work and the
    repositories, Valkey for the cache, argon2id for the hasher, random tokens,
    the clock, google/uuid, slog and the tracer of the host.  Whatever is proved
    of the service against the contracts of PortSpec.v holds of it on the
    adapters. *)
From S2P Require Import SignUp SignIn SignOut GetMe.
From S2P Require Import Prelude Program GoText GoEncoding GoTime Errors Tenant User Session Outbox Ports PortSpec PortRules Invariant Http Middleware Handlers Router Service.
From S2P Require Argon2id Valkey Postgres.
#[local] Open Scope Z_scope.

(** ** The outside world *)

Inductive Backend : Type -> Type :=
| BPg {R} (c : Postgres.Pg R) : Backend R
| BRedis {R} (c : Valkey.Redis R) : Backend R
| BRandom {R} (c : Argon2id.Random R) : Backend R
(** [time.Now()]. *)
| BClock : Backend Time
| BUuid : Backend UUID
| BLog (r : LogRecord) : Backend unit
| BTrace {R} (c : Tracer R) : Backend R.

(** The database, the keys of the cache server, the clock and the log. *)
Record World := MkWorld {
  w_db : Postgres.Db;
  w_keys : Valkey.Keys;
  w_now : Time;
  w_logs : list LogRecord;
}.

Definition put_db (d : Postgres.Db) (w : World) : World := MkWorld d (w_keys w) (w_now w) (w_logs w).
Definition put_keys (m : Valkey.Keys) (w : World) : World := MkWorld (w_db w) m (w_now w) (w_logs w).
Definition put_now (t : Time) (w : World) : World := MkWorld (w_db w) (w_keys w) t (w_logs w).
Definition put_log (r : LogRecord) (w : World) : World :=
  MkWorld (w_db w) (w_keys w) (w_now w) (w_logs w ++ [r]).

Definition backend_step : forall R, Backend R -> World -> outcome R -> World -> Prop := fun R c =>
  match c in Backend R return World -> outcome R -> World -> Prop with
  | BPg c => fun w o w' => exists d, Postgres.pg_step _ c (w_db w) o d /\ w' = put_db d w
  | BRedis c => fun w o w' => exists m, Valkey.redis_step _ c (w_keys w) o m /\ w' = put_keys m w
  | BRandom c => fun w o w' => Argon2id.random_step _ c tt o tt /\ w' = w
  | BClock => fun w o w' => exists t, w_now w <= t /\ o = Returned t /\ w' = put_now t w
  | BUuid => fun w o w' => w' = w /\ ((exists u, o = Returned u) \/ exists msg, o = Panicked msg)
  | BLog r => fun w o w' => o = Returned tt /\ w' = put_log r w
  | BTrace _ => fun w o w' => (exists r, o = Returned r) /\ w' = w
  end.

(** ** The adapters *)

Section Adapters.
Context `{UuidLib} `{Argon2id.Argon2} (params : Argon2id.Params).

Definition on_pg {R} (c : Postgres.Repo R) : Prog Backend (outcome R) :=
  embed (fun R => BPg) (Postgres.adapter c).
Definition on_valkey {R} (c : Cache R) : Prog Backend (outcome R) :=
  embed (fun R => BRedis) (Valkey.adapter c).
Definition on_random {R} (m : G Argon2id.Random unit R) : Prog Backend (outcome R) :=
  embed (fun R => BRandom) (pbind (m tt) (fun ol => Ret ol.1)).

Definition hasher {R} (c : PasswordHasher R) : Prog Backend (outcome R) :=
  match c in PasswordHasher R return Prog Backend (outcome R) with
  | Hash raw => on_random (Argon2id.Hash params raw)
  | Verify h raw => Ret (Argon2id.Verify h raw)
  end.
Definition tokens {R} (c : TokenGenerator R) : Prog Backend (outcome R) :=
  match c in TokenGenerator R return Prog Backend (outcome R) with
  | GenerateToken => on_random Argon2id.OpaqueGenerator_NewToken
  end.

(** [clock.Real.Now] and the middleware's [nowFn]. *)
Definition Real_Now : Prog Backend (outcome Time) :=
  pbind ((now <- call BClock ;; ret (UTC now))%go tt) (fun ol => Ret ol.1).
Definition nowFn : Prog Backend (outcome Time) :=
  pbind ((now <- call BClock ;; ret (UTC now))%go tt) (fun ol => Ret ol.1).
Definition clock_now (src : ClockSource) : Prog Backend (outcome Time) :=
  match src with UseCaseClock => Real_Now | NowFn => nowFn | TimeNow => Vis BClock Ret end.

Definition adapters : forall R, Port R -> Prog Backend (outcome R) := fun R op =>
  match op in Port R return Prog Backend (outcome R) with
  | Uow c => on_pg (Postgres.RUow c)
  | Users c => on_pg (Postgres.RUsers c)
  | Sessions c => on_pg (Postgres.RSessions c)
  | OutboxRepo c => on_pg (Postgres.ROutbox c)
  | SessionCache c => on_valkey c
  | Hasher c => hasher c
  | Tokens c => tokens c
  | Now src => clock_now src
  | UuidNew => Vis BUuid Ret
  | Log r => Vis (BLog r) Ret
  | Trace c => Vis (BTrace c) Ret
  end.

(** ** The adapters implement the contracts *)

Record deployed (w : World) (s : Sys) : Prop := {
  dep_db : Postgres.implements (w_db w) s;
  dep_keys : Valkey.cached_as (w_keys w) s;
  dep_now : now s = w_now w;
  dep_logs : logs s = w_logs w;
}.

(** What the calls of the service save: what the repositories expect, and
    digests of 32 bytes. *)
Definition digested {R} (c : SessionRepository R) : Prop :=
  match c with SessionSaveTx _ x => len (Session.tokenHash x) = 32 | _ => True end.
Definition saveable {R} (op : Port R) : Prop :=
  match op with
  | Users c => Postgres.saveable (Postgres.RUsers c)
  | Sessions c => Postgres.saveable (Postgres.RSessions c) /\ digested c
  | _ => True
  end.

(** What a repository call leaves alone, and a cache call. *)
Definition same_rest (s s' : Sys) : Prop := cache s' = cache s /\ now s' = now s /\ logs s' = logs s.

Lemma in_tx_rest {A} tx (o : outcome (res A)) s s' ok :
  in_tx tx s o s' ok -> (forall h ws, ok h ws -> same_rest s s') -> same_rest s s'.
Proof.
  unfold in_tx. destruct (open_tx s tx) as [[h ws]|]; [|by intros [_ ->]].
  intros [Hi|[_ ->]] Hok; [by eapply Hok|done].
Qed.

Lemma close_tx_rest tx s : same_rest s (close_tx tx s).
Proof. unfold close_tx. by case_match. Qed.

Lemma repo_frame {R} (c : Postgres.Repo R) s o s' : Postgres.repo_step _ c s o s' -> same_rest s s'.
Proof.
  destruct c as [R c|R c|R c|R c]; cbn [Postgres.repo_step]; intros Hs.
  - pose proof close_tx_rest as Hc. destruct c as [|tx|tx]; cbn in Hs.
    + by destruct Hs as [(h & _ & _ & ->)|[_ ->]].
    + destruct (open_tx s tx) as [[h ws]|]; [|destruct Hs as [_ ->]; apply Hc].
      destruct Hs as [[_ ->]|[_ [->| ->]]]; apply Hc.
    + destruct Hs as [_ ->]. apply Hc.
  - destruct c; cbn in Hs; [|by destruct Hs as [-> _]..].
    eapply in_tx_rest; [exact Hs|]. by intros h ws [(_ & _ & _ & ->)|(_ & _ & ->)].
  - destruct c; cbn in Hs; [|by destruct Hs as [-> _]|]; (eapply in_tx_rest; [exact Hs|]).
    + by intros h ws (_ & _ & _ & _ & ->).
    + by intros h ws [(x & t' & _ & _ & _ & ->)|(_ & _ & ->)].
  - destruct c; cbn in Hs. eapply in_tx_rest; [exact Hs|]. by intros h ws (_ & _ & _ & ->).
Qed.

Lemma cache_frame {R} (c : Cache R) s o s' : cache_step c s o s' ->
  committed s' = committed s /\ txs s' = txs s /\ now s' = now s /\ logs s' = logs s.
Proof.
  destruct c; cbn.
  - by intros [[_ ->]|[_ [->| ->]]].
  - by intros [(body & ttl & _ & _ & ->)|[[_ [->| ->]]|[_ ->]]].
  - by intros [[_ ->]|[_ [->| ->]]].
Qed.

Lemma on_pg_refines {R} (c : Postgres.Repo R) w s :
  Postgres.saveable c -> deployed w s ->
  wp backend_step (on_pg c) (fun o w' => exists s', Postgres.repo_step _ c s o s' /\ deployed w' s') w.
Proof.
  intros Hok [Hdb Hkeys Hnow Hlogs]. eapply wp_mono; [|apply (wp_embed Postgres.pg_step backend_step
    (fun R => BPg) w_db put_db)]; try done.
  2: by intros [].
  2: by apply Postgres.postgres_refines.
  intros o w' (d & (s' & Hs & Him) & ->). exists s'. split; [done|].
  destruct (repo_frame _ _ _ _ Hs) as (Hc & Hn & Hl).
  split; cbn; [done| |congruence|congruence]. unfold Valkey.cached_as in *. by rewrite Hc.
Qed.

Lemma on_valkey_refines {R} (c : Cache R) w s :
  deployed w s ->
  wp backend_step (on_valkey c) (fun o w' => exists s', cache_step c s o s' /\ deployed w' s') w.
Proof.
  intros [Hdb Hkeys Hnow Hlogs]. eapply wp_mono; [|apply (wp_embed Valkey.redis_step backend_step
    (fun R => BRedis) w_keys put_keys)]; try done.
  2: by intros [].
  2: by apply Valkey.valkey_refines.
  intros o w' (m & (s' & Hs & Hm) & ->). exists s'. split; [done|].
  destruct (cache_frame _ _ _ _ Hs) as (Hc & Ht & Hn & Hl).
  split; cbn; [|done|congruence|congruence].
  destruct Hdb as [H1 H2 H3 H4]. by split; rewrite ?Hc, ?Ht.
Qed.

Lemma on_random_refines {R} (m : G Argon2id.Random unit R) (Q : outcome R -> Prop) w s :
  deployed w s -> wp Argon2id.random_step (m tt) (fun ol _ => Q ol.1) tt ->
  wp backend_step (on_random m) (fun o w' => Q o /\ w' = w) w.
Proof.
  intros _ Hm. unfold on_random.
  assert (wp Argon2id.random_step (pbind (m tt) (fun ol => Ret ol.1)) (fun o _ => Q o) tt) as Hp
    by (apply wp_bind; exact Hm).
  eapply (wp_embed Argon2id.random_step backend_step (fun R => BRandom) (fun _ => tt) (fun _ w => w)) in Hp.
  - eapply wp_mono; [|exact Hp]. by intros o w' ([] & HQ & ->).
  - done.
  - by intros [].
  - done.
  - intros R' e t o t' [Hs ->]. by exists tt.
Qed.

(** Each call of the service is answered by its adapter as its contract says. *)
Lemma adapters_refine {R} (op : Port R) : Argon2id.params_ok params -> saveable op ->
  refines_call (pstep Argon2id.argon2_verifies) backend_step deployed adapters op.
Proof.
  intros Hparams Hok w s Hdep. destruct op as [R c|R c|R c|R c|R c|R c|R c|src| |r|R c]; cbn [adapters pstep].
  - by apply (on_pg_refines (Postgres.RUow c)).
  - by apply (on_pg_refines (Postgres.RUsers c)).
  - by apply (on_pg_refines (Postgres.RSessions c)); [destruct Hok|].
  - by apply (on_pg_refines (Postgres.ROutbox c)).
  - by apply on_valkey_refines.
  - destruct c as [raw|h raw]; cbn [hasher].
    + eapply wp_mono; [|apply (on_random_refines _ (fun o => hasher_step Argon2id.argon2_verifies (Hash raw) s o s) w s Hdep)].
      * intros o w' [Hs ->]. eauto.
      * by apply Argon2id.Hash_contract.
    + exists s. split; [|done]. apply Argon2id.Verify_contract.
  - destruct c. cbn [tokens].
    eapply wp_mono; [|apply (on_random_refines _ (fun o => tokens_step GenerateToken s o s) w s Hdep)].
    + intros o w' [Hs ->]. eauto.
    + apply Argon2id.NewToken_contract.
  - destruct src; cbn; intros o w' (t & Ht & -> & ->); cbn; exists (set_now t s);
      destruct Hdep as [Hdb Hkeys Hnow Hlogs]; (split; [exists t; by rewrite Hnow|destruct Hdb; by split; [split|..]]).
  - intros o w' [-> Ho]. by exists s.
  - intros o w' [-> ->]. exists (add_log r s). destruct Hdep as [Hdb Hkeys Hnow Hlogs]. split; [done|].
    destruct Hdb. split; [by split|done|done|]. cbn. by rewrite Hlogs.
  - intros o w' [Ho ->]. by exists s.
Qed.

(** ** The calls the service makes *)

Definition fits {A} (p : Prog Port A) : Prop := only (fun R => saveable) p.

(** Walks through a program, one case per branch. *)
#[local] Ltac only_go :=
  repeat (cbv beta zeta; match goal with
    | |- only _ (bind _ _ _) => apply only_bind; [|intros ? ?]
    | |- only _ (call _ _) => apply only_call; cbn [saveable Postgres.saveable digested]; try first [exact I|exact (conj I I)]
    | |- only _ (defer _ _ _) => apply only_defer; [intros ?|]
    | |- only _ (recovering _ _ _) => apply only_recovering; [intros ? ?|]
    | |- only _ (scope _ _ _) => apply only_scope
    | |- only _ (ret _ _) => exact I
    | |- only _ (fail _ _) => exact I
    | |- only _ (panic _ _) => exact I
    | |- only _ (get _) => exact I
    | |- only _ (modify _ _) => exact I
    | |- only _ (put _ _) => exact I
    | |- only _ (WriteFast _ _) => exact I
    | |- only _ (SetFast _ _ _ _) => unfold SetFast
    | |- only _ (ClearFast _ _) => unfold ClearFast
    | |- only _ (rollback_unless_committed _ _) => unfold rollback_unless_committed
    | |- only _ ((match ?x with _ => _ end) _) => destruct x eqn:?
    end).

Lemma sign_up_fits uc inp l : fits (SignUp.Execute uc inp l).
Proof.
  unfold fits, SignUp.Execute. only_go.
  - cbn [User.email User.New]. by eapply NewEmail_again.
  - split; [done|apply len_Sum256].
Qed.
Lemma sign_in_fits uc inp l : fits (SignIn.Execute uc inp l).
Proof. unfold fits, SignIn.Execute, SignIn.burn. only_go. split; [done|apply len_Sum256]. Qed.
Lemma sign_out_fits uc inp l : fits (SignOut.Execute uc inp l).
Proof. unfold fits, SignOut.Execute. only_go. Qed.
Lemma get_me_fits {L} uc inp (l : L) : fits (GetMe.Execute uc inp l).
Proof. unfold fits, GetMe.Execute. only_go. Qed.

Class Fits (h : Handler) : Prop := handler_fits c : fits (h c).

#[local] Hint Extern 1 (only _ _) =>
  first [apply sign_up_fits|apply sign_in_fits|apply sign_out_fits|apply get_me_fits] : core.
#[local] Hint Extern 1 (only _ (?h ?c)) => apply (handler_fits (h := h)) : core.

#[export] Instance fits_sign_up uc cookie : Fits (sign_up_Handle uc cookie).
Proof. intros c. unfold fits, sign_up_Handle. only_go; by auto. Qed.
#[export] Instance fits_sign_in uc cookie : Fits (sign_in_Handle uc cookie).
Proof. intros c. unfold fits, sign_in_Handle. only_go; by auto. Qed.
#[export] Instance fits_sign_out uc cookie : Fits (sign_out_Handle uc cookie).
Proof. intros c. unfold fits, sign_out_Handle. only_go; by auto. Qed.
#[export] Instance fits_get_me uc : Fits (get_me_Handle uc).
Proof. intros c. unfold fits, get_me_Handle. only_go; by auto. Qed.
#[export] Instance fits_Healthz : Fits Healthz.
Proof. done. Qed.
#[export] Instance fits_OpenAPI doc : Fits (OpenAPI doc).
Proof. done. Qed.
#[export] Instance fits_WriteJSON status v : Fits (WriteJSON status v).
Proof. intros c. unfold fits, WriteJSON. only_go. Qed.

#[export] Instance fits_Recover h : Fits h -> Fits (Recover h).
Proof. intros Hh c. unfold fits, Recover. only_go. auto. Qed.
#[export] Instance fits_AccessLog h : Fits h -> Fits (AccessLog h).
Proof. intros Hh c. unfold fits, AccessLog. only_go; auto. Qed.
#[export] Instance fits_OTelTrace h : Fits h -> Fits (OTelTrace h).
Proof. intros Hh c. unfold fits, OTelTrace. only_go; auto. Qed.
#[export] Instance fits_RequestID h : Fits h -> Fits (RequestID h).
Proof. intros Hh c. unfold fits, RequestID. only_go; auto. Qed.
#[export] Instance fits_Tenancy h : Fits h -> Fits (Tenancy h).
Proof. intros Hh c. unfold fits, Tenancy. only_go; auto. Qed.
#[export] Instance fits_OriginCheck allowed h : Fits h -> Fits (OriginCheck allowed h).
Proof. intros Hh c. unfold fits, OriginCheck. only_go; auto. Qed.
#[export] Instance fits_Session cached h : Fits h -> Fits (Middleware.Session cached h).
Proof.
  intros Hh c. unfold fits, Middleware.Session, session_from_store, authenticated. only_go; auto.
Qed.

(** ** The deployed server *)

Section Deployed.
Context (ttl : Duration) (dummy : PasswordHash) (secure : bool) (allowed : list string) (doc : string).
Let server : Handler := NewHandler (wire ttl dummy secure allowed doc).

Lemma server_fits c : fits (server c).
Proof.
  destruct (NewHandler_routes (wire ttl dummy secure allowed doc) c) as (h & Hh & E).
  unfold server. rewrite E. assert (Forall Fits (routes (wire ttl dummy secure allowed doc))) as Hall.
  { unfold routes, signUpRoute, signInRoute, signOutRoute, getMeRoute, healthzRoute, openapiRoute,
      publicMutatingChain, protectedMutatingChain, protectedReadChain, infraChain.
    rewrite !Chain_fold. cbn [fold_right wire dep_SignUp dep_SignIn dep_SignOut dep_GetMe dep_Cookie
      dep_Recover dep_AccessLog dep_Origin dep_OTel dep_SessionMW dep_Spec].
    rewrite !Forall_cons, Forall_nil. repeat apply conj; [apply _..|done]. }
  rewrite Forall_forall in Hall. by apply Hall.
Qed.

(** What holds of the answers of the service and of the abstract system
    against the contracts of the interfaces holds of the service that
    cmd/server/main.go wires up, on the SQL tables, the keys of the cache
    server, the random source and the clock: every request handled by the
    adapters is a request handled against the contracts. *)
Theorem deployed_server_refines r w s (Q : outcome unit * RequestCtx -> Sys -> Prop) :
  Argon2id.params_ok params -> deployed w s ->
  wp (pstep Argon2id.argon2_verifies) (server (new_ctx r)) Q s ->
  wp backend_step (interp adapters (server (new_ctx r))) (fun a w' => exists s', Q a s' /\ deployed w' s') w.
Proof.
  intros Hp Hdep. apply (interp_refines_only _ _ _ (fun R => saveable)); [|apply server_fits|done].
  intros R e He. by apply adapters_refine.
Qed.

(** C20: on the real adapters every request gets an answer, whatever fails in
    between; no transaction stays open in the database, and tables and cache
    keep representing well-formed data. *)
Theorem deployed_server_safe r w s :
  Argon2id.params_ok params -> deployed w s -> wf s ->
  wp backend_step (interp adapters (server (new_ctx r))) (fun a w' =>
    a.1 = Returned tt /\ Postgres.d_txs (w_db w') = Postgres.d_txs (w_db w)
    /\ exists s', deployed w' s' /\ wf s') w.
Proof.
  intros Hp Hdep Hs. pose proof (interp_refines_only (pstep Argon2id.argon2_verifies) backend_step deployed
    (fun R => saveable) adapters (server (new_ctx r))
    (fun a s' => a.1 = Returned tt /\ wf s' /\ txs s' = txs s) w s) as Href.
  eapply wp_mono; [|apply Href]; clear Href.
  - intros a w' (s' & (Ha & Hs' & Ht) & Hdep'). split; [done|]. split; [|eauto].
    rewrite (Postgres.im_txs _ _ (dep_db _ _ Hdep)), (Postgres.im_txs _ _ (dep_db _ _ Hdep')). by rewrite Ht.
  - intros R e He. by apply adapters_refine.
  - apply server_fits.
  - done.
  - by apply server_handles.
Qed.
End Deployed.
End Adapters.
