(* ===== verification/Interleave.v ===== *)
(** * Requests that run at the same time

    The server handles requests concurrently, and several instances share one
    database and one cache.  A pool lists what is left to do of the requests in
    flight; a step performs the next call of one of them, accepts a request or
    loses all of them in a restart.  The theorem: what the database guarantees
    under every interleaving of the calls the service makes, and that every
    request that finishes has been answered.  Race.v shows what is not
    guaranteed. *)
From S2P Require Import SignUp SignIn SignOut GetMe.
From S2P Require Import Prelude Program GoEncoding GoTime Errors Tenant User Session Outbox Ports PortSpec PortRules Invariant Http Middleware Handlers Router Service Adapters.
#[local] Open Scope Z_scope.

(** ** Rows and pending writes *)

(** A row of the store as the write that made it. *)
Definition row (st : Store) (w : Write) : Prop :=
  match w with
  | WUser u => users st !! User.id u = Some u
  | WSession x => sessions st !! Session.id x = Some x
  | WEvent e => events st !! Outbox.id e = Some e
  | WRevoke _ _ => False
  end.

(** The same row, up to its revocation. *)
Definition same_row (w w' : Write) : Prop :=
  match w, w' with
  | WSession x, WSession y => same_identity x y
  | _, _ => w = w'
  end.

#[global] Instance same_row_equiv : Equivalence same_row.
Proof.
  split.
  - by intros [].
  - intros [u|x|i t|e] [u'|x'|i' t'|e']; cbn; try congruence. unfold same_identity. intuition congruence.
  - intros [u|x|i t|e] [u'|x'|i' t'|e'] [u2|x2|i2 t2|e2]; cbn; try congruence.
    unfold same_identity. intuition congruence.
Qed.

#[global] Instance clash_same_row : Proper (same_row ==> same_row ==> iff) write_clash.
Proof.
  intros [u|x|i t|e] [u'|x'|i' t'|e'] H1 [v|y|j r|f] [v'|y'|j' r'|f'] H2; cbn in *; simplify_eq; try done.
  destruct H1 as (-> & _ & _ & -> & _), H2 as (-> & _ & _ & -> & _). done.
Qed.

Lemma clash_sym w w' : write_clash w w' -> write_clash w' w.
Proof. destruct w, w'; cbn; try done; intuition congruence. Qed.

(** What the service promises of a write: see [saveable]. *)
Definition good_write (w : Write) : Prop :=
  match w with
  | WUser u => NewEmail (Email_String (User.email u)) = Ok (User.email u)
  | WSession x => len (Session.tokenHash x) = 32 /\ stored_time (Session.expiresAt x) = Session.expiresAt x
  | _ => True
  end.

(** Rows are stored under their ids, no two of them clash, sessions belong to
    users. *)
Record store_ok (st : Store) : Prop := {
  so_user_key : forall i u, users st !! i = Some u -> User.id u = i;
  so_session_key : forall i x, sessions st !! i = Some x -> Session.id x = i;
  so_event_key : forall i e, events st !! i = Some e -> Outbox.id e = i;
  so_apart : forall w w', row st w -> row st w' -> write_clash w w' -> w = w';
  so_owner : forall i x, sessions st !! i = Some x -> is_Some (users st !! Session.userID x);
  so_good : forall w, row st w -> good_write w;
}.

(** The pending writes of a transaction clash neither with a row nor with each
    other. *)
Record tx_ok (st : Store) (ws : list Write) : Prop := {
  to_fresh : forall w w', w ∈ ws -> row st w' -> ~ write_clash w w';
  to_apart : forall i j w w', ws !! i = Some w -> ws !! j = Some w' -> i <> j -> ~ write_clash w w';
  to_owner : forall i x, ws !! i = Some (WSession x) ->
    is_Some (users st !! Session.userID x)
    \/ exists j u, (j < i)%nat /\ ws !! j = Some (WUser u) /\ User.id u = Session.userID x;
  to_good : forall w, w ∈ ws -> good_write w;
}.

(** The rows after one write. *)
Lemma row_apply_inv st w w' :
  store_ok st -> row (apply_write st w) w' -> w' = w \/ exists w0, row st w0 /\ same_row w0 w'.
Proof.
  intros Hst. destruct w as [u|x|sid t|e], w' as [u'|x'|i' t'|e']; cbn; try done.
  all: try (intros Hr; right; eexists; split; [|reflexivity]; exact Hr).
  - rewrite lookup_insert_Some. intros [[_ ->]|[_ Hr]]; [by left|right].
    exists (WUser u'). by split.
  - rewrite lookup_insert_Some. intros [[_ ->]|[_ Hr]]; [by left|right]. by exists (WSession x').
  - intros Hr. right. destruct (decide (sid = Session.id x')) as [->|Hne].
    + rewrite lookup_alter_eq in Hr. destruct (sessions st !! Session.id x') as [x|] eqn:E; [|done].
      injection Hr as Hx. exists (WSession x).
      split; [cbn; by rewrite (so_session_key _ Hst _ _ E)|by subst x'].
    + rewrite lookup_alter_ne in Hr by done. by exists (WSession x').
  - rewrite lookup_insert_Some. intros [[_ ->]|[_ Hr]]; [by left|right]. by exists (WEvent e').
Qed.

(** Rows stay, up to their revocation, when a write does not clash with them. *)
Lemma row_apply_keep st w w0 :
  row st w0 -> ~ write_clash w w0 -> exists w1, same_row w0 w1 /\ row (apply_write st w) w1.
Proof.
  intros Hr Hc. assert (row (apply_write st w) w0 -> exists w1, same_row w0 w1 /\ row (apply_write st w) w1)
    as Hsame by (exists w0; by split).
  destruct w as [u|x|sid t|e], w0 as [u'|x'|i' t'|e']; cbn in Hr, Hc; try done;
    try (apply Hsame; cbn; first [exact Hr|rewrite lookup_insert_ne; [exact Hr|intuition congruence]]).
destruct (decide (sid = Session.id x')) as [->|Hne].
  - exists (WSession (revoke t x')). split; [done|]. cbn. by rewrite lookup_alter_eq, Hr.
  - exists (WSession x'). split; [done|]. cbn. by rewrite lookup_alter_ne.
Qed.

Lemma row_apply_new st w : (forall i t, w <> WRevoke i t) -> row (apply_write st w) w.
Proof. intros Hw. destruct w; cbn; rewrite ?lookup_insert_eq; [done..| |done]. by destruct (Hw sid t). Qed.

Lemma users_apply_mono st w i : is_Some (users st !! i) -> is_Some (users (apply_write st w) !! i).
Proof. destruct w; cbn; try done. rewrite lookup_insert_is_Some'. by right. Qed.

Lemma same_row_good w w' : same_row w w' -> good_write w -> good_write w'.
Proof. destruct w, w'; cbn; try done; [by intros [= ->]|]. by intros (_ & _ & _ & -> & ->). Qed.

Lemma same_row_revoke w i t : same_row w (WRevoke i t) -> w = WRevoke i t.
Proof. by destruct w. Qed.

Lemma row_unique st w w' : row st w -> row st w' -> same_row w w' -> w = w'.
Proof. destruct w as [u|x|i t|e], w' as [u'|x'|i' t'|e']; cbn; try congruence. intros H1 H2 (E & _). congruence. Qed.

(** ** Committing a transaction *)

Definition owned (st : Store) (w : Write) : Prop :=
  match w with WSession x => is_Some (users st !! Session.userID x) | _ => True end.

Lemma store_ok_apply st w :
  store_ok st -> good_write w -> owned st w -> (forall w', row st w' -> ~ write_clash w w') ->
  store_ok (apply_write st w).
Proof.
  intros Hst Hg Ho Hfree. assert (forall w', row (apply_write st w) w' -> row (apply_write st w) w -> write_clash w w' -> w = w') as Hnew.
  { intros w' Hw' Hw Hc. destruct (row_apply_inv _ _ _ Hst Hw') as [->|(w0 & Hr & Hs)]; [done|].
    rewrite <- Hs in Hc. by destruct (Hfree _ Hr). }
  split.
  - destruct w; cbn; try apply (so_user_key _ Hst). intros i u'. rewrite lookup_insert_Some.
    intros [[? ->]|[_ ?]]; [done|by apply (so_user_key _ Hst)].
  - destruct w; cbn; try apply (so_session_key _ Hst).
    + intros i x. rewrite lookup_insert_Some. intros [[? ->]|[_ ?]]; [done|by apply (so_session_key _ Hst)].
    + intros i x. rewrite lookup_alter_Some. intros [(<- & y & Hy & ->)|[_ ?]]; [cbn|]; by apply (so_session_key _ Hst).
  - destruct w; cbn; try apply (so_event_key _ Hst). intros i x. rewrite lookup_insert_Some.
    intros [[? ->]|[_ ?]]; [done|by apply (so_event_key _ Hst)].
  - intros w1 w2 H1 H2 Hc.
    destruct (row_apply_inv _ _ _ Hst H1) as [->|(w1' & R1 & S1)]; [by apply Hnew|].
    destruct (row_apply_inv _ _ _ Hst H2) as [->|(w2' & R2 & S2)]; [symmetry; apply Hnew; auto using clash_sym|].
    apply (row_unique _ _ _ H1 H2). rewrite <- S1, <- S2 in *.
    by rewrite (so_apart _ Hst _ _ R1 R2 Hc).
  - intros i x Hx. apply users_apply_mono.
    destruct w as [u|y|j t|e]; cbn in Hx; try by eapply (so_owner _ Hst).
    + apply lookup_insert_Some in Hx as [[_ <-]|[_ ?]]; [done|by eapply (so_owner _ Hst)].
    + apply lookup_alter_Some in Hx as [(_ & y & Hy & ->)|[_ ?]];
        [exact (so_owner _ Hst _ y Hy)|by eapply (so_owner _ Hst)].
  - intros w' Hw'. destruct (row_apply_inv _ _ _ Hst Hw') as [->|(w0 & Hr & Hs)]; [done|].
    eapply same_row_good; [exact Hs|]. by apply (so_good _ Hst).
Qed.

Lemma tx_ok_apply st w ws :
  store_ok st -> tx_ok st ws -> (forall w', w' ∈ ws -> ~ write_clash w w') -> tx_ok (apply_write st w) ws.
Proof.
  intros Hst [Hf Ha Ho Hg] Hw. split; [|done| |done].
  - intros w1 w2 H1 H2 Hc. destruct (row_apply_inv _ _ _ Hst H2) as [->|(w0 & Hr & Hs)].
    + by apply (Hw w1), clash_sym.
    + rewrite <- Hs in Hc. by apply (Hf w1 w0).
  - intros i x Hx. destruct (Ho i x Hx); [left; by apply users_apply_mono|by right].
Qed.

Lemma tx_ok_head st w ws : store_ok st -> tx_ok st (w :: ws) -> store_ok (apply_write st w).
Proof.
  intros Hst [Hf Ha Ho Hg]. apply store_ok_apply; [done|apply Hg; left| |intros w' Hw'; apply Hf; [left|done]].
  destruct w as [|x| |]; try done. destruct (Ho 0%nat x eq_refl) as [?|(j & u & Hj & _)]; [done|lia].
Qed.

Lemma tx_ok_tail st w ws : store_ok st -> tx_ok st (w :: ws) -> tx_ok (apply_write st w) ws.
Proof.
  intros Hst [Hf Ha Ho Hg].
  assert (forall w', w' ∈ ws -> ~ write_clash w w') as Hw.
  { intros w' (j & Hj)%list_elem_of_lookup. by apply (Ha 0%nat (S j)). }
  split.
  - intros w1 w2 H1 H2 Hc. destruct (row_apply_inv _ _ _ Hst H2) as [->|(w0 & Hr & Hs)].
    + by apply (Hw w1), clash_sym.
    + rewrite <- Hs in Hc. apply (Hf w1 w0); [by right|done..].
  - intros i j w1 w2 H1 H2 Hij. apply (Ha (S i) (S j)); [done..|lia].
  - intros i x Hx. destruct (Ho (S i) x Hx) as [?|(j & u & Hj & Hu & E)]; [left; by apply users_apply_mono|].
    destruct j as [|j]; [left|right].
    + injection Hu as ->. cbn. rewrite <- E, lookup_insert_eq. by eexists.
    + exists j, u. split; [lia|done].
  - intros w' Hw'. apply Hg. by right.
Qed.

Lemma store_ok_applies ws st : store_ok st -> tx_ok st ws -> store_ok (apply_writes ws st).
Proof.
  revert st. induction ws as [|w ws IH]; intros st Hst Hw; [done|].
  apply (IH (apply_write st w)); [by eapply tx_ok_head|by apply tx_ok_tail].
Qed.

(** A commit keeps the other transactions in order. *)
Lemma tx_ok_applies ws ws' st :
  store_ok st -> tx_ok st ws -> tx_ok st ws' ->
  (forall w w', w ∈ ws -> w' ∈ ws' -> ~ write_clash w w') -> tx_ok (apply_writes ws st) ws'.
Proof.
  revert st. induction ws as [|w ws IH]; intros st Hst Hw Hw' Hc; [done|].
  apply (IH (apply_write st w)).
  - by eapply tx_ok_head.
  - by apply tx_ok_tail.
  - apply tx_ok_apply; [done..|]. intros w1 H1. apply Hc; [left|done].
  - intros w1 w2 H1 H2. apply Hc; [by right|done].
Qed.

(** ** Statements inside a transaction *)

(** The view of a transaction has the rows of the store and its own writes. *)
Lemma view_row ws st w :
  store_ok st -> tx_ok st ws -> row st w \/ (w ∈ ws /\ forall i t, w <> WRevoke i t) ->
  exists w', same_row w w' /\ row (apply_writes ws st) w'.
Proof.
  revert st w. induction ws as [|w0 ws IH]; intros st w Hst Hw [Hr|[Hin Hn]].
  - by exists w.
  - by apply not_elem_of_nil in Hin.
  - destruct (row_apply_keep st w0 w Hr) as (w1 & S1 & R1); [by apply (to_fresh _ _ Hw w0 w); [left|]|].
    destruct (IH (apply_write st w0) w1) as (w2 & S2 & R2); [by eapply tx_ok_head|by apply tx_ok_tail|by left|].
    exists w2. split; [by etransitivity|done].
  - apply (IH (apply_write st w0)); [by eapply tx_ok_head|by apply tx_ok_tail|].
    apply elem_of_cons in Hin as [->|Hin]; [left; by apply row_apply_new|by right].
Qed.

Lemma view_users ws st i : is_Some (users st !! i) -> is_Some (users (apply_writes ws st) !! i).
Proof. revert st. induction ws as [|w ws IH]; intros st Hi; [done|]. by apply IH, users_apply_mono. Qed.

Lemma view_users_inv ws st i :
  is_Some (users (apply_writes ws st) !! i) ->
  is_Some (users st !! i) \/ exists j u, ws !! j = Some (WUser u) /\ User.id u = i.
Proof.
  revert st. induction ws as [|w ws IH]; intros st Hi; [by left|].
  destruct (IH (apply_write st w) Hi) as [Hs|(j & u & Hj & Hu)]; [|right; by exists (S j), u].
  destruct w as [u| | |]; cbn in Hs; try by left. apply lookup_insert_is_Some' in Hs as [<-|Hs]; [|by left].
  right. by exists 0%nat, u.
Qed.

(** A write that the view admits. *)
Lemma tx_ok_snoc st ws w :
  store_ok st -> tx_ok st ws -> good_write w ->
  (forall w', row (apply_writes ws st) w' -> ~ write_clash w w') ->
  (forall x, w = WSession x -> is_Some (users (apply_writes ws st) !! Session.userID x)) ->
  tx_ok st (ws ++ [w]).
Proof.
  intros Hst Hws Hg Hfree Ho.
  assert (forall w', row st w' \/ w' ∈ ws -> ~ write_clash w w') as Hno.
  { intros w' Hw' Hc. destruct (view_row ws st w' Hst Hws) as (w1 & S1 & R1).
    - destruct Hw' as [?|Hin]; [by left|right; split; [done|]]. intros i t ->. by destruct w.
    - rewrite S1 in Hc. by apply (Hfree w1). }
  destruct Hws as [Hf Ha Hown Hgood]. split.
  - intros w1 w2 [H1|H1]%elem_of_app H2 Hc; [by apply (Hf w1 w2)|].
    apply list_elem_of_singleton in H1 as ->. apply (Hno w2); auto.
  - intros i j w1 w2 H1 H2 Hij Hc. apply lookup_app_Some in H1, H2.
    destruct H1 as [H1|[Hi H1]], H2 as [H2|[Hj H2]].
    + by apply (Ha i j w1 w2).
    + apply list_lookup_singleton_Some in H2 as [_ <-]. apply (Hno w1); [|by apply clash_sym].
      right. by eapply list_elem_of_lookup_2.
    + apply list_lookup_singleton_Some in H1 as [_ <-]. apply (Hno w2); [|done].
      right. by eapply list_elem_of_lookup_2.
    + apply list_lookup_singleton_Some in H1 as [E1 _], H2 as [E2 _]. lia.
  - intros i x Hx. apply lookup_app_Some in Hx as [Hx|[Hi Hx]].
    + destruct (Hown i x Hx) as [?|(j & u & Hj & Hu & E)]; [by left|right].
      exists j, u. split; [done|]. split; [by apply lookup_app_l_Some|done].
    + apply list_lookup_singleton_Some in Hx as [_ ->].
      destruct (view_users_inv ws st _ (Ho x eq_refl)) as [?|(j & u & Hj & Hu)]; [by left|right].
      exists j, u. apply lookup_lt_Some in Hj as Hlt. split; [lia|]. split; [by apply lookup_app_l_Some|done].
  - intros w1 [H1|H1]%elem_of_app; [by apply Hgood|]. by apply list_elem_of_singleton in H1 as ->.
Qed.

(** ** The invariant of the shared database *)

Record db_ok (s : Sys) : Prop := {
  do_store : store_ok (committed s);
  do_txs : forall h ws, txs s !! h = Some (TxActive ws) -> tx_ok (committed s) ws;
  do_apart : forall h h' ws ws' w w', txs s !! h = Some (TxActive ws) -> txs s !! h' = Some (TxActive ws') ->
    h <> h' -> w ∈ ws -> w' ∈ ws' -> ~ write_clash w w';
}.

Lemma db_ok_quiet s s' : committed s' = committed s -> txs s' = txs s -> db_ok s -> db_ok s'.
Proof. intros E1 E2 [H1 H2 H3]. split; rewrite ?E1, ?E2; done. Qed.

(** Closing or aborting transactions. *)
Lemma db_ok_fewer s m :
  (forall h ws, m !! h = Some (TxActive ws) -> txs s !! h = Some (TxActive ws)) ->
  db_ok s -> db_ok (set_txs m s).
Proof. intros Hm [H1 H2 H3]. split; cbn; [done|eauto|]. eauto. Qed.

Lemma db_ok_close s tx : db_ok s -> db_ok (close_tx tx s).
Proof.
  intros Hs. unfold close_tx. destruct (InnerTx tx) as [|h|]; [done| |done].
  apply db_ok_fewer; [|done]. by intros h' ws [_ ?]%lookup_delete_Some.
Qed.

Lemma db_ok_abort s h : db_ok s -> db_ok (abort_in h s).
Proof.
  apply db_ok_fewer. intros h' ws. rewrite lookup_insert_Some. by intros [[_ ?]|[_ ?]].
Qed.

Lemma open_tx_Some s tx h ws :
  open_tx s tx = Some (h, ws) -> InnerTx tx = any_pgx_tx h /\ txs s !! h = Some (TxActive ws).
Proof. unfold open_tx. intros E. repeat case_match; by simplify_eq. Qed.

Lemma db_ok_begin s h : txs s !! h = None -> db_ok s -> db_ok (set_txs (<[h := TxActive []]> (txs s)) s).
Proof.
  intros Hh [H1 H2 H3]. split; cbn; [done|..].
  - intros h' ws. rewrite lookup_insert_Some. intros [[_ [= <-]]|[_ ?]]; [|by eauto].
    split; [by intros ? ? ?%not_elem_of_nil|done|done|by intros ? ?%not_elem_of_nil].
  - intros h1 h2 ws ws' w w'. rewrite !lookup_insert_Some.
    intros [[_ [= <-]]|[_ ?]] [[_ [= <-]]|[_ ?]] Hne Hin Hin'; try by apply not_elem_of_nil in Hin.
    + by apply not_elem_of_nil in Hin'.
    + by eauto.
Qed.

Lemma db_ok_commit s tx h ws :
  open_tx s tx = Some (h, ws) -> db_ok s -> db_ok (set_committed (tx_view s ws) (close_tx tx s)).
Proof.
  intros [Ei Eh]%open_tx_Some Hs. destruct Hs as [H1 H2 H3]. unfold close_tx. rewrite Ei. split; cbn.
  - apply store_ok_applies; eauto.
  - intros h' ws' [Hne Hh']%lookup_delete_Some. apply tx_ok_applies; eauto.
  - intros h1 h2 ws1 ws2 w1 w2 [_ ?]%lookup_delete_Some [_ ?]%lookup_delete_Some. eauto.
Qed.

Lemma db_ok_write s tx h ws w :
  open_tx s tx = Some (h, ws) -> db_ok s -> good_write w -> unblocked s h w ->
  (forall w', row (tx_view s ws) w' -> ~ write_clash w w') ->
  (forall x, w = WSession x -> is_Some (users (tx_view s ws) !! Session.userID x)) ->
  db_ok (write_in h ws w s).
Proof.
  intros [Ei Eh]%open_tx_Some [H1 H2 H3] Hg Hu Hf Ho. split; cbn; [done|..].
  - intros h' ws'. rewrite lookup_insert_Some. intros [[_ [= <-]]|[_ ?]]; [|by eauto].
    apply tx_ok_snoc; eauto.
  - assert (forall h' ws' w', h' <> h -> txs s !! h' = Some (TxActive ws') -> w' ∈ ws' ->
      forall w1, w1 ∈ ws ++ [w] -> ~ write_clash w1 w') as Hnew.
    { intros h' ws' w' Hne Hh' Hw' w1 [Hw1|Hw1]%elem_of_app; [apply (H3 h h' ws ws'); auto; congruence|].
      apply list_elem_of_singleton in Hw1 as ->. by eapply Hu. }
    intros h1 h2 ws1 ws2 w1 w2. rewrite !lookup_insert_Some.
    intros [[<- [= <-]]|[N1 E1]] [[<- [= <-]]|[N2 E2]] Hne I1 I2; [done|..|by apply (H3 h1 h2 ws1 ws2)].
    + by apply (Hnew h2 ws2).
    + intros Hc%clash_sym. by apply (Hnew h1 ws1 w1 ltac:(done) E1 I1 w2).
Qed.

(** A revocation clashes with nothing. *)
Lemma db_ok_revoke s tx h ws i t :
  open_tx s tx = Some (h, ws) -> db_ok s -> db_ok (write_in h ws (WRevoke i t) s).
Proof.
  intros E Hs. eapply db_ok_write; [exact E|exact Hs|exact Logic.I| | |by intros ? [=]].
  - by intros ? ? ? _ _ _ [].
  - by intros ? _ [].
Qed.

Section Calls.
Context (verifies : PasswordHash -> string -> bool).

(** Every call the service makes keeps the invariant, whatever happened since
    its last call. *)
Lemma call_keeps_db {R} (c : Port R) s o s' :
  saveable c -> pstep verifies R c s o s' -> db_ok s -> db_ok s'.
Proof.
  intros Hsave Hstep Hs.
  destruct c as [R c|R c|R c|R c|R c|R c|R c|src| |r|R c]; cbn in Hstep.
  - destruct c as [|tx|tx]; cbn in Hstep.
    + destruct Hstep as [(h & Hh & _ & ->)|[_ ->]]; [by apply db_ok_begin|done].
    + destruct (open_tx s tx) as [[h ws]|] eqn:E.
      * destruct Hstep as [[_ ->]|[_ [->| ->]]]; first [by apply db_ok_close|by eapply db_ok_commit].
      * destruct Hstep as [_ ->]. by apply db_ok_close.
    + destruct Hstep as [_ ->]. by apply db_ok_close.
  - destruct c as [tx u|t e|t uid]; cbn in Hstep; [|by destruct Hstep as [-> _]..].
    unfold in_tx in Hstep. destruct (open_tx s tx) as [[h ws]|] eqn:E; [|by destruct Hstep as [_ ->]].
    destruct Hstep as [[(_ & Hc & Hu & ->)|(_ & _ & ->)]|[_ ->]]; [|by apply db_ok_abort..].
    eapply db_ok_write; [done..| |done]. intros [v| | |] Hv; [|by intros []..].
    intros [Hi|[Ht He]]; apply Hc; cbn in *.
    + left. rewrite Hi, Hv. by eexists.
    + right. exists (User.id v), v. by rewrite Ht, He.
  - destruct c as [tx x|hash|tx t sid]; cbn in Hstep; [|by destruct Hstep as [-> _]|].
    + unfold in_tx in Hstep. destruct (open_tx s tx) as [[h ws]|] eqn:E; [|by destruct Hstep as [_ ->]].
      destruct Hstep as [(_ & Hc & Hu & Ho & ->)|[_ ->]]; [|by apply db_ok_abort].
      destruct Hsave as [_ Hlen].
      eapply db_ok_write; [done|done|by split; [|apply stored_time_idemp]|done| |].
      * intros [|v| |] Hv; [by intros []| |by intros []..]. intros [Hi|Ht]; apply Hc; cbn in *.
        -- left. rewrite Hi, Hv. by eexists.
        -- right. by exists (Session.id v), v.
      * by intros y [= <-].
    + unfold in_tx in Hstep. destruct (open_tx s tx) as [[h ws]|] eqn:E; [|by destruct Hstep as [_ ->]].
      destruct Hstep as [[(x & t' & _ & _ & _ & ->)|(_ & _ & ->)]|[_ ->]];
        [by eapply db_ok_revoke|done|by apply db_ok_abort].
  - destruct c as [tx ev]; cbn in Hstep. unfold in_tx in Hstep.
    destruct (open_tx s tx) as [[h ws]|] eqn:E; [|by destruct Hstep as [_ ->]].
    destruct Hstep as [(_ & Hn & Hu & ->)|[_ ->]]; [|by apply db_ok_abort].
    eapply db_ok_write; [done..| |done]. intros [| | |f] Hf; [by intros []..|]. cbn in *. intros Hi. congruence.
  - assert (committed s' = committed s /\ txs s' = txs s) as [E1 E2]; [|by eapply db_ok_quiet].
    destruct c; cbn in Hstep; naive_solver.
  - destruct c; by destruct Hstep as [-> _].
  - destruct c; by destruct Hstep as [-> _].
  - destruct Hstep as (t & _ & _ & ->). by apply (db_ok_quiet s).
  - by destruct Hstep as [-> _].
  - destruct Hstep as [_ ->]. by apply (db_ok_quiet s).
  - by destruct Hstep as [_ ->].
Qed.
End Calls.

(** ** Requests in flight *)

Definition Request : Type := Prog Port (outcome unit * RequestCtx).

(** The request makes calls of the service and ends with an answer. *)
Definition request_ok (p : Request) : Prop :=
  fits p /\ wp loose p (fun a _ => a.1 = Returned tt) tt.

Section Flight.
Context `{UuidLib} (verifies : PasswordHash -> string -> bool).
Context (ttl : Duration) (dummy : PasswordHash) (secure : bool) (allowed : list string) (doc : string).

(** One step of the running instances: the next call of a request, a new
    request, or a restart, in which the requests in flight are lost and the
    database rolls their transactions back. *)
Inductive flight : list Request * Sys -> list Request * Sys -> Prop :=
| flight_call pool i R (e : Port R) k o s s' :
    pool !! i = Some (Vis e k) -> pstep verifies R e s o s' -> flight (pool, s) (<[i := k o]> pool, s')
| flight_accept pool s r : flight (pool, s) (pool ++ [server ttl dummy secure allowed doc (new_ctx r)], s)
| flight_restart pool s : flight (pool, s) ([], set_txs ∅ s).

Lemma pstep_loose {R} (e : Port R) s o s' : pstep verifies R e s o s' -> loose R e tt o tt.
Proof. destruct e; cbn; try done. by intros [-> _]. Qed.

Lemma request_ok_call {R} (e : Port R) k s o s' :
  request_ok (Vis e k) -> pstep verifies R e s o s' -> saveable e /\ request_ok (k o).
Proof.
  intros [[Hs Hk] Hw] Hstep. split; [done|]. split; [apply Hk|].
  apply (Hw o tt). by eapply pstep_loose.
Qed.

Lemma server_request_ok c : request_ok (server ttl dummy secure allowed doc c).
Proof. split; [apply server_fits|]. by apply (server_answers ttl dummy secure allowed doc loose c tt). Qed.

Lemma flight_keeps x y : flight x y -> Forall request_ok x.1 /\ db_ok x.2 -> Forall request_ok y.1 /\ db_ok y.2.
Proof.
  intros [pool i R e k o s s' Hi Hstep|pool s r|pool s] [Hp Hs]; cbn [fst snd] in *.
  - destruct (request_ok_call e k s o s') as [Hsave Hk]; [by eapply Forall_lookup_1|done|].
    split; [by apply Forall_insert|by eapply call_keeps_db].
  - split; [|done]. apply Forall_app_2; [done|]. apply Forall_singleton, server_request_ok.
  - split; [done|]. by apply db_ok_fewer.
Qed.

Lemma initial_db_ok t : db_ok (initial t).
Proof.
  split; [|done..]. split; cbn; try done; intros [] *; cbn; by rewrite ?lookup_empty.
Qed.

(** What clients may rely on in the shared database. *)
Record consistent (st : Store) : Prop := {
  co_user_id : forall i u, users st !! i = Some u -> User.id u = i;
  co_address : forall i j u v, users st !! i = Some u -> users st !! j = Some v ->
    User.tenantID u = User.tenantID v -> User.email u = User.email v -> i = j;
  co_canonical : forall i u, users st !! i = Some u ->
    NewEmail (Email_String (User.email u)) = Ok (User.email u);
  co_session_id : forall i x, sessions st !! i = Some x -> Session.id x = i;
  co_token : forall i j x y, sessions st !! i = Some x -> sessions st !! j = Some y ->
    Session.tokenHash x = Session.tokenHash y -> i = j;
  co_digest : forall i x, sessions st !! i = Some x -> len (Session.tokenHash x) = 32;
  co_owner : forall i x, sessions st !! i = Some x -> is_Some (users st !! Session.userID x);
}.

Lemma store_ok_consistent st : store_ok st -> consistent st.
Proof.
  intros Hst.
  assert (forall i u, users st !! i = Some u -> row st (WUser u)) as Hu
    by (intros i u Hi; cbn; by rewrite (so_user_key _ Hst i u Hi)).
  assert (forall i x, sessions st !! i = Some x -> row st (WSession x)) as Hx
    by (intros i x Hi; cbn; by rewrite (so_session_key _ Hst i x Hi)).
  split; try apply Hst.
  - intros i j u v Hi Hj Ht He. pose proof (so_apart _ Hst _ _ (Hu i u Hi) (Hu j v Hj) (or_intror (conj Ht He))) as Heq.
    rewrite <- (so_user_key _ Hst i u Hi), <- (so_user_key _ Hst j v Hj).
    by injection Heq as ->.
  - intros i u Hi. apply (so_good _ Hst _ (Hu i u Hi)).
  - intros i j x y Hi Hj Hh. pose proof (so_apart _ Hst _ _ (Hx i x Hi) (Hx j y Hj) (or_intror Hh)) as Heq.
    rewrite <- (so_session_key _ Hst i x Hi), <- (so_session_key _ Hst j y Hj).
    by injection Heq as ->.
  - intros i x Hi. apply (proj1 (so_good _ Hst _ (Hx i x Hi))).
Qed.

Lemma flights_keep t pool s :
  rtc flight ([], initial t) (pool, s) -> Forall request_ok pool /\ db_ok s.
Proof.
  intros Hr. assert (forall x y, rtc flight x y -> Forall request_ok x.1 /\ db_ok x.2 ->
    Forall request_ok y.1 /\ db_ok y.2) as Hgen.
  { induction 1 as [|x y z Hxy _ IH]; [done|]. intros Hx. by apply IH, (flight_keeps x y). }
  apply (Hgen _ _ Hr). split; [done|apply initial_db_ok].
Qed.

(** C14: under every interleaving of the calls of any number of requests, with
    failures and restarts, the shared database stays consistent: no two users of
    a tenant share an address, addresses are canonical, no two sessions share a
    token, only SHA-256 digests of tokens are stored, every session belongs to a
    user; and every request that has finished has been answered. *)
Theorem interleaved_requests_safe t pool s :
  rtc flight ([], initial t) (pool, s) ->
  consistent (committed s) /\ forall a c, Ret (a, c) ∈ pool -> a = Returned tt.
Proof.
  intros [Hp Hs]%flights_keep. split; [apply store_ok_consistent, Hs|].
  intros a c Hin. rewrite Forall_forall in Hp. by apply Hp in Hin as [_ Ha].
Qed.
End Flight.
