(* ===== verification/Omni.v ===== *)
(** * Programs whose calls have obligations

    [owp step p Q s] generalises [wp]: the semantics of a call is a predicate
    transformer, so that a call may be obliged to meet a precondition as well as
    be answered in several ways.  The rules for Go function bodies are those of
    PortRules.v.  [at_most] counts the calls of a program in this way, and
    [at_most_interp] those of a program whose calls are programs. *)
From S2P Require Import Prelude Program PortRules.

(** The answers [P] that a call must be prepared for. *)
Definition Transformer (E : Type -> Type) (S : Type) : Type :=
  forall R, E R -> S -> (outcome R -> S -> Prop) -> Prop.

Class Monotone {E S} (step : Transformer E S) : Prop :=
  step_mono R (e : E R) s (P P' : outcome R -> S -> Prop) :
    (forall o s', P o s' -> P' o s') -> step R e s P -> step R e s P'.

Fixpoint owp {E S} (step : Transformer E S) {A} (p : Prog E A) (Q : A -> S -> Prop) (s : S) : Prop :=
  match p with
  | Ret a => Q a s
  | Vis e k => step _ e s (fun o s' => owp step (k o) Q s')
  end.

Section Rules.
Context {E : Type -> Type} {S L : Type} (step : Transformer E S) `{!Monotone step}.

Lemma owp_mono {A} (p : Prog E A) (Q Q' : A -> S -> Prop) s :
  (forall a s', Q a s' -> Q' a s') -> owp step p Q s -> owp step p Q' s.
Proof. intros HQ. revert s. induction p; cbn; [eauto|]. intros s. apply step_mono. eauto. Qed.

Lemma owp_pbind {A B} (p : Prog E A) (f : A -> Prog E B) Q s :
  owp step p (fun a s' => owp step (f a) Q s') s -> owp step (pbind p f) Q s.
Proof. revert s. induction p; cbn; [done|]. intros s. apply step_mono. eauto. Qed.

Lemma owp_bind {A B} (m : G E L A) (f : A -> G E L B) Q l s :
  owp step (m l) (fun ol s' =>
    match ol with
    | (Returned a, l') => owp step (f a l') Q s'
    | (Panicked msg, l') => Q (Panicked msg, l') s'
    end) s ->
  owp step (bind m f l) Q s.
Proof.
  intros H. apply owp_pbind. eapply owp_mono; [|exact H]. by intros [[a|msg] l'] s'.
Qed.

Lemma owp_call {R} (e : E R) Q (l : L) s :
  step _ e s (fun o s' => Q (o, l) s') -> owp step (call e l) Q s.
Proof. done. Qed.

Lemma owp_defer {A} (c : G E L unit) (m : G E L A) Q l s :
  owp step (m l) (fun ol s' => owp step (c ol.2) (fun cl s'' =>
    Q (match cl.1 with Returned _ => ol.1 | Panicked msg => Panicked msg end, cl.2) s'') s') s ->
  owp step (defer c m l) Q s.
Proof.
  intros H. apply owp_pbind. eapply owp_mono; [|exact H]. cbn. intros ol s' H'.
  apply owp_pbind. eapply owp_mono; [|exact H']. by intros [[[]|msg] l'] s''.
Qed.

Lemma owp_scope {L' A} (l0 : L') (m : G E L' A) Q (l : L) s :
  owp step (m l0) (fun ol s' => Q (ol.1, l) s') s -> owp step (scope l0 m l) Q s.
Proof. intros H. apply owp_pbind. eapply owp_mono; [|exact H]. done. Qed.

Lemma owp_recovering (h : string -> G E L unit) (m : G E L unit) Q l s :
  owp step (m l) (fun ol s' =>
    match ol with
    | (Returned a, l') => Q (Returned a, l') s'
    | (Panicked msg, l') => owp step (h msg l') Q s'
    end) s ->
  owp step (recovering h m l) Q s.
Proof.
  intros H. apply owp_pbind. eapply owp_mono; [|exact H]. by intros [[a|msg] l'] s'.
Qed.
End Rules.

(** One rule for the head of the program. *)
Ltac owp_rule :=
  lazymatch goal with
  | |- owp _ (bind _ _ _) _ _ => apply owp_bind; [apply _|]
  | |- owp _ (call _ _) _ _ => apply owp_call
  | |- owp _ (defer _ _ _) _ _ => apply owp_defer; [apply _|]
  | |- owp _ (scope _ _ _) _ _ => apply owp_scope; [apply _|]
  | |- owp _ (recovering _ _ _) _ _ => apply owp_recovering; [apply _|]
  | |- owp _ (ret _ _) _ _ => cbn [owp ret]
  | |- owp _ (fail _ _) _ _ => cbn [owp ret fail]
  | |- owp _ (get _) _ _ => cbn [owp get]
  | |- owp _ (put _ _) _ _ => cbn [owp put modify]
  | |- owp _ (modify _ _) _ _ => cbn [owp modify]
  end; cbv beta iota.

(** ** Counting calls *)

Section Budget.
#[local] Open Scope nat_scope.
Context {E : Type -> Type}.

(** A call takes one unit of the budget, and may be answered anything. *)
Definition budget : Transformer E nat := fun R e n P =>
  match n with O => False | S n => forall o, P o n end.

#[global] Instance budget_monotone : Monotone budget.
Proof. intros R e [|n] P P' HP; [done|]. cbn. auto. Qed.

(** The program makes at most [n] calls. *)
Definition at_most {A} (n : nat) (p : Prog E A) : Prop := owp budget p (fun _ _ => True) n.

(** The program makes at most [n] calls and leaves the rest of the budget. *)
Definition takes {A} (n : nat) (p : Prog E A) : Prop := forall m, owp budget p (fun _ m' => m <= m') (n + m).

Lemma takes_at_most {A} n (p : Prog E A) : takes n p -> at_most n p.
Proof. intros Hp. specialize (Hp 0). rewrite Nat.add_0_r in Hp. by eapply owp_mono; [apply _| |exact Hp]. Qed.

Lemma takes_from {A} n (p : Prog E A) Q m :
  takes n p -> n <= m -> (forall a m', m - n <= m' -> Q a m') -> owp budget p Q m.
Proof.
  intros Hp Hm HQ. replace m with (n + (m - n)) by lia. eapply owp_mono; [apply _| |apply Hp]. auto.
Qed.

Lemma budget_spend {R} (e : E R) n P : 0 < n -> (forall o, P o (Nat.pred n)) -> budget R e n P.
Proof. by destruct n; [lia|]. Qed.

Lemma at_most_le {A} n m (p : Prog E A) : n <= m -> at_most n p -> at_most m p.
Proof.
  revert n m. induction p as [a|R e k IH]; intros n m Hnm; [done|].
  destruct n as [|n]; [done|]. destruct m as [|m]; [lia|]. intros Hp o. apply (IH o n m); [lia|apply Hp].
Qed.

Lemma at_most_pbind {A B} n m (p : Prog E A) (f : A -> Prog E B) :
  at_most n p -> (forall a, at_most m (f a)) -> at_most (n + m) (pbind p f).
Proof.
  revert n. induction p as [a|R e k IH]; intros n Hp Hf; [apply (at_most_le m); [lia|apply Hf]|].
  destruct n as [|n]; [done|]. intros o. apply IH; [apply Hp|done].
Qed.
End Budget.

(** Each call of a program answered by at most [b] calls. *)
Lemma at_most_interp {E F : Type -> Type} (b : nat) (h : forall R, E R -> Prog F (outcome R)) {A} n (p : Prog E A) :
  (forall R (e : E R), at_most b (h R e)) -> at_most n p -> at_most (n * b)%nat (interp h p).
Proof.
  intros Hh. revert n. induction p as [a|R e k IH]; intros n Hp; [done|].
  destruct n as [|n]; [done|]. cbn. apply at_most_pbind; [apply Hh|]. intros o. apply IH, Hp.
Qed.
