(* ===== verification/Interference.v ===== *)
(** * Requests under interference

    What a request may rely on while others run, and what it owes them.  A
    request owns the transactions it has opened; between two of its calls the
    other requests may do anything that keeps the shared invariant, except touch
    these transactions or take back what is stored: rows stay, up to the
    revocation of a session.  [istep] is the semantics of a call under this
    interference, with the obligations of the caller; what is proved of every
    request on its own then holds of all of them together
    ([traffic_keeps] in Traffic.v). *)
From S2P Require Import Prelude Program GoEncoding GoTime Errors Tenant User Session Outbox Ports PortSpec PortRules Invariant Http Middleware Adapters Interleave Omni.
From S2P Require Postgres.
#[local] Open Scope Z_scope.

(** ** What others do *)

(** Rows stay: users and events as they are, sessions up to their revocation,
    which is final. *)
Record grows (st st' : Store) : Prop := {
  gr_users : forall i u, users st !! i = Some u -> users st' !! i = Some u;
  gr_sessions : forall i x, sessions st !! i = Some x ->
    exists y, sessions st' !! i = Some y /\ same_identity x y
      /\ (is_Some (Session.revokedAt x) -> Session.revokedAt y = Session.revokedAt x);
  gr_events : forall i e, events st !! i = Some e -> events st' !! i = Some e;
}.

Lemma same_identity_trans x y z : same_identity x y -> same_identity y z -> same_identity x z.
Proof. unfold same_identity. intuition congruence. Qed.

#[global] Instance grows_preorder : PreOrder grows.
Proof.
  split.
  - intros st. split; try done. intros i x Hx. exists x. split; [done|]. split; [apply same_identity_refl|done].
  - intros s1 s2 s3 [U1 S1 E1] [U2 S2 E2]. split; [by auto| |by auto]. intros i x Hx.
    destruct (S1 i x Hx) as (y & Hy & Ixy & Rxy), (S2 i y Hy) as (z & Hz & Iyz & Ryz).
    exists z. split; [done|]. split; [by eapply same_identity_trans|].
    intros Hr. rewrite Ryz; rewrite Rxy; done.
Qed.

(** A write that clashes with no row. *)
Lemma grows_apply st w :
  store_ok st -> (forall w', row st w' -> ~ write_clash w w') -> grows st (apply_write st w).
Proof.
  intros Hst Hfree. destruct w as [u|x|sid t|e]; (split; cbn; try done).
  - intros i v Hv. rewrite lookup_insert_ne; [done|]. intros <-.
    apply (Hfree (WUser v)); cbn; rewrite (so_user_key _ Hst _ _ Hv); first [done|by left].
  - intros i y Hy. exists y. split; [done|]. split; [apply same_identity_refl|done].
  - intros i y Hy. exists y. split; [|split; [apply same_identity_refl|done]]. rewrite lookup_insert_ne; [done|].
    intros <-. apply (Hfree (WSession y)); cbn; rewrite (so_session_key _ Hst _ _ Hy); first [done|by left].
  - intros i y Hy. destruct (decide (sid = i)) as [->|Hne].
    + exists (revoke t y). rewrite lookup_alter_eq, Hy. split; [done|]. split; [by repeat split|].
      by intros [r Hr]; cbn; rewrite Hr.
    + exists y. rewrite lookup_alter_ne by done. split; [done|]. split; [apply same_identity_refl|done].
  - intros i y Hy. exists y. split; [done|]. split; [apply same_identity_refl|done].
  - intros i f Hf. rewrite lookup_insert_ne; [done|]. intros <-.
    apply (Hfree (WEvent f)); cbn; by rewrite (so_event_key _ Hst _ _ Hf).
Qed.

Lemma grows_applies ws st : store_ok st -> tx_ok st ws -> grows st (apply_writes ws st).
Proof.
  revert st. induction ws as [|w ws IH]; intros st Hst Hw; [reflexivity|].
  transitivity (apply_write st w).
  - apply grows_apply; [done|]. intros w' Hw'. apply (to_fresh _ _ Hw w w'); [left|done].
  - apply (IH (apply_write st w)); [by eapply tx_ok_head|by apply tx_ok_tail].
Qed.

(** What the other requests may have done since [s]; [own] are the transactions
    of this one. *)
Record later (own : gset positive) (s s' : Sys) : Prop := {
  la_rows : grows (committed s) (committed s');
  la_own : forall h, h ∈ own -> txs s' !! h = txs s !! h;
  la_now : now s <= now s';
}.

#[global] Instance later_preorder own : PreOrder (later own).
Proof.
  split.
  - intros s. by split; [|done|lia].
  - intros s1 s2 s3 [G1 O1 N1] [G2 O2 N2]. split; [by etransitivity| |lia].
    intros h Hh. by rewrite O2, O1.
Qed.

Lemma later_weaken own own' s s' : own' ⊆ own -> later own s s' -> later own' s s'.
Proof. intros Ho [G O N]. split; [done| |done]. auto. Qed.

(** The shared invariant: the database is consistent, and every cache entry
    describes a stored session. *)
Definition shared_ok (s : Sys) : Prop := db_ok s /\ wf_cache s.

Definition backed (st : Store) (key : string) (body : CachedSession) : Prop :=
  exists i x, sessions st !! i = Some x /\ cached_session_of key body x.

Lemma backed_grows st st' key body : grows st st' -> backed st key body -> backed st' key body.
Proof.
  intros Hg (i & x & Hx & Hb). destruct (gr_sessions _ _ Hg i x Hx) as (y & Hy & Hxy & _).
  exists i, y. split; [done|]. by eapply cached_same.
Qed.

(** ** What a request owes *)

(** The transactions that a call names, and that its answer opens. *)
Definition handles (tx : Tx) : gset positive :=
  match InnerTx tx with any_pgx_tx h => {[h]} | _ => ∅ end.
Definition named {R} (e : Port R) : gset positive :=
  match e with
  | Uow (Commit tx) | Uow (Rollback tx) => handles tx
  | Users (UserSaveTx tx _) => handles tx
  | Sessions (SessionSaveTx tx _) | Sessions (RevokeTx tx _ _) => handles tx
  | OutboxRepo (WriteTx tx _) => handles tx
  | _ => ∅
  end.
Definition opened_by {R} (c : UnitOfWork R) : outcome R -> gset positive :=
  match c in UnitOfWork R return outcome R -> gset positive with
  | Begin => fun o => match o with Returned (Ok tx) => handles tx | _ => ∅ end
  | _ => fun _ => ∅
  end.
Definition opened {R} (e : Port R) : outcome R -> gset positive :=
  match e in Port R return outcome R -> gset positive with
  | Uow c => opened_by c
  | _ => fun _ => ∅
  end.

(** A request caches nothing but stored sessions. *)
Definition caches_backed {R} (e : Port R) (s : Sys) : Prop :=
  match e with SessionCache (CacheSet key body _) => backed (committed s) key body | _ => True end.

Record permitted (own : gset positive) {R} (e : Port R) (s : Sys) : Prop := {
  pm_saveable : saveable e;
  pm_named : named e ⊆ own;
  pm_backed : caches_backed e s;
}.

(** ** One call keeps what the others rely on *)

Section Calls.
Context (verifies : PasswordHash -> string -> bool).

(** Only a commit changes the stored rows. *)
Lemma pstep_committed {R} (e : Port R) s o s' :
  pstep verifies R e s o s' ->
  committed s' = committed s
  \/ exists tx h ws, open_tx s tx = Some (h, ws) /\ s' = set_committed (tx_view s ws) (close_tx tx s).
Proof.
  assert (forall tx, committed (close_tx tx s) = committed s) as Hclose by (intros; unfold close_tx; by case_match).
  intros Hs. destruct e as [R c|R c|R c|R c|R c|R c|R c|src| |r|R c]; cbn in Hs.
  - destruct c as [|tx|tx]; cbn in Hs.
    + left. by destruct Hs as [(h & _ & _ & ->)|[_ ->]].
    + destruct (open_tx s tx) as [[h ws]|] eqn:E; [|left; by destruct Hs as [_ ->]].
      destruct Hs as [[_ ->]|[_ [->| ->]]]; [right; by eauto|by left|right; by eauto].
    + left. by destruct Hs as [_ ->].
  - left. destruct c; cbn in Hs; [|by destruct Hs as [-> _]..]. unfold in_tx in Hs. case_match.
    + case_match. by destruct Hs as [[(_ & _ & _ & ->)|(_ & _ & ->)]|[_ ->]].
    + by destruct Hs as [_ ->].
  - left. destruct c; cbn in Hs; [|by destruct Hs as [-> _]|]; unfold in_tx in Hs; case_match;
      try (by destruct Hs as [_ ->]); case_match.
    + by destruct Hs as [(_ & _ & _ & _ & ->)|[_ ->]].
    + by destruct Hs as [[(x & t' & _ & _ & _ & ->)|(_ & _ & ->)]|[_ ->]].
  - left. destruct c; cbn in Hs. unfold in_tx in Hs. case_match; [case_match|by destruct Hs as [_ ->]].
    by destruct Hs as [(_ & _ & _ & ->)|[_ ->]].
  - left. apply (cache_frame _ _ _ _ Hs).
  - left. destruct c; by destruct Hs as [-> _].
  - left. destruct c; by destruct Hs as [-> _].
  - left. by destruct Hs as (t & _ & _ & ->).
  - left. by destruct Hs as [-> _].
  - left. by destruct Hs as [_ ->].
  - left. by destruct Hs as [_ ->].
Qed.
Lemma pstep_grows {R} (e : Port R) s o s' :
  db_ok s -> pstep verifies R e s o s' -> grows (committed s) (committed s').
Proof.
  intros Hs [->|(tx & h & ws & E & ->)]%pstep_committed; [reflexivity|]. cbn.
  apply open_tx_Some in E as [_ Eh]. by apply grows_applies; [apply Hs|apply (do_txs s Hs h)].
Qed.

Lemma pstep_now {R} (e : Port R) s o s' : pstep verifies R e s o s' -> now s <= now s'.
Proof.
  assert (forall tx, now (close_tx tx s) = now s) as Hclose by (intros; unfold close_tx; by case_match).
  intros Hs. destruct e as [R c|R c|R c|R c|R c|R c|R c|src| |r|R c];
    [pose proof (repo_frame (Postgres.RUow c) _ _ _ Hs) as (_ & -> & _); lia
    |pose proof (repo_frame (Postgres.RUsers c) _ _ _ Hs) as (_ & -> & _); lia
    |pose proof (repo_frame (Postgres.RSessions c) _ _ _ Hs) as (_ & -> & _); lia
    |pose proof (repo_frame (Postgres.ROutbox c) _ _ _ Hs) as (_ & -> & _); lia
    |pose proof (cache_frame _ _ _ _ Hs) as (_ & _ & -> & _); lia|cbn in Hs..].
  - destruct c; destruct Hs as [-> _]; lia.
  - destruct c; destruct Hs as [-> _]; lia.
  - by destruct Hs as (t & Ht & _ & ->).
  - destruct Hs as [-> _]; lia.
  - destruct Hs as [_ ->]; cbn; lia.
  - destruct Hs as [_ ->]; lia.
Qed.

(** A transaction that the call neither names nor opens. *)
Lemma lookup_close tx s h : h ∉ handles tx -> txs (close_tx tx s) !! h = txs s !! h.
Proof.
  unfold handles, close_tx. destruct (InnerTx tx) as [|h'|]; try done. intros Hne. cbn.
  rewrite lookup_delete_ne; [done|]. intros ->. set_solver.
Qed.

Lemma in_tx_others {A} tx s (o : outcome (res A)) s' ok h :
  h ∉ handles tx -> in_tx tx s o s' ok ->
  (forall h' ws, ok h' ws -> s' = s \/ s' = abort_in h' s \/ exists w, s' = write_in h' ws w s) ->
  txs s' !! h = txs s !! h.
Proof.
  unfold in_tx. intros Hn Hi Hok. destruct (open_tx s tx) as [[h' ws]|] eqn:E; [|by destruct Hi as [_ ->]].
  apply open_tx_Some in E as [Ei _]. unfold handles in Hn. rewrite Ei in Hn.
  assert (h' <> h) as Hne by set_solver.
  destruct Hi as [Hi|[_ ->]]; [destruct (Hok h' ws Hi) as [->|[->|[w ->]]]|]; cbn; try done;
    by rewrite lookup_insert_ne.
Qed.

Lemma pstep_others {R} (e : Port R) s o s' h :
  pstep verifies R e s o s' -> h ∉ named e -> h ∉ opened e o -> txs s' !! h = txs s !! h.
Proof.
  intros Hs Hn Ho. destruct e as [R c|R c|R c|R c|R c|R c|R c|src| |r|R c]; cbn in Hs, Hn, Ho.
  - destruct c as [|tx|tx]; cbn in *.
    + destruct Hs as [(h' & _ & -> & ->)|[_ ->]]; [|done]. cbn in *. rewrite lookup_insert_ne; [done|].
      intros ->. apply Ho. unfold handles. cbn. set_solver.
    + destruct (open_tx s tx) as [[h' ws]|]; [|destruct Hs as [_ ->]; by apply lookup_close].
      destruct Hs as [[_ ->]|[_ [->| ->]]]; by apply lookup_close.
    + destruct Hs as [_ ->]. by apply lookup_close.
  - destruct c; cbn in *; [|by destruct Hs as [-> _]..]. eapply in_tx_others; [exact Hn|exact Hs|].
    intros h' ws [(_ & _ & _ & ->)|(_ & _ & ->)]; eauto.
  - destruct c; cbn in *; [|by destruct Hs as [-> _]|]; (eapply in_tx_others; [exact Hn|exact Hs|]).
    + intros h' ws (_ & _ & _ & _ & ->); eauto.
    + intros h' ws [(x & t' & _ & _ & _ & ->)|(_ & _ & ->)]; eauto.
  - destruct c; cbn in *. eapply in_tx_others; [exact Hn|exact Hs|]. intros h' ws (_ & _ & _ & ->); eauto.
  - by destruct (cache_frame _ _ _ _ Hs) as (_ & -> & _).
  - destruct c; by destruct Hs as [-> _].
  - destruct c; by destruct Hs as [-> _].
  - by destruct Hs as (t & _ & _ & ->).
  - by destruct Hs as [-> _].
  - by destruct Hs as [_ ->].
  - by destruct Hs as [_ ->].
Qed.

(** The cache after a call: entries are old ones, or the one the call wrote. *)
Lemma pstep_cache {R} (e : Port R) s o s' key body ttl :
  pstep verifies R e s o s' -> cache s' !! key = Some (body, ttl) ->
  cache s !! key = Some (body, ttl) \/ (caches_backed e s -> backed (committed s) key body).
Proof.
  intros Hs Hk. destruct e as [R c|R c|R c|R c|R c|R c|R c|src| |r|R c];
    [by left; rewrite <- (proj1 (repo_frame (Postgres.RUow c) _ _ _ Hs))
    |by left; rewrite <- (proj1 (repo_frame (Postgres.RUsers c) _ _ _ Hs))
    |by left; rewrite <- (proj1 (repo_frame (Postgres.RSessions c) _ _ _ Hs))
    |by left; rewrite <- (proj1 (repo_frame (Postgres.ROutbox c) _ _ _ Hs))|cbn in Hs..].
  - assert (forall k, cache s' = delete k (cache s) -> cache s !! key = Some (body, ttl)) as Hdel.
    { intros k E. rewrite E in Hk. by apply lookup_delete_Some in Hk as [_ ?]. }
    destruct c as [key' body' ttl'|key'|key']; cbn in Hs.
    + assert (cache s' = cache s \/ cache s' = <[key' := (body', ttl')]> (cache s)) as [E|E]
        by (destruct Hs as [[_ ->]|[_ [->| ->]]]; auto); rewrite E in Hk; [by left|].
      apply lookup_insert_Some in Hk as [[<- [= <- <-]]|[_ Hk]]; [by right|by left].
    + left. destruct Hs as [(b & t & _ & _ & ->)|[[_ [->| ->]]|[_ ->]]]; eauto.
    + left. destruct Hs as [[_ ->]|[_ [->| ->]]]; eauto.
  - left. destruct c; by destruct Hs as [-> _].
  - left. destruct c; by destruct Hs as [-> _].
  - left. by destruct Hs as (t & _ & _ & ->).
  - left. by destruct Hs as [-> _].
  - left. by destruct Hs as [_ ->].
  - left. by destruct Hs as [_ ->].
Qed.

Lemma pstep_shared own {R} (e : Port R) s o s' :
  shared_ok s -> permitted own e s -> pstep verifies R e s o s' -> shared_ok s'.
Proof.
  intros [Hdb Hca] [Hsave _ Hb] Hs. split; [by eapply call_keeps_db|]. intros key body ttl Hk.
  apply (backed_grows (committed s)); [by eapply pstep_grows|].
  destruct (pstep_cache _ _ _ _ _ _ _ Hs Hk) as [Hold|Hnew]; [by eapply Hca|by apply Hnew].
Qed.

(** A permitted call is interference of the allowed kind for every other
    request. *)
Lemma pstep_later own own' {R} (e : Port R) s o s' :
  shared_ok s -> permitted own e s -> pstep verifies R e s o s' ->
  own ## own' -> opened e o ## own' -> later own' s s'.
Proof.
  intros [Hdb _] [_ Hn _] Hs Hd Ho. split; [by eapply pstep_grows| |by eapply pstep_now].
  intros h Hh. eapply pstep_others; [exact Hs|set_solver..].
Qed.

(** ** The semantics of a call under interference *)

Record View := MkView { v_own : gset positive; v_sys : Sys }.

Definition istep : Transformer Port View := fun R e v P =>
  forall s, shared_ok s -> later (v_own v) (v_sys v) s ->
  permitted (v_own v) e s
  /\ forall o s', pstep verifies R e s o s' -> P o (MkView (v_own v ∪ opened e o) s').

#[global] Instance istep_monotone : Monotone istep.
Proof. intros R e v P P' HP He s Hs Hl. destruct (He s Hs Hl) as [Hp Ho]. split; [done|]. eauto. Qed.

(** ** Stable knowledge *)

(** [K] survives what other requests do. *)
Class Stable (own : gset positive) (K : Sys -> Prop) : Prop :=
  stable s s' : later own s s' -> K s -> K s'.

#[global] Instance stable_and own K K' : Stable own K -> Stable own K' -> Stable own (fun s => K s /\ K' s).
Proof. intros H1 H2 s s' Hl [Hk Hk']. split; [by eapply H1|by eapply H2]. Qed.

(** A property of the rows that no growth breaks. *)
Class Durable (F : Store -> Prop) : Prop := durable st st' : grows st st' -> F st -> F st'.

#[global] Instance durable_and F F' : Durable F -> Durable F' -> Durable (fun st => F st /\ F' st).
Proof. intros H1 H2 st st' Hg [Hf Hf']. split; [by eapply H1|by eapply H2]. Qed.

#[global] Instance durable_True : Durable (fun _ => True).
Proof. done. Qed.

(** What a request that began at [t0] knows: it is later, and [F] holds. *)
Definition knows (t0 : Time) (F : Store -> Prop) (s : Sys) : Prop := t0 <= now s /\ F (committed s).

#[global] Instance stable_knows own t0 F : Durable F -> Stable own (knows t0 F).
Proof.
  intros HF s s' Hl [Ht Hs]. split; [pose proof (la_now _ _ _ Hl); lia|]. eapply durable; [apply Hl|done].
Qed.

(** The own transaction [h] with its writes. *)
Definition active (h : positive) (ws : list Write) (s : Sys) : Prop := txs s !! h = Some (TxActive ws).

Lemma stable_active own h ws : h ∈ own -> Stable own (active h ws).
Proof. intros Hh s s' Hl Ha. unfold active. by rewrite (la_own _ _ _ Hl). Qed.

(** What is established stays so under more interference. *)
Lemma owp_later {A} (p : Prog Port A) Q own s s' :
  (forall a own s s', Q a (MkView own s) -> later own s s' -> Q a (MkView own s')) ->
  later own s s' -> owp istep p Q (MkView own s) -> owp istep p Q (MkView own s').
Proof.
  intros HQ Hl. destruct p as [a|R e k]; cbn; [eauto|]. intros He s2 Hs2 Hl2. apply He; [done|].
  cbn in *. by etransitivity.
Qed.

(** Stable knowledge is kept by the request itself, too. *)
Lemma owp_frame {A} (K : Sys -> Prop) (p : Prog Port A) Q v :
  (forall own, Stable own K) -> K (v_sys v) -> owp istep p Q v ->
  owp istep p (fun a v' => Q a v' /\ K (v_sys v')) v.
Proof.
  intros HK. revert v. induction p as [a|R e k IH]; intros v Hk Hp; cbn; [by split|].
  intros s1 Hs1 Hl. destruct (Hp s1 Hs1 Hl) as [Hperm Hgo]. split; [done|]. intros o s2 Hstep.
  apply IH; [|by apply Hgo]. cbn.
  apply (HK ∅ s1 s2); [|by apply (HK (v_own v) (v_sys v) s1)].
  apply (pstep_later (v_own v) ∅ e s1 o s2); [done..|set_solver|set_solver].
Qed.

(** *** Rules of the calls *)

(** A call that names no transaction and writes no cache entry. *)
Definition plain {R} (e : Port R) : Prop :=
  saveable e /\ named e = ∅ /\ (forall o, opened e o = ∅) /\ forall s, caches_backed e s.

Lemma own_same (own m : gset positive) : m = ∅ -> own ∪ m = own.
Proof. intros ->. set_solver. Qed.

Lemma plain_later own {R} (e : Port R) s o s' :
  shared_ok s -> plain e -> pstep verifies R e s o s' -> later own s s'.
Proof.
  intros Hs (H1 & H2 & H3 & H4) Hstep. apply (pstep_later ∅ own e s o s'); [done| |done|set_solver|].
  - split; [done|set_solver|done].
  - rewrite H3. set_solver.
Qed.

Lemma i_plain K own {R} (e : Port R) s P :
  Stable own K -> K s -> plain e ->
  (forall o s1 s2, shared_ok s1 -> K s1 -> pstep verifies R e s1 o s2 -> K s2 -> P o (MkView own s2)) ->
  istep R e (MkView own s) P.
Proof.
  intros HK Hk He HP s1 Hs1 Hl. cbn in Hl. pose proof He as (H1 & H2 & H3 & H4). split.
  - split; [done|set_solver|done].
  - intros o s2 Hstep. cbn [v_own]. rewrite own_same by done.
    pose proof (plain_later own e s1 o s2 Hs1 He Hstep) as Hl2.
    assert (K s1) as Hk1 by exact (stable _ _ Hl Hk). apply (HP o s1 s2); [done..|exact (stable _ _ Hl2 Hk1)].
Qed.

(** *** Rules of the transaction *)

Lemma i_Begin K own s P :
  Stable own K -> Stable ∅ K -> K s ->
  (forall h s2, K s2 -> active h [] s2 -> P (Returned (Ok (tx_of h))) (MkView (own ∪ {[h]}) s2)) ->
  (forall o s2, K s2 -> fails o -> P o (MkView own s2)) ->
  istep _ (Uow Begin) (MkView own s) P.
Proof.
  intros HK HK0 Hk Hok Hf s1 Hs1 Hl. cbn in Hl. assert (K s1) as Hk1 by exact (stable _ _ Hl Hk).
  assert (permitted own (Uow Begin) s1) as Hp by (by split; [|set_solver|]). split; [done|].
  intros o s2 Hstep. cbn [v_own].
  assert (K s2) as Hk2.
  { eapply (stable (own := ∅)); [|exact Hk1]. eapply pstep_later; [exact Hs1|exact Hp|exact Hstep|set_solver..]. }
  destruct Hstep as [(h & Hh & -> & ->)|[Ho ->]].
  - apply Hok; [done|]. unfold active. cbn. by rewrite lookup_insert_eq.
  - rewrite own_same; [by apply Hf|]. destruct Ho as [(e & -> & _)|[msg ->]]; done.
Qed.

(** A call on the own transaction whose answer does not matter. *)
Lemma i_tx K own {R} (e : Port R) s P :
  Stable own K -> Stable ∅ K -> K s ->
  saveable e -> named e ⊆ own -> (forall o, opened e o = ∅) -> (forall s, caches_backed e s) ->
  (forall o s1 s2, shared_ok s1 -> later own s s1 -> pstep verifies R e s1 o s2 -> K s1 -> K s2 ->
     P o (MkView own s2)) ->
  istep R e (MkView own s) P.
Proof.
  intros HK HK0 Hk H1 H2 H3 H4 HP s1 Hs1 Hl. cbn in Hl. assert (K s1) as Hk1 by exact (stable _ _ Hl Hk).
  assert (permitted own e s1) as Hp by (by split). split; [done|].
  intros o s2 Hstep. cbn [v_own]. rewrite own_same by done. apply (HP o s1 s2); [done..|].
  eapply (stable (own := ∅)); [|exact Hk1]. eapply pstep_later; [exact Hs1|exact Hp|exact Hstep|set_solver|set_solver].
Qed.

(** The answer is not a success. *)
Definition unsuccessful {A} (o : outcome (res A)) : Prop := match o with Returned (Ok _) => False | _ => True end.

Lemma fails_unsuccessful {A} (o : outcome (res A)) : fails o -> unsuccessful o.
Proof. by intros [(e & -> & _)|[msg ->]]. Qed.

Lemma open_active h ws s : active h ws s -> open_tx s (tx_of h) = Some (h, ws).
Proof. intros Ha. unfold open_tx. cbn. by rewrite Ha. Qed.

(** A statement of the transaction [h] that succeeds only by adding a write that
    [w] allows for the view of the transaction. *)
Record statement (e : Port (res unit)) (h : positive) (w : Store -> Write -> Prop) : Prop := {
  st_saveable : saveable e;
  st_named : named e = {[h]};
  st_opens : forall o, opened e o = ∅;
  st_backed : forall s, caches_backed e s;
  st_step : forall ws s o s', active h ws s -> pstep verifies _ e s o s' ->
    (o = Returned (Ok tt) /\ exists x, w (tx_view s ws) x /\ s' = write_in h ws x s) \/ unsuccessful o;
}.

#[local] Ltac statement :=
  split; [done..|]; let Ha := fresh in
  intros ws s o s' Ha%open_active Hs; cbn in Hs; unfold in_tx in Hs; rewrite Ha in Hs.

Lemma statement_user h u :
  NewEmail (Email_String (User.email u)) = Ok (User.email u) ->
  statement (Users (UserSaveTx (tx_of h) u)) h (fun _ w => w = (WUser (stored_user u))).
Proof.
  intros He. statement.
  destruct Hs as [[(-> & _ & _ & ->)|(-> & _)]|[Ho _]]; [left; eauto|by right|right; by apply fails_unsuccessful].
Qed.

Lemma statement_session h x :
  Session.revokedAt x = None -> len (Session.tokenHash x) = 32 ->
  statement (Sessions (SessionSaveTx (tx_of h) x)) h (fun _ w => w = (WSession (stored_session x))).
Proof.
  intros Hr Hl. statement.
  destruct Hs as [(-> & _ & _ & _ & ->)|[Ho _]]; [left; eauto|right; by apply fails_unsuccessful].
Qed.

Lemma statement_event h ev :
  statement (OutboxRepo (WriteTx (tx_of h) ev)) h (fun _ w => w = (WEvent (stored_event ev))).
Proof.
  statement. destruct Hs as [(-> & _ & _ & ->)|[Ho _]]; [left; eauto|right; by apply fails_unsuccessful].
Qed.

Lemma statement_revoke h t sid :
  statement (Sessions (RevokeTx (tx_of h) t sid)) h (fun st w =>
    (exists at_, w = WRevoke sid at_) /\ is_Some (sessions st !! sid)).
Proof.
  statement. destruct Hs as [[(x & at_ & -> & Hx & _ & ->)|(-> & _)]|[Ho _]];
    [left; eauto 8|by right|right; by apply fails_unsuccessful].
Qed.

Lemma i_statement K own e h w ws s P :
  Stable own K -> Stable ∅ K -> K s -> h ∈ own -> active h ws s -> statement e h w ->
  (forall x s2, w (tx_view s2 ws) x -> K s2 -> active h (ws ++ [x]) s2 -> P (Returned (Ok tt)) (MkView own s2)) ->
  (forall o s2, K s2 -> unsuccessful o -> P o (MkView own s2)) ->
  istep _ e (MkView own s) P.
Proof.
  intros HK HK0 Hk Hh Ha He Hok Hf. apply (i_tx K); try apply He; [done..| |].
  { rewrite (st_named _ _ _ He). set_solver. }
  intros o s1 s2 Hs1 Hl Hstep _ Hk2.
  assert (active h ws s1) as Ha1 by (by apply (stable_active own h ws Hh s s1)).
  destruct (st_step _ _ _ He _ _ _ _ Ha1 Hstep) as [[-> (x & Hx & ->)]|Ho]; [|by apply Hf].
  apply (Hok x); [done..|]. unfold active. cbn. by rewrite lookup_insert_eq.
Qed.

(** The writes of a commit have just been applied to a consistent store. *)
Definition applied (ws : list Write) (st st' : Store) : Prop :=
  store_ok st /\ tx_ok st ws /\ st' = apply_writes ws st.

Lemma i_Commit K own h ws s P :
  Stable own K -> Stable ∅ K -> K s -> h ∈ own -> active h ws s ->
  (forall s1 s2, K s1 -> K s2 -> applied ws (committed s1) (committed s2) ->
     P (Returned (Ok tt)) (MkView own s2)) ->
  (forall o s2, K s2 -> unsuccessful o -> P o (MkView own s2)) ->
  istep _ (Uow (Commit (tx_of h))) (MkView own s) P.
Proof.
  intros HK HK0 Hk Hh Ha Hok Hf. apply (i_tx K); [done..| | | |]; [cbn; set_solver|done..|].
  intros o s1 s2 [Hdb _] Hl Hstep Hk1 Hk2.
  assert (active h ws s1) as Ha1 by (by apply (stable_active own h ws Hh s s1)).
  cbn -[open_tx close_tx] in Hstep. rewrite (open_active _ _ _ Ha1) in Hstep.
  destruct Hstep as [[-> ->]|[Ho _]]; [|by apply Hf; [|apply fails_unsuccessful]].
  apply (Hok s1); [done..|]. split; [apply Hdb|]. split; [by apply (do_txs _ Hdb h)|done].
Qed.

Lemma i_Rollback K own h s P :
  Stable own K -> Stable ∅ K -> K s -> h ∈ own ->
  (forall o s2, K s2 -> P o (MkView own s2)) ->
  istep _ (Uow (Rollback (tx_of h))) (MkView own s) P.
Proof.
  intros HK HK0 Hk Hh Hf. apply (i_tx K); [done..| | | |]; [cbn; set_solver|done..|]. eauto.
Qed.

(** A cache write needs a stored session. *)
Lemma i_CacheSet K own key body ttl s P :
  Stable own K -> Stable ∅ K -> K s -> (forall s, K s -> backed (committed s) key body) ->
  (forall o s2, K s2 -> P o (MkView own s2)) ->
  istep _ (SessionCache (CacheSet key body ttl)) (MkView own s) P.
Proof.
  intros HK HK0 Hk Hb HP s1 Hs1 Hl. cbn in Hl. assert (K s1) as Hk1 by exact (stable _ _ Hl Hk).
  assert (permitted own (SessionCache (CacheSet key body ttl)) s1) as Hp by (split; [done|cbn; set_solver|by apply Hb]).
  split; [done|]. intros o s2 Hstep. cbn [v_own]. rewrite own_same by done. apply HP.
  apply (stable (own := ∅) s1 s2); [|done].
  eapply (pstep_later own ∅); [exact Hs1|exact Hp|exact Hstep|set_solver|set_solver].
Qed.
End Calls.
