(* ===== verification/Truthful.v ===== *)
(** * What an answer of a use case stands for, whatever the other requests do

    The contracts of SignUp.v, SignIn.v, SignOut.v and GetMe.v speak of a call
    that runs alone.  Here the same functions run under interference
    (Interference.v): what a success reports is in the tables when it is
    reported, stays there, and only stored sessions are cached. *)
From S2P Require Import SignUp SignIn SignOut GetMe.
From S2P Require Import Prelude Program GoEncoding GoTime GoJson Errors Tenant User Session Outbox Ports PortSpec PortRules Invariant Http Middleware Adapters Interleave Omni Interference.
#[local] Open Scope Z_scope.

(** ** Writes that have taken effect *)

(** What is left of a committed write, however much later. *)
Definition kept (st : Store) (w : Write) : Prop :=
  match w with
  | WUser u => users st !! User.id u = Some u
  | WSession x => exists y, sessions st !! Session.id x = Some y /\ same_identity x y
  | WRevoke sid _ => exists y, sessions st !! sid = Some y /\ is_Some (Session.revokedAt y)
  | WEvent e => events st !! Outbox.id e = Some e
  end.

#[global] Instance durable_kept w : Durable (fun st => kept st w).
Proof.
  intros st st' Hg. destruct w as [u|x|sid t|e]; cbn.
  - apply (gr_users _ _ Hg).
  - intros (y & Hy & Hxy). destruct (gr_sessions _ _ Hg _ _ Hy) as (z & Hz & Hyz & _).
    exists z. split; [done|]. by eapply same_identity_trans.
  - intros (y & Hy & Hr). destruct (gr_sessions _ _ Hg _ _ Hy) as (z & Hz & _ & E).
    exists z. split; [done|]. by rewrite E.
  - apply (gr_events _ _ Hg).
Qed.

#[global] Instance durable_all ws : Durable (fun st => Forall (kept st) ws).
Proof. intros st st' Hg Hf. eapply Forall_impl; [exact Hf|]. intros w. by apply (durable_kept w). Qed.

#[global] Instance durable_session sid : Durable (fun st => is_Some (sessions st !! sid)).
Proof.
  intros st st' Hg [x Hx]. destruct (gr_sessions _ _ Hg _ _ Hx) as (y & Hy & _). by exists y.
Qed.

#[global] Instance durable_user i u : Durable (fun st => users st !! i = Some u).
Proof. intros st st' Hg. apply (gr_users _ _ Hg). Qed.

(** What a revocation finds. *)
Definition revocable (st : Store) (w : Write) : Prop :=
  match w with WRevoke sid _ => is_Some (sessions st !! sid) | _ => True end.

Lemma kept_apply st w : revocable st w -> kept (apply_write st w) w.
Proof.
  destruct w as [u|x|sid t|e]; cbn; intros Hr; rewrite ?lookup_insert_eq; [done| | |done].
  - exists x. split; [done|apply same_identity_refl].
  - destruct Hr as [y Hy]. exists (revoke t y). by rewrite lookup_alter_eq, Hy.
Qed.

Lemma revocable_apply st w w' : grows st (apply_write st w) -> revocable st w' -> revocable (apply_write st w) w'.
Proof. destruct w' as [| |sid t|]; cbn; try done. intros Hg. by apply (durable_session sid). Qed.

(** A commit makes all the writes of the transaction. *)
Lemma applied_kept ws st st' : applied ws st st' -> Forall (revocable st) ws -> Forall (kept st') ws.
Proof.
  intros (Hst & Hws & ->). revert st Hst Hws. induction ws as [|w ws IH]; intros st Hst Hws Hr; [done|].
  apply Forall_cons in Hr as [Hr Hrs]. cbn.
  assert (grows st (apply_write st w)) as Hg.
  { apply grows_apply; [done|]. intros w' Hw'. by apply (to_fresh _ _ Hws w w'); [left|]. }
  assert (store_ok (apply_write st w)) as Hst' by (by eapply tx_ok_head).
  assert (tx_ok (apply_write st w) ws) as Hws' by (by apply tx_ok_tail).
  constructor.
  - apply (durable_kept w (apply_write st w)); [|by apply kept_apply]. by apply grows_applies.
  - apply IH; [done..|]. eapply Forall_impl; [exact Hrs|]. intros w'. by apply revocable_apply.
Qed.

(** A kept session may be cached. *)
Lemma kept_backed st x key body :
  cached_session_of key body x -> kept st (WSession x) -> backed st key body.
Proof. intros Hb (y & Hy & Hxy). exists (Session.id x), y. split; [done|]. by eapply cached_same. Qed.

Lemma all_backed ws x st key body :
  WSession x ∈ ws -> cached_session_of key body x -> Forall (kept st) ws -> backed st key body.
Proof. intros Hx Hb Hk. rewrite Forall_forall in Hk. by eapply kept_backed; [exact Hb|apply Hk]. Qed.

(** ** Automation *)

Lemma knows_more t0 F G s : knows t0 F s -> G (committed s) -> knows t0 (fun st => F st /\ G st) s.
Proof. intros [? ?] ?. by split. Qed.

Lemma own_begun (own : gset positive) h : h ∈ own ∪ {[h]}.
Proof. set_solver. Qed.

(** After a commit. *)
Lemma knows_commit t0 F ws s1 s2 :
  knows t0 F s1 -> knows t0 F s2 -> applied ws (committed s1) (committed s2) ->
  (F (committed s1) -> Forall (revocable (committed s1)) ws) ->
  knows t0 (fun st => F st /\ Forall (kept st) ws) s2.
Proof. intros [_ H1] H2 Ha Hr. apply (knows_more t0 F (fun st => Forall (kept st) ws)); [done|]. eapply applied_kept; eauto. Qed.

Section Rules.
Context (verifies : PasswordHash -> string -> bool) (t0 : Time) (F : Store -> Prop) `{!Durable F}.
Let istep := istep verifies.
Implicit Types (own : gset positive) (s : Sys).

(** The calls of a request that knows [F]. *)
Lemma k_plain own {R} (e : Port R) s P :
  knows t0 F s -> plain e ->
  (forall o s1 s2, shared_ok s1 -> knows t0 F s1 -> pstep verifies R e s1 o s2 -> knows t0 F s2 ->
     P o (MkView own s2)) ->
  istep R e (MkView own s) P.
Proof. intros HK He HP. by apply (i_plain _ (knows t0 F)); [apply _|..]. Qed.

(** The logger, the clocks and the tracer return. *)
Lemma k_sure own {R} (e : Port R) s P :
  knows t0 F s ->
  match e with Log _ | Now _ | Trace _ => True | _ => False end ->
  (forall r s1 s2, knows t0 F s1 -> pstep verifies R e s1 (Returned r) s2 -> knows t0 F s2 ->
     P (Returned r) (MkView own s2)) ->
  istep R e (MkView own s) P.
Proof.
  intros HK He HP. apply k_plain; [done|by destruct e|]. intros o s1 s2 _ HK1 Hstep HK2.
  destruct o as [r|msg]; [by apply (HP r s1)|]. exfalso. clear HP.
  destruct e; try done; cbn in Hstep; [by destruct Hstep as (? & _ & [=] & _)|by destruct Hstep as [[=] _]|
    by destruct Hstep as [[? [=]] _]].
Qed.

Lemma k_plain_in own h ws {R} (e : Port R) s P :
  knows t0 F s -> active h ws s -> plain e ->
  (forall o s2, knows t0 F s2 -> active h ws s2 -> P o (MkView (own ∪ {[h]}) s2)) ->
  istep R e (MkView (own ∪ {[h]}) s) P.
Proof.
  intros HK Ha He HP. apply (i_plain _ (fun s => knows t0 F s /\ active h ws s)); [|by split|done|].
  - apply stable_and; [apply _|apply stable_active, own_begun].
  - intros o s1 s2 _ _ _ [HK2 Ha2]. by apply HP.
Qed.

Lemma k_Begin own s P :
  knows t0 F s ->
  (forall h s2, knows t0 F s2 -> active h [] s2 -> P (Returned (Ok (tx_of h))) (MkView (own ∪ {[h]}) s2)) ->
  (forall o s2, knows t0 F s2 -> fails o -> P o (MkView own s2)) ->
  istep _ (Uow Begin) (MkView own s) P.
Proof. intros. by apply (i_Begin _ (knows t0 F)); [apply _..| | |]. Qed.

Lemma k_statement own e h w ws s P :
  knows t0 F s -> active h ws s -> statement verifies e h w ->
  (forall x s2, w (tx_view s2 ws) x -> knows t0 F s2 -> active h (ws ++ [x]) s2 ->
     P (Returned (Ok tt)) (MkView (own ∪ {[h]}) s2)) ->
  (forall o s2, knows t0 F s2 -> unsuccessful o -> P o (MkView (own ∪ {[h]}) s2)) ->
  istep _ e (MkView (own ∪ {[h]}) s) P.
Proof.
  intros. by apply (i_statement _ (knows t0 F) _ e h w ws); [apply _..|done|apply own_begun|done|done| |].
Qed.

Lemma k_Commit own h ws s P :
  knows t0 F s -> active h ws s -> (forall st, F st -> Forall (revocable st) ws) ->
  (forall s2, knows t0 (fun st => F st /\ Forall (kept st) ws) s2 ->
     P (Returned (Ok tt)) (MkView (own ∪ {[h]}) s2)) ->
  (forall o s2, knows t0 F s2 -> unsuccessful o -> P o (MkView (own ∪ {[h]}) s2)) ->
  istep _ (Uow (Commit (tx_of h))) (MkView (own ∪ {[h]}) s) P.
Proof.
  intros HK Ha Hr HP Hf. apply (i_Commit _ (knows t0 F) _ h ws); [apply _..|done|apply own_begun|done| |done].
  intros s1 s2 HK1 HK2 Happ. apply HP. by apply (knows_commit t0 F ws s1); [| | |apply Hr].
Qed.

Lemma k_Rollback own h s P :
  knows t0 F s -> (forall o s2, knows t0 F s2 -> P o (MkView (own ∪ {[h]}) s2)) ->
  istep _ (Uow (Rollback (tx_of h))) (MkView (own ∪ {[h]}) s) P.
Proof. intros. by apply (i_Rollback _ (knows t0 F)); [apply _..|done|apply own_begun|]. Qed.

Lemma k_CacheSet own key body ttl s P :
  knows t0 F s -> (forall st, F st -> backed st key body) ->
  (forall o s2, knows t0 F s2 -> P o (MkView own s2)) ->
  istep _ (SessionCache (CacheSet key body ttl)) (MkView own s) P.
Proof. intros HK Hb HP. apply (i_CacheSet _ (knows t0 F)); [apply _..|done| |done]. intros s2 [_ HF]. by apply Hb. Qed.
End Rules.

(** The rule of the call at the head of the program, from what is known; [new]
    is what it establishes. *)
Ltac i_rule :=
  lazymatch goal with
  | HK : knows ?t0 ?F ?s |- istep _ _ ?e (MkView _ ?s) _ =>
    lazymatch e with
    | Uow Begin =>
      apply (k_Begin _ t0 F _ _ _ HK); clear HK;
        [let Ha := fresh "Ha" in intros ? ? HK Ha|intros ? ? HK [(? & -> & ?)|[? ->]]]
    | Uow (Commit _) =>
      match goal with Ha : active ?h ?ws s |- _ =>
        apply (k_Commit _ t0 F _ _ _ _ _ HK Ha); clear HK Ha;
          [|intros ? HK|intros [[?|?]|?] ? HK []]
      end
    | Uow (Rollback _) => apply (k_Rollback _ t0 F _ _ _ _ HK); clear HK; intros [[[]|?]|?] ? HK
    | SessionCache (CacheSet _ _ _) =>
      apply (k_CacheSet _ t0 F _ _ _ _ _ _ HK); clear HK; [|intros [[[]|?]|?] ? HK]
    | Users (UserSaveTx _ _) => i_statement HK statement_user
    | Sessions (SessionSaveTx _ _) => i_statement HK statement_session
    | Sessions (RevokeTx _ _ _) => i_statement HK statement_revoke
    | OutboxRepo (WriteTx _ _) => i_statement HK statement_event
    | _ =>
      first
        [ match goal with Ha : active ?h ?ws s |- _ =>
            apply (k_plain_in _ t0 F _ _ _ _ _ _ HK Ha); [by split|clear HK Ha]; intros ? ? HK Ha
          end
        | apply (k_sure _ t0 F _ _ _ _ HK); [exact Logic.I|clear HK]; let r := fresh "r" in
          intros r ? ? [?Htime _] ?Hstep HK; try match type of r with unit => destruct r end
        | apply (k_plain _ t0 F _ _ _ _ HK); [by split|clear HK]; intros ? ? ? ?Hok _ ?Hstep HK ]
    end
  end
with i_statement HK rule :=
  match type of HK with knows ?t0 ?F ?s =>
    match goal with Ha : active ?h ?ws s |- _ =>
      eapply (k_statement _ t0 F _ _ h _ ws _ _ HK Ha); clear HK Ha;
        [apply rule; first [done|apply len_Sum256]
        |let x := fresh "w" in let Hw := fresh "Hw" in
         intros x ? Hw HK Ha; cbn [app] in Ha; cbn beta in Hw;
         first [ subst x
               | destruct Hw as [[? ->] Hw];
                 match type of Hw with is_Some (sessions _ !! ?sid) =>
                   apply (knows_more _ _ (fun st => is_Some (sessions st !! sid)) _ HK) in Hw
                 end; clear HK; rename Hw into HK ]
        |intros [[?|?]|?] ? HK []]
    end
  end.

(** Runs the program to its end. *)
Ltac i_go :=
  repeat (cbv beta iota; cbn [fst snd negb andb orb];
    match goal with
    | |- owp _ (call _ _) _ _ => apply owp_call
    | |- istep _ _ _ _ _ => i_rule
    | |- owp _ (rollback_unless_committed _ _) _ _ => unfold rollback_unless_committed
    | |- owp _ _ _ _ => owp_rule
    | |- owp _ (match ?o with Returned _ => _ | Panicked _ => _ end) _ _ => destruct o
    | |- owp _ (match ?r with Ok _ => _ | Err _ => _ end _) _ _ => destruct r eqn:?
    | |- match ?o with Returned _ => _ | Panicked _ => _ end => destruct o
    | |- owp _ ((if negb ?b then _ else _) _) _ _ => destruct b eqn:?
    | |- owp _ ((if ?b then _ else _) _) _ _ => destruct b eqn:?
    end); cbv beta iota; cbn [fst snd app].

(** The facts of a successful answer. *)
Definition on_success {A L} (F : A -> Store -> Prop) : outcome (res A) * L -> View -> Prop :=
  fun ol v => forall out, ol.1 = Returned (Ok out) -> F out (committed (v_sys v)).

Section UseCases.
Context `{UuidLib} (verifies : PasswordHash -> string -> bool).

Lemma Hash_accepts raw h s s' :
  pstep verifies _ (Hasher (Hash raw)) s (Returned (Ok h)) s' -> verifies h raw = true.
Proof. intros [_ [(h' & [= <-] & Hv)|[(e & [=] & _)|[msg [=]]]]]. done. Qed.

Lemma Verify_accepts h raw b s s' :
  pstep verifies _ (Hasher (Verify h raw)) s (Returned (Ok b)) s' -> verifies h raw = b.
Proof. intros [_ [[= ->]|[(e & [=] & _)|[msg [=]]]]]. done. Qed.

Lemma FindByEmail_row t e u s s' :
  shared_ok s -> pstep verifies _ (Users (FindByEmail t e)) s (Returned (Ok u)) s' ->
  kept (committed s') (WUser u) /\ User.tenantID u = t /\ User.email u = e.
Proof.
  intros [Hdb _] [-> [(i & v & [= <-] & Hi & Ht & He)|[[[=] _]|[(err & [=] & _)|[msg [=]]]]]].
  split; [|done]. cbn. by rewrite (so_user_key _ (do_store _ Hdb) _ _ Hi).
Qed.

Lemma ok_or_Ok {A} (e : error) (o : option A) a : ok_or e o = Ok a -> o = Some a.
Proof. by destruct o as [b|]; intros [= ->]. Qed.

#[local] Ltac finish :=
  match goal with
  | |- forall st, _ -> Forall (revocable st) _ => by repeat constructor
  | |- forall st, _ -> backed st _ _ =>
      intros ? [_ Hk]; eapply all_backed; [..|exact Hk]; [rewrite !elem_of_cons; repeat first [left; reflexivity|right]|by repeat split]
  | |- on_success _ _ _ => by intros ? [=]
  end.

(** A sign-up that succeeds: the address and the password are acceptable, and
    the user, the session and both events are there. *)
Definition sign_up_told (uc : SignUp.UseCase) (inp : SignUp.Input) (out : SignUp.Output) (st : Store) : Prop :=
  exists a : Account,
    NewEmail (SignUp.Email inp) = Ok (a_email a) /\ ValidatePasswordPolicy (SignUp.Password inp) = Ok tt
    /\ verifies (a_hash a) (SignUp.Password inp) = true
    /\ out = SignUp.MkOutput (a_user a) (Token_String (a_token a)) (a_expires uc a)
    /\ Forall (kept st) (account_rows uc inp a).

Lemma sign_up_truthful uc inp own s l t0 :
  knows t0 (fun _ => True) s ->
  owp (istep verifies) (SignUp.Execute uc inp l) (on_success (sign_up_told uc inp)) (MkView own s).
Proof.
  intros HK. unfold SignUp.Execute.
  destruct (IsZero (SignUp.TenantID inp)) eqn:Ez; [done|].
  destruct (NewEmail (SignUp.Email inp)) as [email|err] eqn:Eemail; [|done].
  destruct (ValidatePasswordPolicy (SignUp.Password inp)) as [[]|err] eqn:Epol; [|done].
  assert (NewEmail (Email_String email) = Ok email) as Hcanon by (by eapply NewEmail_again).
  i_go; try finish.
  all: intros out [= <-]; destruct HK as (_ & _ & Hk).
  all: eexists (MkAccount email _ _ _ _ _ (_, _) (_, _)); split; [done|]; split; [done|].
  all: split; [by eapply Hash_accepts|]; split; [reflexivity|exact Hk].
Qed.

(** A sign-in that succeeds: the user, whose hash accepts the password, the
    session and its event are there. *)
Definition sign_in_told (uc : SignIn.UseCase) (inp : SignIn.Input) (out : SignIn.Output) (st : Store) : Prop :=
  exists g : Grant,
    NewEmail (SignIn.Email inp) = Ok (User.email (g_user g)) /\ User.tenantID (g_user g) = SignIn.TenantID inp
    /\ verifies (User.passwordHash (g_user g)) (SignIn.Password inp) = true
    /\ out = SignIn.MkOutput (User.id (g_user g)) (Token_String (g_token g)) (g_expires uc g)
    /\ Forall (kept st) (WUser (g_user g) :: grant_rows uc inp g).

Lemma sign_in_truthful uc inp own s l t0 :
  knows t0 (fun _ => True) s ->
  owp (istep verifies) (SignIn.Execute uc inp l) (on_success (sign_in_told uc inp)) (MkView own s).
Proof.
  intros HK. unfold SignIn.Execute, burn.
  destruct (IsZero (SignIn.TenantID inp)) eqn:Ez; [done|].
  destruct (NewEmail (SignIn.Email inp)) as [email|err] eqn:Eemail.
  2:{ i_go; finish. }
  apply owp_bind; [apply _|]. apply owp_call. i_rule. destruct o as [[u|err]|msg]; cbv beta iota.
  - apply (FindByEmail_row _ _ _ _ _ Hok) in Hstep as (Hu & Ht & <-).
    apply (knows_more _ _ (fun st => kept st (WUser u)) _ HK) in Hu as HK'. clear HK Hu. rename HK' into HK.
    i_go; try finish.
    all: intros out [= <-]; destruct HK as (_ & [_ Hu] & Hk).
    all: eexists (MkGrant u _ _ _ _ _); split; [done|]; split; [done|].
    all: split; [by eapply Verify_accepts|]; split; [reflexivity|].
    all: constructor; [exact Hu|exact Hk].
  - destruct (errors_Is err user.ErrUserNotFound); i_go; finish.
  - finish.
Qed.

(** A sign-out that succeeds: the session is there, revoked, and so is the
    event. *)
Definition sign_out_told (inp : SignOut.Input) (st : Store) : Prop :=
  exists at_ ev body now, Marshal (revokedPayload inp now) = Some body
    /\ Forall (kept st) [WRevoke (SignOut.SessionID inp) at_;
         WEvent (stored_event (Outbox.New ev (SignOut.TenantID inp) "session" (SignOut.SessionID inp)
                                 TopicSessionRevoked body now))].

Lemma sign_out_truthful uc inp own s l t0 :
  knows t0 (fun _ => True) s ->
  owp (istep verifies) (SignOut.Execute uc inp l) (on_success (fun _ => sign_out_told inp)) (MkView own s).
Proof.
  intros HK. unfold SignOut.Execute.
  destruct (IsZero (SignOut.TenantID inp)) eqn:Ez; [done|].
  case_bool_decide as Hnil; cbn [orb]; [done|].
  i_go; try finish.
  all: try (intros st [_ Hs]; by repeat constructor).
  all: intros out _; destruct HK as (_ & _ & Hk).
  all: eexists _, _, _, _; split; [by eapply ok_or_Ok|exact Hk].
Qed.

(** A profile: the row of the user. *)
Definition get_me_told (inp : GetMe.Input) (out : GetMe.Output) (st : Store) : Prop :=
  exists u, users st !! GetMe.UserID inp = Some u /\ User.tenantID u = GetMe.TenantID inp /\ out = projection u.

Lemma get_me_truthful {L} uc inp own s (l : L) t0 :
  knows t0 (fun _ => True) s ->
  owp (istep verifies) (GetMe.Execute uc inp l) (fun a v => a.2 = l /\ on_success (get_me_told inp) a v)
    (MkView own s).
Proof.
  intros HK. unfold GetMe.Execute.
  destruct (IsZero (GetMe.TenantID inp)) eqn:Ez; [done|].
  apply owp_bind; [apply _|]. apply owp_call. i_rule. destruct o as [[u|err]|msg]; cbv beta iota.
  - destruct Hstep as [-> [(v & [= <-] & Hu & Ht)|[[[=] _]|[(err & [=] & _)|[msg [=]]]]]].
    split; [done|]. intros out [= <-]. by exists u.
  - destruct (errors_Is err user.ErrUserNotFound); by split.
  - by split.
Qed.

#[global] Instance durable_sign_up_told uc inp out : Durable (sign_up_told uc inp out).
Proof. intros st st' Hg (a & H1 & H2 & H3 & H4 & H5). exists a. by do 4 (split; [done|]); eapply durable_all. Qed.

#[global] Instance durable_sign_in_told uc inp out : Durable (sign_in_told uc inp out).
Proof. intros st st' Hg (a & H1 & H2 & H3 & H4 & H5). exists a. by do 4 (split; [done|]); eapply durable_all. Qed.

#[global] Instance durable_sign_out_told inp : Durable (sign_out_told inp).
Proof. intros st st' Hg (a & b & c & d & H1 & H2). exists a, b, c, d. by split; [|eapply durable_all]. Qed.

#[global] Instance durable_get_me_told inp out : Durable (get_me_told inp out).
Proof. intros st st' Hg (u & Hu & Ht & ->). exists u. by split; [apply (gr_users _ _ Hg)|]. Qed.
End UseCases.
