(* ===== verification/Traffic.v ===== *)
(** * Every answer is true, under every interleaving

    The wired server with any number of requests in flight.  [Tells] is what a
    handler owes when others run at the same time (Interference.v): an answer with
    the success code of the operation is true of the tables.  Every middleware
    passes it on.  [traffic] are the steps of the running service, and the
    theorem is that each answer is true when it is given and stays so. *)
From S2P Require Import SignUp SignIn SignOut GetMe.
From S2P Require Import Prelude Program GoEncoding GoTime GoJson Errors Tenant User Session Outbox Ports PortSpec PortRules Invariant Interleave Http Middleware Handlers Router Service Adapters Omni Interference Truthful.
#[local] Open Scope Z_scope.

(** ** What a request knows of its session *)

(** The token that the cookie of a request presents. *)
Definition presented (r : Request) : string := cookie_token (new_ctx r).

Lemma cookie_presented c : cookie_token c = presented (request c).
Proof. done. Qed.

(** The session of the token, which had not expired at [t0]; the cache keeps
    nanoseconds where the row has microseconds. *)
Definition session_shown (t0 : Time) (r : Request) (uid sid : UUID) (t : ID) (st : Store) : Prop :=
  exists x, sessions st !! sid = Some x /\ Session.userID x = uid /\ Session.tenantID x = t
    /\ Session.tokenHash x = HashOf (presented r) /\ t0 < Session.expiresAt x + 1000.

#[global] Instance durable_session_shown t0 r uid sid t : Durable (session_shown t0 r uid sid t).
Proof.
  intros st st' Hg (x & Hx & H1 & H2 & H3 & H4).
  destruct (gr_sessions _ _ Hg _ _ Hx) as (y & Hy & (E1 & E2 & E3 & E4 & E5) & _).
  exists y. rewrite E2, E3, E4, E5. done.
Qed.

(** The stored session of a cache entry. *)
Definition cached_entry (key : string) (body : CachedSession) (st : Store) : Prop :=
  exists x, sessions st !! Session.SessionID body = Some x /\ cached_session_of key body x.

#[global] Instance durable_cached_entry key body : Durable (cached_entry key body).
Proof.
  intros st st' Hg (x & Hx & Hb). destruct (gr_sessions _ _ Hg _ _ Hx) as (y & Hy & Hxy & _).
  exists y. split; [done|]. by eapply cached_same.
Qed.

#[global] Instance durable_if (P : Prop) F : Durable F -> Durable (fun st => P -> F st).
Proof. intros HF st st' Hg Hf Hp. eapply durable; [done|by apply Hf]. Qed.

(** ** Handlers *)

(** The success codes of the operations. *)
Class SuccessCode (code : Z) : Prop := success_code : code = 200 \/ code = 201 \/ code = 204.
#[global] Instance success_200 : SuccessCode 200 := or_introl eq_refl.
#[global] Instance success_201 : SuccessCode 201 := or_intror (or_introl eq_refl).
#[global] Instance success_204 : SuccessCode 204 := or_intror (or_intror eq_refl).

Section Tells.
Context `{UuidLib} (verifies : PasswordHash -> string -> bool).
(** The time of the request, the success code of the operation, and what an
    answer with this code asserts. *)
Context (t0 : Time) (code : Z) (fact : Request -> Response -> Store -> Prop).
Context `{!forall r resp, Durable (fact r resp)} `{code_ok : !SuccessCode code}.

Definition tell (r : Request) (a : outcome unit * RequestCtx) (v : View) : Prop :=
  request a.2 = r /\
  knows t0 (fun st => a.1 = Returned tt -> StatusCode (response a.2) = code -> fact r (response a.2) st) (v_sys v).

(** [pre] is what the handler may assume of its context. *)
Class Tells (pre : RequestCtx -> Store -> Prop) (h : Handler) : Prop :=
  tells c own s : knows t0 (pre c) s ->
    owp (istep verifies) (h c) (tell (request c)) (MkView own s).

Lemma tells_from pre h `{!Tells pre h} c own s Q :
  knows t0 (pre c) s ->
  (forall a own' s', tell (request c) a (MkView own' s') -> Q a (MkView own' s')) ->
  owp (istep verifies) (h c) Q (MkView own s).
Proof.
  intros HK HQ. eapply owp_mono; [apply _| |by apply (tells c)]. intros a [own' s']. apply HQ.
Qed.

Lemma knows_impl F G s : (forall st, F st -> G st) -> knows t0 F s -> knows t0 G s.
Proof. intros HFG [? ?]. split; auto. Qed.

Lemma tells_weaken pre pre' h :
  (forall c st, pre c st -> pre' c st) -> Tells pre' h -> Tells pre h.
Proof. intros Hp Hh c own s HK. apply tells. by eapply knows_impl; [apply Hp|]. Qed.

(** An answer that is not the success of the operation. *)
Lemma tell_other r a v F :
  request a.2 = r -> knows t0 F (v_sys v) -> a.1 <> Returned tt \/ StatusCode (response a.2) <> code ->
  tell r a v.
Proof. intros Hr [Ht _] Hne. split; [done|]. split; [done|]. intros Ha Hc. by destruct Hne. Qed.

Lemma owp_WriteFast r c own s F :
  knows t0 F s -> Status r <> code -> owp (istep verifies) (WriteFast r c) (tell (request c)) (MkView own s).
Proof. intros HK Hne. by apply (tell_other _ (Returned tt, answered r c) _ F); [| |right]. Qed.

Section Middleware.
Context (pre : RequestCtx -> Store -> Prop) `{!forall c, Durable (pre c)} (next : Handler) `{!Tells pre next}.

(** Behind Recover every request is answered. *)
Lemma Recover_tells c own s :
  knows t0 (pre c) s ->
  owp (istep verifies) (Recover next c) (fun a v => a.1 = Returned tt /\ tell (request c) a v) (MkView own s).
Proof.
  intros HK. unfold Recover. owp_rule. apply (tells_from pre _ _ _ _ _ HK).
  intros [[[]|msg] c1] own' s' [Hr HK']; cbn [fst snd] in *; [done|].
  i_go. split; [done|].
  apply (tell_other _ (Returned tt, answered Internal c1) (MkView own' s2) _ Hr HK'). right. cbn. unfold SuccessCode in *; lia.
Qed.

#[global] Instance tells_AccessLog : Tells pre (AccessLog next).
Proof.
  intros c own s HK. unfold AccessLog. i_go.
  apply (tells_from pre _ _ _ _ _ HK). intros [[[]|msg] c1] own' s' [Hr HK']; cbn [fst snd v_sys] in *.
  - i_go. by split.
  - by split.
Qed.

#[global] Instance tells_OTelTrace : Tells pre (OTelTrace next).
Proof.
  intros c own s HK. unfold OTelTrace. i_go.
  apply (tells_from pre _ _ _ _ _ HK). intros [[[]|msg] c1] own' s' [Hr HK']; cbn [fst snd v_sys] in *.
  - i_go. by split.
  - i_go. by split.
Qed.

#[global] Instance tells_OriginCheck allowed : Tells pre (OriginCheck allowed next).
Proof.
  intros c own s HK. destruct (OriginCheck_guard allowed next c) as [[_ ->]|(_ & msg & attrs & ->)].
  - by apply tells.
  - i_go. apply (owp_WriteFast _ _ _ _ _ HK). cbn. unfold SuccessCode in *; lia.
Qed.
End Middleware.

(** Nothing is known of the context. *)
Definition anything (c : RequestCtx) (st : Store) : Prop := True.
(** The tenant has been set. *)
Definition tenanted (c : RequestCtx) (st : Store) : Prop := UserValue UVTenantID c = Some (UVTenant DefaultID).
(** The request shows the session whose identity is in the context. *)
Definition authed (c : RequestCtx) (st : Store) : Prop := exists uid sid t,
  UserValue UVUserID c = Some (UVUuid uid) /\ UserValue UVSessionID c = Some (UVUuid sid)
  /\ UserValue UVTenantID c = Some (UVTenant t) /\ session_shown t0 (request c) uid sid t st.

#[global] Instance durable_anything c : Durable (anything c).
Proof. done. Qed.
#[global] Instance durable_tenanted c : Durable (tenanted c).
Proof. by intros st st' _. Qed.
#[global] Instance durable_authed c : Durable (authed c).
Proof.
  intros st st' Hg (uid & sid & t & H1 & H2 & H3 & H4). exists uid, sid, t.
  do 3 (split; [done|]). by eapply durable_session_shown.
Qed.

#[global] Instance tells_RequestID h : Tells anything h -> Tells anything (RequestID h).
Proof.
  intros Hh c own s HK. unfold RequestID. i_go.
  all: try (apply (tells_from anything h); [exact HK|done]).
  apply (tell_other _ (Panicked msg, c) (MkView own s2) _ eq_refl HK). by left.
Qed.

#[global] Instance tells_Tenancy h : Tells tenanted h -> Tells anything (Tenancy h).
Proof.
  intros Hh c own s HK. unfold Tenancy. i_go. apply (tells_from tenanted h); [|done].
  eapply knows_impl; [|exact HK]. intros st _. apply lookup_insert_eq.
Qed.

Section Session.
Context (next : Handler) `{!Tells authed next}.

Lemma tells_authenticated c own s uid sid t Q :
  knows t0 (session_shown t0 (request c) uid sid t) s ->
  (forall a own' s', tell (request c) a (MkView own' s') -> Q a (MkView own' s')) ->
  owp (istep verifies) (next (authenticated_ctx uid sid t (cookie_key c) c)) Q (MkView own s).
Proof.
  intros HK HQ. apply (tells_from authed next); [|done].
  eapply knows_impl; [|exact HK]. intros st Hs. exists uid, sid, t.
  unfold authenticated_ctx, UserValue, UVUserID, UVSessionID, UVTenantID, UVTokenHashHex.
  cbn [uservalues SetUserValue]. split_and!; [by rewrite ?lookup_insert_ne, lookup_insert_eq by done..|done].
Qed.

#[local] Ltac other :=
  match goal with
  | HK : knows t0 _ ?s |- tell _ ?a (MkView ?own ?s) =>
      apply (tell_other _ a (MkView own s) _ eq_refl HK); first [by left|right; cbn; unfold SuccessCode in *; lia]
  | HK : knows t0 _ ?s |- owp _ (WriteFast _ _) _ (MkView _ ?s) =>
      apply (owp_WriteFast _ _ _ _ _ HK); cbn; unfold SuccessCode in *; lia
  end.

(** The sessions table decides. *)
Lemma tells_store cache c own s :
  knows t0 (fun _ => True) s ->
  owp (istep verifies) (session_from_store cache (HashOf (cookie_token c)) (cookie_key c) next c)
    (tell (request c)) (MkView own s).
Proof.
  intros HK. unfold session_from_store, authenticated.
  apply owp_bind; [apply _|]. apply owp_call. i_rule. destruct o as [[x|err]|msg]; cbv beta iota.
  2:{ destruct (errors_Is err session.ErrSessionNotFound); other. }
  2: other.
  destruct Hstep as [-> [(i & y & [= <-] & Hx & Hh)|[[[=] _]|[(err & [=] & _)|[msg [=]]]]]].
  pose proof Hok as [[Hst _ _] _]. pose proof (so_session_key _ Hst _ _ Hx) as <-.
  assert (kept (committed s1) (WSession x)) as Hrow by (by exists x; split; [|apply same_identity_refl]).
  assert (good_write (WSession x)) as [_ Hexp] by (by apply (so_good _ Hst)).
  apply (knows_more _ _ (fun st => kept st (WSession x)) _ HK) in Hrow. clear HK. rename Hrow into HK.
  apply owp_bind; [apply _|]. apply owp_call. i_rule. cbv beta iota.
  destruct Hstep as (t & Ht & [= ->] & _).
  destruct (IsActive x t) eqn:Ha; cbn [negb]; [|other]. apply IsActive_spec in Ha as [_ Ha].
  assert (forall st, True /\ kept st (WSession x) ->
    session_shown t0 (request c) (Session.userID x) (Session.id x) (Session.tenantID x) st) as Hshown.
  { intros st [_ (z & Hz & E1 & E2 & E3 & E4 & E5)]. exists z. rewrite E2, E3, E4, E5.
    split_and!; [done|done|done|by rewrite Hh, cookie_presented|lia]. }
  assert (forall st, True /\ kept st (WSession x) -> backed st (cookie_key c)
    (MkCachedSession (Session.id x) (Session.userID x) (Session.tenantID x) (Session.expiresAt x))) as Hback.
  { intros st [_ Hk]. eapply kept_backed; [|exact Hk]. repeat split; cbn; [unfold cookie_key; by rewrite Hh|done]. }
  i_go; first [by apply Hback|other|apply tells_authenticated; [by apply (knows_impl _ _ _ Hshown)|done]].
Qed.

(** The cache vouches for the session. *)
Lemma CacheGet_entry key body s s' :
  shared_ok s -> pstep verifies _ (SessionCache (CacheGet key)) s (Returned (Ok body)) s' ->
  cached_entry key body (committed s').
Proof.
  intros [Hdb Hca] [(b & ttl & [= <-] & Hk & ->)|[[[=] _]|[[(e & [=] & _)|[msg [=]]] _]]].
  destruct (Hca _ _ _ Hk) as (i & x & Hx & Hb). exists x. split; [|done].
  destruct Hb as (_ & -> & _). by rewrite (so_session_key _ (do_store _ Hdb) _ _ Hx).
Qed.

Lemma entry_shown c body t st :
  t0 <= t -> t < ExpiresAt body -> cached_entry (cookie_key c) body st ->
  session_shown t0 (request c) (UserID body) (Session.SessionID body) (TenantID body) st.
Proof.
  intros Ht0 Ht (x & Hx & Hk & _ & Hu & Htn & He). exists x. split_and!; [done|by rewrite Hu|by rewrite Htn| |].
  - symmetry. by apply EncodeToString_inj.
  - rewrite <- He. unfold stored_time. pose proof (Z.mod_pos_bound (ExpiresAt body) 1000).
    pose proof (Z.div_mod (ExpiresAt body) 1000). lia.
Qed.

#[global] Instance tells_Session cache : Tells anything (Session cache next).
Proof.
  intros c own s HK. unfold Session. cbv beta. owp_rule. cbn [owp get].
  pose proof (ReadSessionCookieFast_ok c) as Hcookie. pose proof (tells_store cache c) as Hstore.
  pose proof (fun own s uid sid t => tells_authenticated c own s uid sid t) as Hauth.
  pose proof (entry_shown c) as Hshown.
  unfold cookie_key, cookie_token in Hstore, Hauth, Hshown.
  destruct (ReadSessionCookieFast c) as [raw ok] eqn:Er. cbn [fst snd] in *. subst ok.
  case_bool_decide as Hraw; cbn [negb orb]; [other|].
  apply owp_bind; [apply _|]. destruct cache; [|by apply Hstore].
  apply owp_bind; [apply _|]. apply owp_call. i_rule. destruct o as [[body|err]|msg]; cbv beta iota.
  - apply (CacheGet_entry _ _ _ _ Hok) in Hstep. apply (knows_more _ _ _ _ HK) in Hstep.
    clear HK. rename Hstep into HK. unfold authenticated. 
    apply owp_bind; [apply _|]. apply owp_call. i_rule. cbv beta iota.
    destruct Hstep as (t & Ht & [= ->] & _). unfold After.
    destruct (Z.ltb_spec t (ExpiresAt body)) as [Hlt|_]; [|by apply Hstore; eapply knows_impl].
    i_go. apply Hauth.
    + eapply knows_impl; [|exact HK]. intros st [_ Hs]. apply (Hshown body t); [lia|done..].
    + intros [[[]|msg] c1] own' s' Ht1; exact Ht1.
  - destruct (errors_Is err session.ErrCacheMiss); i_go; by apply Hstore.
  - other.
Qed.
End Session.

(** ** Endpoints *)

(** A use case runs with its own locals. *)
Lemma tells_usecase {A} (m : G Port bool (res A)) (F : A -> Store -> Prop) K Q c own s :
  Durable K -> knows t0 K s ->
  (knows t0 (fun _ => True) s -> owp (istep verifies) (m false) (on_success F) (MkView own s)) ->
  (forall o own' s', knows t0 K s' -> (forall out, o = Returned (Ok out) -> F out (committed s')) ->
     Q (o, c) (MkView own' s')) ->
  owp (istep verifies) (scope (L := RequestCtx) false m c) Q (MkView own s).
Proof.
  intros HD HK Hm HQ. apply owp_scope; [apply _|].
  eapply owp_mono; [apply _| |apply (owp_frame verifies (knows t0 K) _ (on_success F)); [apply _|exact HK|]].
  - intros [o l] [own' s'] [HF HK']. by apply HQ.
  - apply Hm. by eapply knows_impl.
Qed.
End Tells.

(** ** What the answers of the wired server say *)

Section Wired.
Context `{UuidLib} (verifies : PasswordHash -> string -> bool).
Context (ttl : Duration) (dummy : PasswordHash) (secure : bool) (allowed : list string) (doc : string).
Context (t0 : Time).
Let cookie : CookieConfig := MkCookieConfig secure.
Let signUp : SignUp.UseCase := SignUp.New true ttl.
Let signIn : SignIn.UseCase := SignIn.MkUseCase true ttl dummy.

(** The response sets the session cookie to the token. *)
Definition sends (resp : Response) (token : string) (expires : Time) : Prop := exists ck,
  SetCookies resp !! Name cookie = Some ck /\ Value ck = token /\ CookieExpire ck = ExpireAt expires.

Definition sign_up_says (r : Request) (resp : Response) (st : Store) : Prop := exists req out,
  unmarshal_SignUpRequest (PostBody r) = Some req
  /\ sign_up_told verifies signUp (SignUp.MkInput DefaultID (su_Email req) (su_Password req)) out st
  /\ sends resp (SignUp.SessionToken out) (SignUp.SessionExpiresAt out)
  /\ Body resp = marshal_or_empty (SignUpResponse (uuid_String (SignUp.UserID out))).

Definition sign_in_says (r : Request) (resp : Response) (st : Store) : Prop := exists req out,
  unmarshal_SignInRequest (PostBody r) = Some req
  /\ sign_in_told verifies signIn (SignIn.MkInput DefaultID (si_Email req) (si_Password req)) out st
  /\ sends resp (SignIn.SessionToken out) (SignIn.SessionExpiresAt out)
  /\ Body resp = marshal_or_empty (SignInResponse (uuid_String (SignIn.UserID out))).

(** The session of the cookie has ended. *)
Definition sign_out_says (r : Request) (resp : Response) (st : Store) : Prop := exists i x,
  sessions st !! i = Some x /\ Session.tokenHash x = HashOf (presented r) /\ is_Some (Session.revokedAt x).

(** The profile of the owner of the session of the cookie, which had not expired
    when the request arrived. *)
Definition get_me_says (r : Request) (resp : Response) (st : Store) : Prop := exists uid sid t u,
  session_shown t0 r uid sid t st /\ users st !! uid = Some u /\ User.tenantID u = t
  /\ Body resp = marshal_or_empty (let out := projection u in
       MeResponse (uuid_String (GetMe.out_UserID out)) (GetMe.out_Email out) (GetMe.out_Status out)
         (GetMe.out_CreatedAt out)).

#[global] Instance durable_sign_up_says r resp : Durable (sign_up_says r resp).
Proof. intros st st' Hg (req & out & H1 & H2 & H3). exists req, out. split; [done|]. split; [by eapply durable_sign_up_told|done]. Qed.
#[global] Instance durable_sign_in_says r resp : Durable (sign_in_says r resp).
Proof. intros st st' Hg (req & out & H1 & H2 & H3). exists req, out. split; [done|]. split; [by eapply durable_sign_in_told|done]. Qed.
#[global] Instance durable_sign_out_says r resp : Durable (sign_out_says r resp).
Proof.
  intros st st' Hg (i & x & Hx & Hh & Hr). destruct (gr_sessions _ _ Hg _ _ Hx) as (y & Hy & (_ & _ & _ & E & _) & Er).
  exists i, y. split; [done|]. split; [by rewrite E|by rewrite Er].
Qed.
#[global] Instance durable_get_me_says r resp : Durable (get_me_says r resp).
Proof.
  intros st st' Hg (uid & sid & t & u & H1 & H2 & H3). exists uid, sid, t, u.
  split; [by eapply durable_session_shown|]. by split; [apply (gr_users _ _ Hg)|].
Qed.

(** A refusal. *)
#[local] Ltac refuse :=
  match goal with
  | HK : knows t0 _ ?s |- tell _ _ _ _ ?a (MkView ?own ?s) =>
      apply (tell_other t0 _ _ _ a (MkView own s) _ eq_refl HK); first [by left|right; cbn; unfold SuccessCode in *; lia]
  | HK : knows t0 _ ?s |- owp _ (WriteFast _ _) _ (MkView _ ?s) =>
      apply (owp_WriteFast verifies t0 _ _ _ _ _ _ _ HK); unfold FromSignUp, FromSignIn, FromSignOut, FromGetMe; repeat case_match; cbn; unfold SuccessCode in *; lia
  end.

Lemma tenanted_default c st : tenanted c st -> mustTenant c = DefaultID.
Proof. unfold tenanted, mustTenant. by intros ->. Qed.

#[local] Instance tells_sign_up : Tells verifies t0 201 sign_up_says tenanted (sign_up_Handle signUp cookie).
Proof.
  intros c own s HK. unfold sign_up_Handle, SetFast. cbv beta. owp_rule. cbn [owp get].
  destruct (maxBodyBytes <? len _); [refuse|].
  destruct (unmarshal_SignUpRequest _) as [req|] eqn:Ereq; [|refuse].
  rewrite (tenanted_default c (committed s)) by apply HK.
  apply owp_bind; [apply _|]. eapply tells_usecase; [|exact HK|apply sign_up_truthful|]; [apply _|].
  clear HK. intros o own' s' HK Ho. destruct o as [[out|err]|msg]; cbv beta iota; [|refuse|refuse].
  specialize (Ho out eq_refl). apply (knows_more _ _ _ _ HK) in Ho. clear HK. rename Ho into HK.
  i_go. split; [done|]. eapply knows_impl; [|exact HK]. intros st [_ Hout] _ _.
  exists req, out. split; [done|]. split; [done|]. split; [|done].
  eexists. by split; [apply lookup_insert_eq|].
Qed.

#[local] Instance tells_sign_in : Tells verifies t0 200 sign_in_says tenanted (sign_in_Handle signIn cookie).
Proof.
  intros c own s HK. unfold sign_in_Handle, SetFast. cbv beta. owp_rule. cbn [owp get].
  destruct (maxBodyBytes <? len _); [refuse|].
  destruct (unmarshal_SignInRequest _) as [req|] eqn:Ereq; [|refuse].
  rewrite (tenanted_default c (committed s)) by apply HK.
  apply owp_bind; [apply _|]. eapply tells_usecase; [|exact HK|apply sign_in_truthful|]; [apply _|].
  clear HK. intros o own' s' HK Ho. destruct o as [[out|err]|msg]; cbv beta iota; [|refuse|refuse].
  specialize (Ho out eq_refl). apply (knows_more _ _ _ _ HK) in Ho. clear HK. rename Ho into HK.
  i_go. split; [done|]. eapply knows_impl; [|exact HK]. intros st [_ Hout] _ _.
  exists req, out. split; [done|]. split; [done|]. split; [|done].
  eexists. by split; [apply lookup_insert_eq|].
Qed.

(** What the handlers read of an authenticated context. *)
Lemma authed_values c st : authed t0 c st ->
  session_shown t0 (request c) (userIDOrNil c) (sessionIDOrNil c) (mustTenant c) st.
Proof.
  intros (uid & sid & t & H1 & H2 & H3 & H4).
  unfold userIDOrNil, sessionIDOrNil, user_value_uuid, mustTenant. by rewrite H1, H2, H3.
Qed.

#[local] Instance tells_sign_out : Tells verifies t0 204 sign_out_says (authed t0) (sign_out_Handle (SignOut.New true) cookie).
Proof.
  intros c own s HK. unfold sign_out_Handle, ClearFast. cbv beta. owp_rule. cbn [owp get].
  apply owp_bind; [apply _|]. eapply tells_usecase; [|exact HK|apply sign_out_truthful|]; [apply _|].
  clear HK. intros o own' s' HK Ho. destruct o as [[out|err]|msg]; cbv beta iota; [|refuse|refuse].
  specialize (Ho out eq_refl). apply (knows_more _ _ _ _ HK) in Ho. clear HK. rename Ho into HK.
  i_go. split; [done|]. eapply knows_impl; [|exact HK].
  intros st [(x & Hx & _ & _ & Hh & _)%authed_values (at_ & ev & body & now & _ & Hk)] _ _.
  apply Forall_cons in Hk as [(y & Hy & Hr) _]. cbn in Hy. rewrite Hx in Hy. injection Hy as <-.
  by exists (sessionIDOrNil c), x.
Qed.

#[local] Instance tells_get_me : Tells verifies t0 200 get_me_says (authed t0) (get_me_Handle GetMe.New).
Proof.
  intros c own s HK. unfold get_me_Handle. cbv beta. owp_rule. cbn [owp get].
  apply owp_bind; [apply _|].
  eapply owp_mono; [apply _| |apply (owp_frame verifies (knows t0 (authed t0 c)) _ (fun a v => a.2 = c /\
    on_success (get_me_told (GetMe.MkInput (mustTenant c) (userIDOrNil c))) a v));
    [apply _|exact HK|apply (get_me_truthful _ _ _ _ _ _ t0); by eapply knows_impl]].
  clear HK. intros [[[out|err]|msg] l] [own' s'] [[Hl Ho] HK]; cbn in Hl, Ho, HK; subst l; [|refuse|refuse].
  specialize (Ho out eq_refl). apply (knows_more _ _ _ _ HK) in Ho. clear HK. rename Ho into HK.
  i_go. split; [done|]. eapply knows_impl; [|exact HK].
  intros st [Hs%authed_values (u & Hu & Ht & ->)] _ _. by exists (userIDOrNil c), (sessionIDOrNil c), (mustTenant c), u.
Qed.

(** *** The dispatch *)

(** What a success of each operation asserts. *)
Record truthful (r : Request) (resp : Response) (st : Store) : Prop := {
  tr_sign_up : Method r = "POST" -> Path r = "/api/v1/crm/public/identity/sign-up" ->
    StatusCode resp = 201 -> sign_up_says r resp st;
  tr_sign_in : Method r = "POST" -> Path r = "/api/v1/crm/public/identity/sessions" ->
    StatusCode resp = 200 -> sign_in_says r resp st;
  tr_sign_out : Method r = "DELETE" -> Path r = "/api/v1/crm/public/identity/sessions/current" ->
    StatusCode resp = 204 -> sign_out_says r resp st;
  tr_get_me : Method r = "GET" -> Path r = "/api/v1/crm/public/identity/profile/me" ->
    StatusCode resp = 200 -> get_me_says r resp st;
}.

#[global] Instance durable_truthful r resp : Durable (truthful r resp).
Proof.
  intros st st' Hg [H1 H2 H3 H4].
  split; intros Hm Hp Hc; (eapply durable; [exact Hg|auto]).
Qed.

Let server : Handler := NewHandler (wire ttl dummy secure allowed doc).

Definition answered_truly (r : Request) (a : outcome unit * RequestCtx) (v : View) : Prop :=
  a.1 = Returned tt /\ truthful r (response a.2) (committed (v_sys v)).

(** The answers of the other endpoints assert nothing. *)
Lemma tells_idle (h : Handler) :
  (forall c, exists c', h c = Ret (Returned tt, c') /\ request c' = request c) ->
  Tells verifies t0 200 (fun _ _ _ => True) anything h.
Proof.
  intros Hh c own s HK. destruct (Hh c) as (c' & -> & Hc). split; [done|]. by eapply knows_impl; [|exact HK].
Qed.

#[local] Instance tells_Healthz : Tells verifies t0 200 (fun _ _ _ => True) anything Healthz.
Proof. apply tells_idle. intros c. by eexists. Qed.
#[local] Instance tells_OpenAPI : Tells verifies t0 200 (fun _ _ _ => True) anything (OpenAPI doc).
Proof. apply tells_idle. intros c. by eexists. Qed.
#[local] Instance tells_tenanted code fact h :
  Tells verifies t0 code fact anything h -> Tells verifies t0 code fact tenanted h.
Proof. by apply tells_weaken. Qed.

Lemma behind_Recover code fact `{!SuccessCode code, !forall r resp, Durable (fact r resp)} h c own s :
  Tells verifies t0 code fact anything h -> t0 <= now s ->
  (forall resp st, (StatusCode resp = code -> fact (request c) resp st) -> truthful (request c) resp st) ->
  owp (istep verifies) (Recover h c) (answered_truly (request c)) (MkView own s).
Proof.
  intros Hh Ht0 Hfact.
  eapply owp_mono; [apply _| |apply (Recover_tells verifies t0 code fact anything h c own s); by split].
  intros a v [Ha [_ [_ Hv]]]. split; [done|]. by apply Hfact, Hv.
Qed.

Lemma server_truthful c own s :
  t0 <= now s -> owp (istep verifies) (server c) (answered_truly (request c)) (MkView own s).
Proof.
  intros Ht0. unfold server, NewHandler. cbv beta. owp_rule. cbn [owp get]. unchain.
  assert (forall (m p : string), bool_decide (Method (request c) = m) && bool_decide (Path (request c) = p) = true ->
    Method (request c) = m /\ Path (request c) = p) as Hroute.
  { intros m p [H1 H2]%andb_true_iff. by rewrite !bool_decide_eq_true in *. }
  repeat match goal with |- context [if ?b then _ else _] => destruct b eqn:?E end.
  all: try match goal with E : _ && _ = true |- _ => apply Hroute in E as [Em Ep] end.
  7:{ unfold WriteJSON. destruct (Marshal not_found); (split; [done|]); by split; cbn. }
  all: (match goal with |- context [sign_up_Handle] => eapply (behind_Recover 201 sign_up_says)
                      | |- context [sign_in_Handle] => eapply (behind_Recover 200 sign_in_says)
                      | |- context [sign_out_Handle] => eapply (behind_Recover 204 sign_out_says)
                      | |- context [get_me_Handle] => eapply (behind_Recover 200 get_me_says)
                      | |- _ => eapply (behind_Recover 200 (fun _ _ _ => True))
                      end; [apply _|done|]).
  all: intros resp st Hf; split; rewrite Em, Ep; try done; auto.
Qed.
End Wired.

(** ** The running service *)

(** A request in flight: when it arrived, the transactions it has opened, what
    is left to do. *)
Record InFlight := MkInFlight {
  f_request : Request;
  f_start : Time;
  f_own : gset positive;
  f_prog : Prog Port (outcome unit * RequestCtx);
}.

Record World := MkWorld {
  pool : list InFlight;
  (** the transactions ever opened *)
  used : gset positive;
  sys : Sys;
}.

(** The database rolls back the transactions of a lost connection. *)
Definition roll_back_all (own : gset positive) (s : Sys) : Sys :=
  set_txs (filter (fun p => p.1 ∉ own) (txs s)) s.

Section Traffic.
Context `{UuidLib} (verifies : PasswordHash -> string -> bool).
Context (ttl : Duration) (dummy : PasswordHash) (secure : bool) (allowed : list string) (doc : string).

(** One step of the running instances: the next call of a request, a new
    request, the loss of a request with the process that serves it, the expiry of
    a cache entry, the passing of time. *)
Inductive traffic : World -> World -> Prop :=
| traffic_call i r start own R (e : Port R) k o pl us s s' :
    pl !! i = Some (MkInFlight r start own (Vis e k)) -> pstep verifies R e s o s' -> opened e o ## us ->
    traffic (MkWorld pl us s)
      (MkWorld (<[i := MkInFlight r start (own ∪ opened e o) (k o)]> pl) (us ∪ opened e o) s')
| traffic_accept r pl us s :
    traffic (MkWorld pl us s)
      (MkWorld (pl ++ [MkInFlight r (now s) ∅ (server ttl dummy secure allowed doc (new_ctx r))]) us s)
| traffic_lost i f pl us s :
    pl !! i = Some f -> traffic (MkWorld pl us s) (MkWorld (delete i pl) us (roll_back_all (f_own f) s))
| traffic_expire key pl us s :
    traffic (MkWorld pl us s) (MkWorld pl us (set_cache (delete key (cache s)) s))
| traffic_tick t pl us s :
    now s <= t -> traffic (MkWorld pl us s) (MkWorld pl us (set_now t s)).

(** A request in flight will answer truly. *)
Definition on_course (s : Sys) (f : InFlight) : Prop :=
  owp (istep verifies) (f_prog f)
    (answered_truly verifies ttl dummy secure (f_start f) (f_request f)) (MkView (f_own f) s).

Record orderly (w : World) : Prop := {
  or_shared : shared_ok (sys w);
  or_course : Forall (on_course (sys w)) (pool w);
  or_used : Forall (fun f => f_own f ⊆ used w) (pool w);
  or_apart : forall i j f g, pool w !! i = Some f -> pool w !! j = Some g -> i <> j -> f_own f ## f_own g;
}.

(** What others do leaves a request on course. *)
Lemma on_course_later s s' f : later (f_own f) s s' -> on_course s f -> on_course s' f.
Proof.
  intros Hl. apply owp_later; [|done]. intros a own s1 s2 [Ha Ht] Hl2. split; [done|].
  eapply durable; [apply Hl2|exact Ht].
Qed.

Lemma Forall_later s s' pl :
  (forall f, f ∈ pl -> later (f_own f) s s') -> Forall (on_course s) pl -> Forall (on_course s') pl.
Proof. rewrite !Forall_forall. intros Hl Hp f Hf. by apply (on_course_later s); [apply Hl|apply Hp]. Qed.

(** Steps of the environment. *)
Lemma orderly_env pl us s s' :
  shared_ok s' -> (forall own, later own s s') -> orderly (MkWorld pl us s) -> orderly (MkWorld pl us s').
Proof. intros Hs Hl [_ Hc Hu Ha]. split; [done| |done|done]. by eapply Forall_later; [|exact Hc]. Qed.

Lemma later_quiet own s s' :
  committed s' = committed s -> txs s' = txs s -> now s <= now s' -> later own s s'.
Proof. intros E1 E2 Hn. split; [by rewrite E1|by intros; rewrite E2|done]. Qed.

Lemma orderly_expire key pl us s :
  orderly (MkWorld pl us s) -> orderly (MkWorld pl us (set_cache (delete key (cache s)) s)).
Proof.
  intros Ho. pose proof Ho as [[Hdb Hca] _ _ _]. apply (orderly_env _ _ s); [|by intros; apply later_quiet; cbn; [..|lia]|done].
  split; [by eapply db_ok_quiet; [| |exact Hdb]|]. intros k body d Hk. cbn in Hk.
  apply lookup_delete_Some in Hk as [_ Hk]. by eapply Hca.
Qed.

Lemma orderly_tick t pl us s :
  now s <= t -> orderly (MkWorld pl us s) -> orderly (MkWorld pl us (set_now t s)).
Proof.
  intros Ht Ho. pose proof Ho as [[Hdb Hca] _ _ _]. apply (orderly_env _ _ s); [|by intros; apply later_quiet|done].
  split; [by eapply db_ok_quiet; [| |exact Hdb]|done].
Qed.

Lemma orderly_accept r pl us s :
  orderly (MkWorld pl us s) ->
  orderly (MkWorld (pl ++ [MkInFlight r (now s) ∅ (server ttl dummy secure allowed doc (new_ctx r))]) us s).
Proof.
  intros [Hs Hc Hu Ha]. split; cbn in *; [done|..].
  - apply Forall_app_2; [done|]. apply Forall_singleton. unfold on_course. cbn.
    exact (server_truthful verifies ttl dummy secure allowed doc (now s) (new_ctx r) ∅ s ltac:(lia)).
  - apply Forall_app_2; [done|]. apply Forall_singleton. cbn. set_solver.
  - intros i j f g Hi Hj Hij. apply lookup_app_Some in Hi, Hj.
    destruct Hi as [Hi|[Hi1 Hi]], Hj as [Hj|[Hj1 Hj]].
    + by apply (Ha i j).
    + apply list_lookup_singleton_Some in Hj as [_ <-]. cbn. set_solver.
    + apply list_lookup_singleton_Some in Hi as [_ <-]. cbn. set_solver.
    + apply list_lookup_singleton_Some in Hi as [E1 _], Hj as [E2 _]. lia.
Qed.

Lemma orderly_call i r start own R (e : Port R) k o pl us s s' :
  pl !! i = Some (MkInFlight r start own (Vis e k)) -> pstep verifies R e s o s' -> opened e o ## us ->
  orderly (MkWorld pl us s) ->
  orderly (MkWorld (<[i := MkInFlight r start (own ∪ opened e o) (k o)]> pl) (us ∪ opened e o) s').
Proof.
  intros Hi Hstep Hnew [Hs Hc Hu Ha]. cbn in *. rewrite Forall_lookup in Hc, Hu.
  destruct (Hc i _ Hi s Hs ltac:(reflexivity)) as [Hperm Hgo].
  assert (forall j g, pl !! j = Some g -> i <> j -> own ## f_own g /\ opened e o ## f_own g) as Hothers.
  { intros j g Hj Hij. split; [by apply (Ha i j _ g Hi)|]. pose proof (Hu j g Hj). set_solver. }
  split; cbn.
  - by eapply pstep_shared.
  - apply Forall_lookup. intros j g [(-> & <- & _)|[Hij Hj]]%list_lookup_insert_Some.
    + by apply Hgo.
    + apply (on_course_later s); [|by apply (Hc j)]. destruct (Hothers j g Hj Hij). by eapply pstep_later.
  - apply Forall_lookup. intros j g [(-> & <- & _)|[Hij Hj]]%list_lookup_insert_Some; cbn.
    + pose proof (Hu _ _ Hi). cbn in *. set_solver.
    + pose proof (Hu _ _ Hj). set_solver.
  - intros j1 j2 f g [(-> & <- & _)|[H1 Hf]]%list_lookup_insert_Some
      [(-> & <- & _)|[H2 Hg]]%list_lookup_insert_Some Hij; cbn; [done|..].
    + destruct (Hothers j2 g Hg Hij). set_solver.
    + destruct (Hothers j1 f Hf ltac:(done)). set_solver.
    + by apply (Ha j1 j2).
Qed.

Lemma roll_back_all_ok own s : shared_ok s -> shared_ok (roll_back_all own s).
Proof.
  intros [Hdb Hca]. split; [|done]. apply db_ok_fewer; [|done].
  intros h ws Hh. by apply map_lookup_filter_Some in Hh as [? _].
Qed.

Lemma orderly_lost i f pl us s :
  pl !! i = Some f -> orderly (MkWorld pl us s) -> orderly (MkWorld (delete i pl) us (roll_back_all (f_own f) s)).
Proof.
  intros Hi [Hs Hc Hu Ha]. cbn in *.
  assert (forall j g, delete i pl !! j = Some g -> exists j', pl !! j' = Some g /\ j' <> i /\ j' = (if decide (j < i)%nat then j else S j)) as Hdel.
  { intros j g Hj. destruct (decide (j < i)%nat) as [Hlt|Hge].
    - rewrite list_lookup_delete_lt in Hj by done. exists j. split; [done|]. split; [lia|done].
    - rewrite list_lookup_delete_ge in Hj by lia. exists (S j). split; [done|]. split; [lia|done]. }
  split; cbn.
  - by apply roll_back_all_ok.
  - apply Forall_lookup. intros j g (j' & Hj & Hne & _)%Hdel. rewrite Forall_lookup in Hc.
    apply (on_course_later s); [|by apply (Hc j')]. split; cbn; [done| |lia]. intros h Hh.
    assert (h ∉ f_own f) as Hn by (pose proof (Ha j' i g f Hj Hi Hne); set_solver).
    destruct (txs s !! h) as [x|] eqn:Ex.
    + apply map_lookup_filter_Some. by split.
    + by apply map_lookup_filter_None; left.
  - apply Forall_lookup. intros j g (j' & Hj & _)%Hdel. rewrite Forall_lookup in Hu. by apply (Hu j').
  - intros j1 j2 g1 g2 (j1' & H1 & _ & E1)%Hdel (j2' & H2 & _ & E2)%Hdel Hne.
    apply (Ha j1' j2'); [done..|]. subst. repeat case_decide; lia.
Qed.

Lemma traffic_keeps w w' : traffic w w' -> orderly w -> orderly w'.
Proof.
  intros [i r start own R e k o pl us s s' Hi Hstep Hnew|r pl us s|i f pl us s Hi|key pl us s|t pl us s Ht].
  - by apply orderly_call.
  - apply orderly_accept.
  - by apply orderly_lost.
  - apply orderly_expire.
  - by apply orderly_tick.
Qed.

Lemma orderly_start t : orderly (MkWorld [] ∅ (initial t)).
Proof. split; cbn; [split; [apply initial_db_ok|]|done..]. by intros key body d. Qed.

Lemma traffic_orderly t w : rtc traffic (MkWorld [] ∅ (initial t)) w -> orderly w.
Proof.
  intros Hr. assert (forall x y, rtc traffic x y -> orderly x -> orderly y) as Hgen
    by (induction 1; eauto using traffic_keeps). by eapply Hgen, orderly_start.
Qed.

(** C2: under every interleaving of the calls of any number of requests, with
    failing collaborators, lost processes and vanishing cache entries, every
    answer is true when it is given and stays true: a sign-up answered 201 has
    stored the user, the session and both events, and its cookie is the token of
    this session; a sign-in answered 200 names a user whose hash accepts the
    password and has stored the session; after a sign-out answered 204 the session
    of the cookie is revoked; a profile answered 200 is the row of the owner of
    the session of the cookie, which had not expired when the request arrived. *)
Theorem answers_stay_true t w :
  rtc traffic (MkWorld [] ∅ (initial t)) w ->
  forall f o c, f ∈ pool w -> f_prog f = Ret (o, c) ->
    o = Returned tt
    /\ truthful verifies ttl dummy secure (f_start f) (f_request f) (response c) (committed (sys w)).
Proof.
  intros Hr%traffic_orderly f o c Hf E. pose proof (or_course _ Hr) as Hc. rewrite Forall_forall in Hc.
  specialize (Hc f Hf). unfold on_course in Hc. by rewrite E in Hc.
Qed.

End Traffic.
