(* ===== verification/Deployed.v ===== *)
(** * The running service on its adapters

    Traffic.v lets requests run at once against the contracts of the
    interfaces, one interface call at a time.  Here they run on the adapters, one
    call of the database driver, of the cache client or of the host at a time:
    [live].  Each interface call turns out to be at most one such call that
    anything depends on ([at_once]), so that every state of the running service
    on its adapters is one of [traffic] ([live_simulates]): what its answers say
    is in the SQL tables. *)
From S2P Require Import SignUp SignIn SignOut GetMe.
From S2P Require Import Prelude Program GoText GoEncoding GoTime Errors Tenant User Session Outbox Ports PortSpec PortRules Invariant Http Middleware Handlers Router Service Adapters Omni Interference Truthful Traffic.
From S2P Require Argon2id Valkey Postgres.
#[local] Open Scope Z_scope.

(** ** Programs whose remaining calls do not matter *)

Section Settles.
Context {F : Type -> Type} {T : Type} (spec : forall R, F R -> T -> outcome R -> T -> Prop).

(** Calls that change nothing and whose answers do not matter, then [y]. *)
Inductive settles {A} (y : Prog F A) : Prog F A -> Prop :=
| settles_here : settles y y
| settles_after R (e : F R) k :
    (forall t o t', spec _ e t o t' -> t' = t) ->
    (forall t o t', spec _ e t o t' -> settles y (k o)) -> settles y (Vis e k).

Lemma settles_pbind {A B} (q : Prog F A) a (f : A -> Prog F B) :
  settles (Ret a) q -> settles (f a) (pbind q f).
Proof.
  induction 1 as [|R e k Hk _ IH]; [apply settles_here|]. cbn. apply settles_after; [done|].
  intros t o t' Hs. by apply (IH t o t').
Qed.

Lemma settles_Ret {A} (y : Prog F A) a : settles y (Ret a) -> y = Ret a.
Proof.
  intros H. assert (forall x, settles y x -> match x with Ret _ => y = x | Vis _ _ => True end) as Hgen.
  { intros x Hx. destruct Hx; [by destruct y|done]. }
  exact (Hgen _ H).
Qed.

(** Every call can be answered. *)
Definition answers_always : Prop := forall R (e : F R) t, exists o t', spec _ e t o t'.

Lemma wp_settles {A} (q : Prog F A) a Q t :
  answers_always -> settles (Ret a) q -> wp spec q Q t -> Q a t.
Proof.
  intros Hall. induction 1 as [|R e k Hk _ IH]; intros Hq; [exact Hq|].
  destruct (Hall _ e t) as (o & t' & Hs). pose proof (Hk t o t' Hs) as ->.
  apply (IH t o t Hs). by apply Hq.
Qed.
End Settles.

(** ** Interface calls on the adapters *)

(** The database transactions a call of the driver opens. *)
Definition acquired_by {R} (c : Postgres.Pg R) : outcome R -> gset positive :=
  match c in Postgres.Pg R return outcome R -> gset positive with
  | Postgres.PoolBegin => fun o => match o with Returned (Ok h) => {[h]} | _ => ∅ end
  | _ => fun _ => ∅
  end.
Definition acquired {R} (e : Backend R) : outcome R -> gset positive :=
  match e in Backend R return outcome R -> gset positive with
  | BPg c => acquired_by c
  | _ => fun _ => ∅
  end.

Lemma acquired_changes {R} (e : Backend R) w o : backend_step R e w o w -> acquired e o = ∅.
Proof.
  destruct e as [R c|R c|R c| | | |R c]; try done. destruct c as [|q|h q|h|h]; try done. cbn.
  intros (d & [(h & Hh & -> & ->)|[Ho ->]] & Ew); [|by destruct Ho as [(x & -> & _)|(msg & ->)]].
  destruct w as [db keys t l]. cbn in *. injection Ew as Edb. exfalso. apply (f_equal Postgres.d_txs) in Edb. cbn in Edb.
  rewrite Edb, lookup_insert_eq in Hh. done.
Qed.

Section Calls.
Context `{UuidLib} `{Argon2id.Argon2} (params : Argon2id.Params).

(** The adapter of a call makes no call of the backend, or one after which its
    answer is settled, but for one more that nothing depends on. *)
Definition at_once {R} (op : Port R) : Prop :=
  match adapters params R op with
  | Ret a => opened op a = ∅
  | Vis e k => forall o, at_most 1 (k o)
      /\ exists a, settles backend_step (Ret a) (k o) /\ opened op a = acquired e o
  end.

#[local] Ltac settled := cbn; split; [done|]; eexists; split; [apply settles_here|done].

(** A corrupt cache entry is logged before it is reported as a miss. *)
Lemma logged_settles r (a : outcome (res CachedSession)) k :
  k (Returned tt) = Ret a -> settles backend_step (Ret a) (Vis (BRedis (Valkey.RLog r)) k).
Proof.
  intros Hk. apply settles_after; intros w o w' (m & [-> ->] & ->); [by destruct w|]. rewrite Hk. apply settles_here.
Qed.

Lemma adapters_at_once {R} (op : Port R) : at_once op.
Proof.
  unfold at_once. destruct op as [R c|R c|R c|R c|R c|R c|R c|src| |r|R c]; cbn [adapters].
  - destruct c as [|tx|tx]; cbn.
    + intros [[h|x]|msg]; settled.
    + unfold Postgres.Commit. destruct (Postgres.txOf tx); [cbn; intros [[]|]; settled|done].
    + unfold Postgres.Rollback. destruct (Postgres.txOf tx); [|done]. cbn. intros [[|x]|]; try settled.
      cbn. destruct (errors_Is x driver.ErrTxClosed); settled.
  - destruct c as [tx u|t m|t u]; cbn.
    + unfold Postgres.UserRepository_SaveTx. destruct (Postgres.txOf tx); [|done]. cbn. intros [[|x]|]; try settled.
      cbn. case_bool_decide; settled.
    + intros o. destruct o as [[vs|x]|]; [..|settled]; [|cbn; destruct (errors_Is x driver.ErrNoRows); settled].
      repeat case_match; settled.
    + intros o. destruct o as [[vs|x]|]; [..|settled]; [|cbn; destruct (errors_Is x driver.ErrNoRows); settled].
      repeat case_match; settled.
  - destruct c as [tx x|hash|tx t sid]; cbn.
    + unfold Postgres.SessionRepository_SaveTx. destruct (Postgres.txOf tx); [|done]. cbn. intros [[|e]|]; settled.
    + intros o. destruct o as [[vs|x]|]; [..|settled]; [|cbn; destruct (errors_Is x driver.ErrNoRows); settled].
      repeat case_match; settled.
    + unfold Postgres.RevokeTx. destruct (Postgres.txOf tx); [|done]. cbn. intros [[n|e]|]; try settled.
      cbn. destruct (n =? 0); settled.
  - destruct c as [tx ev]. cbn. unfold Postgres.OutboxRepository_WriteTx.
    destruct (Postgres.txOf tx); [|done]. cbn. intros [[|x]|]; settled.
  - destruct c as [key body ttl|key|key]; cbn.
    + intros [[]|]; settled.
    + intros [[b|x]|]; [|cbn; destruct (errors_Is x driver.RedisNil); settled|settled].
      cbn. repeat case_match; first [settled|cbn; split; [unfold at_most; cbn; by intros []|]; eexists; split; [by apply logged_settles|done]].
    + intros [[]|]; settled.
  - destruct c as [raw|h raw]; cbn; [|done]. unfold Argon2id.Hash. cbn. destruct (_ <? _); [done|]. cbn.
    intros [[salt|x]|]; try settled. cbn. destruct (Argon2id.IDKey _ _ _ _ _ _); settled.
  - destruct c. cbn. intros [[b|x]|]; settled.
  - destruct src; cbn; intros [t|msg]; settled.
  - cbn. intros o. settled.
  - cbn. intros o. settled.
  - cbn. intros o. settled.
Qed.
End Calls.

(** ** The running service *)

(** A request in flight: when it arrived, the transactions it has opened, the
    calls of the backend that are left. *)
Record Running := MkRunning {
  r_request : Request;
  r_start : Time;
  r_own : gset positive;
  r_prog : Prog Backend (outcome unit * RequestCtx);
}.

Record Deployment := MkDeployment {
  requests : list Running;
  (** the transactions ever opened *)
  acquiredTxs : gset positive;
  world : Adapters.World;
}.

(** The world of a fresh deployment. *)
Definition fresh_world (t : Time) : Adapters.World :=
  Adapters.MkWorld (Postgres.MkDb (Postgres.MkTables ∅ ∅ ∅) ∅) ∅ t [].

(** One call of a program. *)
Definition makes_call {A} (x : Prog Backend A) (w : Adapters.World) (new : gset positive) (w' : Adapters.World)
    (x' : Prog Backend A) : Prop :=
  match x with
  | Ret _ => False
  | Vis e k => exists o, backend_step _ e w o w' /\ new = acquired e o /\ x' = k o
  end.

(** The database rolls back the transactions of a lost connection. *)
Definition drop_txs (own : gset positive) (w : Adapters.World) : Adapters.World :=
  put_db (Postgres.MkDb (Postgres.d_tables (w_db w)) (filter (fun p => p.1 ∉ own) (Postgres.d_txs (w_db w)))) w.

Section Live.
Context `{UuidLib} `{Argon2id.Argon2} (params : Argon2id.Params) (params_ok : Argon2id.params_ok params).
Context (ttl : Duration) (dummy : PasswordHash) (secure : bool) (allowed : list string) (doc : string).
Let traffic : World -> World -> Prop := traffic Argon2id.argon2_verifies ttl dummy secure allowed doc.
Definition service (r : Request) : Prog Port (outcome unit * RequestCtx) := server ttl dummy secure allowed doc (new_ctx r).

(** A call of a request, a new request, the loss of a request with its process,
    the expiry of a key, the passing of time. *)
Inductive live : Deployment -> Deployment -> Prop :=
| live_call i r start own x new x' pl us w w' :
    pl !! i = Some (MkRunning r start own x) -> makes_call x w new w' x' -> new ## us ->
    live (MkDeployment pl us w) (MkDeployment (<[i := MkRunning r start (own ∪ new) x']> pl) (us ∪ new) w')
| live_accept r pl us w :
    live (MkDeployment pl us w)
      (MkDeployment (pl ++ [MkRunning r (w_now w) ∅ (interp (adapters params) (service r))]) us w)
| live_lost i f pl us w :
    pl !! i = Some f -> live (MkDeployment pl us w) (MkDeployment (delete i pl) us (drop_txs (r_own f) w))
| live_expire key pl us w :
    live (MkDeployment pl us w) (MkDeployment pl us (put_keys (delete key (w_keys w)) w))
| live_tick t pl us w :
    w_now w <= t -> live (MkDeployment pl us w) (MkDeployment pl us (put_now t w)).

(** ** The simulation *)

(** The program has made the calls whose adapters make none. *)
Definition ahead {A} (p : Prog Port A) : Prop :=
  match p with
  | Ret _ => True
  | Vis e _ => match adapters params _ e with Ret _ => False | Vis _ _ => True end
  end.

(** The program [x] of the backend is where the program [p] of the interfaces
    is. *)
Record tracks {A} (x : Prog Backend A) (p : Prog Port A) : Prop := {
  tk_settles : settles backend_step (interp (adapters params) p) x;
  tk_ahead : ahead p;
  tk_fits : fits p;
}.

Definition same_request (f : Running) (g : InFlight) : Prop :=
  r_request f = f_request g /\ r_start f = f_start g /\ r_own f = f_own g /\ tracks (r_prog f) (f_prog g).

Record simulates (d : Deployment) (w : World) : Prop := {
  sm_requests : Forall2 same_request (requests d) (pool w);
  sm_txs : acquiredTxs d = used w;
  sm_world : deployed (world d) (sys w);
}.

Lemma tracks_answer {A} (a : A) p : tracks (Ret a) p -> p = Ret a.
Proof.
  intros [Hs Ha _]. apply settles_Ret in Hs. destruct p as [b|R e k]; [cbn in Hs; congruence|].
  cbn in Ha, Hs. by destruct (adapters params R e).
Qed.

Lemma fails_panic {B} msg : fails (Panicked msg : outcome (res B)).
Proof. right. by exists msg. Qed.
#[local] Hint Resolve fails_panic : core.

(** Every call of the backend can be answered, and without a new transaction;
    the driver can panic at every call but the rollback. *)
Lemma pg_possible {R} (c : Postgres.Pg R) d : exists o d', Postgres.pg_step R c d o d' /\ acquired_by c o = ∅.
Proof.
  destruct c as [|q|h q|h|h]; cbn; [exists (Panicked "")..|].
  - eauto.
  - exists d. split; [|done]. split; [done|]. right. right. by split.
  - destruct (Postgres.d_txs d !! h) as [[ws|]|]; eexists; (split; [|done]); [right; right; by split|by split..].
  - destruct (Postgres.d_txs d !! h) as [[ws|]|]; eexists; (split; [|done]); [right; eauto|by split..].
  - destruct (Postgres.d_txs d !! h); eexists _, _; (split; [|done]); [split; [by left|done]|by split].
Qed.

Lemma redis_possible {R} (c : Valkey.Redis R) m : exists o m', Valkey.redis_step R c m o m'.
Proof. destruct c; cbn; [exists (Panicked "")..|]; eauto 8. Qed.

Lemma backend_possible {R} (e : Backend R) w : exists o w', backend_step R e w o w' /\ acquired e o = ∅.
Proof.
  destruct e as [R c|R c|R c| | |r|R c]; cbn.
  - destruct (pg_possible c (w_db w)) as (o & d & Hs & Ho). eauto 8.
  - destruct (redis_possible c (w_keys w)) as (o & m & Hs). eauto 8.
  - destruct c. exists (Panicked ""), w. split; [|done]. split; [by right|done].
  - exists (Returned (w_now w)), (put_now (w_now w) w). split; [|done]. exists (w_now w). split; [lia|done].
  - exists (Panicked ""), w. eauto 8.
  - eauto 8.
  - destruct c; eexists (Returned _), w; eauto 8.
  Unshelve. all: try exact tt; exact 1%positive.
Qed.

Lemma backend_answers : answers_always backend_step.
Proof. intros R e w. destruct (backend_possible e w) as (o & w' & Hs & _). eauto. Qed.

Lemma fresh_deployed t : deployed (fresh_world t) (initial t).
Proof. split; [apply Postgres.implements_empty|done..]. Qed.

(** The interface call at the head of a program, on its adapter. *)
Lemma head_call {R} (e : Port R) w s :
  saveable e -> deployed w s ->
  wp backend_step (adapters params R e) (fun o w' => exists s', pstep Argon2id.argon2_verifies R e s o s' /\ deployed w' s') w.
Proof. intros He Hd. by apply adapters_refine. Qed.

(** One step of [traffic] of the request [i]. *)
Lemma traffic_step i r start own R (e : Port R) k o pl us s s' new :
  pl !! i = Some (MkInFlight r start own (Vis e k)) -> pstep Argon2id.argon2_verifies R e s o s' ->
  opened e o = new -> new ## us ->
  rtc traffic (MkWorld pl us s) (MkWorld (<[i := MkInFlight r start (own ∪ new) (k o)]> pl) (us ∪ new) s').
Proof. intros Hi Hs <- Hn. by apply rtc_once, traffic_call. Qed.

(** The calls whose adapters make none can be made at any time. *)
Lemma catch_up i r start own p pl us w s :
  pl !! i = Some (MkInFlight r start own p) -> fits p -> deployed w s ->
  exists p' s', rtc traffic (MkWorld pl us s) (MkWorld (<[i := MkInFlight r start own p']> pl) us s')
    /\ deployed w s' /\ interp (adapters params) p' = interp (adapters params) p /\ ahead p' /\ fits p'.
Proof.
  revert pl s. induction p as [a|R e k IH]; intros pl s Hi Hf Hd.
  { exists (Ret a), s. rewrite list_insert_id by done. done. }
  pose proof Hf as [He Hk]. pose proof (head_call e w s He Hd) as Hwp. pose proof (adapters_at_once params e) as Hone.
  unfold at_once in Hone. destruct (adapters params R e) as [a|R2 e2 k2] eqn:Ee.
  - cbn in Hwp. destruct Hwp as (s1 & Hs & Hd1).
    pose proof (traffic_step i r start own R e k a pl us s s1 ∅ Hi Hs Hone ltac:(set_solver)) as Hstep.
    rewrite !(right_id_L ∅ (∪)) in Hstep.
    destruct (IH a (<[i:=MkInFlight r start own (k a)]> pl) s1) as (p' & s' & Hr & Hd' & Ep & Ha & Hf'); [|done|done|].
    { apply list_lookup_insert_eq. by eapply lookup_lt_Some. }
    exists p', s'. rewrite list_insert_insert_eq in Hr. split; [by etransitivity|]. split; [done|].
    split; [|done]. rewrite Ep. cbn. by rewrite Ee.
  - exists (Vis e k), s. rewrite list_insert_id by done. split; [done|]. split; [done|]. split; [done|].
    split; [|done]. unfold ahead. by rewrite Ee.
Qed.

(** One call of the backend is none, one or several steps of [traffic]. *)
Lemma call_simulated i r start own p x new x' pl us w w' s :
  pl !! i = Some (MkInFlight r start own p) -> tracks x p -> deployed w s ->
  makes_call x w new w' x' -> new ## us ->
  exists p' s', rtc traffic (MkWorld pl us s) (MkWorld (<[i := MkInFlight r start (own ∪ new) p']> pl) (us ∪ new) s')
    /\ deployed w' s' /\ tracks x' p'.
Proof.
  intros Hi [Hset Ha Hf] Hd Hcall Hn. destruct Hset as [|R e2 k2 Hquiet Hrest].
  - destruct p as [a|R e k]; [done|]. pose proof Hf as [He Hk]. pose proof (head_call e w s He Hd) as Hwp.
    pose proof (adapters_at_once params e) as Hone. unfold at_once in Hone. cbn in Ha, Hcall.
    destruct (adapters params R e) as [a|R2 e2 k2]; [done|]. cbn in Hcall, Hwp.
    destruct Hcall as (o & Hs & -> & ->). destruct (Hone o) as (_ & a & Hset & Hnew).
    destruct (wp_settles _ _ _ _ _ backend_answers Hset (Hwp o w' Hs)) as (s1 & Hs1 & Hd1).
    pose proof (traffic_step i r start own R e k a pl us s s1 _ Hi Hs1 Hnew Hn) as Hstep.
    destruct (catch_up i r start (own ∪ acquired e2 o) (k a) (<[i:=MkInFlight r start (own ∪ acquired e2 o) (k a)]> pl)
      (us ∪ acquired e2 o) w' s1) as (p' & s' & Hr & Hd' & Ep & Ha' & Hf'); [|done|done|].
    { apply list_lookup_insert_eq. by eapply lookup_lt_Some. }
    rewrite list_insert_insert_eq in Hr. exists p', s'. split; [by etransitivity|]. split; [done|].
    split; [|done|done]. rewrite Ep. by apply (settles_pbind _ _ a (fun o => interp (adapters params) (k o))).
  - destruct Hcall as (o & Hs & -> & ->). pose proof (Hquiet w o w' Hs) as ->.
    rewrite (acquired_changes e2 w o Hs), !(right_id_L ∅ (∪)). exists p, s. rewrite list_insert_id by done.
    split; [done|]. split; [done|]. split; [|done|done]. by eapply Hrest.
Qed.

Lemma drop_txs_deployed own w s : deployed w s -> deployed (drop_txs own w) (roll_back_all own s).
Proof.
  intros [[Ht Hx Hst Hw] Hk Hn Hl]. split; [|done..]. split; cbn; [done| |done|].
  - rewrite Hx. apply map_eq. intros h. rewrite lookup_fmap. apply option_eq. intros t.
    rewrite map_lookup_filter_Some, lookup_fmap, !fmap_Some.
    setoid_rewrite map_lookup_filter_Some. naive_solver.
  - intros h ws Hh. apply map_lookup_filter_Some in Hh as [Hh _]. by apply Hw in Hh.
Qed.

Lemma expired_deployed key w s : deployed w s -> deployed (put_keys (delete key (w_keys w)) w) s.
Proof.
  intros [Hdb Hk Hn Hl]. split; [done| |done..]. intros k b d body Hin Hdec. cbn in Hin.
  apply lookup_delete_Some in Hin as [_ Hin]. by eapply Hk.
Qed.

Lemma tick_deployed t w s : deployed w s -> deployed (put_now t w) (set_now t s).
Proof. intros [[Ht Hx Hst Hw] Hk Hn Hl]. by split; [split|..]. Qed.

Lemma live_simulates d d' w :
  live d d' -> simulates d w -> exists w', rtc traffic w w' /\ simulates d' w'.
Proof.
  intros Hstep [Hreq Htxs Hd]. destruct w as [pl us s]. cbn in *.
  destruct Hstep as [i r start own x new x' rs us' W W' Hi Hcall Hn|r rs us' W|i f rs us' W Hi|key rs us' W|t rs us' W Ht];
    cbn in *; subst us'.
  - destruct (Forall2_lookup_l _ _ _ _ _ Hreq Hi) as ([r' start' own' p] & Hp & Er & Es & Eo & Htr).
    cbn in *. subst r' start' own'.
    destruct (call_simulated i r start own p x new x' pl us W W' s) as (p' & s' & Hr & Hd' & Htr'); [done..|].
    eexists. split; [exact Hr|]. split; cbn; [|done|done]. by apply Forall2_insert.
  - set (f := MkInFlight r (now s) ∅ (service r)).
    destruct (catch_up (length pl) r (now s) ∅ (service r) (pl ++ [f]) us W s) as (p' & s' & Hr & Hd' & Ep & Ha & Hf).
    { rewrite lookup_app_r, Nat.sub_diag by done. done. }
    { apply server_fits. }
    { exact Hd. }
    rewrite insert_app_r_alt, Nat.sub_diag in Hr by done.
    eexists. split; [eapply rtc_l; [apply traffic_accept|exact Hr]|]. split; cbn; [|done|done].
    apply Forall2_app; [done|]. constructor; [|constructor]. split; [done|]. split; [by rewrite (dep_now _ _ Hd)|].
    split; [done|]. cbn. split; [rewrite Ep; apply settles_here|done|done].
  - destruct (Forall2_lookup_l _ _ _ _ _ Hreq Hi) as (g & Hg & _ & _ & Eo & _).
    eexists. split; [by eapply rtc_once, traffic_lost|]. split; cbn; [by apply Forall2_delete|done|].
    rewrite Eo. by apply drop_txs_deployed.
  - exists (MkWorld pl us s). split; [done|]. split; [done|done|by apply expired_deployed].
  - exists (MkWorld pl us (set_now t s)). split; [|split; [done|done|by apply tick_deployed]].
    apply rtc_once, traffic_tick. by rewrite (dep_now _ _ Hd).
Qed.

Lemma fresh_simulates t : simulates (MkDeployment [] ∅ (fresh_world t)) (MkWorld [] ∅ (initial t)).
Proof. split; cbn; [constructor|done|apply fresh_deployed]. Qed.

Lemma runs_simulated t d :
  rtc live (MkDeployment [] ∅ (fresh_world t)) d ->
  exists w, rtc traffic (MkWorld [] ∅ (initial t)) w /\ simulates d w.
Proof.
  intros Hr. assert (forall x y, rtc live x y -> forall w, simulates x w -> exists w', rtc traffic w w' /\ simulates y w') as Hgen.
  { induction 1 as [x|x y z Hs _ IH]; intros w Hw; [by exists w|].
    destruct (live_simulates x y w Hs Hw) as (w1 & Hr1 & Hw1). destruct (IH w1 Hw1) as (w2 & Hr2 & Hw2).
    exists w2. split; [by etransitivity|done]. }
  exact (Hgen _ _ Hr _ (fresh_simulates t)).
Qed.

(** What the tables and the cache server hold. *)
Lemma tables_truthful t d :
  rtc live (MkDeployment [] ∅ (fresh_world t)) d ->
  exists st, Postgres.d_tables (w_db (world d)) = Postgres.encode_store st
    /\ (forall f o c, f ∈ requests d -> r_prog f = Ret (o, c) ->
          o = Returned tt
          /\ truthful Argon2id.argon2_verifies ttl dummy secure (r_start f) (r_request f) (response c) st)
    /\ (forall key b age body, w_keys (world d) !! (Valkey.keyPrefix +:+ key) = Some (b, age) ->
          Valkey.decode b = Some body -> backed st key body).
Proof.
  intros (w & Hr & [Hreq _ Hd])%runs_simulated. apply traffic_orderly in Hr.
  exists (committed (sys w)). split; [apply (Postgres.im_tables _ _ (dep_db _ _ Hd))|]. split.
  - intros f o c Hf E. apply list_elem_of_lookup_1 in Hf as [i Hi].
    destruct (Forall2_lookup_l _ _ _ _ _ Hreq Hi) as (g & Hg & Er & Es & _ & Htr).
    rewrite E in Htr. apply tracks_answer in Htr.
    pose proof (Forall_lookup_1 _ _ _ _ (or_course _ _ _ _ _ Hr) Hg) as Hc. unfold on_course in Hc.
    rewrite Htr in Hc. rewrite Er, Es. exact Hc.
  - intros key b age body Hk Hb. eapply (proj2 (or_shared _ _ _ _ _ Hr)).
    by apply (dep_keys _ _ Hd key b age body).
Qed.

(** C3: on the adapters, under every interleaving of the calls of the
    database driver and of the cache client that any number of requests make, with
    failing calls, lost processes and expiring keys: the SQL tables are those of a
    store in which every answer of success is true, and stays so; every entry of
    the cache server that decodes describes a row of the session table. *)
Theorem deployed_answers_stay_true t d :
  rtc live (MkDeployment [] ∅ (fresh_world t)) d ->
  exists st, Postgres.d_tables (w_db (world d)) = Postgres.encode_store st
    /\ (forall f o c, f ∈ requests d -> r_prog f = Ret (o, c) ->
          o = Returned tt
          /\ truthful Argon2id.argon2_verifies ttl dummy secure (r_start f) (r_request f) (response c) st)
    /\ (forall key b age body, w_keys (world d) !! (Valkey.keyPrefix +:+ key) = Some (b, age) ->
          Valkey.decode b = Some body -> backed st key body).
Proof. apply tables_truthful. Qed.
End Live.
