(* ===== verification/Closed.v ===== *)
(** * No transaction outlives its request

    A request closes every transaction that it opens, by a commit or by the
    deferred rollback, on every path: whatever its calls answer, panics included
    ([held]).  So, whatever the requests interleave and whichever process is lost,
    a transaction that is open in the database belongs to a request that has not
    been answered, in the service against the contracts ([traffic]) and on its
    adapters ([live]). *)
From S2P Require Import SignUp SignIn SignOut GetMe.
From S2P Require Import Prelude Program GoEncoding GoTime GoJson Errors Tenant User Session Outbox Ports PortSpec PortRules Invariant Interleave Http Middleware Handlers Router Service Adapters Omni Interference Truthful Traffic Deployed.
From S2P Require Argon2id Valkey Postgres.
#[local] Open Scope Z_scope.

(** ** What a request holds *)

(** The transaction that a call closes, whatever it answers. *)
Definition closing {R} (e : Port R) : gset positive :=
  match e with Uow (Commit tx) | Uow (Rollback tx) => handles tx | _ => ∅ end.

(** The transactions that a request has opened and not closed, its calls
    answered anyhow. *)
Definition held : forall R, Port R -> gset positive -> outcome R -> gset positive -> Prop :=
  fun R e H o H' => H' = H ∖ closing e ∪ opened e o.

Lemma spent_none (H : gset positive) : H ∖ ∅ = H.
Proof. set_solver. Qed.

Section Rules.
Context {L : Type} (l : L).

Lemma held_Begin (Q : outcome (res Tx) * L -> gset positive -> Prop) H :
  (forall tx, Q (Returned (Ok tx), l) (H ∪ handles tx)) ->
  (forall e, Q (Returned (Err e), l) H) -> (forall msg, Q (Panicked msg, l) H) ->
  wp held (call (Uow Begin) l) Q H.
Proof.
  intros Hok He Hp o H' ->. cbn. rewrite spent_none.
  destruct o as [[tx|e]|msg]; cbn; [by apply Hok|rewrite (right_id_L ∅ (∪)); by auto..].
Qed.

Lemma held_close (c : UnitOfWork (res unit)) tx (Q : outcome (res unit) * L -> gset positive -> Prop) H :
  c = Commit tx \/ c = Rollback tx -> (forall o, Q (o, l) (H ∖ handles tx)) -> wp held (call (Uow c) l) Q H.
Proof.
  intros Hc HQ o H' ->. specialize (HQ o). destruct Hc as [-> | ->]; cbn; by rewrite (right_id_L ∅ (∪)).
Qed.

Lemma held_other {R} (e : Port R) (Q : outcome R * L -> gset positive -> Prop) H :
  closing e = ∅ -> (forall o, opened e o = ∅) -> (forall o, Q (o, l) H) -> wp held (call e l) Q H.
Proof. intros Hc Ho HQ o H' ->. rewrite Hc, Ho, spent_none, (right_id_L ∅ (∪)). apply HQ. Qed.
End Rules.

(** Runs the program to its end or to the next program that closes what it
    opens. *)
Ltac hold :=
  repeat (cbv beta iota zeta; cbn [fst snd];
    match goal with
    | |- wp held (call (Uow Begin) _) _ _ => apply held_Begin; intros
    | |- wp held (call (Uow (Commit ?tx)) _) _ _ => apply (held_close _ _ tx); [by left|intros ?]
    | |- wp held (call (Uow (Rollback ?tx)) _) _ _ => apply (held_close _ _ tx); [by right|intros ?]
    | |- wp held (call _ _) _ _ => apply held_other; [done|done|intros ?]
    | |- wp _ (match ?o with Returned _ => _ | Panicked _ => _ end) _ _ => destruct o
    | |- match ?o with Returned _ => _ | Panicked _ => _ end => destruct o
    | |- wp _ ((match ?x with _ => _ end) _) _ _ => destruct x
    | |- wp held (WriteFast _ _) _ _ => unfold WriteFast
    | |- wp _ _ _ _ => wp_rule
    | |- _ ⊆ _ => set_solver
    end).

Section Closes.
Context `{UuidLib}.

(** A request that closes the transactions it opens. *)
Class Closes {A L} (m : G Port L A) : Prop := closes l H : wp held (m l) (fun _ H' => H' ⊆ H) H.

#[global] Instance closes_sign_up uc inp : Closes (SignUp.Execute uc inp).
Proof. intros l H'. unfold SignUp.Execute, rollback_unless_committed. hold. Qed.
#[global] Instance closes_sign_in uc inp : Closes (SignIn.Execute uc inp).
Proof. intros l H'. unfold SignIn.Execute, burn, rollback_unless_committed. hold. Qed.
#[global] Instance closes_sign_out uc inp : Closes (SignOut.Execute uc inp).
Proof. intros l H'. unfold SignOut.Execute, rollback_unless_committed. hold. Qed.
#[global] Instance closes_get_me uc inp : Closes (GetMe.Execute (L := unit) uc inp).
Proof. intros l H'. unfold GetMe.Execute. hold. Qed.

(** A use case or a handler behind what runs before it. *)
Lemma closes_from {A L} (m : G Port L A) `{!Closes m} l H0 H' (Q : outcome A * L -> gset positive -> Prop) :
  H' ⊆ H0 -> (forall a H2, H2 ⊆ H0 -> Q a H2) -> wp held (m l) Q H'.
Proof. intros Hsub HQ. eapply wp_mono; [|apply closes]. intros a H2 Hs. apply HQ. set_solver. Qed.

#[local] Ltac closing_all :=
  intros c H0; repeat first
    [ progress hold
    | match goal with |- wp held (?m ?l) _ _ =>
        apply (closes_from m l H0); [set_solver|intros [? ?] ? ?; cbn [fst snd]]
      end ].

Section Middleware.
Context (next : Handler) `{!Closes next}.
#[global] Instance closes_Recover : Closes (Recover next).
Proof. unfold Recover. closing_all. Qed.
#[global] Instance closes_AccessLog : Closes (AccessLog next).
Proof. unfold AccessLog. closing_all. Qed.
#[global] Instance closes_OTelTrace : Closes (OTelTrace next).
Proof. unfold OTelTrace. closing_all. Qed.
#[global] Instance closes_RequestID : Closes (RequestID next).
Proof. unfold RequestID. closing_all. Qed.
#[global] Instance closes_Tenancy : Closes (Tenancy next).
Proof. unfold Tenancy. closing_all. Qed.
#[global] Instance closes_Session cache : Closes (Session cache next).
Proof. unfold Session, session_from_store, authenticated. closing_all. Qed.
#[global] Instance closes_OriginCheck allowed : Closes (OriginCheck allowed next).
Proof. unfold OriginCheck. closing_all. Qed.
End Middleware.

#[global] Instance closes_sign_up_Handle uc cookie : Closes (sign_up_Handle uc cookie).
Proof. unfold sign_up_Handle, SetFast. closing_all. Qed.
#[global] Instance closes_sign_in_Handle uc cookie : Closes (sign_in_Handle uc cookie).
Proof. unfold sign_in_Handle, SetFast. closing_all. Qed.
#[global] Instance closes_sign_out_Handle uc cookie : Closes (sign_out_Handle uc cookie).
Proof. unfold sign_out_Handle, ClearFast. closing_all. Qed.
#[global] Instance closes_get_me_Handle uc : Closes (get_me_Handle uc).
Proof. unfold get_me_Handle, GetMe.Execute. closing_all. Qed.
#[global] Instance closes_Healthz : Closes Healthz.
Proof. unfold Healthz. closing_all. Qed.
#[global] Instance closes_OpenAPI doc : Closes (OpenAPI doc).
Proof. unfold OpenAPI. closing_all. Qed.
#[global] Instance closes_WriteJSON status v : Closes (WriteJSON status v).
Proof. unfold WriteJSON. closing_all. Qed.

Lemma server_closes ttl dummy secure allowed doc : Closes (server ttl dummy secure allowed doc).
Proof.
  intros c H0. destruct (NewHandler_routes (wire ttl dummy secure allowed doc) c) as (h & Hh & E).
  unfold server. rewrite E. unfold routes in Hh. rewrite !elem_of_cons in Hh. clear E. revert Hh. unchain.
  intros Hh. repeat destruct Hh as [->|Hh]; [..|by apply not_elem_of_nil in Hh].
  all: apply closes.
Qed.
End Closes.

(** ** Open transactions *)

Lemma close_closes tx s h : h ∈ handles tx -> txs (close_tx tx s) !! h = None.
Proof.
  unfold handles, close_tx. destruct (InnerTx tx) as [|h'|]; try by intros ?%elem_of_empty.
  intros ->%elem_of_singleton. apply lookup_delete_eq.
Qed.

Lemma in_tx_open {A} tx s (o : outcome (res A)) s' ok h :
  in_tx tx s o s' ok -> h ∈ handles tx -> is_Some (txs s' !! h) -> is_Some (txs s !! h).
Proof.
  unfold in_tx. destruct (open_tx s tx) as [[h' ws]|] eqn:E; [|by intros [_ ->]].
  apply open_tx_Some in E as [Ei Eh]. unfold handles. rewrite Ei. intros _ ->%elem_of_singleton _. by exists (TxActive ws).
Qed.

Section Traffic.
Context `{UuidLib} (verifies : PasswordHash -> string -> bool).

(** A transaction that is open after a call was opened by it, or was open before
    and not closed. *)
Lemma pstep_open {R} (e : Port R) s o s' h :
  pstep verifies R e s o s' -> is_Some (txs s' !! h) ->
  h ∈ opened e o \/ (is_Some (txs s !! h) /\ h ∉ closing e).
Proof.
  intros Hs Hopen. destruct (decide (h ∈ opened e o)) as [Ho|Ho]; [by left|]. right.
  destruct (decide (h ∈ named e)) as [Hn|Hn].
  2:{ rewrite <- (pstep_others verifies e s o s' h Hs Hn Ho). split; [done|].
      intros Hc. apply Hn. by destruct e as [R c|R c|R c|R c|R c|R c|R c|src| |r|R c]; try destruct c. }
  destruct e as [R c|R c|R c|R c|R c|R c|R c|src| |r|R c]; try by apply not_elem_of_empty in Hn.
  - exfalso. apply eq_None_not_Some in Hopen; [done|]. destruct c as [|tx|tx]; [by apply not_elem_of_empty in Hn|..]; cbn in Hs, Hn.
    + destruct (open_tx s tx) as [[h' ws]|]; [|destruct Hs as [_ ->]; by apply close_closes].
      destruct Hs as [[_ ->]|[_ [->| ->]]]; by apply close_closes.
    + destruct Hs as [_ ->]. by apply close_closes.
  - destruct c; [|by apply not_elem_of_empty in Hn..]. split; [by eapply in_tx_open|apply not_elem_of_empty].
  - destruct c; [|by apply not_elem_of_empty in Hn|]; (split; [by eapply in_tx_open|apply not_elem_of_empty]).
  - destruct c. split; [by eapply in_tx_open|apply not_elem_of_empty].
Qed.

Context (ttl : Duration) (dummy : PasswordHash) (secure : bool) (allowed : list string) (doc : string).
Let traffic : World -> World -> Prop := traffic verifies ttl dummy secure allowed doc.

(** [K] are the transactions that a request in flight holds: it is about to close
    them. *)
Definition holds (f : InFlight) (K : gset positive) : Prop :=
  wp held (f_prog f) (fun _ H => H ⊆ ∅) K /\ K ⊆ f_own f.

(** Every open transaction is held. *)
Record tidy (w : World) (Ks : list (gset positive)) : Prop := {
  td_holds : Forall2 holds (pool w) Ks;
  td_open : forall h, is_Some (txs (sys w) !! h) -> exists K, K ∈ Ks /\ h ∈ K;
}.

Lemma tidy_call i r start own R (e : Port R) k o pl us s s' Ks :
  pl !! i = Some (MkInFlight r start own (Vis e k)) -> pstep verifies R e s o s' ->
  tidy (MkWorld pl us s) Ks ->
  exists K', tidy (MkWorld (<[i := MkInFlight r start (own ∪ opened e o) (k o)]> pl) (us ∪ opened e o) s') (<[i := K']> Ks).
Proof.
  intros Hi Hs [Hh Ho]. cbn in *. destruct (Forall2_lookup_l _ _ _ _ _ Hh Hi) as (K & HK & Hw & Hown).
  cbn in Hw, Hown. specialize (Hw o _ eq_refl). exists (K ∖ closing e ∪ opened e o). split; cbn.
  - apply Forall2_insert; [done|]. split; cbn; [exact Hw|set_solver].
  - intros h Hh'. assert (forall x, x ∈ K ∖ closing e ∪ opened e o -> exists K', K' ∈ <[i:=K ∖ closing e ∪ opened e o]> Ks /\ x ∈ K')
      as Hmine.
    { intros x Hx. exists (K ∖ closing e ∪ opened e o). split; [|done]. eapply list_elem_of_lookup_2.
      apply list_lookup_insert_eq. by eapply lookup_lt_Some. }
    destruct (pstep_open e s o s' h Hs Hh') as [Hnew|[Hold Hc]]; [apply Hmine; set_solver|].
    destruct (Ho h Hold) as (K2 & HK2 & Hin). apply list_elem_of_lookup in HK2 as [j Hj].
    destruct (decide (i = j)) as [<-|Hne]; [apply Hmine; simplify_eq; set_solver|].
    exists K2. split; [|done]. eapply list_elem_of_lookup_2. by rewrite list_lookup_insert_ne.
Qed.

Lemma tidy_lost i f pl us s Ks :
  pl !! i = Some f -> tidy (MkWorld pl us s) Ks ->
  tidy (MkWorld (delete i pl) us (roll_back_all (f_own f) s)) (delete i Ks).
Proof.
  intros Hi [Hh Ho]. cbn in *. destruct (Forall2_lookup_l _ _ _ _ _ Hh Hi) as (K & HK & _ & Hown).
  split; cbn; [by apply Forall2_delete|]. intros h [x Hx]. apply map_lookup_filter_Some in Hx as [Hx Hn].
  destruct (Ho h ltac:(by exists x)) as (K2 & HK2 & Hin). exists K2. split; [|done].
  apply list_elem_of_lookup in HK2 as [j Hj]. destruct (decide (i = j)) as [<-|Hne]; [simplify_eq; cbn in Hn; set_solver|].
  apply (list_elem_of_lookup_2 _ (if decide (j < i)%nat then j else Nat.pred j)). case_decide.
  - by rewrite list_lookup_delete_lt.
  - rewrite list_lookup_delete_ge by lia. by replace (S (Nat.pred j)) with j by lia.
Qed.

Lemma traffic_tidy w w' Ks : traffic w w' -> tidy w Ks -> exists Ks', tidy w' Ks'.
Proof.
  intros [i r start own R e k o pl us s s' Hi Hs _|r pl us s|i f pl us s Hi|key pl us s|t pl us s Ht] Ht'.
  - destruct (tidy_call i r start own R e k o pl us s s' Ks Hi Hs Ht') as [K' HK]. eauto.
  - destruct Ht' as [Hh Ho]. exists (Ks ++ [∅]). split; cbn in *.
    + apply Forall2_app; [done|]. constructor; [|constructor]. split; [|done]. exact (server_closes ttl dummy secure allowed doc (new_ctx r) ∅).
    + intros h Hx. destruct (Ho h Hx) as (K & HK & Hin). exists K. split; [|done]. apply elem_of_app. by left.
  - exists (delete i Ks). by apply tidy_lost.
  - exists Ks. destruct Ht' as [Hh Ho]. by split.
  - exists Ks. destruct Ht' as [Hh Ho]. by split.
Qed.

(** In every state of the running service an open transaction belongs to a
    request that is still at work. *)
Lemma open_transactions t w h :
  rtc traffic (MkWorld [] ∅ (initial t)) w -> is_Some (txs (sys w) !! h) ->
  exists f, f ∈ pool w /\ h ∈ f_own f /\ forall a, f_prog f <> Ret a.
Proof.
  intros Hr Hh. assert (forall x y, rtc traffic x y -> forall Ks, tidy x Ks -> exists Ks', tidy y Ks') as Hgen.
  { induction 1 as [x|x y z Hs _ IH]; intros Ks HK; [by exists Ks|].
    destruct (traffic_tidy x y Ks Hs HK) as [Ks' HK']. by eapply IH. }
  destruct (Hgen _ _ Hr []) as [Ks [Hholds Hopen]].
  { split; cbn; [constructor|]. intros h' Hh'. rewrite lookup_empty in Hh'. by destruct Hh'. }
  destruct (Hopen h Hh) as (K & HK & Hin). apply list_elem_of_lookup in HK as [i Hi].
  destruct (Forall2_lookup_r _ _ _ _ _ Hholds Hi) as (f & Hf & Hw & Hown).
  exists f. split; [by eapply list_elem_of_lookup_2|]. split; [set_solver|].
  intros a Ha. rewrite Ha in Hw. cbn in Hw. set_solver.
Qed.
End Traffic.

(** ** On the adapters *)

Section Live.
Context `{UuidLib} `{Argon2id.Argon2} (params : Argon2id.Params) (params_ok : Argon2id.params_ok params).
Context (ttl : Duration) (dummy : PasswordHash) (secure : bool) (allowed : list string) (doc : string).
Let live : Deployment -> Deployment -> Prop := live params ttl dummy secure allowed doc.

(** C15: no transaction outlives its request: on the adapters, whatever the
    requests interleave, whichever calls fail or panic and whichever process is
    lost, a transaction that is open in the database was opened by a request that
    has not been answered yet; so none is open when every request has its
    answer. *)
Theorem transactions_closed t d :
  rtc live (MkDeployment [] ∅ (fresh_world t)) d ->
  (forall h x, Postgres.d_txs (w_db (world d)) !! h = Some x ->
     exists f, f ∈ requests d /\ h ∈ r_own f /\ forall a, r_prog f <> Ret a)
  /\ ((forall f, f ∈ requests d -> exists a, r_prog f = Ret a) -> Postgres.d_txs (w_db (world d)) = ∅).
Proof.
  intros Hr. assert (forall h x, Postgres.d_txs (w_db (world d)) !! h = Some x ->
     exists f, f ∈ requests d /\ h ∈ r_own f /\ forall a, r_prog f <> Ret a) as Hopen.
  { intros h x Hx. apply (runs_simulated params params_ok) in Hr as (w & Hr & [Hreq _ Hd]).
    assert (is_Some (txs (sys w) !! h)) as Hs.
    { rewrite (Postgres.im_txs _ _ (dep_db _ _ Hd)), lookup_fmap, fmap_Some in Hx. destruct Hx as (y & Hy & _). by exists y. }
    destruct (open_transactions _ _ _ _ _ _ _ _ _ Hr Hs) as (g & Hg & Hown & Hrun).
    apply list_elem_of_lookup in Hg as [i Hi].
    destruct (Forall2_lookup_r _ _ _ _ _ Hreq Hi) as (f & Hf & _ & _ & Eo & Htr).
    exists f. split; [by eapply list_elem_of_lookup_2|]. split; [by rewrite Eo|].
    intros a Ha. rewrite Ha in Htr. by apply tracks_answer, Hrun in Htr. }
  split; [exact Hopen|]. intros Hall. apply map_eq. intros h. rewrite lookup_empty.
  apply eq_None_not_Some. intros [x Hx]. destruct (Hopen h x Hx) as (f & Hf & _ & Hrun).
  destruct (Hall f Hf) as [a Ha]. by destruct (Hrun a).
Qed.
End Live.
