(* ===== verification/Progress.v ===== *)
(** * The length of a request

    The number of calls a request can make is bounded, whatever the collaborators
    answer: of the interfaces, and of the backend when it runs on the adapters. *)
From S2P Require Import SignUp SignIn SignOut GetMe.
From S2P Require Import Prelude Program GoEncoding GoTime GoJson Errors Tenant User Session Outbox Ports PortSpec PortRules Invariant Interleave Http Middleware Handlers Router Service Adapters Omni Interference Truthful Traffic Deployed.
From S2P Require Argon2id Valkey Postgres.
#[local] Open Scope nat_scope.

(** ** Counting calls *)

(** Runs the program to its end or to the next program of known cost. *)
Ltac count :=
  repeat (cbv beta iota zeta; cbn [fst snd];
    match goal with
    | |- owp budget (call _ _) _ _ => apply owp_call, budget_spend; [lia|intros ?; cbn [Nat.pred]]
    | |- owp _ (match ?o with Returned _ => _ | Panicked _ => _ end) _ _ => destruct o
    | |- match ?o with Returned _ => _ | Panicked _ => _ end => destruct o
    | |- owp _ ((match ?x with _ => _ end) _) _ _ => destruct x
    | |- owp budget (WriteFast _ _) _ _ => unfold WriteFast
    | |- owp _ _ _ _ => owp_rule
    | |- _ <= _ => lia
    end).

Section Costs.
Context `{UuidLib}.

Lemma sign_up_takes uc inp l : takes 16 (SignUp.Execute uc inp l).
Proof. intros m. unfold SignUp.Execute, rollback_unless_committed. cbn [Nat.add]. count. Qed.

Lemma sign_in_takes uc inp l : takes 13 (SignIn.Execute uc inp l).
Proof. intros m. unfold SignIn.Execute, burn, rollback_unless_committed. cbn [Nat.add]. count. Qed.

Lemma sign_out_takes uc inp l : takes 8 (SignOut.Execute uc inp l).
Proof. intros m. unfold SignOut.Execute, rollback_unless_committed. cbn [Nat.add]. count. Qed.

(** ** Handlers *)

Class Costs (n : nat) (h : Handler) : Prop := costs c : takes n (h c).

(** A handler behind the others. *)
#[local] Ltac to_next :=
  match goal with |- owp budget (?h _) _ _ =>
    is_var h; eapply takes_from; [apply costs|lia|intros [[[]|?] ?] ? ?; cbn [fst snd]]
  end.
#[local] Ltac cost := intros c m; cbn [Nat.add]; repeat first [progress count|to_next].

Section Middleware.
Context (n : nat) (next : Handler) `{!Costs n next}.

#[global] Instance costs_Recover : Costs (1 + n) (Recover next).
Proof. unfold Recover. cost. Qed.
#[global] Instance costs_AccessLog : Costs (3 + n) (AccessLog next).
Proof. unfold AccessLog. cost. Qed.
#[global] Instance costs_OTelTrace : Costs (3 + n) (OTelTrace next).
Proof. unfold OTelTrace. cost. Qed.
#[global] Instance costs_RequestID : Costs (1 + n) (RequestID next).
Proof. unfold RequestID. cost. Qed.
#[global] Instance costs_Tenancy : Costs n (Tenancy next).
Proof. unfold Tenancy. cost. Qed.
#[global] Instance costs_Session cache : Costs (7 + n) (Session cache next).
Proof. unfold Session, session_from_store, authenticated. cost. Qed.
End Middleware.

(** The origin check logs or passes on. *)
#[global] Instance costs_OriginCheck n allowed next : Costs (S n) next -> Costs (S n) (OriginCheck allowed next).
Proof. intros Hn. unfold OriginCheck. cost. Qed.

#[global] Instance costs_Healthz : Costs 0 Healthz.
Proof. unfold Healthz. cost. Qed.
#[global] Instance costs_OpenAPI doc : Costs 0 (OpenAPI doc).
Proof. unfold OpenAPI. cost. Qed.
#[global] Instance costs_WriteJSON status v : Costs 0 (WriteJSON status v).
Proof. unfold WriteJSON. cost. Qed.

(** A use case behind the decoding of the body. *)
#[local] Ltac after_usecase takes :=
  apply owp_bind; [apply _|]; apply owp_scope; [apply _|];
  eapply takes_from; [apply takes|lia|intros [[[?|?]|?] ?] ? ?; cbn [fst snd]; count].

#[global] Instance costs_sign_up uc cookie : Costs 17 (sign_up_Handle uc cookie).
Proof.
  intros c m. unfold sign_up_Handle, SetFast. cbv beta. owp_rule. cbn [owp get Nat.add].
  destruct (_ <? _)%Z; [count|]. destruct (unmarshal_SignUpRequest _); [after_usecase sign_up_takes|count].
Qed.
#[global] Instance costs_sign_in uc cookie : Costs 14 (sign_in_Handle uc cookie).
Proof.
  intros c m. unfold sign_in_Handle, SetFast. cbv beta. owp_rule. cbn [owp get Nat.add].
  destruct (_ <? _)%Z; [count|]. destruct (unmarshal_SignInRequest _); [after_usecase sign_in_takes|count].
Qed.
#[global] Instance costs_sign_out uc cookie : Costs 8 (sign_out_Handle uc cookie).
Proof.
  intros c m. unfold sign_out_Handle, ClearFast. cbv beta. owp_rule. cbn [owp get Nat.add].
  after_usecase sign_out_takes.
Qed.
#[global] Instance costs_get_me uc : Costs 1 (get_me_Handle uc).
Proof. intros c m. unfold get_me_Handle, GetMe.Execute. cbn [Nat.add]. count. Qed.

Context (ttl : Duration) (dummy : PasswordHash) (secure : bool) (allowed : list string) (doc : string).

(** 17 calls for a sign-up with its cookie and its cache entry, eight for the
    middleware around it. *)
Definition max_calls : nat := 25.

Lemma server_costs : Costs max_calls (server ttl dummy secure allowed doc).
Proof.
  intros c m. destruct (NewHandler_routes (wire ttl dummy secure allowed doc) c) as (h & Hh & E).
  unfold server, max_calls. rewrite E. unfold routes in Hh. rewrite !elem_of_cons in Hh. clear E. revert Hh. unchain.
  intros Hh. repeat destruct Hh as [->|Hh]; [..|by apply not_elem_of_nil in Hh].
  all: eapply takes_from; [apply costs|lia|intros; lia].
Qed.

(** C16: no request makes more than 25 calls to the collaborators, whatever they
    answer, panics included. *)
Theorem server_bounded c : at_most max_calls (server ttl dummy secure allowed doc c).
Proof. apply takes_at_most, server_costs. Qed.
End Costs.

(** ** On the adapters *)

Section OnAdapters.
Context `{UuidLib} `{Argon2id.Argon2} (params : Argon2id.Params).
Context (ttl : Duration) (dummy : PasswordHash) (secure : bool) (allowed : list string) (doc : string).

(** An interface call is at most two calls of the backend. *)
Lemma adapter_short {R} (e : Port R) : at_most 2 (adapters params R e).
Proof.
  pose proof (adapters_at_once params e) as Hone. unfold at_once in Hone.
  destruct (adapters params R e) as [a|R2 e2 k]; [done|]. intros o. apply Hone.
Qed.

(** On the adapters a request makes at most 50 calls of the driver, the cache
    client and the host. *)
Theorem deployed_bounded c : at_most (max_calls * 2) (interp (adapters params) (server ttl dummy secure allowed doc c)).
Proof. apply at_most_interp; [intros R e; apply adapter_short|]. apply takes_at_most, server_costs. Qed.
End OnAdapters.
