(* ===== verification/Migrate.v ===== *)
(** * cmd/migrate and internal/infrastructure/postgres/migrate.go

    The migration runner.  database/sql and goose are the calls [Mig]; nothing
    is assumed of their answers.  The theorems: in which order the calls are
    made, that nothing runs after a failure, and that the database is closed on
    every path. *)
From S2P Require Import Prelude Program GoText GoTime GoJson Errors Ports PortRules.
#[local] Open Scope Z_scope.

Inductive Mig : Type -> Type :=
| SqlOpen (driver dsn : string) : Mig (res unit)
| OpenDBFromPool : Mig unit
| DbPing : Mig (res unit)
| DbExec (sql : string) : Mig (res unit)
| DbClose : Mig unit
| SetBaseFS : Mig unit                     (** the embedded migrations *)
| SetDialect (dialect : string) : Mig (res unit)
| SetTableName (name : string) : Mig unit
| GooseRun (command dir : string) (args : list string) : Mig (res unit)
| GooseUp (dir : string) : Mig (res unit)
| PrintUsage (text : string) : Mig unit    (** on standard error *)
| MLog (r : LogRecord) : Mig unit.

Definition migrationsDir : string := "migrations".
Definition schemaName : string := "identity".
Definition gooseVersionTable : string := schemaName +:+ ".goose_db_version".

(** [%q] of a text without quotes or control characters. *)
Definition quoted (s : string) : string := String "034"%char (s +:+ String "034"%char EmptyString).

(** [(5 * time.Minute).String()]. *)
Definition migrateTimeout : string := "5m0s".

(** The text, with single quotes for the double ones. *)
Definition usage : string := json_text "migrate — 1klas-identity migration runner

Usage:
  migrate              # equivalent to 'migrate up'
  migrate up           # apply all pending migrations
  migrate up-to <ver>  # apply through the given version
  migrate down         # roll back the most recent migration
  migrate status       # print applied / pending state
  migrate version      # print current schema version

Env:
  POSTGRES_URL  required, pgx-compatible DSN

Exits non-zero on any failure (so DO pre-deploy job blocks the release).
A 5-minute deadline is applied to the whole operation.
".

Definition parseArgs (inp : list string) : string * list string :=
  match inp with
  | [] => ("up", [])
  | cmd :: rest => if bool_decide (cmd = "") then ("up", []) else (cmd, rest)
  end.

(** [args] is [os.Args[1:]]. *)
Definition run (env : string -> string) (args : list string) : G Mig unit (res unit) := (
  let dsn := env "POSTGRES_URL" in
  if bool_decide (dsn = "") then fail (EOther "POSTGRES_URL is required") else
  try _ <- call (SqlOpen "pgx" dsn) catch err => fail (EWrap "opening database" err) ;;
  defer (call DbClose) (
    try _ <- call DbPing catch err => fail (EWrap "pinging database" err) ;;
    try _ <- call (DbExec ("CREATE SCHEMA IF NOT EXISTS " +:+ schemaName))
      catch err => fail (EWrap ("bootstrapping schema " +:+ quoted schemaName) err) ;;
    call SetBaseFS ;;
    try _ <- call (SetDialect "postgres") catch err => fail (EWrap "setting goose dialect" err) ;;
    call (SetTableName gooseVersionTable) ;;
    let '(command, args) := parseArgs args in
    call (MLog (MkLog Info "starting migration" [("command", AString command); ("args", AStrings args);
      ("timeout", AString migrateTimeout)])) ;;
    try _ <- call (GooseRun command migrationsDir args) catch err => fail (EWrap ("goose " +:+ command) err) ;;
    call (MLog (MkLog Info "migration completed" [("command", AString command)])) ;;
    ret (Ok tt)))%go.

(** [len(os.Args) > 1] and the second argument asks for the usage. *)
Definition wants_usage (args : list string) : bool :=
  match args with a :: _ => bool_decide (a ∈ ["-h"; "--help"; "help"]) | [] => false end.

(** The exit code of the process; [args] is [os.Args[1:]]. *)
Definition main (env : string -> string) (args : list string) : G Mig unit Z := (
  if wants_usage args then call (PrintUsage usage) ;; ret 0
  else
    try _ <- run env args
      catch err => (call (MLog (MkLog Error "migration failed" [("error", AErr err)])) ;; ret 1) ;;
    ret 0)%go.

(** postgres.Migrate, on the pool of the server. *)
Definition Migrate : G Mig unit (res unit) := (
  call OpenDBFromPool ;;
  defer (call DbClose) (
    try _ <- call (DbExec ("CREATE SCHEMA IF NOT EXISTS " +:+ schemaName)) catch err => fail err ;;
    call SetBaseFS ;;
    try _ <- call (SetDialect "postgres") catch err => fail err ;;
    call (SetTableName gooseVersionTable) ;;
    call (GooseUp "migrations")))%go.

(** ** The order of the calls *)

Abbreviation ev := (existT _).

(** Answers that let the caller go on: no panic and no error. *)
Definition succeeded {R} (c : Mig R) : outcome R -> bool :=
  match c in Mig R return outcome R -> bool with
  | SqlOpen _ _ | DbPing | DbExec _ | SetDialect _ | GooseRun _ _ _ | GooseUp _ =>
      fun o => match o with Returned (Ok _) => true | _ => false end
  | OpenDBFromPool | DbClose | SetBaseFS | SetTableName _ | PrintUsage _ | MLog _ =>
      fun o => match o with Returned _ => true | _ => false end
  end.

Abbreviation succeeds := (good (fun R => succeeded (R := R))).
Abbreviation in_order := (follows (fun R => succeeded (R := R))).

(** The calls of [run] on the open database. *)
Definition run_calls (args : list string) : list {R & Mig R} :=
  let '(command, rest) := parseArgs args in
  [ev DbPing; ev (DbExec "CREATE SCHEMA IF NOT EXISTS identity"); ev SetBaseFS;
   ev (SetDialect "postgres"); ev (SetTableName "identity.goose_db_version");
   ev (MLog (MkLog Info "starting migration" [("command", AString command); ("args", AStrings rest);
     ("timeout", AString "5m0s")]));
   ev (GooseRun command "migrations" rest);
   ev (MLog (MkLog Info "migration completed" [("command", AString command)]))].

(** What was done with a handle that the call [op] opens: [op] failed, or the
    calls [cs] were made in order up to the first failure and the handle was
    closed. *)
Definition with_handle {R} (op : Mig R) (cs : list {R & Mig R}) (tr : list (Reply Mig)) : Prop :=
  (exists o, tr = [reply op o] /\ succeeded op o = false)
  \/ exists o body c, tr = reply op o :: body ++ [reply DbClose c]
     /\ succeeded op o = true /\ in_order cs body.

(** Runs a program on any answers and names the calls it has made. *)
#[local] Ltac any_run :=
  wp_any; cbn [wp ret fst snd];
  repeat match goal with H : replied _ _ _ _ _ |- _ => unfold replied in H; subst end; cbn [app].

Lemma handle_failed {R} (op : Mig R) cs o : succeeded op o = false -> with_handle op cs [reply op o].
Proof. intros Ho. left. by exists o. Qed.

Lemma handle_closed {R} (op : Mig R) cs o body c :
  succeeded op o = true -> in_order cs body -> with_handle op cs (reply op o :: body ++ [reply DbClose c]).
Proof. intros Ho Hb. right. by exists o, body, c. Qed.

Lemma handle_complete {R} (op : Mig R) cs tr :
  with_handle op cs tr -> Forall succeeds tr -> map call_of tr = ev op :: cs ++ [ev DbClose].
Proof.
  intros [(o & -> & Ho)|(o & body & c & -> & _ & Hb)] Hall; apply Forall_cons in Hall as [Hg Hall].
  - unfold good in Hg. cbn in Hg. congruence.
  - apply Forall_app in Hall as [Hall _]. cbn. by rewrite map_app, (follows_all _ _ _ Hb Hall).
Qed.

(** Recognises a complete or an interrupted run. *)
#[local] Ltac in_order :=
  repeat first [apply follows_end|apply follows_on; [reflexivity|]|apply follows_stop; reflexivity].
#[local] Ltac handle_run :=
  first
  [ apply handle_failed; reflexivity
  | let rec go n b :=
      first [apply (handle_closed _ _ _ b); [reflexivity|solve [in_order]]
            |lazymatch n with S ?m => go m uconstr:(cons _ b) end] in
    go 9%nat uconstr:(@nil (Reply Mig)) ].
#[local] Ltac all_good :=
  split; [intros Hok; first [discriminate Hok|repeat (apply Forall_cons; split; [reflexivity|]); by apply Forall_nil]|];
  intros Hall; repeat (apply Forall_cons in Hall as [?Hg Hall]; try discriminate); reflexivity.

Lemma run_calls_order env args :
  env "POSTGRES_URL" <> "" ->
  wp replied (run env args tt) (fun ol calls =>
    with_handle (SqlOpen "pgx" (env "POSTGRES_URL")) (run_calls args) calls
    /\ (ol.1 = Returned (Ok tt) <-> Forall succeeds calls)) [].
Proof.
  intros Hdsn. unfold run, run_calls. rewrite bool_decide_eq_false_2 by done.
  destruct (parseArgs args) as [command rest]. any_run.
  all: split; [handle_run|].
  all: repeat match goal with o : outcome unit |- _ => destruct o | u : unit |- _ => destruct u end; all_good.
Qed.

(** C28: [run] makes its calls in one order: open, ping, create the schema, set
    up goose with the version table inside the schema, log, run the command,
    log.  It stops at the first call that fails, returns nil exactly when none
    failed, and once the database has been opened it is closed on every path. *)
Theorem run_order env args :
  env "POSTGRES_URL" <> "" ->
  wp replied (run env args tt) (fun ol calls =>
    with_handle (SqlOpen "pgx" (env "POSTGRES_URL")) (run_calls args) calls
    /\ (ol.1 = Returned (Ok tt) <-> Forall succeeds calls)) [].
Proof. apply run_calls_order. Qed.

(** The calls of [Migrate] on its handle. *)
Definition migrate_calls : list {R & Mig R} :=
  [ev (DbExec "CREATE SCHEMA IF NOT EXISTS identity"); ev SetBaseFS;
   ev (SetDialect "postgres"); ev (SetTableName "identity.goose_db_version"); ev (GooseUp "migrations")].

Lemma Migrate_calls_order :
  wp replied (Migrate tt) (fun ol calls =>
    with_handle OpenDBFromPool migrate_calls calls
    /\ (ol.1 = Returned (Ok tt) <-> Forall succeeds calls)) [].
Proof.
  unfold Migrate, migrate_calls. any_run.
  all: repeat match goal with o : outcome _ |- _ => destruct o | r : res _ |- _ => destruct r | u : unit |- _ => destruct u end.
  all: split; [handle_run|all_good].
Qed.

(** The helper of the server does the same on its pool: it creates the
    schema before goose runs, keeps the version table inside it, stops at the
    first failure, reports success exactly when nothing failed, and closes the
    handle on every path. *)
Theorem Migrate_order :
  wp replied (Migrate tt) (fun ol calls =>
    with_handle OpenDBFromPool migrate_calls calls
    /\ (ol.1 = Returned (Ok tt) <-> Forall succeeds calls)) [].
Proof. apply Migrate_calls_order. Qed.

(** The exit code is 0 when the usage was asked for, and then the database
    is not touched, or when the run has made all its calls without a failure;
    every other exit is 1, its last call is the error record, and either a call
    before it failed or POSTGRES_URL was missing and it is the only call. *)
Theorem main_exit env args code :
  wp replied (main env args tt) (fun ol calls =>
    ol.1 = Returned code ->
    if wants_usage args then code = 0 /\ calls = [reply (PrintUsage usage) (Returned tt)]
    else (code = 0 /\ Forall succeeds calls
          /\ with_handle (SqlOpen "pgx" (env "POSTGRES_URL")) (run_calls args) calls)
      \/ (code = 1 /\ exists pre err,
            calls = pre ++ [reply (MLog (MkLog Error "migration failed" [("error", AErr err)])) (Returned tt)]
            /\ ((env "POSTGRES_URL" = "" /\ pre = []) \/ ~ Forall succeeds pre))) [].
Proof.
  unfold main. destruct (wants_usage args).
  { any_run; repeat match goal with u : unit |- _ => destruct u end; by intros [= <-]. }
  apply wp_bind_go. destruct (decide (env "POSTGRES_URL" = "")) as [He|He].
  - unfold run. rewrite bool_decide_eq_true_2 by done. cbn. intros o calls Hc. unfold replied in Hc. subst.
    destruct o as [[]|]; cbn; intros [= <-]. right. split; [done|].
    exists [], (EOther "POSTGRES_URL is required"). split; [done|]. by left.
  - eapply wp_mono; [|by apply run_calls_order]. intros [[[[]|err]|msg] []] calls [Hh Hok]; cbn in Hok |- *.
    + intros [= <-]. left. split; [done|]. split; [by apply Hok|done].
    + intros o calls' Hc. unfold replied in Hc. subst. destruct o as [[]|]; cbn; intros [= <-].
      right. split; [done|]. exists calls, err. split; [done|]. right. intros Hall. by apply Hok in Hall.
    + done.
Qed.
