(* ===== verification/Main.v ===== *)
(** * cmd/server/main.go: starting and stopping the service

    The process as a step relation ([process]): [main], a program over the calls
    it makes, its own ([Boot]) and those of the adapters, and the goroutine of the
    listener that it starts, interleaved call by call; the [select] at which main
    waits for a signal or for the failure of the listener.  A signal that comes
    earlier is pending (before [signal.NotifyContext] it would kill the process,
    which is not modelled); the calls of the start-up may fail on it like on
    anything else.  Nothing is assumed of the answers.  The theorem [main_serves]: the listener is started only when the
    configuration is loaded, the pool is open, the migrations (when enabled) have
    been applied, the cache answers and the dummy hash exists, with the handler
    that the configuration describes. *)
From S2P Require Import SignUp SignIn SignOut GetMe.
From S2P Require Import Prelude Program GoText GoTime Errors Tenant User Session Outbox Ports PortSpec PortRules Http Middleware Handlers Router Service Adapters.
From S2P Require Config Migrate Argon2id Valkey.
#[local] Open Scope Z_scope.

(** [noop.NewTracerProvider()]: its spans are recorded nowhere. *)
Inductive TracerProvider := NoopTracerProvider.

Inductive Boot : Type -> Type :=
(** [otel.SetTracerProvider]. *)
| SetTracerProvider (tp : TracerProvider) : Boot unit
| PgxpoolNew (url : string) : Boot (res unit)
| PoolClose : Boot unit
| BMig {R} (c : Migrate.Mig R) : Boot R
| BHost {R} (c : Backend R) : Boot R
| CacheClose : Boot unit
(** [srv.ListenAndServe(addr)] is called; connections are accepted from now on. *)
| Listen (addr : string) (d : Deps) : Boot unit
(** It returns. *)
| Accept : Boot (res unit)
(** [srv.ShutdownWithContext] with a deadline. *)
| Shutdown (grace : Duration) : Boot (res unit)
| BootLog (r : LogRecord) : Boot unit.

Section Main.
Context `{UuidLib} `{Argon2id.Argon2}.
(** The environment, redis.ParseURL and the embedded API document. *)
Context (env : string -> string) (parse : string -> res Valkey.Options) (doc : string).

Definition shutdownGrace : Duration := 10 * Second.

Definition context_DeadlineExceeded : error := EOther "context deadline exceeded".

(** The argon2 parameters of the hasher. *)
Definition hasher_params (cfg : Config.Config) : Argon2id.Params :=
  Argon2id.MkParams (Config.Argon2MemoryKiB cfg) (Config.Argon2Time cfg) (Config.Argon2Parallel cfg) 16 32.

Definition valkey_config (cfg : Config.Config) : Valkey.Config :=
  Valkey.MkConfig (Config.ValkeyURL cfg) (Config.ValkeyDialTimeout cfg) (Config.ValkeyOpTimeout cfg).

(** How far main has come: the process has ended with a code; or everything is
    wired and main is at [go] and [select]. *)
Inductive Stage := Exited (code : Z) | Serves (cfg : Config.Config) (d : Deps).

(** The deferred calls, then the end of the process: a deferred call that
    panics changes the code to 2. *)
Fixpoint run_deferred (deferred : list (Boot unit)) (code : Z) : Prog Boot Stage :=
  match deferred with
  | [] => Ret (Exited code)
  | e :: rest => Vis e (fun o => run_deferred rest (match o with Returned _ => code | Panicked _ => 2 end))
  end.

(** A call in the body of main: a panic runs the deferred calls and ends the
    process with code 2. *)
Definition step_to {R} (c : Prog Boot (outcome R)) (deferred : list (Boot unit)) (k : R -> Prog Boot Stage)
    : Prog Boot Stage :=
  pbind c (fun o =>
    match o with
    | Returned r => k r
    | Panicked _ => run_deferred deferred 2
    end).
(** [logger.Error(...); os.Exit(1)]: the deferred calls do not run. *)
Definition exit1 (msg : string) (err : error) (deferred : list (Boot unit)) : Prog Boot Stage :=
  step_to (Vis (BootLog (MkLog Error msg [("error", AErr err)])) Ret) deferred (fun _ => Ret (Exited 1)).
Definition on_boot {R} (e : Boot R) : Prog Boot (outcome R) := Vis e Ret.

(** observability.InitTracing. *)
Definition InitTracing : Prog Boot (outcome TracerProvider) :=
  pbind ((let tp := NoopTracerProvider in call (SetTracerProvider tp) ;; ret tp)%go tt) (fun ol => Ret ol.1).

(** [if cfg.RunMigrationsOnBoot { ... }]. *)
Definition migrations (cfg : Config.Config) : Prog Boot (outcome (res unit)) :=
  if Config.RunMigrationsOnBoot cfg
  then embed (fun R => BMig) (pbind (Migrate.Migrate tt) (fun ol => Ret ol.1))
  else Ret (Returned (Ok tt)).

Definition ping : Prog Boot (outcome (res unit)) :=
  embed (fun R c => BHost (BRedis c)) (pbind (Valkey.Ping tt) (fun ol => Ret ol.1)).

(** [sign_in.New]: its hash of the dummy password by the wired hasher. *)
Definition new_sign_in (cfg : Config.Config) : Prog Boot (outcome (res SignIn.UseCase)) :=
  embed (fun R => BHost)
    (interp (adapters (hasher_params cfg))
       (pbind (SignIn.New true (Config.SessionTTL cfg) tt) (fun ol => Ret ol.1))).

(** The goroutine of the listener, up to what it sends on [errCh]. *)
Definition listener (cfg : Config.Config) (d : Deps) : Prog Boot (outcome (option error)) :=
  pbind ((call (BootLog (MkLog Info "identity listening" [("addr", AString (Config.Addr cfg))])) ;;
          call (Listen (Config.Addr cfg) d) ;;
          try _ <- call Accept catch err => ret (Some err) ;;
          ret None)%go tt) (fun ol => Ret ol.1).

(** The calls deferred when main is at [select]. *)
Definition closers : list (Boot unit) := [CacheClose; PoolClose].

(** [case <-ctx.Done()] and what follows. *)
Definition on_signal : Prog Boot Stage :=
  step_to (on_boot (BootLog (MkLog Info "shutting down" []))) closers (fun _ =>
  step_to (on_boot (Shutdown shutdownGrace)) closers (fun r =>
  match r with
  | Err err => if negb (errors_Is err context_DeadlineExceeded)
               then exit1 "graceful shutdown failed" err closers else run_deferred closers 0
  | Ok _ => run_deferred closers 0
  end)).

(** [case err := <-errCh]: only errors are sent. *)
Definition on_failure (err : error) : Prog Boot Stage := exit1 "server error" err closers.

Definition main : Prog Boot Stage :=
  step_to InitTracing [] (fun _ =>
  match Config.Load env with
  | Err err => exit1 "config load failed" err []
  | Ok cfg =>
    step_to (on_boot (PgxpoolNew (Config.PostgresURL cfg))) [] (fun r =>
    match r with
    | Err err => exit1 "pgx pool init failed" err []
    | Ok _ =>
      step_to (migrations cfg) [PoolClose] (fun r =>
      match r with
      | Err err => exit1 "migrations failed" err [PoolClose]
      | Ok _ =>
        match Valkey.New parse (valkey_config cfg) with
        | Err err => exit1 "valkey init failed" err [PoolClose]
        | Ok _ =>
          step_to ping [CacheClose; PoolClose] (fun r =>
          match r with
          | Err err => exit1 "valkey ping failed" err [CacheClose; PoolClose]
          | Ok _ =>
            step_to (new_sign_in cfg) [CacheClose; PoolClose] (fun r =>
            match r with
            | Err err => exit1 "sign_in init failed" err [CacheClose; PoolClose]
            | Ok signInUC =>
              Ret (Serves cfg (wire (Config.SessionTTL cfg) (SignIn.dummy signInUC) (Config.CookieSecure cfg)
                                 (Config.AllowedOrigins cfg) doc))
            end)
          end)
        end
      end)
    end)
  end).

(** ** The process *)

(** What is left of main, of the goroutine once it is started, and the calls
    that the two have made. *)
Record Process := MkProcess {
  p_main : Prog Boot Stage;
  p_listener : option (Prog Boot (outcome (option error)));
  p_calls : list (Reply Boot);
}.

Definition ended (m : Prog Boot Stage) : Prop := exists code, m = Ret (Exited code).

(** A call of main or of the goroutine; [go]; a panic of the goroutine, which ends
    the process without the deferred calls; the two cases of [select].  A signal
    may have arrived at any time, also before main waits for it. *)
Inductive process : Process -> Process -> Prop :=
| process_main R (e : Boot R) k o g tr :
    process (MkProcess (Vis e k) g tr) (MkProcess (k o) g (tr ++ [reply e o]))
| process_go cfg d tr :
    process (MkProcess (Ret (Serves cfg d)) None tr) (MkProcess (Ret (Serves cfg d)) (Some (listener cfg d)) tr)
| process_listener m R (e : Boot R) k o tr :
    ~ ended m -> process (MkProcess m (Some (Vis e k)) tr) (MkProcess m (Some (k o)) (tr ++ [reply e o]))
| process_crash m msg tr :
    ~ ended m -> process (MkProcess m (Some (Ret (Panicked msg))) tr)
                   (MkProcess (Ret (Exited 2)) (Some (Ret (Panicked msg))) tr)
| process_signal cfg d g tr :
    process (MkProcess (Ret (Serves cfg d)) (Some g) tr) (MkProcess on_signal (Some g) tr)
| process_failure cfg d err tr :
    process (MkProcess (Ret (Serves cfg d)) (Some (Ret (Returned (Some err)))) tr)
      (MkProcess (on_failure err) (Some (Ret (Returned (Some err)))) tr).

(** ** When the server listens *)

Abbreviation ev := (existT _).

(** The handler of the listener, if the call is the one that listens. *)
Definition serving (c : {R & Boot R}) : option (string * Deps) :=
  match projT2 c with Listen addr d => Some (addr, d) | _ => None end.
Definition served (tr : list (Reply Boot)) : list (string * Deps) := omap (fun a => serving (call_of a)) tr.

Lemma served_app tr tr' : served (tr ++ tr') = served tr ++ served tr'.
Proof. apply omap_app. Qed.

(** Answers that let main go on. *)
Definition returned {R} (o : outcome R) : bool := match o with Returned _ => true | _ => false end.
Definition no_error {R} (o : outcome (res R)) : bool := match o with Returned (Ok _) => true | _ => false end.
Definition succeeded {R} (c : Boot R) : outcome R -> bool :=
  match c in Boot R return outcome R -> bool with
  | PgxpoolNew _ | Accept => no_error
  (** main takes an exceeded deadline for an orderly shutdown *)
  | Shutdown _ => fun o => match o with Returned (Err err) => errors_Is err context_DeadlineExceeded | _ => no_error o end
  | BMig c => Migrate.succeeded c
  | BHost c => match c in Backend R return outcome R -> bool with
               | BRedis c => match c in Valkey.Redis R return outcome R -> bool with
                             | Valkey.RPing => no_error
                             | _ => returned
                             end
               | BRandom c => match c in Argon2id.Random R return outcome R -> bool with Argon2id.Read _ => no_error end
               | _ => returned
               end
  | SetTracerProvider _ | PoolClose | CacheClose | Listen _ _ | BootLog _ => returned
  end.
Abbreviation succeeds := (good (fun R => succeeded (R := R))).

(** The calls of the migrations. *)
Definition migration_calls (cfg : Config.Config) : list {R & Boot R} :=
  if Config.RunMigrationsOnBoot cfg
  then map (fun c => existT (projT1 c) (BMig (projT2 c)))
         (existT _ Migrate.OpenDBFromPool :: Migrate.migrate_calls ++ [existT _ Migrate.DbClose])
  else [].

(** The calls made before the listener is started. *)
Definition ready (cfg : Config.Config) : list {R & Boot R} :=
  [ev (SetTracerProvider NoopTracerProvider); ev (PgxpoolNew (Config.PostgresURL cfg))] ++ migration_calls cfg
  ++ [ev (BHost (BRedis Valkey.RPing)); ev (BHost (BRandom (Argon2id.Read 16)))].

Lemma wp_run_deferred deferred code (Q : Stage -> list (Reply Boot) -> Prop) tr :
  (forall ds code', map call_of ds = map (fun e => ev e) deferred ->
     (code' = code /\ Forall succeeds ds) \/ (code' = 2 /\ ~ Forall succeeds ds) \/ (code' = 2 /\ code = 2) ->
     Q (Exited code') (tr ++ ds)) ->
  Forall (fun e => e = CacheClose \/ e = PoolClose) deferred ->
  wp replied (run_deferred deferred code) Q tr.
Proof.
  revert code tr. induction deferred as [|e ds IH]; intros code tr HQ Hds.
  - specialize (HQ [] code eq_refl). rewrite app_nil_r in HQ. apply HQ. by left.
  - apply Forall_cons in Hds as [He Hds]. intros o tr' Hs. unfold replied in Hs. subst tr'.
    apply IH; [|done]. intros ds' code' Hc Hcode. rewrite <- app_assoc. apply HQ; [cbn; by rewrite Hc|].
    cbn [app]. rewrite Forall_cons. assert (good (fun R => succeeded (R := R)) (reply e o) <-> exists a, o = Returned a) as Hg.
    { destruct He; subst e; destruct o as [a|m]; cbn; unfold good; cbn; split; try done; try (by eexists); by intros [? ?]. }
    destruct o as [a|m].
    + destruct Hcode as [[-> ?]|[[-> ?]|[-> ?]]]; [left; split; [done|]; split; [apply Hg; by eexists|done]|right; left; tauto|by right; right].
    + right. left. split; [by destruct Hcode as [[-> _]|[[-> _]|[-> _]]]|]. intros [Hbad _]. apply Hg in Hbad as [? ?]. done.
Qed.

Lemma wp_step_to {R} (c : Prog Boot (outcome R)) deferred k (Q : Stage -> list (Reply Boot) -> Prop) tr :
  wp replied c (fun o cs =>
    match o with
    | Returned r => wp replied (k r) Q cs
    | Panicked _ => wp replied (run_deferred deferred 2) Q cs
    end) tr ->
  wp replied (step_to c deferred k) Q tr.
Proof. intros Hc. apply wp_bind. eapply wp_mono; [|exact Hc]. by intros []. Qed.

Lemma wp_on_boot {R} (e : Boot R) Q tr :
  (forall o, Q o (tr ++ [reply e o])) -> wp replied (on_boot e) Q tr.
Proof. intros HQ o cs Hs. unfold replied in Hs. subst cs. apply HQ. Qed.

Lemma wp_InitTracing Q tr :
  (forall o, Q (match o with Returned _ => Returned NoopTracerProvider | Panicked m => Panicked m end)
     (tr ++ [reply (SetTracerProvider NoopTracerProvider) o])) -> wp replied InitTracing Q tr.
Proof. intros HQ o cs Hs. unfold replied in Hs. subst cs. specialize (HQ o). by destruct o. Qed.

(** Everything else that ends main: the code is not 0 and nothing listens. *)
Definition given_up (tr : list (Reply Boot)) (st : Stage) (tr' : list (Reply Boot)) : Prop :=
  exists code rest, st = Exited code /\ code <> 0 /\ tr' = tr ++ rest /\ served rest = [].

#[local] Ltac close_all := repeat (apply Forall_cons; split; [first [by left|by right]|]); by apply Forall_nil.

Lemma given_up_deferred deferred tr :
  Forall (fun e => e = CacheClose \/ e = PoolClose) deferred ->
  wp replied (run_deferred deferred 2) (given_up tr) tr.
Proof.
  intros Hd. apply wp_run_deferred; [|done]. intros ds code Hc Hcode. exists code, ds. split; [done|].
  split; [by destruct Hcode as [[-> _]|[[-> _]|[-> _]]]|]. split; [done|]. clear Hcode. revert deferred Hd Hc.
  induction ds as [|a ds IH]; intros [|e deferred] Hd Hc; try done. apply Forall_cons in Hd as [He Hd].
  pose proof (f_equal head Hc) as Ha. apply (f_equal tail) in Hc. cbn [head tail map] in Ha, Hc.
  apply (inj Some) in Ha. unfold served. cbn [omap list_omap]. rewrite Ha.
  destruct He as [-> | ->]; cbn; by apply (IH deferred).
Qed.

Lemma given_up_exit1 msg err deferred tr :
  Forall (fun e => e = CacheClose \/ e = PoolClose) deferred ->
  wp replied (exit1 msg err deferred) (given_up tr) tr.
Proof.
  intros Hd. apply wp_step_to, wp_on_boot. intros [[]|m]; cbn.
  - by eexists 1, _.
  - eapply wp_mono; [|by apply given_up_deferred]. intros st tr' (code & rest & -> & Hc & -> & Hr).
    eexists code, _. split; [done|]. split; [done|]. split; [by rewrite <- app_assoc|]. by cbn.
Qed.

Lemma wp_given_up (p : Prog Boot Stage) (Q : Stage -> list (Reply Boot) -> Prop) tr :
  wp replied p (given_up tr) tr ->
  (forall code rest, code <> 0 -> served rest = [] -> Q (Exited code) (tr ++ rest)) -> wp replied p Q tr.
Proof. intros Hp HQ. eapply wp_mono; [|exact Hp]. intros st tr' (code & rest & -> & Hc & -> & Hr). auto. Qed.

Lemma served_embedded {E : Type -> Type} (inj : forall R, E R -> Boot R) cs :
  (forall R (e : E R), serving (existT R (inj R e)) = None) -> served (map (embed_reply inj) cs) = [].
Proof.
  intros Hi. unfold served. induction cs as [|[R [e o]] cs IH]; [done|]. cbn [map omap list_omap].
  change (call_of (embed_reply inj (existT R (e, o)))) with (existT R (inj R e) : {R & Boot R}). by rewrite Hi.
Qed.

Lemma wp_migrations cfg tr :
  wp replied (migrations cfg) (fun o tr' => exists ms, tr' = tr ++ ms /\ served ms = []
    /\ (o = Returned (Ok tt) -> map call_of ms = migration_calls cfg)
    /\ (o = Returned (Ok tt) <-> Forall succeeds ms)) tr.
Proof.
  unfold migrations, migration_calls. destruct (Config.RunMigrationsOnBoot cfg).
  2:{ exists []. by rewrite app_nil_r. }
  apply wp_replied_from.
  apply (wp_replied_embed (fun R => BMig) _ _ []). apply wp_bind.
  eapply wp_mono; [|apply Migrate.Migrate_calls_order]. intros [o l] cs [Hh Hok]. cbn [wp fst app] in Hok |- *.
  eexists. split; [done|]. split; [by apply (served_embedded (fun R => BMig))|].
  rewrite Forall_map. split; [|exact Hok]. intros Ho. apply Hok in Ho.
  rewrite <- (Migrate.handle_complete _ _ _ Hh Ho), !map_map. by apply map_ext.
Qed.

Lemma wp_ping (Q : outcome (res unit) -> list (Reply Boot) -> Prop) tr :
  (forall o, Q o (tr ++ [reply (BHost (BRedis Valkey.RPing)) o])) -> wp replied ping Q tr.
Proof. intros HQ o cs Hs. unfold replied in Hs. subst cs. apply HQ. Qed.

(** The hash of the dummy password panics on parameters argon2 refuses. *)
Definition dummy_panics (cfg : Config.Config) : Prop :=
  exists salt msg, Argon2id.IDKey "dummy-password-for-timing-safety-only" salt (Config.Argon2Time cfg)
    (Config.Argon2MemoryKiB cfg) (Config.Argon2Parallel cfg) 32 = Panicked msg.

Lemma wp_new_sign_in cfg (Q : outcome (res SignIn.UseCase) -> list (Reply Boot) -> Prop) tr :
  (forall salt uc, Q (Returned (Ok uc)) (tr ++ [reply (BHost (BRandom (Argon2id.Read 16))) (Returned (Ok salt))])) ->
  (forall o a, (forall uc, o <> Returned (Ok uc)) -> no_error a = false \/ dummy_panics cfg ->
     Q o (tr ++ [reply (BHost (BRandom (Argon2id.Read 16))) a])) ->
  wp replied (new_sign_in cfg) Q tr.
Proof.
  intros Hok Hbad o cs Hs. unfold replied in Hs. subst cs. destruct o as [[s|e]|msg]; cbn.
  - destruct (Argon2id.IDKey _ _ _ _ _ _) eqn:E; cbn; [apply Hok|].
    apply Hbad; [done|]. right. by exists s, msg.
  - apply Hbad; [done|by left].
  - apply Hbad; [done|by left].
Qed.

(** Why a run ends before the listener is started. *)
Definition prevented (tr : list (Reply Boot)) : Prop :=
  ~ Forall succeeds tr
  \/ (exists err, Config.Load env = Err err)
  \/ (exists cfg, Config.Load env = Ok cfg /\
        ((exists err, Valkey.New parse (valkey_config cfg) = Err err) \/ dummy_panics cfg)).

(** Main up to [go] and [select]. *)
Definition booted (st : Stage) (tr : list (Reply Boot)) : Prop :=
  served tr = [] /\
  match st with
  | Exited code => code <> 0 /\ prevented tr
  | Serves cfg d =>
    Config.Load env = Ok cfg /\ (exists opts, Valkey.New parse (valkey_config cfg) = Ok opts)
    /\ (exists dummy, d = wire (Config.SessionTTL cfg) dummy (Config.CookieSecure cfg) (Config.AllowedOrigins cfg) doc)
    /\ map call_of tr = ready cfg /\ Forall succeeds tr
  end.

Lemma prevented_more tr rest : prevented tr -> prevented (tr ++ rest).
Proof. intros [Hn|[He|Hc]]; [left|right; by left|by right; right]. intros Hall. by apply Forall_app in Hall as [? _]. Qed.

Lemma prevented_last tr a : ~ good (fun R => succeeded (R := R)) a -> prevented (tr ++ [a]).
Proof. intros Ha. left. intros Hall. apply Forall_app in Hall as [_ Hall]. by apply Forall_cons in Hall as [? _]. Qed.

Lemma wp_prevented (p : Prog Boot Stage) tr :
  served tr = [] -> prevented tr -> wp replied p (given_up tr) tr -> wp replied p booted tr.
Proof.
  intros Hs Hp Hg. apply wp_given_up; [done|]. intros code rest Hc Hr. split; [by rewrite served_app, Hs, Hr|].
  split; [done|]. by apply prevented_more.
Qed.

#[local] Ltac stops := first [apply given_up_exit1|apply given_up_deferred]; close_all.

Lemma main_boots : wp replied main booted [].
Proof.
  unfold main. apply wp_step_to, wp_InitTracing. intros [[]|msg]; [|by apply wp_prevented; [|apply prevented_last|stops]].
  destruct (Config.Load env) as [cfg|err] eqn:Hcfg.
  2:{ apply wp_prevented; [done|right; left; by exists err|stops]. }
  apply wp_step_to, wp_on_boot.
  intros [[[]|err]|msg]; [|by apply wp_prevented; [|apply prevented_last|stops]..].
  apply wp_step_to. eapply wp_mono; [|apply wp_migrations]. intros o tr (ms & -> & Hms & Hcalls & Hok).
  set (tr0 := _ ++ [_]). assert (served (tr0 ++ ms) = []) as Hs by by rewrite served_app, Hms.
  assert (o <> Returned (Ok tt) -> prevented (tr0 ++ ms)) as Hbad.
  { intros Ho. left. intros Hall. apply Forall_app in Hall as [_ Hall]. by apply Hok in Hall. }
  destruct o as [[[]|err]|msg]; [clear Hbad|by apply wp_prevented; [|apply Hbad|stops]..].
  specialize (Hcalls eq_refl). apply proj1 in Hok. specialize (Hok eq_refl).
  destruct (Valkey.New parse (valkey_config cfg)) as [opts|err] eqn:Hopts.
  2:{ apply wp_prevented; [done| |stops]. right. right. exists cfg. eauto. }
  apply wp_step_to, wp_ping.
  intros [[[]|err]|msg]; [|by apply wp_prevented; [by rewrite !served_app, Hms|apply prevented_last|stops]..].
  apply wp_step_to, wp_new_sign_in.
  2:{ intros o a Ho Ha.
      assert (prevented (((tr0 ++ ms) ++ [reply (BHost (BRedis Valkey.RPing)) (Returned (Ok tt))])
                ++ [reply (BHost (BRandom (Argon2id.Read 16))) a])) as Hp.
      { destruct Ha as [Ha|Ha]; [|right; right; eauto]. apply prevented_last. unfold good. cbn. by rewrite Ha. }
      destruct o as [[uc|err]|msg]; [by destruct (Ho uc)|..];
        (apply wp_prevented; [by rewrite !served_app, Hms|done|stops]). }
  intros salt uc. split; [by rewrite !served_app, Hms|]. split; [done|]. split; [by exists opts|].
  split; [by exists (SignIn.dummy uc)|]. split.
  - unfold ready. rewrite !map_app, Hcalls, <- !app_assoc. done.
  - rewrite !Forall_app. split_and!; try exact Hok; by repeat constructor.
Qed.

(** ** The listener and main together *)

(** The calls of the goroutine. *)
Definition listener_calls (cfg : Config.Config) (d : Deps) : list {R & Boot R} :=
  [ev (BootLog (MkLog Info "identity listening" [("addr", AString (Config.Addr cfg))]));
   ev (Listen (Config.Addr cfg) d); ev Accept].

(** What the goroutine has done when it ends: its calls in order, up to the
    first that fails. *)
Definition listener_ends (cfg : Config.Config) (d : Deps) (o : outcome (option error)) (tr : list (Reply Boot)) : Prop :=
  follows (fun R => succeeded (R := R)) (listener_calls cfg d) tr /\ (o = Returned None \/ ~ Forall succeeds tr).

Lemma wp_listener cfg d : wp replied (listener cfg d) (listener_ends cfg d) [].
Proof.
  assert (forall tr a, ~ good (fun R => succeeded (R := R)) a -> ~ Forall succeeds (tr ++ [a])) as Hlast.
  { intros tr a Ha Hall. apply Forall_app in Hall as [_ Hall]. by apply Forall_cons in Hall as [? _]. }
  intros o1 tr1 ->. destruct o1 as [[]|m]; [|by split; [apply follows_stop|right; apply (Hlast [])]].
  intros o2 tr2 ->. destruct o2 as [[]|m]; [|split; [apply follows_on; [done|]; by apply follows_stop|right; by apply (Hlast [_])]].
  intros o3 tr3 ->. destruct o3 as [[[]|e]|m].
  - split; [|by left]. do 3 (apply follows_on; [done|]). apply follows_end.
  - split; [do 2 (apply follows_on; [done|]); by apply follows_stop|right; by apply (Hlast [_; _])].
  - split; [do 2 (apply follows_on; [done|]); by apply follows_stop|right; by apply (Hlast [_; _])].
Qed.

(** A run goes on to some end. *)
Lemma wp_continues {A} (p : Prog Boot A) Q tr : wp replied p Q tr -> exists a more, Q a (tr ++ more).
Proof.
  revert tr. induction p as [a|R e k IH]; intros tr Hp; [exists a, []; by rewrite app_nil_r|].
  destruct (IH (Panicked "") _ (Hp _ _ eq_refl)) as (a & more & HQ). rewrite <- app_assoc in HQ. eauto.
Qed.

(** What main has done when it ends with [code], with the calls [trl] of the
    goroutine: with code 0 it has seen a signal and shut down in order; with
    another a call has failed. *)
Definition main_ends (trl : list (Reply Boot)) (st : Stage) (tr : list (Reply Boot)) : Prop :=
  served tr = [] /\ exists code, st = Exited code /\ (code <> 0 -> ~ (Forall succeeds tr /\ Forall succeeds trl))
  /\ (code = 0 -> Forall succeeds tr /\
        map call_of tr = [ev (BootLog (MkLog Info "shutting down" [])); ev (Shutdown shutdownGrace); ev CacheClose; ev PoolClose]).

Lemma failed_more trl trl' st tr : main_ends trl st tr -> main_ends (trl ++ trl') st tr.
Proof.
  intros (Hs & code & -> & Hne & Hz). split; [done|]. exists code. split; [done|]. split; [|done].
  intros Hc [H1 H2]. apply Forall_app in H2 as [H2 _]. by apply Hne.
Qed.

(** A failed call explains a code other than 0. *)
Lemma wp_failed (p : Prog Boot Stage) trl tr :
  served tr = [] -> ~ (Forall succeeds tr /\ Forall succeeds trl) -> wp replied p (given_up tr) tr ->
  wp replied p (main_ends trl) tr.
Proof.
  intros Hs Hf Hg. apply wp_given_up; [done|]. intros code rest Hc Hr. split; [by rewrite served_app, Hs, Hr|].
  exists code. split; [done|]. split; [|by intros ->]. intros _ [H1 H2]. apply Forall_app in H1 as [H1 _]. by apply Hf.
Qed.

Lemma failed_last tr a trl : ~ good (fun R => succeeded (R := R)) a -> ~ (Forall succeeds (tr ++ [a]) /\ Forall succeeds trl).
Proof. intros Ha [Hall _]. apply Forall_app in Hall as [_ Hall]. by apply Forall_cons in Hall as [? _]. Qed.

Lemma wp_shut_down trl r :
  let shutting := [reply (BootLog (MkLog Info "shutting down" [])) (Returned tt); reply (Shutdown shutdownGrace) (Returned r)] in
  Forall succeeds shutting -> wp replied (run_deferred closers 0) (main_ends trl) shutting.
Proof.
  intros shutting Hok. apply wp_run_deferred; [|unfold closers; close_all]. intros ds code Hc Hcode.
  split; [|exists code; split; [done|]; split].
  - rewrite served_app. cbn. unfold closers in Hc. destruct ds as [|a [|b [|]]]; try done.
    pose proof (f_equal head Hc) as Ha. apply (f_equal tail) in Hc. cbn [head tail map] in Ha, Hc.
    pose proof (f_equal head Hc) as Hb. cbn [head tail map] in Hb. apply (inj Some) in Ha, Hb.
    unfold served. cbn [omap list_omap]. by rewrite Ha, Hb.
  - intros Hne [Hall _]. apply Forall_app in Hall as [_ Hall]. destruct Hcode as [[-> _]|[[_ Hf]|[_ ?]]]; by auto.
  - intros ->. destruct Hcode as [[_ Hall]|[[? _]|[? _]]]; [|done..]. split; [by apply Forall_app|].
    by rewrite map_app, Hc.
Qed.

Lemma wp_on_signal trl : wp replied on_signal (main_ends trl) [].
Proof.
  apply wp_step_to, wp_on_boot. intros [[]|msg]; [|by apply wp_failed; [|apply (failed_last [])|stops]].
  apply wp_step_to, wp_on_boot. intros [[[]|err]|msg].
  - apply (wp_shut_down trl (Ok tt)). by repeat constructor.
  - destruct (errors_Is err context_DeadlineExceeded) eqn:E; cbn [negb].
    + apply (wp_shut_down trl (Err err)). by repeat constructor.
    + apply wp_failed; [done| |stops]. apply (failed_last [_]). unfold good. cbn. by rewrite E.
  - apply wp_failed; [done| |stops]. by apply (failed_last [_]).
Qed.

Lemma wp_on_failure trl err : ~ Forall succeeds trl -> wp replied (on_failure err) (main_ends trl) [].
Proof. intros Hf. apply wp_failed; [done|by intros [_ ?]|]. unfold on_failure, closers. stops. Qed.

(** The calls [tr] made once everything is wired: those of main and of the
    goroutine, interleaved. *)
Definition serving_calls (cfg : Config.Config) (d : Deps) (trm trl tr : list (Reply Boot)) : Prop :=
  merges trm trl tr /\ served trm = []
  /\ exists more, follows (fun R => succeeded (R := R)) (listener_calls cfg d) (trl ++ more).

(** The states of a process whose listener has been started. *)
Record at_work (cfg : Config.Config) (d : Deps) (before : list (Reply Boot)) (p : Process) : Prop := {
  aw_booted : booted (Serves cfg d) before;
  aw_runs : exists g trm trl tr, p_listener p = Some g /\ p_calls p = before ++ tr /\ merges trm trl tr
    /\ wp replied g (listener_ends cfg d) trl
    /\ ((p_main p = Ret (Serves cfg d) /\ trm = []) \/ wp replied (p_main p) (main_ends trl) trm);
}.

Definition reached (p : Process) : Prop :=
  (p_listener p = None /\ wp replied (p_main p) booted (p_calls p)) \/ exists cfg d before, at_work cfg d before p.

Lemma process_reached p p' : process p p' -> reached p -> reached p'.
Proof.
  intros Hs [[Hg Hw]|(cfg & d & before & Hb & g & trm & trl & tr & Hg & Hc & Hm & Hwg & Hwm)].
  - destruct Hs as [R e k o g tr|cfg d tr|m R e k o tr Hend|m msg tr Hend|cfg d g tr|cfg d err tr]; cbn in *; try done.
    + left. split; [done|]. by apply Hw.
    + right. exists cfg, d, tr. split; [done|]. exists (listener cfg d), [], [], []. cbn. rewrite app_nil_r.
      split; [done|]. split; [done|]. split; [constructor|]. split; [apply wp_listener|by left].
  - right. exists cfg, d, before. split; [done|].
    destruct Hs as [R e k o g' tr'|cfg' d' tr'|m R e k o tr' Hend|m msg tr' Hend|cfg' d' g' tr'|cfg' d' err tr']; cbn in *;
      try done; subst tr'; simplify_eq.
    + destruct Hwm as [[? _]|Hwm]; [done|]. exists g, (trm ++ [reply e o]), trl, (tr ++ [reply e o]).
      split; [done|]. split; [by rewrite app_assoc|]. split; [by constructor|]. split; [done|]. right. by apply Hwm.
    + exists (k o), trm, (trl ++ [reply e o]), (tr ++ [reply e o]). split; [done|]. split; [by rewrite app_assoc|].
      split; [by constructor|]. split; [by apply Hwg|]. destruct Hwm as [Hwm|Hwm]; [by left|right].
      eapply wp_mono; [|exact Hwm]. intros st tr'. apply failed_more.
    + exists (Ret (Panicked msg)), trm, trl, tr. split; [done|]. split; [done|]. split; [done|]. split; [done|]. right.
      cbn in Hwg. destruct Hwg as [_ [?|Hbad]]; [done|]. split.
      * destruct Hwm as [[_ ->]|Hwm]; [done|]. apply wp_continues in Hwm as (st & more & Hmore & _).
        rewrite served_app in Hmore. by apply app_eq_nil in Hmore as [? _].
      * exists 2. split; [done|]. split; [|done]. by intros _ [_ ?].
    + exists g, [], trl, tr. destruct Hwm as [[_ ->]|Hwm]; [|by destruct Hwm as (_ & ? & ? & _)].
      split; [done|]. split; [done|]. split; [done|]. split; [done|]. right. apply wp_on_signal.
    + exists (Ret (Returned (Some err))), [], trl, tr. destruct Hwm as [[_ ->]|Hwm]; [|by destruct Hwm as (_ & ? & ? & _)].
      split; [done|]. split; [done|]. split; [done|]. split; [done|]. right. apply wp_on_failure.
      cbn in Hwg. by destruct Hwg as [_ [?|?]].
Qed.

(** What the process has done so far. *)
Record run_of_main (p : Process) : Prop := {
  (** An end before the listener is started has another code than 0 and a
      reason. *)
  rm_prevented code : p_listener p = None -> p_main p = Ret (Exited code) -> code <> 0 /\ prevented (p_calls p);
  rm_silent : p_listener p = None -> served (p_calls p) = [];
  (** Before the listener is started every call of the start-up has succeeded, in
      order. *)
  rm_started : p_listener p <> None -> exists cfg dummy before trm trl tr,
    let d := wire (Config.SessionTTL cfg) dummy (Config.CookieSecure cfg) (Config.AllowedOrigins cfg) doc in
    Config.Load env = Ok cfg /\ (exists opts, Valkey.New parse (valkey_config cfg) = Ok opts)
    /\ map call_of before = ready cfg /\ Forall succeeds before
    /\ p_calls p = before ++ tr /\ serving_calls cfg d trm trl tr
    /\ forall code, p_main p = Ret (Exited code) -> main_ends trl (Exited code) trm;
}.

(** C25: what the process does, whatever its collaborators answer, in every
    state it can reach.  If it ends before the listener is started, the code is
    not 0 and there is a reason: a call failed, the environment or the URL of the
    cache is refused, or the argon2 parameters are; and nothing has listened.
    When the listener is started, the configuration is loaded, the pool open, the
    migrations (when enabled) applied, the cache has answered and the dummy
    password is hashed, in this order.  Then main and the goroutine interleave:
    the goroutine logs and listens once, on the configured address with the
    handler that the configuration describes, until a call of its own fails; main
    ends with code 0 only after a signal, when it has logged it, the shutdown did
    not fail (or ran into its deadline), and cache and pool were closed, in this
    order; with another code only when a call has failed.  A signal during the
    start-up can end the process with code 0 before anything listens. *)
Theorem main_serves p : rtc process (MkProcess main None []) p -> run_of_main p.
Proof.
  intros Hr. assert (reached p) as Hp.
  { assert (forall x y, rtc process x y -> reached x -> reached y) as Hgen by (induction 1; eauto using process_reached).
    eapply Hgen; [exact Hr|]. left. split; [done|apply main_boots]. }
  destruct Hp as [[Hg Hw]|(cfg & d & before & Hb & g & trm & trl & tr & Hg & Hc & Hm & Hwg & Hwm)].
  - split.
    + intros code _ E. rewrite E in Hw. by destruct Hw as [_ ?].
    + intros _. apply wp_continues in Hw as (st & more & Hs & _). rewrite served_app in Hs. by apply app_eq_nil in Hs as [? _].
    + by rewrite Hg.
  - split; [by rewrite Hg..|]. intros _. destruct Hb as (_ & Hcfg & Hopts & (dummy & ->) & Hready & Hbefore).
    exists cfg, dummy, before, trm, trl, tr. split_and!; try done.
    + split; [done|]. split.
      * destruct Hwm as [[_ ->]|Hwm]; [done|]. apply wp_continues in Hwm as (st & more & Hs & _).
        rewrite served_app in Hs. by apply app_eq_nil in Hs as [? _].
      * apply wp_continues in Hwg as (o & more & Hf & _). by exists more.
    + intros code E. destruct Hwm as [[E' _]|Hwm]; [by rewrite E in E'|]. by rewrite E in Hwm.
Qed.

(** The signal that arrives before the goroutine has made a call. *)
Lemma signal_first cfg d before :
  rtc process (MkProcess (Ret (Serves cfg d)) None before)
    (MkProcess (Ret (Exited 0)) (Some (listener cfg d))
       ((((before ++ [reply (BootLog (MkLog Info "shutting down" [])) (Returned tt)])
          ++ [reply (Shutdown shutdownGrace) (Returned (Ok tt))])
         ++ [reply CacheClose (Returned tt)]) ++ [reply PoolClose (Returned tt)])).
Proof.
  eapply rtc_l; [apply process_go|]. eapply rtc_l; [apply process_signal|].
  eapply rtc_l; [apply (process_main _ _ _ (Returned tt))|].
  eapply rtc_l; [apply (process_main _ _ _ (Returned (Ok tt)))|].
  eapply rtc_l; [apply (process_main _ _ _ (Returned tt))|].
  eapply rtc_l; [apply (process_main _ _ _ (Returned tt))|]. apply rtc_refl.
Qed.
(** A run to the end: the listener is up when the signal comes, and returns
    during the shutdown. *)
Definition orderly_calls (cfg : Config.Config) (d : Deps) : list (Reply Boot) :=
  [reply (BootLog (MkLog Info "identity listening" [("addr", AString (Config.Addr cfg))])) (Returned tt);
   reply (Listen (Config.Addr cfg) d) (Returned tt);
   reply (BootLog (MkLog Info "shutting down" [])) (Returned tt);
   reply (Shutdown shutdownGrace) (Returned (Ok tt));
   reply Accept (Returned (Ok tt));
   reply CacheClose (Returned tt);
   reply PoolClose (Returned tt)].

Lemma orderly_run cfg d before :
  rtc process (MkProcess (Ret (Serves cfg d)) None before)
    (MkProcess (Ret (Exited 0)) (Some (Ret (Returned None))) (before ++ orderly_calls cfg d)).
Proof.
  eapply rtc_l; [apply process_go|].
  eapply rtc_l; [apply (process_listener _ _ _ _ (Returned tt)); by intros [? ?]|].
  eapply rtc_l; [apply (process_listener _ _ _ _ (Returned tt)); by intros [? ?]|].
  eapply rtc_l; [apply process_signal|].
  eapply rtc_l; [apply (process_main _ _ _ (Returned tt))|].
  eapply rtc_l; [apply (process_main _ _ _ (Returned (Ok tt)))|].
  eapply rtc_l; [apply (process_listener _ _ _ _ (Returned (Ok tt))); by intros [? ?]|].
  eapply rtc_l; [apply (process_main _ _ _ (Returned tt))|].
  eapply rtc_l; [apply (process_main _ _ _ (Returned tt))|]. cbn. rewrite <- !app_assoc. apply rtc_refl.
Qed.
End Main.
