(* ===== verification/Witnesses.v ===== *)
(** * Concrete instances of the theorems that have hypotheses

    Every theorem of the development whose statement has a hypothesis is applied
    here to concrete data: the text form of UUIDs and the system are those of
    Reference.v, the states are computed by running the programs on it. *)
From S2P Require Import SignUp SignIn SignOut GetMe.
From S2P Require Import Prelude Program GoText GoEncoding GoTime Errors Tenant User Session Outbox Ports PortSpec Invariant Http Middleware Handlers Router Service Reference Argon2id Valkey.
From S2P Require Referer Testkit Config Postgres Adapters Deployed Migrate Main.
#[local] Open Scope Z_scope.

(** ** A small world *)

Definition start : Sys := initial 1700000000000000000.
Definition ada_up : SignUp.Input := SignUp.MkInput DefaultID " Ada@Example.com " "correct horse battery".
Definition ada_in : SignIn.Input := SignIn.MkInput DefaultID "ada@EXAMPLE.com" "correct horse battery".
Definition up : SignUp.UseCase := SignUp.New true (168 * Hour).
Definition sign_in_uc : SignIn.UseCase := SignIn.MkUseCase true (168 * Hour) (plain_hash "dummy").

(** The state after the sign-up. *)
Definition signed_up_run := exec answer (SignUp.Execute up ada_up false) start.
Definition ada : SignUp.Output :=
  match signed_up_run.1.1 with Returned (Ok out) => out | _ => SignUp.MkOutput Nil "" 0 end.
Definition with_ada : Sys := signed_up_run.2.

Lemma signed_up_runs :
  runs (pstep plain_verifies) (SignUp.Execute up ada_up false) start (Returned (Ok ada), true) with_ada.
Proof.
  pose proof (exec_runs (SignUp.Execute up ada_up false) start) as Hr.
  replace (exec answer (SignUp.Execute up ada_up false) start).1
    with ((Returned (Ok ada), true) : outcome (res SignUp.Output) * bool) in Hr
    by (vm_compute; reflexivity).
  exact Hr.
Qed.

(** The state after the sign-out that follows. *)
Definition ada_session : Session.Session :=
  match sessions (committed with_ada) !! uuid_of 1 with
  | Some x => x
  | None => Session.New Nil zero_ID Nil "" 0 0
  end.
Definition ada_out : SignOut.Input :=
  SignOut.MkInput DefaultID (uuid_of 1) (uuid_of 1) (EncodeToString (Session.tokenHash ada_session)).
Definition signed_out_run := exec answer (SignOut.Execute (SignOut.New true) ada_out false) with_ada.
Definition without_ada : Sys := signed_out_run.2.

Lemma signed_out_runs :
  runs (pstep plain_verifies) (SignOut.Execute (SignOut.New true) ada_out false) with_ada
    (Returned (Ok SignOut.MkOutput), true) without_ada.
Proof.
  pose proof (exec_runs (SignOut.Execute (SignOut.New true) ada_out false) with_ada) as Hr.
  replace (exec answer (SignOut.Execute (SignOut.New true) ada_out false) with_ada).1
    with ((Returned (Ok SignOut.MkOutput), true) : outcome (res SignOut.Output) * bool) in Hr
    by (vm_compute; reflexivity).
  exact Hr.
Qed.

Lemma with_ada_wf : wf with_ada.
Proof.
  pose proof (proj1 (wp_runs _ _ _ _) (sign_up_keeps plain_verifies wf up ada_up start) _ _ signed_up_runs)
    as [Hw _].
  apply Hw, initial_wf.
Qed.

(** A browser that presents Ada's cookie. *)
Definition ada_request (method path origin : string) : Request :=
  MkRequest method path (fun h => if bool_decide (h = "Origin") then origin else "")
    (fun n => if bool_decide (n = NameSecure) then SignUp.SessionToken ada else "") "test" "" "127.0.0.1:1234".

(** ** The witnesses *)

(** A table that lowers one letter, U+00C9. *)
Definition table (r : Z) : Z := if r =? 0xC9 then 0xE9 else r.

Lemma table_ok : unicode_lower table.
Proof.
  split; intros r Hr; unfold table; destruct (Z.eqb_spec r 0xC9) as [->|]; try done; unfold valid_rune; lia.
Qed.

Lemma NewEmail_unicode_independent_witness :
  unicode_lower table /\ NewEmail_with table "A@b.io" = NewEmail "A@b.io".
Proof. exact (conj table_ok (NewEmail_unicode_independent table "A@b.io" table_ok)). Defined.

Lemma sign_up_rejects_witness :
  SignUp.Execute up (SignUp.MkInput DefaultID "ada@example.com" "short") false
  = Ret (Returned (Err (sign_up.ErrWeakPassword : error)), false).
Proof.
  destruct (SignUp.Execute_rejects up (SignUp.MkInput DefaultID "ada@example.com" "short") false) as (_ & _ & Hr).
  apply (Hr (User.MkEmail "ada@example.com")).
  - vm_compute. reflexivity.
  - vm_compute. reflexivity.
  - vm_compute. intros [Hl _]. by apply Hl.
Defined.

Lemma server_safe_witness :
  wp (pstep plain_verifies)
    (server (168 * Hour) (plain_hash "dummy") true ["https://app.example"] "{}"
       (new_ctx (ada_request "GET" "/api/v1/crm/public/identity/profile/me" "")))
    (fun a s' => a.1 = Returned tt /\ wf s' /\ txs s' = txs with_ada) with_ada.
Proof. apply server_safe. exact with_ada_wf. Defined.

Definition evil_request : Request :=
  ada_request "POST" "/api/v1/crm/public/identity/sign-up" "https://evil.example".

Lemma evil_foreign : ~ same_origin ["https://app.example"] evil_request.
Proof.
  intros [[_ Hin]|[He _]]; [|by vm_compute in He].
  apply list_elem_of_singleton in Hin. by vm_compute in Hin.
Qed.

Lemma server_rejects_foreign_witness :
  wp (pstep plain_verifies)
    (server (168 * Hour) (plain_hash "dummy") true ["https://app.example"] "{}" (new_ctx evil_request))
    (fun _ s' => committed s' = committed with_ada /\ txs s' = txs with_ada) with_ada.
Proof. apply server_rejects_foreign. exact evil_foreign. Defined.

Lemma sign_up_then_sign_in_witness :
  wp (pstep plain_verifies) (SignIn.Execute sign_in_uc ada_in false)
    (on_outcome (fun (o : outcome (res SignIn.Output)) _ =>
      match o with
      | Returned (Ok out2) => SignIn.UserID out2 = SignUp.UserID ada
      | Returned (Err e) => e = sign_in.ErrInternal
      | Panicked _ => True
      end)) with_ada.
Proof.
  apply (sign_up_then_sign_in plain_verifies (168 * Hour) (plain_hash "dummy") true [] ""
           up sign_in_uc ada_up ada_in ada true false start with_ada with_ada).
  - apply initial_wf.
  - exact signed_up_runs.
  - apply rtc_refl.
  - reflexivity.
  - vm_compute. reflexivity.
  - reflexivity.
Defined.

(** A page of the application, without an Origin header. *)
Definition from_page : RequestCtx := new_ctx (MkRequest "POST" "/api/v1/crm/public/identity/sessions"
  (fun h => if bool_decide (h = "Referer") then "https://app.example:8443/a%20b?to=https://evil.example#top" else "")
  (fun _ => "") "test" "" "127.0.0.1:1234").

Lemma Referer_decides_witness :
  originFromReferer (Peek (request from_page) "Referer") = ("https://app.example:8443", true)
  /\ OriginCheck ["https://app.example:8443"] (ret tt) from_page = (ret tt : Handler) from_page.
Proof.
  destruct (Referer.Referer_decides ["https://app.example:8443"] (ret tt) from_page
    "https" "app.example" ":8443" "/a%20b?to=https://evil.example#top") as (Ho & Hin & _).
  - vm_compute. reflexivity.
  - vm_compute. reflexivity.
  - vm_compute. reflexivity.
  - split; [exact Ho|]. apply Hin. by left.
Defined.

Definition ada_ctx : RequestCtx := new_ctx (ada_request "GET" "/" "").

(** Ada's browser asks for her profile after the sign-out, with the old cookie. *)
Definition asked_again := exec answer
  (server (168 * Hour) (plain_hash "dummy") true [] ""
     (new_ctx (ada_request "GET" "/api/v1/crm/public/identity/profile/me" ""))) without_ada.

Lemma asked_again_step :
  rtc (Service.step plain_verifies (168 * Hour) (plain_hash "dummy") true [] "") without_ada asked_again.2.
Proof. apply rtc_once. eapply step_request, exec_runs. Qed.

Lemma signed_out_token_refused_witness :
  StatusCode (response asked_again.1.2) = 401
  /\ wp (traced (pstep plain_verifies)) (Middleware.Session true (ret tt) ada_ctx) (fun a '(s3, tr) =>
    committed s3 = committed asked_again.2 /\
    (a = (Returned tt, answered SessionInvalid ada_ctx)
     \/ (exists e, infra e
          /\ last tr = Some (reply (Sessions (FindByTokenHash (Session.tokenHash ada_session))) (Returned (Err e)))
          /\ a = (Returned tt, answered Internal ada_ctx))
     \/ exists msg, call_panicked tr msg /\ a = (Panicked msg, ada_ctx))) (asked_again.2, []).
Proof.
  split; [vm_compute; reflexivity|].
  apply (signed_out_token_refused plain_verifies (168 * Hour) (plain_hash "dummy") true [] ""
           (SignOut.New true) ada_out ada_session SignOut.MkOutput true with_ada without_ada asked_again.2).
  - exact with_ada_wf.
  - vm_compute. reflexivity.
  - exact signed_out_runs.
  - vm_compute. reflexivity.
  - exact asked_again_step.
  - by apply (bool_decide_unpack _); vm_compute.
  - vm_compute. reflexivity.
Defined.

(** ** The adapters *)

(** A key derivation: the password, padded with zeroes to the wanted length. *)
Definition toy_key (pw : string) (n : Z) : string :=
  of_bytes (firstn (Z.to_nat n) (bytes_of pw ++ repeat 0 (Z.to_nat n))).

Lemma toy_key_len pw n : 0 <= n -> len (toy_key pw n) = n.
Proof.
  intros Hn. rewrite len_bytes. unfold toy_key. rewrite bytes_of_of.
  - rewrite length_firstn, length_app, repeat_length. lia.
  - apply Forall_take, Forall_app. split; [apply bytes_of_bounds|].
    apply Forall_forall. intros x Hx. apply list_elem_of_In, repeat_spec in Hx. lia.
Qed.

#[global, refine] Instance ToyArgon2 : Argon2 := {
  IDKey pw salt t m p n :=
    if (t <? 1) || (p <? 1) then Panicked "argon2: number of rounds too small" else Returned (toy_key pw n);
  Version := 19;
}.
Proof.
  - unfold max_int64. lia.
  - intros pw salt t m p n Ht Hp Hn. rewrite (proj2 (Z.ltb_ge t 1)), (proj2 (Z.ltb_ge p 1)) by done. eauto.
  - intros pw salt t m p n key Hn. case_match; [done|]. intros [= <-]. by apply toy_key_len.
Defined.

Lemma Default_ok : params_ok Default.
Proof. unfold params_ok. cbn. lia. Qed.

Lemma Verify_Hash_witness :
  wp random_step (Argon2id.Hash Default "correct horse battery" tt) (fun ol _ =>
    match ol.1 with
    | Returned (Ok hash) => exists salt key,
        len salt = SaltLen Default /\ hash = NewPasswordHash (encode Default salt key)
        /\ Argon2id.Verify hash "correct horse battery" = Returned (Ok true)
        /\ forall other, len other <= PasswordMaxLen ->
             Argon2id.Verify hash other =
               match IDKey other salt (Argon2id.Time Default) (MemoryKiB Default) (Parallelism Default)
                       (KeyLen Default) with
               | Panicked msg => Panicked msg
               | Returned got => Returned (Ok (bool_decide (got = key)))
               end
    | Returned (Err e) => infra e
    | Panicked _ => True
    end) tt.
Proof. exact (Verify_Hash Default "correct horse battery" tt Default_ok). Defined.


Definition ada_entry : CachedSession :=
  MkCachedSession (uuid_of 1) (uuid_of 0) DefaultID 1700604800000000000.

Lemma ada_entry_printable : printable (ExpiresAt ada_entry).
Proof. unfold printable. vm_compute. by split. Qed.

Lemma Set_then_Get_witness :
  wp redis_step (Set_ (L := unit) "00ff" ada_entry Hour tt) (fun ol m' =>
    ol.1 = Returned (Ok tt) ->
    wp redis_step (Get (L := unit) "00ff" tt) (fun ol' _ =>
      ol'.1 = Returned (Ok ada_entry) \/ ol'.1 = Returned (Err (session.ErrCacheMiss : error)) \/ fails ol'.1) m'
    /\ exists m'', runs redis_step (Get (L := unit) "00ff" tt) m' (Returned (Ok ada_entry), tt) m'') ∅.
Proof. exact (Set_then_Get "00ff" ada_entry Hour ∅ ada_entry_printable). Defined.

(** ** Start-up and the deployed service *)

Definition small_env : string -> string := Config.env_of Config.minimal.

Lemma small_env_moderate : Config.moderate small_env.
Proof. unfold Config.moderate. vm_compute. intuition discriminate. Qed.

Lemma Load_sane_witness : exists cfg, Config.Load small_env = Ok cfg /\ Config.SessionTTL cfg = 168 * Hour
  /\ Config.AllowedOrigins cfg <> [].
Proof.
  eexists. split; [vm_compute; reflexivity|]. split; [reflexivity|].
  apply (Config.Load_sane small_env); [exact small_env_moderate|vm_compute; reflexivity].
Defined.

Lemma run_order_witness :
  wp replied (Migrate.run small_env ["up-to"; "3"] tt) (fun ol calls =>
    Migrate.with_handle (Migrate.SqlOpen "pgx" (small_env "POSTGRES_URL")) (Migrate.run_calls ["up-to"; "3"]) calls
    /\ (ol.1 = Returned (Ok tt) <-> Forall (good (fun R => Migrate.succeeded (R := R))) calls)) [].
Proof. apply (Migrate.run_order small_env ["up-to"; "3"]). vm_compute. discriminate. Defined.

Definition ada_user : User.User :=
  User.New (uuid_of 0) DefaultID (User.MkEmail "ada@example.com") (plain_hash "correct horse battery") 0.

Lemma postgres_witness :
  refines_call Postgres.repo_step Postgres.pg_step Postgres.implements (fun R => Postgres.adapter)
    (Postgres.RUsers (UserSaveTx (User.NewTx (User.any_pgx_tx 1)) ada_user)).
Proof. apply Postgres.postgres_implements_repositories. vm_compute. reflexivity. Defined.

Lemma deployed_server_safe_witness :
  wp Adapters.backend_step
    (interp (Adapters.adapters Default)
      (NewHandler (Service.wire (168 * Hour) (plain_hash "dummy") true ["https://app.example"] "{}") (new_ctx evil_request)))
    (fun a w' => a.1 = Returned tt /\ Postgres.d_txs (Adapters.w_db w') = ∅
       /\ exists s', Adapters.deployed w' s' /\ wf s') (Deployed.fresh_world 0).
Proof.
  apply (Adapters.deployed_server_safe Default (168 * Hour) (plain_hash "dummy") true ["https://app.example"] "{}"
           evil_request (Deployed.fresh_world 0) (initial 0)).
  - exact Default_ok.
  - apply Deployed.fresh_deployed.
  - apply initial_wf.
Defined.

Lemma deployed_server_refines_witness :
  wp Adapters.backend_step
    (interp (Adapters.adapters Default)
      (NewHandler (Service.wire (168 * Hour) (plain_hash "dummy") true ["https://app.example"] "{}") (new_ctx evil_request)))
    (fun _ w' => exists s', True /\ Adapters.deployed w' s') (Deployed.fresh_world 0).
Proof.
  apply (Adapters.deployed_server_refines Default (168 * Hour) (plain_hash "dummy") true ["https://app.example"] "{}"
           evil_request (Deployed.fresh_world 0) (initial 0) (fun _ _ => True)).
  - exact Default_ok.
  - apply Deployed.fresh_deployed.
  - eapply wp_mono; [|apply server_handles, initial_wf]. done.
Defined.

(** ** The fakes of the unit tests *)

Lemma intToString_terminates_witness : Testkit.intToString 4207 = Some "4207".
Proof.
  pose proof (Testkit.intToString_terminates 4207 ltac:(unfold min_int64, max_int64; lia)) as E.
  exact E.
Defined.

Lemma FakeTokenGen_tokens_witness : exists tok,
  Testkit.FakeTokenGen_NewToken (Testkit.MkFakeTokenGen 0) = (Some (Ok (MkToken tok)), Testkit.MkFakeTokenGen 1)
  /\ 42 <= len tok <= 60.
Proof.
  destruct (Testkit.FakeTokenGen_tokens (Testkit.MkFakeTokenGen 0)) as (tok & E & Hlen & _).
  - unfold max_int64. cbn. lia.
  - exists tok. exact (conj E Hlen).
Defined.

(** Fakes without rows. *)
Definition new_kit : Testkit.Kit :=
  Testkit.MkKit (Testkit.MkFakeClock 0) (Testkit.MkFakeHasher None None) (Testkit.MkFakeTokenGen 0)
    Testkit.NewFakeUsers Testkit.NewFakeSessions Testkit.NewFakeOutbox Testkit.NewFakeCache.

Lemma new_kit_ok : Testkit.kit_ok new_kit.
Proof. split; try done. by intros key; split; intros [? ?]. Qed.

Lemma fakes_meet_contract_witness :
  let c := Testkit.FUsers (UserSaveTx (User.NewTx User.any_foreign) ada_user) in
  let after := Testkit.fake 0 c new_kit in
  Testkit.kit_ok after.2 /\ Testkit.autocommit c (Testkit.view new_kit) after.1 (Testkit.view after.2).
Proof.
  apply (Testkit.fakes_meet_contract 0 (Testkit.FUsers (UserSaveTx (User.NewTx User.any_foreign) ada_user)) new_kit).
  - exact new_kit_ok.
  - split; vm_compute; reflexivity.
Defined.

(** ** A start and an orderly stop of the process *)

(** Collaborators that are there. *)
Definition migrates {R} (c : Migrate.Mig R) : outcome R :=
  match c in Migrate.Mig R return outcome R with
  | Migrate.SqlOpen _ _ | Migrate.DbPing | Migrate.DbExec _ | Migrate.SetDialect _ | Migrate.GooseRun _ _ _
  | Migrate.GooseUp _ => Returned (Ok tt)
  | Migrate.OpenDBFromPool | Migrate.DbClose | Migrate.SetBaseFS | Migrate.SetTableName _ | Migrate.PrintUsage _
  | Migrate.MLog _ => Returned tt
  end.
Definition hosts {R} (c : Adapters.Backend R) : outcome R :=
  match c in Adapters.Backend R return outcome R with
  | Adapters.BRedis c =>
    match c in Valkey.Redis R return outcome R with
    | Valkey.RPing => Returned (Ok tt)
    | _ => Panicked "not called"
    end
  | Adapters.BRandom c =>
    match c in Argon2id.Random R return outcome R with
    | Argon2id.Read n => Returned (Ok (of_bytes (repeat 0x73 (Z.to_nat n))))
    end
  | _ => Panicked "not called"
  end.
Definition boots {R} (c : Main.Boot R) : outcome R :=
  match c in Main.Boot R return outcome R with
  | Main.PgxpoolNew _ | Main.Accept | Main.Shutdown _ => Returned (Ok tt)
  | Main.SetTracerProvider _ | Main.PoolClose | Main.CacheClose | Main.Listen _ _ | Main.BootLog _ => Returned tt
  | Main.BMig c => migrates c
  | Main.BHost c => hosts c
  end.

Fixpoint drive (p : Prog Main.Boot Main.Stage) (tr : list (Reply Main.Boot)) : Main.Stage * list (Reply Main.Boot) :=
  match p with
  | Ret st => (st, tr)
  | Vis c k => drive (k (boots c)) (tr ++ [reply c (boots c)])
  end.

Lemma drive_process p g tr :
  rtc Main.process (Main.MkProcess p g tr) (Main.MkProcess (Ret (drive p tr).1) g (drive p tr).2).
Proof.
  revert tr. induction p as [st|R c k IH]; intros tr; [apply rtc_refl|].
  eapply rtc_l; [apply (Main.process_main _ c k (boots c))|]. apply IH.
Qed.

(** The environment asks for the migrations. *)
Definition migrating_env : string -> string := Config.env_of (("RUN_MIGRATIONS_ON_BOOT", "true") :: Config.minimal).
Definition any_url (_ : string) : res Options := Ok (MkOptions 0 0 0 None).
Definition start_up : Prog Main.Boot Main.Stage := Main.main migrating_env any_url "{}".
Definition serves (st : Main.Stage) : bool := match st with Main.Serves _ _ => true | _ => false end.

Lemma main_serves_witness : exists cfg d before,
  let p := Main.MkProcess (Ret (Main.Exited 0)) (Some (Ret (Returned None))) (before ++ Main.orderly_calls cfg d) in
  length before = 11%nat /\ rtc Main.process (Main.MkProcess start_up None []) p
  /\ Main.run_of_main migrating_env any_url "{}" p.
Proof.
  pose proof (drive_process start_up None []) as Hr.
  assert (serves (drive start_up []).1 = true) as Hs by (vm_compute; reflexivity).
  assert (length (drive start_up []).2 = 11%nat) as Hlen by (vm_compute; reflexivity).
  destruct (drive start_up []) as [[code|cfg d] before]; [discriminate Hs|]. cbn [fst snd] in Hr, Hlen.
  exists cfg, d, before. split; [exact Hlen|].
  assert (rtc Main.process (Main.MkProcess start_up None [])
            (Main.MkProcess (Ret (Main.Exited 0)) (Some (Ret (Returned None))) (before ++ Main.orderly_calls cfg d))) as Hp
    by (transitivity (Main.MkProcess (Ret (Main.Serves cfg d)) None before); [exact Hr|apply Main.orderly_run]).
  split; [exact Hp|]. exact (Main.main_serves migrating_env any_url "{}" _ Hp).
Defined.
