(* ===== verification/Race.v ===== *)
(** * Schedules of two concurrent requests

    On the system of Reference.v: a browser reloads the profile while it signs
    out, and the cached session outlives the sign-out; two sign-ups race for one
    address. *)
From S2P Require Import SignUp SignIn SignOut GetMe.
From S2P Require Import Prelude Program GoText GoEncoding GoTime GoJson Errors Tenant User Session Outbox Ports PortSpec Invariant Http Middleware Handlers Router Service Reference Adapters Interleave Witnesses.
#[local] Open Scope Z_scope.

(** [schedule]: which request makes the next call. *)
Fixpoint run_schedule (schedule : list nat) (pool : list Request) (s : Sys) : list Request * Sys :=
  match schedule with
  | [] => (pool, s)
  | i :: rest =>
    match pool !! i with
    | Some (Vis e k) => let '(o, s') := answer _ e s in run_schedule rest (<[i := k o]> pool) s'
    | _ => run_schedule rest pool s
    end
  end.

Section Schedule.
Context (ttl : Duration) (dummy : PasswordHash) (secure : bool) (allowed : list string) (doc : string).

Lemma run_schedule_flight schedule pool s :
  rtc (flight plain_verifies ttl dummy secure allowed doc) (pool, s) (run_schedule schedule pool s).
Proof.
  revert pool s. induction schedule as [|i rest IH]; intros pool s; [apply rtc_refl|]. cbn [run_schedule].
  destruct (pool !! i) as [[a|R e k]|] eqn:E; [apply IH| |apply IH].
  pose proof (answer_meets R e s) as Hm. destruct (answer R e s) as [o s'].
  eapply rtc_l; [|apply IH]. by eapply flight_call.
Qed.
End Schedule.

(** ** The schedule *)

Definition app : Handler := server (168 * Hour) (plain_hash "dummy") true ["https://app.example"] "{}".

Definition me : Request := app (new_ctx (ada_request "GET" "/api/v1/crm/public/identity/profile/me" "")).
Definition sign_out : Request :=
  app (new_ctx (ada_request "DELETE" "/api/v1/crm/public/identity/sessions/current" "https://app.example")).

(** Ada has signed up; her cache entry has been evicted. *)
Definition before : Sys := set_cache ∅ with_ada.

Definition status (p : Request) : option Z :=
  match p with Ret (_, c) => Some (StatusCode (response c)) | _ => None end.

(** The profile request reads the active session row; the whole sign-out
    follows; then the profile request writes the session to the cache. *)
Definition race : list nat := repeat 0%nat 7 ++ repeat 1%nat 19 ++ repeat 0%nat 6.
Definition after_race : list Request * Sys := run_schedule race [me; sign_out] before.

(** The session row of Ada. *)
Definition ada_row (s : Sys) : option Session.Session := sessions (committed s) !! Session.id ada_session.

Lemma before_wf : wf before.
Proof. destruct with_ada_wf as [H _]. split; [exact H|]. by intros key body ttl. Qed.

(** C26: two requests of one session, the profile and the sign-out, can be
    interleaved so that the sign-out is confirmed with 204, the session row is
    revoked, and yet the next request with the same cookie is served as
    authenticated: the profile request has written the session to the cache after
    the sign-out deleted it.  The schedule is one of the interleavings of
    [flight], from a state that satisfies the invariant, and no call fails. *)
Theorem cached_session_outlives_sign_out :
  wf before
  /\ rtc (flight plain_verifies (168 * Hour) (plain_hash "dummy") true ["https://app.example"] "{}")
       ([me; sign_out], before) after_race
  /\ map status after_race.1 = [Some 200; Some 204]
  /\ (exists x t, ada_row after_race.2 = Some x /\ Session.revokedAt x = Some t)
  /\ status (Ret (exec answer me after_race.2).1) = Some 200.
Proof.
  split; [exact before_wf|]. split.
  { unfold after_race. exact (run_schedule_flight _ _ _ _ _ race [me; sign_out] before). }
  split; [by vm_compute|]. split; [|by vm_compute].
  assert (is_Some (ada_row after_race.2 ≫= Session.revokedAt)) as [t Ht] by (vm_compute; eexists; reflexivity).
  apply bind_Some in Ht as (x & Hx & Ht). exact (ex_intro _ x (ex_intro _ t (conj Hx Ht))).
Qed.

(** ** Two sign-ups for one address *)

Definition sign_up_of (address password : string) : Request :=
  app (new_ctx (MkRequest "POST" "/api/v1/crm/public/identity/sign-up"
    (fun h => if bool_decide (h = "Origin") then "https://app.example"
              else if bool_decide (h = "Content-Type") then "application/json" else "") (fun _ => "") "test"
    (json_text "{'email':'" +:+ address +:+ json_text "','password':'" +:+ password +:+ json_text "'}") "127.0.0.1:1234")).

(** Both hash their passwords, call by call in turns; the first to open its
    transaction commits, the second finds the address taken. *)
Definition two_up : list Request := [sign_up_of "ada@example.com" "correct horse battery"; sign_up_of " ADA@example.com" "another good password"].
Definition in_turns : list nat := concat (repeat [0%nat; 1%nat] 3) ++ repeat 0%nat 30 ++ repeat 1%nat 30.
Definition after_two : list Request * Sys := run_schedule in_turns two_up start.

(** Both are accepted and answered: one account, one refusal. *)
Lemma interleaved_requests_safe_witness :
  map status after_two.1 = [Some 201; Some 409] /\ size (users (committed after_two.2)) = 1%nat
  /\ consistent (committed after_two.2) /\ forall a c, Ret (a, c) ∈ after_two.1 -> a = Returned tt.
Proof.
  split; [by vm_compute|]. split; [by vm_compute|].
  apply (interleaved_requests_safe plain_verifies (168 * Hour) (plain_hash "dummy") true
           ["https://app.example"] "{}" 1700000000000000000 after_two.1 after_two.2).
  rewrite <- (surjective_pairing after_two).
  eapply rtc_l; [apply (flight_accept _ _ _ _ _ _ [])|]. eapply rtc_l; [apply (flight_accept _ _ _ _ _ _ [_])|].
  exact (run_schedule_flight _ _ _ _ _ in_turns two_up start).
Defined.
