(* ===== verification/Runs.v ===== *)
(** * The theorems on running requests, applied

    Runs of the wired server on the system of Reference.v: one user signs up
    while a monitor probes the service, call by call ([busy]); the same
    sign-up with another password; a sign-up on collaborators that work.  The
    theorems of Traffic.v, Schemas.v, Secrecy.v and Served.v are
    applied to them. *)
From S2P Require Import SignUp SignIn SignOut GetMe.
From S2P Require Import Prelude Program GoText GoEncoding GoTime GoJson Errors Tenant User Session Outbox Ports PortSpec Invariant Http Middleware Handlers Router Service Responses Schemas Reference Adapters Interleave Secrecy Served Omni Interference Truthful Traffic Witnesses Race.
#[local] Open Scope Z_scope.

(** ** Runs with transactions of their own *)

(** The next call of request [i], unless it would open a transaction of an
    earlier request. *)
Definition step_traffic (i : nat) (w : World) : World :=
  match pool w !! i with
  | Some (MkInFlight r t0 own (Vis e k)) =>
    let '(o, s') := answer _ e (sys w) in
    if decide (opened e o ## used w) then
      MkWorld (<[i := MkInFlight r t0 (own ∪ opened e o) (k o)]> (pool w)) (used w ∪ opened e o) s'
    else w
  | _ => w
  end.

Section TrafficRuns.
Context (ttl : Duration) (dummy : PasswordHash) (secure : bool) (allowed : list string) (doc : string).
Let step := traffic plain_verifies ttl dummy secure allowed doc.

Lemma step_traffic_ok i w : rtc step w (step_traffic i w).
Proof.
  destruct w as [pl us s]. unfold step_traffic. cbn [pool used sys].
  destruct (pl !! i) as [[r t0 own [a|R e k]]|] eqn:E; [done| |done].
  pose proof (answer_meets R e s) as Hm. destruct (answer R e s) as [o s'].
  case_decide; [|done]. apply rtc_once. by eapply traffic_call.
Qed.

Lemma steps_traffic_ok l w : rtc step w (fold_left (fun w i => step_traffic i w) l w).
Proof.
  revert w. induction l as [|i l IH]; intros w; [done|]. cbn. etransitivity; [apply step_traffic_ok|apply IH].
Qed.
End TrafficRuns.

(** Ada signs up while a monitor probes the service. *)
Definition ada_signs_up : Http.Request :=
  MkRequest "POST" "/api/v1/crm/public/identity/sign-up"
    (fun h => if bool_decide (h = "Origin") then "https://app.example" else "") (fun _ => "") "test"
    (json_text "{'email':'Ada@Example.com','password':'correct horse battery'}") "127.0.0.1:1234".
Definition probe : Http.Request :=
  MkRequest "GET" "/healthz" (fun _ => "") (fun _ => "") "monitor" "" "127.0.0.1:1235".

Definition arrived (r : Http.Request) : InFlight := MkInFlight r (now start) ∅ (app (new_ctx r)).
Definition busy : World :=
  fold_left (fun w i => step_traffic i w) (concat (repeat [0; 1; 0]%nat 20))
    (MkWorld [arrived ada_signs_up; arrived probe] ∅ start).

Lemma busy_runs :
  rtc (traffic plain_verifies (168 * Hour) (plain_hash "dummy") true ["https://app.example"] "{}")
    (MkWorld [] ∅ start) busy.
Proof.
  eapply rtc_l; [apply (traffic_accept _ _ _ _ _ _ ada_signs_up)|].
  eapply rtc_l; [apply (traffic_accept _ _ _ _ _ _ probe)|]. apply steps_traffic_ok.
Qed.

(** The answer of request [i]. *)
Definition answer_of (w : World) (i : nat) : option (InFlight * RequestCtx) :=
  match pool w !! i with
  | Some (MkInFlight r t0 own (Ret (Returned tt, c))) => Some (MkInFlight r t0 own (Ret (Returned tt, c)), c)
  | _ => None
  end.

Lemma answer_of_Some w i f c : answer_of w i = Some (f, c) -> f ∈ pool w /\ f_prog f = Ret (Returned tt, c).
Proof.
  unfold answer_of. destruct (pool w !! i) as [[r t0 own [[[[]|msg] c']|R e k]]|] eqn:E; [|done..].
  intros [= <- <-]. split; [by eapply list_elem_of_lookup_2|done].
Qed.

Lemma answer_check w i (P : InFlight -> RequestCtx -> bool) :
  match answer_of w i with Some (f, c) => P f c | None => false end = true ->
  exists f c, answer_of w i = Some (f, c) /\ P f c = true.
Proof. destruct (answer_of w i) as [[f c]|]; [eauto|done]. Qed.

Lemma busy_answer : exists f c, answer_of busy 0 = Some (f, c) /\
  bool_decide (StatusCode (response c) = 201 /\ Method (f_request f) = "POST"
               /\ Path (f_request f) = "/api/v1/crm/public/identity/sign-up") = true.
Proof. apply (answer_check busy 0). vm_compute. reflexivity. Qed.

(** Ada has been answered 201, and the rows her answer speaks of are there. *)
Lemma answers_stay_true_witness : exists f c,
  answer_of busy 0 = Some (f, c) /\ StatusCode (response c) = 201
  /\ sign_up_says plain_verifies (168 * Hour) true (f_request f) (response c) (committed (sys busy)).
Proof.
  destruct busy_answer as (f & c & E & Hd). apply bool_decide_eq_true in Hd as (Hc & Hm & Hp).
  exists f, c. split; [exact E|]. split; [exact Hc|]. apply answer_of_Some in E as [Hf Hprog].
  destruct (answers_stay_true _ _ _ _ _ _ _ _ busy_runs f _ c Hf Hprog) as [_ Ht].
  exact (tr_sign_up _ _ _ _ _ _ _ _ Ht Hm Hp Hc).
Defined.

(** ** Two passwords *)

Definition other_password : string := json_text "{'email':'Ada@Example.com','password':'battery staple correct'}".

Lemma passwords_stay_secret_witness :
  PostBody ada_signs_up <> other_password
  /\ agree (fun a a' => a.1 = a'.1 /\ response a.2 = response a'.2 /\ uservalues a.2 = uservalues a'.2)
       (app (new_ctx ada_signs_up)) (app (new_ctx (with_body other_password ada_signs_up))).
Proof.
  split; [by apply (bool_decide_unpack _); vm_compute|].
  apply passwords_stay_secret. split; [by apply (bool_decide_unpack _); vm_compute|].
  split; [by apply (bool_decide_unpack _); vm_compute|].
  exists "Ada@Example.com", "correct horse battery", "battery staple correct".
  split; [vm_compute; reflexivity|]. split; [vm_compute; reflexivity|]. intros _. split; vm_compute; done.
Defined.

(** ** A request that follows the document *)

Lemma conforming_requests_understood_witness :
  conforming "Ada@Example.com" "correct horse battery" ada_signs_up
  /\ wp sane (app (new_ctx ada_signs_up)) (fun a _ =>
       a.1 = Returned tt /\ understood "Ada@Example.com" "correct horse battery" ada_signs_up (response a.2)) tt.
Proof.
  assert (conforming "Ada@Example.com" "correct horse battery" ada_signs_up) as HP.
  { split; [by apply (bool_decide_unpack _); vm_compute|]. eexists. split; [vm_compute; reflexivity|]. by vm_compute. }
  split; [exact HP|]. by apply conforming_requests_understood.
Defined.

(** ** A valid request *)

(** Runs the program on the system of Reference.v while its answers work. *)
Fixpoint exec_works {A} (deadline : Time) (p : Prog Port A) (s : Sys) : option (A * Sys) :=
  match p with
  | Ret a => Some (a, s)
  | Vis e k =>
    let '(o, s') := answer _ e s in if works deadline e s o then exec_works deadline (k o) s' else None
  end.

Lemma exec_works_runs {A} deadline (p : Prog Port A) s a s' :
  exec_works deadline p s = Some (a, s') -> runs (healthy plain_verifies deadline) p s a s'.
Proof.
  revert s. induction p as [b|R e k IH]; cbn; intros s; [by intros [= <- <-]|].
  pose proof (answer_meets R e s) as Hm. destruct (answer R e s) as [o s1].
  destruct (works deadline e s o) eqn:Hw; [|done]. intros Hr. exists o, s1. split; [by split|by apply IH].
Qed.

Lemma exec_works_check {A} deadline (p : Prog Port A) s :
  match exec_works deadline p s with Some _ => true | None => false end = true ->
  exists a s', runs (healthy plain_verifies deadline) p s a s'.
Proof. destruct (exec_works deadline p s) as [[a s']|] eqn:E; [|done]. apply exec_works_runs in E. eauto. Qed.

Lemma ada_valid : valid_sign_up ["https://app.example"] ada_signs_up start.
Proof.
  split; [left; split; [done|]; vm_compute; left|]. split; [by apply (bool_decide_unpack _); vm_compute|].
  eexists _, _. split; [vm_compute; reflexivity|]. split; [vm_compute; reflexivity|]. split; [vm_compute; reflexivity|].
  by intros i u Hu.
Qed.

(** Ada's sign-up runs on collaborators that work, and is answered 201. *)
Lemma valid_requests_served_witness : exists a s',
  runs (healthy plain_verifies (now start + 10 ^ 12)) (app (new_ctx ada_signs_up)) start a s'
  /\ StatusCode (response a.2) = 201.
Proof.
  destruct (exec_works_check (now start + 10 ^ 12) (app (new_ctx ada_signs_up)) start) as (a & s' & E);
    [vm_compute; reflexivity|]. exists a, s'. split; [exact E|].
  pose proof (proj1 (valid_requests_served plain_verifies (now start + 10 ^ 12) (168 * Hour) (plain_hash "dummy") true
    ["https://app.example"] "{}" ada_signs_up start) eq_refl eq_refl ada_valid) as Hserved.
  apply (proj1 (wp_runs _ _ _ _) Hserved a s' E).
Defined.
