(* ===== verification/DeployedRuns.v ===== *)
(** * A run on the adapters

    An executable backend, enough for a sign-up: transactions and inserts of the
    database, the cache, the clock, random bytes.  A user signs up while a
    monitor probes the service, one call of the backend at a time, and the
    theorems of Deployed.v and Closed.v are applied to where this leads. *)
From S2P Require Import SignUp SignIn SignOut GetMe.
From S2P Require Import Prelude Program GoText GoEncoding GoTime GoJson Errors Tenant User Session Outbox Ports PortSpec Invariant Http Middleware Handlers Router Service Adapters Reference Interference Truthful Traffic Deployed Closed Witnesses Race Runs.
From S2P Require Argon2id Valkey Postgres.
#[local] Open Scope Z_scope.

(** ** The backend *)

Section Database.
Import Postgres.

#[local] Instance collide_dec sc r r' : Decision (collide sc r r').
Proof. unfold collide. apply _. Defined.

(** Some index of the table, as a number, that satisfies [P]. *)
Definition no_row (P : row -> Prop) `{!forall r, Decision (P r)} (m : gmap UUID row) : bool :=
  forallb (fun ir => negb (bool_decide (P ir.2))) (map_to_list m).

Lemma no_row_spec P `{!forall r, Decision (P r)} m i r : no_row P m = true -> m !! i = Some r -> ~ P r.
Proof.
  unfold no_row. rewrite forallb_forall. intros Hall Hi. apply elem_of_map_to_list in Hi.
  apply list_elem_of_In, Hall in Hi. cbn in Hi. by case_bool_decide.
Qed.

Definition referenced (ts : Tables) (r : row) (ct : string * string) : bool :=
  match col r ct.1 with VUuid i => bool_decide (is_Some (rows ct.2 ts !! i)) | _ => false end.

(** An insert by the only open transaction, when every constraint holds. *)
Definition insert_answer (h : positive) (table : string) (columns : list string) (values : list value)
    (ws : list DWrite) (d : Db) : option Db :=
  let ts := apply_dwrites ws (d_tables d) in
  let r := stored_row columns values in
  match schema_of table, col r "id" with
  | Some sc, VUuid i =>
    if bool_decide (length columns = length values)
       && forallb (fun c => negb (bool_decide (col r c = VNull))) (required sc)
       && no_row (collide sc r) (rows table ts) && forallb (referenced ts r) (references sc)
       && bool_decide (delete h (d_txs d) = ∅)
    then Some (set_tx h (Some (ws ++ [DInsert table i r])) d) else None
  | _, _ => None
  end.

Lemma insert_answer_ok h table columns values ws d d' :
  insert_answer h table columns values ws d = Some d' -> exec_step h (Insert table columns values) ws d 1 d'.
Proof.
  unfold insert_answer. destruct (schema_of table) as [sc|] eqn:Esc; [|done].
  destruct (col _ "id") as [|i| | | |] eqn:Eid; try done.
  destruct (_ && _) eqn:E; [|done]. intros [= <-]. rewrite !andb_true_iff in E.
  destruct E as ((((Hlen & Hreq) & Hnew) & Href) & Hone).
  exists sc, i. apply bool_decide_eq_true in Hlen, Hone. rewrite forallb_forall in Hreq, Href.
  split; [done|]. split; [done|]. split; [done|]. split.
  { apply List.Forall_forall. intros c Hc%Hreq. by case_bool_decide. }
  split; [done|]. split; [intros (i' & r' & Hi & Hc); by eapply no_row_spec in Hc|]. split.
  { apply List.Forall_forall. intros ct Hct%Href. unfold referenced in Hct. destruct (col _ ct.1) as [|j| | | |]; try done.
    exists j. by case_bool_decide. }
  split; [|done]. intros h' ws' i' r' Hh' Hne. exfalso.
  apply (f_equal (fun m => m !! h')) in Hone. by rewrite lookup_delete_ne, Hh', lookup_empty in Hone.
Qed.

Definition pg_answer {R} (c : Pg R) (d : Db) : option (outcome R * Db) :=
  match c in Pg R return option (outcome R * Db) with
  | PoolBegin => let h := fresh (dom (d_txs d)) in Some (Returned (Ok h), set_tx h (Some []) d)
  | TxExec h (Insert table columns values) =>
    ws ← mjoin (d_txs d !! h); d' ← insert_answer h table columns values ws d; Some (Returned (Ok 1), d')
  | TxCommit h => ws ← mjoin (d_txs d !! h); Some (Returned (Ok tt), set_tables (apply_dwrites ws (d_tables d)) (end_tx h d))
  | _ => None
  end.

Lemma pg_answer_ok {R} (c : Pg R) d o d' : pg_answer c d = Some (o, d') -> pg_step R c d o d'.
Proof.
  destruct c as [|q|h [table columns values|t c' w]|h|h]; cbn; try done.
  - intros [= <- <-]. left. eexists. split; [|done]. apply not_elem_of_dom, is_fresh.
  - destruct (d_txs d !! h) as [[ws|]|]; cbn; try done.
    destruct (insert_answer _ _ _ _ _ _) as [d1|] eqn:E; [|done]. intros [= <- <-]. left. exists 1. split; [done|].
    by apply insert_answer_ok.
  - destruct (d_txs d !! h) as [[ws|]|]; cbn; try done. intros [= <- <-]. by left.
Qed.
End Database.

(** The [n]th answer of the backend. *)
Definition backend_answer (n : nat) {R} (e : Backend R) (w : Adapters.World) : option (outcome R * Adapters.World) :=
  match e in Backend R return option (outcome R * Adapters.World) with
  | BPg c => '(o, d) ← pg_answer c (w_db w); Some (o, put_db d w)
  | BRedis c =>
    match c in Valkey.Redis R return option (outcome R * Adapters.World) with
    | Valkey.RSet key value ttl => Some (Returned (Ok tt), put_keys (<[key := (value, ttl)]> (w_keys w)) w)
    | _ => None
    end
  | BRandom c =>
    match c in Argon2id.Random R return option (outcome R * Adapters.World) with
    | Argon2id.Read k =>
      let b := of_bytes (repeat 7 (Z.to_nat k)) in
      if len b =? k then Some (Returned (Ok b), w) else None
    end
  | BClock => Some (Returned (w_now w + 1), put_now (w_now w + 1) w)
  | BUuid => Some (Returned (uuid_of (N.of_nat n + 1000)), w)
  | BLog r => Some (Returned tt, put_log r w)
  | BTrace c =>
    match c in Tracer R return option (outcome R * Adapters.World) with
    | SpanStart _ _ => Some (Returned 1%positive, w)
    | SetAttributes _ _ | SpanEnd _ => Some (Returned tt, w)
    end
  end.

Lemma backend_answer_ok n {R} (e : Backend R) w o w' :
  backend_answer n e w = Some (o, w') -> backend_step R e w o w'.
Proof.
  destruct e as [R c|R c|R c| | |r|R c]; cbn.
  - destruct (pg_answer c (w_db w)) as [[o1 d]|] eqn:E; [|done]. intros [= <- <-]. apply pg_answer_ok in E. eauto.
  - destruct c; cbn; try done. intros [= <- <-]. eexists. split; [by left|done].
  - destruct c as [k]. destruct (len _ =? k) eqn:E; [|done]. intros [= <- <-]. split; [|done]. left. eexists. split; [done|lia].
  - intros [= <- <-]. eexists. split; [|done]. lia.
  - intros [= <- <-]. eauto.
  - by intros [= <- <-].
  - destruct c; intros [= <- <-]; eauto.
Qed.

(** ** The run *)

(** The [n]th step: the next call of request [i]. *)
Definition live_step (n i : nat) (d : Deployment) : Deployment :=
  match requests d !! i with
  | Some (MkRunning r t0 own (Vis e k)) =>
    match backend_answer n e (world d) with
    | Some (o, w') =>
      if decide (acquired e o ## acquiredTxs d) then
        MkDeployment (<[i := MkRunning r t0 (own ∪ acquired e o) (k o)]> (requests d)) (acquiredTxs d ∪ acquired e o) w'
      else d
    | None => d
    end
  | _ => d
  end.

Fixpoint live_steps (n : nat) (l : list nat) (d : Deployment) : Deployment :=
  match l with [] => d | i :: l => live_steps (S n) l (live_step n i d) end.

#[local] Notation params := Argon2id.Default.
#[local] Notation step := (live params (168 * Hour) (plain_hash "dummy") true ["https://app.example"] "{}").

Lemma live_step_ok n i d : rtc step d (live_step n i d).
Proof.
  destruct d as [pl us w]. unfold live_step. cbn [requests acquiredTxs world].
  destruct (pl !! i) as [[r t0 own [a|R e k]]|] eqn:E; [done| |done].
  destruct (backend_answer n e w) as [[o w']|] eqn:Ea; [|done]. case_decide; [|done].
  apply rtc_once. eapply live_call; [exact E| |done]. exists o. split; [by eapply backend_answer_ok|done].
Qed.

Lemma live_steps_ok n l d : rtc step d (live_steps n l d).
Proof.
  revert n d. induction l as [|i l IH]; intros n d; [done|]. cbn. etransitivity; [apply live_step_ok|apply IH].
Qed.

Definition deployed_request (r : Http.Request) : Running :=
  MkRunning r 0 ∅ (interp (adapters params) (app (new_ctx r))).
Definition deployed_run : Deployment :=
  live_steps 0 (concat (repeat [0; 1; 0]%nat 25))
    (MkDeployment [deployed_request ada_signs_up; deployed_request probe] ∅ (fresh_world 0)).

Lemma deployed_runs : rtc step (MkDeployment [] ∅ (fresh_world 0)) deployed_run.
Proof.
  eapply rtc_l; [apply (live_accept _ _ _ _ _ _ ada_signs_up)|].
  eapply rtc_l; [apply (live_accept _ _ _ _ _ _ probe)|]. apply live_steps_ok.
Qed.

(** The answer of request [i], when it has one with the status [code]. *)
Definition answered_live (i : nat) (code : Z) (d : Deployment) : bool :=
  match requests d !! i with
  | Some (MkRunning _ _ _ (Ret (Returned tt, c))) => StatusCode (response c) =? code
  | _ => false
  end.

Lemma deployed_run_answers : answered_live 0 201 deployed_run && answered_live 1 200 deployed_run = true.
Proof. vm_compute. reflexivity. Qed.

Lemma answered_live_inv i code d :
  answered_live i code d = true ->
  exists f c, f ∈ requests d /\ r_prog f = Ret (Returned tt, c) /\ StatusCode (response c) = code
    /\ r_request <$> requests d !! i = Some (r_request f).
Proof.
  unfold answered_live. destruct (requests d !! i) as [f|] eqn:E; [|done].
  destruct f as [r t0 own [[[[]|msg] c]|R e k]]; try done. intros Hc.
  exists (MkRunning r t0 own (Ret (Returned tt, c))), c. split; [by eapply list_elem_of_lookup_2|].
  split; [done|]. split; [lia|done].
Qed.

(** Ada is answered 201, and what that says is in the SQL tables: her row, her
    session, both events. *)
Lemma deployed_answers_stay_true_witness : exists st f c,
  Postgres.d_tables (w_db (world deployed_run)) = Postgres.encode_store st
  /\ f ∈ requests deployed_run /\ r_prog f = Ret (Returned tt, c) /\ StatusCode (response c) = 201
  /\ sign_up_says Argon2id.argon2_verifies (168 * Hour) true ada_signs_up (response c) st.
Proof.
  destruct (deployed_answers_stay_true params Default_ok (168 * Hour) (plain_hash "dummy") true
    ["https://app.example"] "{}" 0 deployed_run deployed_runs) as (st & Hst & Htrue & _).
  pose proof (proj1 (andb_prop _ _ deployed_run_answers)) as Ha.
  destruct (answered_live_inv 0 201 deployed_run Ha) as (f & c & Hf & Hp & Hc & Hr).
  assert (r_request <$> requests deployed_run !! 0%nat = Some ada_signs_up) as Hr' by (vm_compute; reflexivity).
  exists st, f, c. split; [exact Hst|]. split; [exact Hf|]. split; [exact Hp|]. split; [exact Hc|].
  destruct (Htrue f _ c Hf Hp) as [_ Ht]. rewrite Hr' in Hr. injection Hr as Hr. rewrite <- Hr in Ht.
  exact (tr_sign_up _ _ _ _ _ _ _ _ Ht eq_refl eq_refl Hc).
Defined.

(** Ada's sign-up stops with its transaction open. *)
Definition deployed_halfway : Deployment :=
  live_steps 0 (repeat 0%nat 14)
    (MkDeployment [deployed_request ada_signs_up; deployed_request probe] ∅ (fresh_world 0)).

Lemma deployed_halfway_runs : rtc step (MkDeployment [] ∅ (fresh_world 0)) deployed_halfway.
Proof.
  eapply rtc_l; [apply (live_accept _ _ _ _ _ _ ada_signs_up)|].
  eapply rtc_l; [apply (live_accept _ _ _ _ _ _ probe)|]. apply live_steps_ok.
Qed.

Lemma all_answered d :
  forallb (fun f => match r_prog f with Ret _ => true | Vis _ _ => false end) (requests d) = true ->
  forall f, f ∈ requests d -> exists a, r_prog f = Ret a.
Proof.
  rewrite forallb_forall. intros Hall f Hf%list_elem_of_In%Hall. destruct (r_prog f) as [a|R e k]; [by exists a|done].
Qed.

(** A transaction is open halfway, and it is of the request at work; none is
    open when both requests have been answered. *)
Lemma transactions_closed_witness :
  (exists h x f, Postgres.d_txs (w_db (world deployed_halfway)) !! h = Some x
     /\ f ∈ requests deployed_halfway /\ h ∈ r_own f /\ forall a, r_prog f <> Ret a)
  /\ Postgres.d_txs (w_db (world deployed_run)) = ∅.
Proof.
  split.
  - assert (bool_decide (Postgres.d_txs (w_db (world deployed_halfway)) = ∅) = false) as Hne by (vm_compute; reflexivity).
    apply bool_decide_eq_false, map_choose in Hne as (h & x & Hx).
    destruct (proj1 (transactions_closed params Default_ok (168 * Hour) (plain_hash "dummy") true
      ["https://app.example"] "{}" 0 deployed_halfway deployed_halfway_runs) h x Hx) as (f & Hf & Ho & Hr).
    exists h, x, f. split; [exact Hx|]. split; [exact Hf|]. split; [exact Ho|exact Hr].
  - apply (proj2 (transactions_closed params Default_ok (168 * Hour) (plain_hash "dummy") true
      ["https://app.example"] "{}" 0 deployed_run deployed_runs)).
    apply (all_answered deployed_run). vm_compute. reflexivity.
Defined.
